(* ===== verification/_CoqProject ===== *)
-Q . S2P
Prelude.v
Text.v
Prog.v
Float64.v
Wire.v
Protocol.v
RefCodec.v
Registry.v
Server.v
RouterSpec.v
RouterSafety.v
RouterTypes.v
RouterRouting.v
RouterOrder.v
RouterScenarios.v
ClientMessage.v
Config.v
RouterEntry.v
Bootstrap.v
BootstrapSpec.v
BootstrapTime.v
CallerTransport.v
CallerSafety.v
CallerWire.v
CallerLiveness.v
CallerSpec.v
Service.v
ServiceSpec.v
ClientRef.v
ServicePanic.v
ServiceSafety.v
EndToEnd.v
CallerLate.v
System.v
SystemOnce.v
SystemQueries.v
RouterAnswers.v
Schema.v
SchemaRef.v
ClientScenarios.v
SystemScenarios.v
Metrics.v
Logging.v
CallArgs.v
Launch.v
Connection.v
ConnectionSpec.v
ConnectionScenarios.v
MathWorker.v
MathSpec.v
RemoteMath.v
ExamplePrograms.v
TestKit.v
TestsProtocol.v
TestsMetrics.v
TestsLogging.v
TestsCallArgs.v
LockFile.v
TestsBootstrap.v
TestsService.v
