(* ===== verification/Prelude.v ===== *)
(** * Multifrost: a verification development

    Multifrost is a message router and a client library for remote calls
    between processes on one machine.  A router process ([router/src]) accepts
    WebSocket connections, registers each as a caller or a service under a peer
    id, and forwards call, response, error and heartbeat frames between them.
    The client crate ([rust/src]) contains the caller transport (many
    concurrent calls over one connection), the service runtime (one loop that
    answers calls with the user's worker), the bootstrap that starts a router
    under a lock file when none is reachable, and the connections and handles
    that applications use, which may own the process of a service; next to
    metrics, logging and argument conversion.  [rust/examples] has two workers
    and three client programs.

    ** How the code is modelled

    Pure functions are functions; [Result] is [result], [?] is [let?].  An
    async function is a program of the free monad of [Prog]: one node for each
    operation on shared state, which is where the task may be suspended.
    A program is run alone ([run], [brun]) for functional properties, one
    operation at a time ([step1], [bstep]) in a transition system for
    properties of concurrent executions, or with every answer of its
    environment at once ([on_all_paths] in [BootstrapTime]) for bounds that no
    environment can break.  A blocked program has no result ([None] of
    [brun]); a panic is [None] of the function that panics, and [bstop] gives
    the state it leaves behind.  Stream input is a list of items, universally
    quantified, so the recursion of the loops is structural; the list says what
    a stream yields, not when.  For safety a task may read as soon as it is
    scheduled.  In the transition system of a caller, where liveness is stated,
    items arrive by actions of the environment ([Arrive] of [CallerSafety]),
    possibly never, and the inbound task waits for them; an abort of that task
    is asked for by [disconnect] and carried out later by the runtime, at an
    await ([CancelInbound]).  Only the polling loops of the bootstrap take
    fuel: [connect_or_bootstrap_terminates] shows that 103 rounds are enough
    for the lock and one more than the poll intervals in the time limit for the
    waits, 301 for the configuration of a connection, when the lock path is
    free or a file that can be removed; on a stale lock that cannot be removed
    the code does not terminate ([unremovable_lock_loops_forever]).  Any
    operation of the bootstrap on files, [kill] and the spawning of the router
    may fail, as the [Faults] of the machine say.
    Machine integers are [Z] with their width written out ([wrap], range
    checks); [f64] is the executable binary64 of [Float64].  Third-party code
    is a parameter: the serializers ([RmpSerde], [LockJson], [JsonText],
    [SerdeJson]) with their laws as classes, the environment, the file system
    and the process table as records.

    ** Files

    - [Prelude]: results, automation, reachability, bytes and list lemmas.
    - [Text]: white space, words and decimal numbers of UTF-8 strings.
    - [Prog]: programs over effects, running, blocking, stopping, rely and
      guarantee.
    - [Float64]: binary64 and time.
    - [Wire]: message types and the serializer interface.
    - [Protocol], [RefCodec]: frames and bodies of [router/src/protocol.rs]
      ([frame_roundtrip], [decode_frame_accepts_exactly]); a concrete
      serializer for the instances.
    - [Registry], [Server]: [router/src/registry.rs] and
      [router/src/server.rs], function by function.
    - [RouterSpec]: the abstract routing and registration specification and
      the refinement theorems of the handlers.
    - [RouterSafety]: the router with interleaved connections ([serve]);
      liveness of registry entries, injectivity, genuineness of forwarded
      frames.
    - [RouterTypes]: every frame ever written is well typed.
    - [RouterRouting]: where each frame ever written goes; [RouterOrder]: in
      which order, and at most once.
    - [RouterScenarios]: concrete runs, among them two races.
    - [ClientMessage]: [rust/src/message.rs] and [error.rs].
    - [Config]: ports and paths of both crates.
    - [RouterEntry]: [run] and [main] of the router, down to the accept loop,
      with the outcome of the whole process.
    - [Bootstrap], [BootstrapSpec], [BootstrapTime]:
      [rust/src/router_bootstrap.rs] on a model of files, clocks and
      processes with failures; respect of a held lock, outcome, interleavings
      in which the lock fails to exclude ([stale_lock_is_acquired_twice]), and
      termination.
    - [CallerTransport], [CallerSafety], [CallerSpec]:
      [rust/src/caller_transport.rs]; every completed request was answered
      under its own id, for any interleaving; what each function does alone.
    - [CallerWire]: what a caller writes, each frame under an id of its own.
    - [CallerLiveness]: infinite runs of the transport; under weak fairness a
      call whose sender is filed while the transport is open returns once its
      reply, or the end of the stream, arrives ([filed_calls_return]).
    - [CallerLate]: a call that is filed after the inbound task has ended waits
      in every continuation ([late_call_waits_forever]).
    - [Service], [ServiceSpec], [ServicePanic]: [rust/src/child.rs] and the
      environment of [process.rs]; one reply for each call, identity of a
      spawned service, and what a panic of the worker does.
    - [ClientRef], [EndToEnd], [RouterAnswers], [ClientScenarios]: a concrete
      client serializer, the composition caller - router - service (a remote
      call and a registration from end to end), the requests the router
      answers itself (queries, calls it cannot deliver), and concrete runs.
    - [ServiceSafety]: a service as a process, observed at any operation: its
      worker has run on a prefix of its calls.
    - [System], [SystemOnce], [SystemQueries], [SystemScenarios]: one transition system for the
      router with all its callers and services.  A call that completes was
      computed by the service it was addressed to
      ([completed_calls_were_computed]), no call is run twice
      ([calls_run_at_most_once]), a caller's calls are served in order
      ([calls_are_served_in_order]), and a query says what the registry held
      ([queries_tell_the_truth]); with a concrete run.
    - [Schema], [SchemaRef]: the message declarations of both crates as their
      serializers see them; where they agree, and that this makes the crates
      interoperate, which [EndToEnd] assumes; concrete derived serializers.
    - [Metrics], [Logging], [CallArgs]: [metrics.rs], [logging.rs] and
      [call_macro.rs].
    - [Launch]: [process.rs] on a model of the system's processes.
    - [Connection], [ConnectionSpec], [ConnectionScenarios]: [parent.rs] and
      the call macros, over the bootstrap, the transport and the process slot;
      connecting from the options to the registered transport, and the owned
      process under concurrent stops.
    - [MathWorker], [MathSpec], [RemoteMath]: the example workers with machine
      arithmetic; what they compute, where they overflow, and their functions
      called through the router.
    - [ExamplePrograms]: the example clients against the public interface.
    - [LockFile]: the derived JSON form of the lock file, below which only
      JSON text is a parameter; what is written is read back, and a lock that
      was taken is respected by who finds it.
    - [TestKit], [TestsProtocol], [TestsMetrics], [TestsLogging],
      [TestsCallArgs], [TestsBootstrap], [TestsService]: the unit tests of both
      crates, translated one by one and passed by the model.

    ** The whole system

    In [System] the components keep their own states and are interleaved at
    every operation.  What a connection receives is a list fixed from the
    start; the condition [network] on a state of a run says that those lists
    are prefixes of what the other end has written so far, which is what an
    ordered and reliable transport gives.  It does not ask that a message is
    read only after it was written, so it admits every run of the real system
    and more.  [deployment] says that message ids are not drawn twice.  Both
    are checked by computation on the run of [SystemScenarios].

    ** What is not modelled

    TCP and the WebSocket handshake (their outcomes are arguments), task
    cancellation other than the abort of the inbound task, failures of file
    operations that come and go during one run, mutex poisoning, a failing
    standard output and upper case outside ASCII in the pretty log handler,
    the bytes of MessagePack and the text of JSON, the reading half of derived
    serializers other than the lock file's (only assumed to invert the writing
    half), [lib.rs] of the client crate (re-exports), the Windows branches, the
    tests that run the programs as processes (the integration tests and the
    last one of [child.rs]), and the bindings in other languages.

    ** Further work

    Liveness of calls in [System], where it also depends on the router and the
    service: [filed_calls_return] is about the caller, and assumes that its reply
    or the end of its stream arrives. *)

From stdpp Require Export base tactics strings pretty gmap list option sorting.
From Stdlib Require Export ZArith Lia.
From Stdlib Require Import Strings.Byte.


(** * Results

    Rust's [Result<T, E>]. *)

Inductive result (A E : Type) : Type :=
| Ok (a : A)
| Err (e : E).
Arguments Ok {A E} _.
Arguments Err {A E} _.

#[export] Instance result_eq_dec {A E} `{EqDecision A, EqDecision E} :
  EqDecision (result A E).
Proof. solve_decision. Defined.

Section result_ops.
Context {A B E F : Type}.

(** [Result::map_err]. *)
Definition map_err (f : E -> F) (r : result A E) : result A F :=
  match r with Ok a => Ok a | Err e => Err (f e) end.

(** The [?] operator followed by the rest of a function that returns a
    [Result]. *)
Definition and_then (r : result A E) (k : A -> result B E) : result B E :=
  match r with Ok a => k a | Err e => Err e end.

(** [Option::ok_or_else]. *)
Definition ok_or (o : option A) (e : E) : result A E :=
  match o with Some a => Ok a | None => Err e end.

(** [Result::is_ok]. *)
Definition is_ok (r : result A E) : bool :=
  match r with Ok _ => true | Err _ => false end.
End result_ops.

Lemma map_err_ok {A E F} (f : E -> F) (r : result A E) a :
  map_err f r = Ok a <-> r = Ok a.
Proof. destruct r; simpl; naive_solver. Qed.

Lemma and_then_ok {A B E} (r : result A E) (k : A -> result B E) b :
  and_then r k = Ok b <-> exists a, r = Ok a /\ k a = Ok b.
Proof. destruct r; simpl; naive_solver. Qed.

Declare Scope rust_scope.
Delimit Scope rust_scope with rust.

(** [let x = r?; k] in a pure function. *)
Notation "'let?' x ':=' r 'in' k" := (and_then r (fun x => k))
  (at level 10, x pattern, r at level 100, k at level 200) : rust_scope.

(** * Proof automation

    [mf] collects the facts that the components register; [crush] is the
    closing tactic of the routine cases. *)

Create HintDb mf.

(** Split on the scrutinee of some [match] of the goal or of a hypothesis. *)
Ltac split_match :=
  match goal with
  | |- context [match ?x with _ => _ end] => destruct x eqn:?
  | H : context [match ?x with _ => _ end] |- _ => destruct x eqn:?
  end.

Ltac crush :=
  repeat (intros; simplify_eq/=; try done; try split_match);
  eauto with mf.

(** * Reachability *)

Section star.
Context {S : Type} (R : S -> S -> Prop).

Inductive star : S -> S -> Prop :=
| star_refl s : star s s
| star_snoc s t u : star s t -> R t u -> star s u.

Lemma star_one s t : R s t -> star s t.
Proof. eauto using star. Qed.

Lemma star_trans s t u : star s t -> star t u -> star s u.
Proof. intros H1 H2. induction H2; eauto using star. Qed.

(** Rule induction for an invariant. *)
Lemma star_invariant (I : S -> Prop) s t :
  (forall x y, I x -> R x y -> I y) -> I s -> star s t -> I t.
Proof. intros Hstep Hs Hst. induction Hst; eauto. Qed.
End star.
Arguments star_refl {S R} _.
Arguments star_snoc {S R} _ _ _ _ _.

(** * Lists of entries with an owner *)

Lemma sublist_omap {A B} (f : A -> option B) l k :
  l `sublist_of` k -> omap f l `sublist_of` omap f k.
Proof.
  induction 1 as [|x l k H IH|x l k H IH]; csimpl; [done| |]; destruct (f x); try done;
    by constructor.
Qed.

Lemma sublist_filter_mono {A} (P : A -> Prop) `{!forall x, Decision (P x)} l k :
  l `sublist_of` k -> filter P l `sublist_of` filter P k.
Proof.
  induction 1 as [|x l k _ IH|x l k _ IH]; rewrite ?filter_cons; [done| |]; case_decide;
    try done; by constructor.
Qed.

Lemma prefix_sublist {A} (l k : list A) : l `prefix_of` k -> l `sublist_of` k.
Proof. intros [r ->]. by apply sublist_inserts_r. Qed.

(** The entries of one owner. *)
Definition owned {A} (a : nat) (l : list (nat * A)) : list A :=
  omap (fun '(a', x) => if decide (a' = a) then Some x else None) l.

Lemma elem_of_owned {A} a (x : A) l : x ∈ owned a l <-> (a, x) ∈ l.
Proof.
  unfold owned. rewrite list_elem_of_omap. split.
  - intros ([a' y] & Hin & E). case_decide; by simplify_eq.
  - intros Hin. exists (a, x). by rewrite decide_True.
Qed.

Lemma owned_sublist {A} a (l : list (nat * A)) : owned a l `sublist_of` l.*2.
Proof.
  unfold owned. induction l as [|[a' x] l IH]; csimpl; [done|].
  case_decide; by constructor.
Qed.

(** Values are distinct if those of each owner are and no two owners share
    one. *)
Lemma owned_NoDup {A} (l : list (nat * A)) :
  (forall a, NoDup (owned a l)) -> (forall a a' x, (a, x) ∈ l -> (a', x) ∈ l -> a = a') ->
  NoDup (l.*2).
Proof.
  induction l as [|[a x] l IH]; intros Hnd Hown; [apply NoDup_nil_2|].
  csimpl. apply NoDup_cons. split.
  - intros ([a' y] & -> & Hin)%list_elem_of_fmap. simpl in *.
    assert (a' = a) as -> by (eapply Hown; [by right|by left]).
    specialize (Hnd a). unfold owned in Hnd. csimpl in Hnd. rewrite decide_True in Hnd by done.
    apply NoDup_cons in Hnd as [Hnot _]. by apply Hnot, elem_of_owned.
  - apply IH.
    + intros a'. specialize (Hnd a'). unfold owned in *. csimpl in Hnd.
      case_decide; [|done]. by apply NoDup_cons in Hnd as [_ ?].
    + intros a1 a2 y H1 H2. eapply Hown; by right.
Qed.

Lemma NoDup_owner {A} (l : list (nat * A)) a a' x :
  NoDup (l.*2) -> (a, x) ∈ l -> (a', x) ∈ l -> a = a'.
Proof.
  intros Hnd [i Hi]%list_elem_of_lookup [j Hj]%list_elem_of_lookup.
  assert (i = j) as ->; [|congruence].
  apply (NoDup_lookup (l.*2) i j x); [done| |]; by rewrite list_lookup_fmap, ?Hi, ?Hj.
Qed.

(** * Bytes and big-endian [u32] *)

Abbreviation byte := Byte.byte.
Abbreviation bytes := (list Byte.byte).

#[export] Instance byte_eq_decision : EqDecision byte := Byte.byte_eq_dec.

Local Open Scope Z_scope.

Definition byte_to_Z (b : byte) : Z := Z.of_N (Byte.to_N b).

(** [z as u8]. *)
Definition byte_of_Z (z : Z) : byte :=
  match Byte.of_N (Z.to_N (z mod 256)) with
  | Some b => b
  | None => Byte.x00
  end.

Lemma byte_to_Z_range b : 0 <= byte_to_Z b < 256.
Proof. unfold byte_to_Z. pose proof (Byte.to_N_bounded b). lia. Qed.

Lemma byte_to_of_Z z : byte_to_Z (byte_of_Z z) = z mod 256.
Proof.
  unfold byte_to_Z, byte_of_Z.
  assert (Hr : 0 <= z mod 256 < 256) by (apply Z.mod_pos_bound; lia).
  destruct (Byte.of_N (Z.to_N (z mod 256))) as [b|] eqn:E.
  - apply Byte.to_of_N in E. rewrite E. lia.
  - apply Byte.of_N_None_iff in E. lia.
Qed.

Lemma byte_of_to_Z b : byte_of_Z (byte_to_Z b) = b.
Proof.
  unfold byte_of_Z. pose proof (byte_to_Z_range b) as Hb.
  rewrite Z.mod_small by lia. unfold byte_to_Z.
  by rewrite N2Z.id, Byte.of_to_N.
Qed.

(** [n as u32], [n as u64] ... : truncation to [w] bits. *)
Definition wrap (w : Z) (z : Z) : Z := z mod 2 ^ w.

Lemma wrap_small w z : 0 <= z < 2 ^ w -> wrap w z = z.
Proof. apply Z.mod_small. Qed.

(** [u32::to_be_bytes]. *)
Definition u32_to_be_bytes (n : Z) : bytes :=
  [byte_of_Z (Z.shiftr n 24); byte_of_Z (Z.shiftr n 16);
   byte_of_Z (Z.shiftr n 8); byte_of_Z n].

(** [u32::from_be_bytes] of the first four bytes. *)
Definition u32_from_be_bytes (b : bytes) : Z :=
  foldl (fun acc x => acc * 256 + byte_to_Z x) 0 b.

Lemma length_u32_to_be_bytes n : length (u32_to_be_bytes n) = 4%nat.
Proof. done. Qed.

Lemma u32_be_roundtrip n :
  0 <= n < 2 ^ 32 -> u32_from_be_bytes (u32_to_be_bytes n) = n.
Proof.
  intros Hn. unfold u32_from_be_bytes, u32_to_be_bytes; simpl.
  rewrite !byte_to_of_Z, !Z.shiftr_div_pow2 by lia.
  change (2 ^ 24) with 16777216. change (2 ^ 16) with 65536.
  change (2 ^ 8) with 256. change (2 ^ 32) with 4294967296 in Hn.
  pose proof (Z.div_mod n 256). pose proof (Z.div_mod (n / 256) 256).
  pose proof (Z.div_mod (n / 65536) 256).
  rewrite Z.div_div in * by lia. simpl in *.
  change (256 * 256) with 65536 in *. change (65536 * 256) with 16777216 in *.
  rewrite (Z.mod_small (n / 16777216)) by
    (split; [apply Z.div_pos; lia | apply Z.div_lt_upper_bound; lia]).
  lia.
Qed.

(** A length-prefixed concatenation is cut where it was glued. *)
Lemma length_prefix_cut (env body : bytes) :
  Z.of_nat (length env) < 2 ^ 32 ->
  let b := (u32_to_be_bytes (wrap 32 (Z.of_nat (length env))) ++ env ++ body)%list in
  (Z.of_nat (length b) <? 4) = false /\
  u32_from_be_bytes (take 4 b) = Z.of_nat (length env) /\
  (Z.of_nat (length b) <? 4 + Z.of_nat (length env)) = false /\
  take (length env) (drop 4 b) = env /\ drop (4 + length env) b = body.
Proof.
  intros Hlen b. unfold b. clear b. rewrite wrap_small by lia.
  rewrite !length_app, length_u32_to_be_bytes.
  split; [apply Z.ltb_ge; lia|].
  split; [rewrite take_app_length' by done; apply u32_be_roundtrip; lia|].
  split; [apply Z.ltb_ge; lia|].
  rewrite <- drop_drop, (drop_app_length' _ _ 4) by done.
  by rewrite take_app_length, drop_app_length.
Qed.

Lemma u32_from_be_bytes_range b0 b1 b2 b3 :
  0 <= u32_from_be_bytes [b0; b1; b2; b3] < 2 ^ 32.
Proof.
  unfold u32_from_be_bytes; simpl.
  pose proof (byte_to_Z_range b0). pose proof (byte_to_Z_range b1).
  pose proof (byte_to_Z_range b2). pose proof (byte_to_Z_range b3). lia.
Qed.

(** Strings as the bytes of their UTF-8 encoding ([str::as_bytes]). *)
Fixpoint as_bytes (s : string) : bytes :=
  match s with
  | EmptyString => []
  | String a s => Ascii.byte_of_ascii a :: as_bytes s
  end.

Fixpoint from_bytes (b : bytes) : string :=
  match b with
  | [] => EmptyString
  | x :: b => String (Ascii.ascii_of_byte x) (from_bytes b)
  end.

Lemma from_as_bytes s : from_bytes (as_bytes s) = s.
Proof.
  induction s as [|a s IH]; simpl; [done|].
  by rewrite IH, Ascii.ascii_of_byte_of_ascii.
Qed.

(** * Lists *)

(** The last [n] elements of a list. *)
Definition lastn {A} (n : nat) (l : list A) : list A := drop (length l - n) l.

Lemma length_lastn {A} n (l : list A) : length (lastn n l) = Nat.min n (length l).
Proof. unfold lastn. rewrite length_drop. lia. Qed.

Lemma lastn_all {A} n (l : list A) : (length l <= n)%nat -> lastn n l = l.
Proof. intros. unfold lastn. by replace (length l - n)%nat with 0%nat by lia. Qed.

Lemma lastn_snoc {A} n (l : list A) x :
  lastn n (lastn n l ++ [x]) = lastn n (l ++ [x]).
Proof.
  unfold lastn. rewrite !length_app, length_drop; simpl.
  destruct (decide (length l <= n)%nat).
  - replace (length l - n)%nat with 0%nat by lia. rewrite drop_0.
    f_equal. lia.
  - destruct n as [|n].
    + rewrite !drop_ge; [done| |]; rewrite ?length_app, ?length_drop; simpl; lia.
    + rewrite !drop_app_le by (rewrite ?length_drop; lia).
      rewrite drop_drop. do 2 f_equal. lia.
Qed.
