(* ===== verification/Text.v ===== *)
(** Text: white space and unsigned integers in strings, as the standard
    library of Rust reads and prints them.

    A string is the sequence of bytes of its UTF-8 encoding. *)

From S2P Require Import Prelude.
From Stdlib Require Import Ascii Strings.Byte.

Local Open Scope string_scope.
Local Open Scope Z_scope.

(** * White space ([char::is_whitespace]) *)

(** The number of bytes of the white-space character at the front, 0 if there
    is none. *)
Definition ws_len (b : bytes) : nat :=
  match b with
  | (x09 | x0a | x0b | x0c | x0d | x20) :: _ => 1
  | xc2 :: (x85 | xa0) :: _ => 2
  | xe1 :: x9a :: x80 :: _ => 3
  | xe2 :: x80 :: (x80 | x81 | x82 | x83 | x84 | x85 | x86 | x87 | x88 | x89 | x8a
                   | xa8 | xa9 | xaf) :: _ => 3
  | xe2 :: x81 :: x9f :: _ => 3
  | xe3 :: x80 :: x80 :: _ => 3
  | _ => 0
  end.

(** [str::trim_start]; [skip] is what is left of the character being dropped. *)
Fixpoint trim_start_from (skip : nat) (b : bytes) : bytes :=
  match b with
  | [] => []
  | _ :: b' =>
      match skip with
      | S k => trim_start_from k b'
      | O => match ws_len b with S k => trim_start_from k b' | O => b end
      end
  end.

Definition trim_start (b : bytes) : bytes := trim_start_from 0 b.

(** [s.trim().is_empty()]. *)
Definition blank (b : bytes) : bool := match trim_start b with [] => true | _ => false end.

(** [str::trim_end]: the text up to the first point after which it is blank. *)
Fixpoint trim_end (b : bytes) : bytes :=
  match b with
  | [] => []
  | x :: b' => if blank b then [] else x :: trim_end b'
  end.

Definition trim_bytes (b : bytes) : bytes := trim_end (trim_start b).

(** [str::trim]. *)
Definition trim (s : string) : string := from_bytes (trim_bytes (as_bytes s)).

(** [str::split_whitespace().count()]. *)
Fixpoint count_words_from (skip : nat) (in_word : bool) (b : bytes) : nat :=
  match b with
  | [] => 0
  | _ :: b' =>
      match skip with
      | S k => count_words_from k false b'
      | O =>
          match ws_len b with
          | S k => count_words_from k false b'
          | O => if in_word then count_words_from 0 true b' else S (count_words_from 0 true b')
          end
      end
  end.

Definition count_words (b : bytes) : nat := count_words_from 0 false b.

Lemma trim_start_from_cases k b :
  trim_start_from k b = [] \/ ws_len (trim_start_from k b) = 0%nat.
Proof.
  revert k. induction b as [|x b IH]; intros [|k]; cbn [trim_start_from]; auto.
  destruct (ws_len (x :: b)) eqn:E; auto.
Qed.

(** Trimming gives the empty text exactly on blank text. *)
Lemma trim_bytes_nil b : trim_bytes b = [] <-> blank b = true.
Proof.
  unfold trim_bytes. destruct (trim_start_from_cases 0 b) as [E|E]; unfold blank.
  - unfold trim_start. by rewrite E.
  - unfold trim_start in *. destruct (trim_start_from 0 b) as [|x l]; [done|].
    cbn [trim_end]. unfold blank, trim_start. cbn [trim_start_from]. by rewrite E.
Qed.

Lemma trim_empty s : trim s = "" <-> blank (as_bytes s) = true.
Proof.
  rewrite <- trim_bytes_nil. unfold trim. destruct (trim_bytes (as_bytes s)); simpl; naive_solver.
Qed.

(** * Unsigned integers

    [str::parse::<uN>] for the type whose largest value is [max]. *)

Definition digit_value (a : Ascii.ascii) : option Z :=
  let z := Z.of_nat (Ascii.nat_of_ascii a) in
  if (48 <=? z) && (z <=? 57) then Some (z - 48) else None.

Section parse.
Context (max : Z).

(** The digit loop, with the checks of [checked_mul] and [checked_add]. *)
Fixpoint parse_digits (acc : Z) (s : string) : option Z :=
  match s with
  | EmptyString => Some acc
  | String a s =>
      match digit_value a with
      | None => None
      | Some d =>
          let acc := acc * 10 + d in
          if acc <=? max then parse_digits acc s else None
      end
  end.

(** An optional [+], then at least one digit. *)
Definition parse_uint (s : string) : option Z :=
  match s with
  | EmptyString => None
  | String "+"%char EmptyString => None
  | String "+"%char s => parse_digits 0 s
  | s => parse_digits 0 s
  end.

Lemma parse_digits_range acc s n :
  0 <= acc <= max -> parse_digits acc s = Some n -> 0 <= n <= max.
Proof.
  revert acc. induction s as [|a s IH]; simpl; intros acc Ha H; [by simplify_eq|].
  unfold digit_value in H. repeat case_match; simplify_eq/=.
  eapply IH; [|done]. lia.
Qed.

Lemma parse_uint_range s n : 0 <= max -> parse_uint s = Some n -> 0 <= n <= max.
Proof.
  unfold parse_uint. intros Hm H. repeat case_match; simplify_eq;
    (eapply parse_digits_range; [|done]; lia).
Qed.

Lemma digit_value_pretty n :
  (n < 10)%N -> digit_value (pretty_N_char n) = Some (Z.of_N n).
Proof.
  intros Hn. assert (Hk : (N.to_nat n < 10)%nat) by lia.
  rewrite <- (N2Nat.id n). revert Hk. generalize (N.to_nat n) as k. clear Hn. intros k Hk.
  do 10 (destruct k as [|k]; [reflexivity|]). lia.
Qed.

Lemma parse_digits_pretty_go x s :
  Z.of_N x <= max -> parse_digits 0 (pretty_N_go x s) = parse_digits (Z.of_N x) s.
Proof.
  revert s. induction (N.lt_wf_0 x) as [x _ IH]; intros s Hx.
  destruct (decide (0 < x)%N) as [Hp|Hp].
  - rewrite pretty_N_go_step by done.
    assert (x `div` 10 < x)%N by (apply N.div_lt; lia).
    rewrite IH by lia. simpl.
    rewrite digit_value_pretty by (apply N.mod_lt; lia).
    replace (Z.of_N (x `div` 10) * 10 + Z.of_N (x `mod` 10)) with (Z.of_N x)
      by (pose proof (N.div_mod x 10); lia).
    by rewrite (proj2 (Z.leb_le _ _) Hx).
  - by replace x with 0%N by lia.
Qed.

Lemma parse_uint_digits s n : s <> "" -> parse_digits 0 s = Some n -> parse_uint s = Some n.
Proof.
  intros Hs H. unfold parse_uint. repeat case_match; simplify_eq/=; done.
Qed.

(** Parsing the printed number. *)
Lemma parse_uint_pretty n : 0 <= n <= max -> parse_uint (pretty n) = Some n.
Proof.
  intros Hn. destruct n as [|p|p]; [|unfold pretty, pretty_Z|lia].
  { apply parse_uint_digits; [done|]. change (parse_digits 0 (pretty 0)) with (if 0 <=? max then Some 0 else None).
    by rewrite (proj2 (Z.leb_le _ _) (proj2 Hn)). }
  change (pretty p) with (pretty_N_go (Npos p) "").
  assert (Hd : parse_digits 0 (pretty_N_go (Npos p) "") = Some (Zpos p))
    by (rewrite parse_digits_pretty_go by (simpl; lia); done).
  apply parse_uint_digits; [|done]. intros E. rewrite E in Hd. done.
Qed.
End parse.
