(* ===== verification/Prog.v ===== *)
(** Programs over an effect signature.

    An async Rust function is a sequence of operations on shared state with a
    suspension point before each of them.  It is modelled as a finite tree: a
    node is one atomic operation ([Do]) with a continuation for its answer, a
    leaf is a returned value ([Ret]).  The trees are run to completion by
    [run] or one operation at a time by [step1], which is what the
    interleaving semantics of a component builds on. *)

From S2P Require Import Prelude.

Section prog.
Context {E : Set -> Type}.

Inductive prog (A : Type) : Type :=
| Ret (a : A)
| Do {X : Set} (e : E X) (k : X -> prog A).
#[global] Arguments Ret {A} _.
#[global] Arguments Do {A X} _ _.

Definition perform {X : Set} (e : E X) : prog X := Do e Ret.

Fixpoint bind {A B} (p : prog A) (f : A -> prog B) : prog B :=
  match p with
  | Ret a => f a
  | Do e k => Do e (fun x => bind (k x) f)
  end.

(** [p.await?] followed by the rest of the function. *)
Definition bind_try {A B Er} (p : prog (result A Er))
    (f : A -> prog (result B Er)) : prog (result B Er) :=
  bind p (fun r => match r with Ok a => f a | Err e => Ret (Err e) end).

(** [r?] for a pure [r], followed by the rest of the function. *)
Definition lift_try {A B Er} (r : result A Er)
    (f : A -> prog (result B Er)) : prog (result B Er) :=
  match r with Ok a => f a | Err e => Ret (Err e) end.

(** Every operation the program can perform, whatever the answers, satisfies
    [P]. *)
Fixpoint all_ops {A} (P : forall X : Set, E X -> Prop) (p : prog A) : Prop :=
  match p with
  | Ret _ => True
  | Do e k => P _ e /\ forall x, all_ops P (k x)
  end.

Lemma all_ops_bind {A B} P (p : prog A) (f : A -> prog B) :
  all_ops P p -> (forall a, all_ops P (f a)) -> all_ops P (bind p f).
Proof. induction p; simpl; naive_solver. Qed.

Lemma all_ops_bind_try {A B Er} P (p : prog (result A Er)) (f : A -> prog (result B Er)) :
  all_ops P p -> (forall a, all_ops P (f a)) -> all_ops P (bind_try p f).
Proof. intros. apply all_ops_bind; [done|]. intros [a|e]; simpl; auto. Qed.

Lemma all_ops_lift_try {A B Er} P (r : result A Er) (f : A -> prog (result B Er)) :
  (forall a, r = Ok a -> all_ops P (f a)) -> all_ops P (lift_try r f).
Proof. destruct r; simpl; auto. Qed.

Lemma all_ops_impl {A} (P Q : forall X : Set, E X -> Prop) (p : prog A) :
  (forall (X : Set) (e : E X), P X e -> Q X e) -> all_ops P p -> all_ops Q p.
Proof. intros HPQ. induction p; simpl; naive_solver. Qed.

(** Every value the program may return satisfies [P]. *)
Fixpoint all_rets {A} (P : A -> Prop) (p : prog A) : Prop :=
  match p with Ret a => P a | Do e k => forall x, all_rets P (k x) end.

Lemma all_rets_bind {A B} (P : B -> Prop) (p : prog A) (f : A -> prog B) :
  (forall a, all_rets P (f a)) -> all_rets P (bind p f).
Proof. intros Hf. induction p; simpl; auto. Qed.

Lemma all_ops_bind_rets {A B} P (Q : A -> Prop) (p : prog A) (f : A -> prog B) :
  all_ops P p -> all_rets Q p -> (forall a, Q a -> all_ops P (f a)) -> all_ops P (bind p f).
Proof. intros Hp Hr Hf. induction p; simpl in *; [by apply Hf|]. naive_solver. Qed.

(** Every operation the program can perform satisfies [P], as long as every
    answer it gets satisfies [G]. *)
Fixpoint given {A} (P : forall X : Set, E X -> Prop) (G : forall X : Set, E X -> X -> Prop)
    (p : prog A) : Prop :=
  match p with
  | Ret _ => True
  | Do e k => P _ e /\ forall x, G _ e x -> given P G (k x)
  end.

Lemma given_all_ops {A} P G (p : prog A) : all_ops P p -> given P G p.
Proof. induction p; simpl; naive_solver. Qed.

Lemma given_bind {A B} P G (p : prog A) (f : A -> prog B) :
  given P G p -> (forall a, given P G (f a)) -> given P G (bind p f).
Proof. induction p; simpl; naive_solver. Qed.

Lemma given_bind_try {A B Er} P G (p : prog (result A Er)) (f : A -> prog (result B Er)) :
  given P G p -> (forall a, given P G (f a)) -> given P G (bind_try p f).
Proof. intros. apply given_bind; [done|]. intros [a|e]; simpl; auto. Qed.

Lemma given_lift_try {A B Er} P G (r : result A Er) (f : A -> prog (result B Er)) :
  (forall a, r = Ok a -> given P G (f a)) -> given P G (lift_try r f).
Proof. destruct r; simpl; auto. Qed.

Lemma given_impl {A} (P Q : forall X : Set, E X -> Prop) G (p : prog A) :
  (forall (X : Set) (e : E X), P X e -> Q X e) -> given P G p -> given Q G p.
Proof. intros HPQ. induction p; simpl; naive_solver. Qed.

Lemma given_bind_rets {A B} P G (Q : A -> Prop) (p : prog A) (f : A -> prog B) :
  given P G p -> all_rets Q p -> (forall a, Q a -> given P G (f a)) -> given P G (bind p f).
Proof. intros Hp Hr Hf. induction p; simpl in *; [by apply Hf|]. naive_solver. Qed.

(** ** Running against a state *)

Section handler.
Context {W : Type} (handle : forall X : Set, E X -> W -> X * W).

Fixpoint run {A} (p : prog A) (w : W) : A * W :=
  match p with
  | Ret a => (a, w)
  | Do e k => let '(x, w') := handle _ e w in run (k x) w'
  end.

(** One atomic operation; [None] when the program has returned. *)
Definition step1 {A} (p : prog A) (w : W) : option (prog A * W) :=
  match p with
  | Ret _ => None
  | Do e k => let '(x, w') := handle _ e w in Some (k x, w')
  end.

Lemma run_bind {A B} (p : prog A) (f : A -> prog B) w :
  run (bind p f) w = run (f (run p w).1) (run p w).2.
Proof.
  revert w. induction p as [a|X e k IH]; simpl; [done|].
  intros w. destruct (handle X e w) as [x w']; simpl. apply IH.
Qed.
End handler.

(** ** Operations that may block

    [None] means that the operation cannot complete in this state: the task
    stays where it is until another task or the environment changes the
    state. *)

Section blocking.
Context {W : Type} (handle : forall X : Set, E X -> W -> option (X * W)).

(** The task alone, to completion; [None] when it blocks. *)
Fixpoint brun {A} (p : prog A) (w : W) : option (A * W) :=
  match p with
  | Ret a => Some (a, w)
  | Do e k => match handle _ e w with
              | Some (x, w') => brun (k x) w'
              | None => None
              end
  end.

Definition bstep {A} (p : prog A) (w : W) : option (prog A * W) :=
  match p with
  | Ret _ => None
  | Do e k => match handle _ e w with
              | Some (x, w') => Some (k x, w')
              | None => None
              end
  end.

Lemma brun_bind {A B} (p : prog A) (f : A -> prog B) w :
  brun (bind p f) w = match brun p w with Some (a, w') => brun (f a) w' | None => None end.
Proof.
  revert w. induction p as [a|X e k IH]; simpl; [done|].
  intros w. destruct (handle X e w) as [[x w']|]; [apply IH|done].
Qed.

(** The task alone, up to its end or to the operation it cannot complete, with
    the state it leaves. *)
Fixpoint bstop {A} (p : prog A) (w : W) : option A * W :=
  match p with
  | Ret a => (Some a, w)
  | Do e k => match handle _ e w with
              | Some (x, w') => bstop (k x) w'
              | None => (None, w)
              end
  end.

Lemma bstop_brun {A} (p : prog A) w a w' : brun p w = Some (a, w') -> bstop p w = (Some a, w').
Proof.
  revert w. induction p as [x|X e k IH]; simpl; intros w; [by intros [= -> ->]|].
  destruct (handle X e w) as [[x w1]|]; [apply IH|done].
Qed.

Lemma bstop_bind {A B} (p : prog A) (f : A -> prog B) w :
  bstop (bind p f) w = match bstop p w with
                       | (Some a, w') => bstop (f a) w'
                       | (None, w') => (None, w')
                       end.
Proof.
  revert w. induction p as [a|X e k IH]; simpl; [done|].
  intros w. destruct (handle X e w) as [[x w']|]; [apply IH|done].
Qed.

(** ** Rely and guarantee

    [I] is the invariant of the shared state, [R] what every task guarantees
    of each of its operations and relies on of the others.  [safe Q p w]: from
    [w], with any interference allowed by [R] between operations, [p] keeps
    [I] and [R] and returns only values that satisfy [Q]. *)

Section rely.
Context (I : W -> Prop) (R : W -> W -> Prop) {HR : PreOrder R}.

Fixpoint safe {A} (Q : A -> W -> Prop) (p : prog A) (w : W) : Prop :=
  match p with
  | Ret a => forall w', R w w' -> I w' -> Q a w'
  | Do e k =>
      forall w', R w w' -> I w' ->
      forall x w'', handle _ e w' = Some (x, w'') ->
        I w'' /\ R w' w'' /\ safe Q (k x) w''
  end.

Lemma safe_mono {A} Q (p : prog A) w w' : R w w' -> safe Q p w -> safe Q p w'.
Proof.
  intros Hw. destruct p; simpl; intros H w2 Hw2; apply H; by transitivity w'.
Qed.

(** The invariant may be assumed, and interference absorbed, at any point. *)
Lemma safe_intro {A} Q (p : prog A) w :
  (forall w', R w w' -> I w' -> safe Q p w') -> safe Q p w.
Proof.
  destruct p; simpl; intros H w' Hw HI; by apply (H w' Hw HI).
Qed.

Lemma safe_bind {A B} Q (p : prog A) (f : A -> prog B) w :
  safe (fun a w => safe Q (f a) w) p w -> safe Q (bind p f) w.
Proof.
  revert w. induction p as [a|X e k IH]; simpl; intros w H.
  - by apply safe_intro.
  - intros w' Hw HI x w'' E0. destruct (H w' Hw HI x w'' E0) as (? & ? & ?); auto.
Qed.

Lemma safe_ret {A} (Q : A -> W -> Prop) a w :
  (forall w', R w w' -> I w' -> Q a w') -> safe Q (Ret a) w.
Proof. done. Qed.

Lemma safe_weaken {A} (Q Q' : A -> W -> Prop) (p : prog A) w :
  (forall a w', Q a w' -> Q' a w') -> safe Q p w -> safe Q' p w.
Proof.
  intros HQ. revert w. induction p as [a|X e k IH]; simpl; intros w H; [auto|].
  intros w' Hw HI x w'' E0. destruct (H w' Hw HI x w'' E0) as (? & ? & ?); auto.
Qed.

Lemma safe_bstep {A} Q (p p' : prog A) w w' :
  I w -> safe Q p w -> bstep p w = Some (p', w') -> I w' /\ R w w' /\ safe Q p' w'.
Proof.
  intros HI. destruct p as [a|X e k]; simpl; [done|]. intros H Hs.
  destruct (handle X e w) as [[x w1]|] eqn:E1; simplify_eq. by apply (H w).
Qed.
End rely.

(** ** A single task

    [solo Q p w]: from [w], whatever changes within [R] the environment makes
    between operations, [p] keeps [I] and returns only values that satisfy
    [Q]. *)

Section solo.
Context (I : W -> Prop) (R : W -> W -> Prop) {HR : PreOrder R}.

Fixpoint solo {A} (Q : A -> W -> Prop) (p : prog A) (w : W) : Prop :=
  match p with
  | Ret a => forall w', R w w' -> Q a w'
  | Do e k =>
      forall w', R w w' -> forall x w'', handle _ e w' = Some (x, w'') ->
        I w'' /\ solo Q (k x) w''
  end.

Lemma solo_mono {A} Q (p : prog A) w w' : R w w' -> solo Q p w -> solo Q p w'.
Proof. intros Hw. destruct p; simpl; intros H w2 Hw2; apply H; by transitivity w'. Qed.

Lemma solo_ret {A} (Q : A -> W -> Prop) a w : (forall w', R w w' -> Q a w') -> solo Q (Ret a) w.
Proof. done. Qed.

Lemma solo_bind {A B} Q (p : prog A) (f : A -> prog B) w :
  solo (fun a w => solo Q (f a) w) p w -> solo Q (bind p f) w.
Proof.
  revert w. induction p as [a|X e k IH]; simpl; intros w H; [by apply H|].
  intros w' Hw x w'' E0. destruct (H w' Hw x w'' E0) as (? & ?); auto.
Qed.

Lemma solo_weaken {A} (Q Q' : A -> W -> Prop) (p : prog A) w :
  (forall a w', Q a w' -> Q' a w') -> solo Q p w -> solo Q' p w.
Proof.
  intros HQ. revert w. induction p as [a|X e k IH]; simpl; intros w H; [auto|].
  intros w' Hw x w'' E0. destruct (H w' Hw x w'' E0) as (? & ?); auto.
Qed.

Lemma solo_bstep {A} Q (p p' : prog A) w w' :
  solo Q p w -> bstep p w = Some (p', w') -> I w' /\ solo Q p' w'.
Proof.
  destruct p as [a|X e k]; simpl; [done|]. intros H Hs.
  destruct (handle X e w) as [[x w1]|] eqn:E1; simplify_eq. by apply (H w).
Qed.
End solo.
End blocking.
End prog.
Arguments prog _ _ : clear implicits.

(** A program over a signature, as a program over a larger one. *)
Fixpoint embed {E F : Set -> Type} (h : forall X : Set, E X -> F X) {A} (p : prog E A) :
    prog F A :=
  match p with
  | Ret a => Ret a
  | Do e k => Do (h _ e) (fun x => embed h (k x))
  end.

Notation "x ← y ; z" := (bind y (fun x => z))
  (at level 20, y at level 100, z at level 200, only parsing) : rust_scope.
Notation "x ←? y ; z" := (bind_try y (fun x => z))
  (at level 20, y at level 100, z at level 200, only parsing) : rust_scope.
Notation "x ←! y ; z" := (lift_try y (fun x => z))
  (at level 20, y at level 100, z at level 200, only parsing) : rust_scope.
