(* ===== verification/Float64.v ===== *)
(** IEEE-754 binary64 as Rust's [f64].

    Values are the Standard Library's [spec_float] with the parameters of
    binary64 (53 bits of precision, exponents up to 1024, round to nearest
    even): an executable, axiom-free model of the hardware operations. *)

From S2P Require Import Prelude.
From Stdlib Require Import SpecFloat.

Local Open Scope Z_scope.

Definition f64 : Set := spec_float.

Module F64.
Definition prec : Z := 53.
Definition emax : Z := 1024.

Definition of_Z (z : Z) : f64 := binary_normalize prec emax z 0 false.
Definition add : f64 -> f64 -> f64 := SFadd prec emax.
Definition mul : f64 -> f64 -> f64 := SFmul prec emax.
Definition div : f64 -> f64 -> f64 := SFdiv prec emax.

Definition zero : f64 := S754_zero false.
Definition is_nan (x : f64) : bool :=
  match x with S754_nan => true | _ => false end.

(** [f64::is_finite]. *)
Definition is_finite (x : f64) : bool :=
  match x with S754_zero _ | S754_finite _ _ _ => true | S754_infinity _ | S754_nan => false end.

(** [a < b], [a <= b]: false when either side is NaN. *)
Definition ltb (x y : f64) : bool := SFltb x y.
Definition leb (x y : f64) : bool := SFleb x y.

(** [f64::partial_cmp]: [None] when either side is NaN. *)
Definition partial_cmp (x y : f64) : option comparison := SFcompare x y.

(** [x as usize] (64 bit): truncation toward zero, saturating, NaN to 0. *)
Definition to_usize (x : f64) : Z :=
  match x with
  | S754_zero _ | S754_nan => 0
  | S754_infinity s => if s then 0 else 2 ^ 64 - 1
  | S754_finite s m e =>
      if s then 0
      else Z.min (2 ^ 64 - 1) (Z.shiftl (Zpos m) e)
  end.

(** A decimal literal [p / 10^k]: the nearest binary64. *)
Definition literal (p : Z) (k : Z) : f64 := div (of_Z p) (of_Z (10 ^ k)).

#[global] Instance eq_dec : EqDecision f64.
Proof. solve_decision. Defined.
End F64.

(** ** The order of the non-NaN values *)

Definition f64_le (x y : f64) : Prop := F64.leb x y = true.

(** The comparison of two finite values of one sign is the lexicographic
    comparison of exponent and mantissa. *)
Definition mag_le (e1 : Z) (m1 : positive) (e2 : Z) (m2 : positive) : Prop :=
  e1 < e2 \/ (e1 = e2 /\ (m1 <= m2)%positive).

Lemma leb_finite s1 m1 e1 s2 m2 e2 :
  f64_le (S754_finite s1 m1 e1) (S754_finite s2 m2 e2) <->
  match s1, s2 with
  | true, false => True
  | false, true => False
  | false, false => mag_le e1 m1 e2 m2
  | true, true => mag_le e2 m2 e1 m1
  end.
Proof.
  unfold f64_le, F64.leb, SFleb, SFcompare, mag_le.
  change (Pos.compare_cont Eq m1 m2) with (m1 ?= m2)%positive.
  destruct s1, s2; try (split; done);
    destruct (Z.compare_spec e1 e2); subst; simpl;
    try (split; [done || lia|intros; try done; exfalso; lia]);
    destruct (Pos.compare_spec m1 m2); subst; simpl;
    (split; [try done; lia|intros; try done; exfalso; lia]).
Qed.

Lemma f64_le_refl x : F64.is_nan x = false -> f64_le x x.
Proof.
  destruct x as [s|s| |s m e]; intros H; try done; try (destruct s; done).
  apply leb_finite. unfold mag_le. destruct s; right; split; lia.
Qed.

Lemma f64_le_trans x y z : f64_le x y -> f64_le y z -> f64_le x z.
Proof.
  destruct x as [sx|sx| |sx mx ex], y as [sy|sy| |sy my ey], z as [sz|sz| |sz mz ez];
    try (destruct sx); try (destruct sy); try (destruct sz); try done;
    rewrite ?leb_finite; try done; unfold mag_le; lia.
Qed.

Lemma f64_le_total x y :
  F64.is_nan x = false -> F64.is_nan y = false -> f64_le x y \/ f64_le y x.
Proof.
  destruct x as [sx|sx| |sx mx ex], y as [sy|sy| |sy my ey]; intros;
    try (destruct sx); try (destruct sy); try done;
    try (left; done); try (right; done);
    rewrite !leb_finite; unfold mag_le; try tauto; lia.
Qed.

(** [partial_cmp] answers for every pair without a NaN, and its [Greater] is
    the negation of [<=]. *)
Lemma partial_cmp_some x y :
  F64.is_nan x = false -> F64.is_nan y = false ->
  exists c, F64.partial_cmp x y = Some c.
Proof.
  destruct x as [sx|sx| |sx mx ex], y as [sy|sy| |sy my ey]; intros; try done;
    unfold F64.partial_cmp, SFcompare; try (destruct sx); try (destruct sy);
    try (destruct (ex ?= ey)); eauto.
Qed.

Lemma partial_cmp_le x y c :
  F64.partial_cmp x y = Some c -> (f64_le x y <-> c <> Gt).
Proof.
  unfold f64_le, F64.leb, SFleb, F64.partial_cmp.
  intros ->. destruct c; split; done.
Qed.

Lemma partial_cmp_gt x y : F64.partial_cmp x y = Some Gt -> f64_le y x.
Proof.
  intros H.
  assert (Hn : F64.is_nan x = false /\ F64.is_nan y = false).
  { destruct x as [[]|[]| |[]], y as [[]|[]| |[]]; done. }
  destruct (f64_le_total x y) as [Hle|]; [tauto|tauto| |done].
  apply (partial_cmp_le _ _ _ H) in Hle. done.
Qed.

(** ** Time

    [Duration], [Instant] and [SystemTime] are integers of nanoseconds. *)

Definition NANOS_PER_SEC : Z := 1000000000.

(** [Duration::as_secs_f64]. *)
Definition as_secs_f64 (nanos : Z) : f64 :=
  F64.add (F64.of_Z (nanos / NANOS_PER_SEC))
          (F64.div (F64.of_Z (nanos mod NANOS_PER_SEC)) (F64.of_Z NANOS_PER_SEC)).

Definition from_secs (s : Z) : Z := s * NANOS_PER_SEC.
Definition from_millis (ms : Z) : Z := ms * 1000000.
