(* ===== verification/Wire.v ===== *)
(** Data that crosses the wire, and the interface of the serializer.

    The router crate ([router/src/protocol.rs]) and the client crate
    ([rust/src/message.rs]) declare the same message types; they are declared
    once here.  MessagePack encoding is done by the [rmp_serde] crate: it is a
    parameter, the class [RmpSerde], with one instance per crate and type.
    The same holds for [serde_json], whose [Value] type is written out from
    its documented public definition. *)

From S2P Require Import Prelude Float64.

Local Open Scope string_scope.

(** * Constants *)

Definition PROTOCOL_KEY : string := "multifrost_ipc_v5".
Definition PROTOCOL_VERSION : Z := 5.
Definition ROUTER_PEER_ID : string := "router".

Definition KIND_REGISTER : string := "register".
Definition KIND_QUERY : string := "query".
Definition KIND_CALL : string := "call".
Definition KIND_RESPONSE : string := "response".
Definition KIND_ERROR : string := "error".
Definition KIND_HEARTBEAT : string := "heartbeat".
Definition KIND_DISCONNECT : string := "disconnect".

(** * Envelope and bodies *)

(** [from] and [to] carry a prefix in the record: the other field names are
    the source's. *)
Record Envelope : Set := mkEnvelope {
  v : Z;                (* u32 *)
  kind : string;
  msg_id : string;
  env_from : string;
  env_to : string;
  ts : f64;
}.

Inductive PeerClass : Set := Service | Caller.

#[export] Instance PeerClass_eq_dec : EqDecision PeerClass.
Proof. solve_decision. Defined.

Definition PeerClass_as_str (c : PeerClass) : string :=
  match c with Service => "service" | Caller => "caller" end.

Record RegisterBody : Set := mkRegisterBody {
  reg_peer_id : string;
  reg_class : PeerClass;
}.

Record RegisterAckBody : Set := mkRegisterAckBody {
  accepted : bool;
  reason : option string;
}.

Inductive QueryBody : Set :=
| PeerExists (peer_id : string)
| PeerGet (peer_id : string).

Record QueryExistsResponseBody : Set := mkQueryExists {
  qe_peer_id : string;
  qe_exists : bool;
  qe_class : option PeerClass;
  qe_connected : bool;
}.

Record QueryGetResponseBody : Set := mkQueryGet {
  qg_peer_id : string;
  qg_exists : bool;
  qg_class : option PeerClass;
  qg_connected : bool;
}.

Inductive WireValue : Set :=
| WNil
| WBool (b : bool)
| WInt (z : Z)
| WUInt (z : Z)
| WFloat (x : f64)
| WText (s : string)
| WBinary (b : bytes)
| WArray (l : list WireValue)
| WMap (l : list (string * WireValue)).

Record ErrorBody : Set := mkErrorBody {
  code : string;
  message : string;
  err_kind : string;
  stack : option string;
  details : option WireValue;
}.

(** [serde_json::Value]; a [Number] is an unsigned, a negative or a floating
    value. *)
Inductive Number : Set :=
| PosInt (z : Z)
| NegInt (z : Z)
| Float (x : f64).

Inductive Value : Set :=
| Null
| Bool (b : bool)
| Num (n : Number)
| Str (s : string)
| Array (l : list Value)
| Object (l : list (string * Value)).

(** A float as JSON: null when it is not finite. *)
Definition f64_value (x : f64) : Value := if F64.is_finite x then Num (Float x) else Null.

Record CallBody : Set := mkCallBody {
  function : string;
  args : list Value;
  namespace : option string;
}.

Record ResponseBody : Set := mkResponseBody {
  resp_result : Value;
}.

Record FrameParts : Set := mkFrameParts {
  envelope : Envelope;
  body_bytes : bytes;
}.

(** * WebSocket messages ([tungstenite::Message]) *)

Inductive Message : Set :=
| Text (s : string)
| Binary (b : bytes)
| Ping (b : bytes)
| Pong (b : bytes)
| Close
| Frame.

(** What [source.next().await] yields before the end of the stream. *)
Abbreviation WsItem := (result Message string).

(** The binary payload of a message, and of an item of a stream. *)
Definition payload (m : Message) : option bytes :=
  match m with Binary b => Some b | _ => None end.
Definition item_payload (i : WsItem) : option bytes :=
  match i with Ok m => payload m | Err _ => None end.

Lemma elem_of_payloads b (src : list WsItem) : b ∈ omap item_payload src <-> Ok (Binary b) ∈ src.
Proof.
  rewrite list_elem_of_omap. split.
  - intros ([[]|] & Hin & H); simplify_eq/=. done.
  - intros H. by exists (Ok (Binary b)).
Qed.

(** * Serializer interface

    [to_vec_named] and [from_slice] of [rmp_serde] at one type, with the text
    of their errors. *)

Class RmpSerde (T : Type) := {
  to_vec_named : T -> result bytes string;
  from_slice : bytes -> result T string;
}.

(** Decoding what was encoded gives the value back. *)
Definition RoundTrips {T} (enc dec : RmpSerde T) (x : T) : Prop :=
  forall b, @to_vec_named T enc x = Ok b -> @from_slice T dec b = Ok x.

(** [rmp_serde] serializes a derived structure of scalars, strings and options
    without error, and deserializes it back. *)
Class RmpLaws (T : Type) (S : RmpSerde T) : Prop := {
  rmp_total : forall x : T, exists b, to_vec_named x = Ok b;
  rmp_roundtrip : forall x : T, RoundTrips S S x;
}.
