(* ===== verification/Protocol.v ===== *)
(** The router's protocol layer: [router/src/error.rs] and
    [router/src/protocol.rs].  Framing
    [[u32 envelope_len][envelope][body]], the body encoders and decoders with
    the error each of them maps a serializer failure to. *)

From S2P Require Import Prelude Float64 Wire.

Local Open Scope string_scope.
Local Open Scope Z_scope.
Local Open Scope rust_scope.

(** * Errors *)

Inductive RouterError : Set :=
| Io (e : string)
| WebSocket (e : string)
| InvalidProtocolKey (s : string)
| InvalidPort (s : string)
| NonBinaryMessage
| MalformedFrame (s : string)
| MalformedRegisterBody (s : string)
| MalformedQueryBody (s : string)
| DuplicatePeerId (s : string)
| PeerNotFound (s : string)
| InvalidTargetClass (s : string)
| InvalidSourceClass (s : string)
| ConnectionClosed
| Other (s : string).

(** The [#[error(...)]] texts. *)
Definition RouterError_display (e : RouterError) : string :=
  match e with
  | Io s => "io error: " +:+ s
  | WebSocket s => "websocket error: " +:+ s
  | InvalidProtocolKey s => "invalid protocol key: " +:+ s
  | InvalidPort s => "invalid port: " +:+ s
  | NonBinaryMessage => "non-binary websocket message"
  | MalformedFrame s => "malformed frame: " +:+ s
  | MalformedRegisterBody s => "malformed register body: " +:+ s
  | MalformedQueryBody s => "malformed query body: " +:+ s
  | DuplicatePeerId s => "duplicate live peer_id: " +:+ s
  | PeerNotFound s => "peer not found: " +:+ s
  | InvalidTargetClass s => "invalid target class: " +:+ s
  | InvalidSourceClass s => "invalid source class: " +:+ s
  | ConnectionClosed => "connection closed"
  | Other s => "router error: " +:+ s
  end.

Abbreviation Result A := (result A RouterError).

Definition validate_protocol_key (value : string) : Result unit :=
  if (value =? PROTOCOL_KEY)%string then Ok tt else Err (InvalidProtocolKey value).

Definition ensure_binary_ws_message (m : Message) : Result bytes :=
  match m with
  | Binary b => Ok b
  | _ => Err NonBinaryMessage
  end.

(** The serializer at the types the router uses. *)
Class RouterCodec := {
  #[global] rc_envelope :: RmpSerde Envelope;
  #[global] rc_register :: RmpSerde RegisterBody;
  #[global] rc_ack :: RmpSerde RegisterAckBody;
  #[global] rc_query :: RmpSerde QueryBody;
  #[global] rc_exists :: RmpSerde QueryExistsResponseBody;
  #[global] rc_get :: RmpSerde QueryGetResponseBody;
  #[global] rc_error :: RmpSerde ErrorBody;
}.

Class RouterCodecLaws (RC : RouterCodec) : Prop := {
  #[global] rcl_envelope :: RmpLaws Envelope rc_envelope;
  #[global] rcl_register :: RmpLaws RegisterBody rc_register;
  #[global] rcl_ack :: RmpLaws RegisterAckBody rc_ack;
  #[global] rcl_query :: RmpLaws QueryBody rc_query;
  #[global] rcl_exists :: RmpLaws QueryExistsResponseBody rc_exists;
  #[global] rcl_get :: RmpLaws QueryGetResponseBody rc_get;
  (** [details] is excluded: a present [WireValue] is the application's. *)
  rcl_error_total : forall x : ErrorBody, exists b, to_vec_named x = Ok b;
  rcl_error : forall x : ErrorBody, details x = None -> RoundTrips rc_error rc_error x;
}.

Section protocol.
Context {RC : RouterCodec}.

(** ** Frames *)

Definition encode_envelope (e : Envelope) : Result bytes :=
  map_err Other (to_vec_named e).

Definition decode_envelope (b : bytes) : Result Envelope :=
  let? e := map_err MalformedFrame (from_slice b) in
  if negb (v e =? PROTOCOL_VERSION)
  then Err (InvalidProtocolKey ("v=" +:+ pretty (v e)))
  else Ok e.

Definition encode_frame (e : Envelope) (body : bytes) : Result bytes :=
  let? envelope_bytes := encode_envelope e in
  Ok (u32_to_be_bytes (wrap 32 (Z.of_nat (length envelope_bytes)))
      ++ envelope_bytes ++ body)%list.

Definition decode_frame (b : bytes) : Result FrameParts :=
  if Z.of_nat (length b) <? 4
  then Err (MalformedFrame "frame too short for envelope length")
  else
    let envelope_len := u32_from_be_bytes (take 4 b) in
    if Z.of_nat (length b) <? 4 + envelope_len
    then Err (MalformedFrame "frame shorter than declared envelope length")
    else
      let n := Z.to_nat envelope_len in
      let? e := decode_envelope (take n (drop 4 b)) in
      Ok (mkFrameParts e (drop (4 + n) b)).

(** ** Bodies *)

Definition encode_register_body (x : RegisterBody) : Result bytes :=
  map_err Other (to_vec_named x).
Definition decode_register_body (b : bytes) : Result RegisterBody :=
  map_err MalformedRegisterBody (from_slice b).
Definition encode_register_ack_body (x : RegisterAckBody) : Result bytes :=
  map_err Other (to_vec_named x).
Definition encode_query_body (x : QueryBody) : Result bytes :=
  map_err Other (to_vec_named x).
Definition decode_query_body (b : bytes) : Result QueryBody :=
  map_err MalformedQueryBody (from_slice b).

Definition encode_query_exists_response (peer_id : string) (exists_ : bool)
    (class : option PeerClass) (connected : bool) : Result bytes :=
  map_err Other (to_vec_named (mkQueryExists peer_id exists_ class connected)).

Definition encode_query_get_response (peer_id : string) (exists_ : bool)
    (class : option PeerClass) (connected : bool) : Result bytes :=
  map_err Other (to_vec_named (mkQueryGet peer_id exists_ class connected)).

Definition encode_error_body (x : ErrorBody) : Result bytes :=
  map_err Other (to_vec_named x).
Definition decode_error_body (b : bytes) : Result ErrorBody :=
  map_err MalformedFrame (from_slice b).

(** ** Lemmas *)

Lemma decode_envelope_ok b e :
  decode_envelope b = Ok e <-> from_slice b = Ok e /\ v e = PROTOCOL_VERSION.
Proof.
  unfold decode_envelope. rewrite and_then_ok. setoid_rewrite map_err_ok.
  split.
  - intros (e' & He & Hv). destruct (Z.eqb_spec (v e') PROTOCOL_VERSION);
      simplify_eq/=. done.
  - intros [He Hv]. exists e. split; [done|].
    by rewrite (proj2 (Z.eqb_eq _ _) Hv).
Qed.

(** A frame is cut where the encoder glued it. *)
Lemma decode_frame_app env body :
  Z.of_nat (length env) < 2 ^ 32 ->
  decode_frame (u32_to_be_bytes (wrap 32 (Z.of_nat (length env))) ++ env ++ body)%list
  = (let? e := decode_envelope env in Ok (mkFrameParts e body)).
Proof.
  intros Hlen. destruct (length_prefix_cut env body Hlen) as (H1 & H2 & H3 & H4 & H5).
  unfold decode_frame. by rewrite H1, H2, H3, Nat2Z.id, H4, H5.
Qed.

Lemma length_take_4 (b : bytes) :
  4 <= Z.of_nat (length b) -> exists b0 b1 b2 b3, take 4 b = [b0; b1; b2; b3].
Proof.
  intros H. destruct b as [|b0 [|b1 [|b2 [|b3 b]]]]; simpl in H; try lia.
  exists b0, b1, b2, b3. done.
Qed.

Lemma u32_to_from_be_bytes b0 b1 b2 b3 :
  u32_to_be_bytes (u32_from_be_bytes [b0; b1; b2; b3]) = [b0; b1; b2; b3].
Proof.
  pose proof (byte_to_Z_range b0). pose proof (byte_to_Z_range b1).
  pose proof (byte_to_Z_range b2). pose proof (byte_to_Z_range b3).
  unfold u32_to_be_bytes, u32_from_be_bytes; simpl.
  rewrite !Z.shiftr_div_pow2 by lia.
  change (2 ^ 24) with 16777216. change (2 ^ 16) with 65536. change (2 ^ 8) with 256.
  assert (Hb : forall z b, z mod 256 = byte_to_Z b -> byte_of_Z z = b).
  { intros z b Hz. rewrite <- (byte_of_to_Z b), <- Hz.
    unfold byte_of_Z. by rewrite Z.mod_mod by lia. }
  repeat f_equal; apply Hb; Z.div_mod_to_equations; lia.
Qed.

(** C17: decoding an encoded frame gives the envelope and the body back, for
    every envelope of protocol version 5 whose encoding fits the 32-bit length
    prefix and every body: the router can route without decoding the body,
    and forwards it unchanged. *)
Theorem frame_roundtrip {RCL : RouterCodecLaws RC} e body env frame :
  v e = PROTOCOL_VERSION -> encode_envelope e = Ok env -> Z.of_nat (length env) < 2 ^ 32 ->
  encode_frame e body = Ok frame -> decode_frame frame = Ok (mkFrameParts e body).
Proof.
  intros Hv He Hlen Hf. unfold encode_frame in Hf. rewrite He in Hf. cbn [and_then] in Hf.
  match type of Hf with Ok ?x = Ok ?y => assert (y = x) as -> by congruence end.
  rewrite decode_frame_app by done.
  apply map_err_ok in He. apply rmp_roundtrip in He.
  by rewrite (proj2 (decode_envelope_ok env e) (conj He Hv)).
Qed.

(** C18: [decode_frame] accepts exactly the byte strings made of the big-endian
    length of an envelope, that envelope in encoded form with version 5, and
    an arbitrary body, and it returns that envelope and that body.  Everything
    else is an error, never a panic. *)
Theorem decode_frame_accepts_exactly b f :
  decode_frame b = Ok f <->
  exists env, b = (u32_to_be_bytes (Z.of_nat (length env)) ++ env ++ body_bytes f)%list
    /\ Z.of_nat (length env) < 2 ^ 32
    /\ from_slice env = Ok (envelope f) /\ v (envelope f) = PROTOCOL_VERSION.
Proof.
  split.
  - unfold decode_frame. destruct (Z.ltb_spec (Z.of_nat (length b)) 4); [done|].
    destruct (length_take_4 b) as (b0 & b1 & b2 & b3 & Ht); [done|]. rewrite Ht.
    set (n := u32_from_be_bytes [b0; b1; b2; b3]).
    pose proof (u32_from_be_bytes_range b0 b1 b2 b3 : 0 <= n < 2 ^ 32) as Hn.
    destruct (Z.ltb_spec (Z.of_nat (length b)) (4 + n)); [done|].
    rewrite and_then_ok. intros (e & He & [= <-]). apply decode_envelope_ok in He as [He Hv].
    exists (take (Z.to_nat n) (drop 4 b)).
    assert (Hl : length (take (Z.to_nat n) (drop 4 b)) = Z.to_nat n)
      by (rewrite length_take, length_drop; lia).
    rewrite Hl, Z2Nat.id by lia. split; [|split; [lia|done]].
    unfold n at 1. rewrite u32_to_from_be_bytes, <- Ht. cbn [body_bytes].
    change (S (S (S (S (Z.to_nat n))))) with (4 + Z.to_nat n)%nat.
    rewrite <- drop_drop. by rewrite !take_drop.
  - intros (env & -> & Hlen & He & Hv).
    rewrite <- (wrap_small 32 (Z.of_nat (length env))) by lia.
    rewrite decode_frame_app by done.
    rewrite (proj2 (decode_envelope_ok env (envelope f)) (conj He Hv)). by destruct f.
Qed.

End protocol.
