(* ===== verification/RefCodec.v ===== *)
(** A concrete serializer.

    The development is parametric in [rmp_serde].  This file builds one
    instance that satisfies every law assumed of it, from the [Countable]
    encoding of the message types: it shows that the assumptions are
    consistent and lets the witnesses compute.  It is not a model of
    MessagePack. *)

From S2P Require Import Prelude Float64 Wire Protocol.
From Stdlib Require Import SpecFloat.
From stdpp Require Import countable.

Local Open Scope string_scope.

Fixpoint pos_to_bytes (p : positive) : bytes :=
  match p with
  | xH => []
  | xO p => Byte.x00 :: pos_to_bytes p
  | xI p => Byte.x01 :: pos_to_bytes p
  end.

Fixpoint pos_of_bytes (b : bytes) : positive :=
  match b with
  | [] => xH
  | Byte.x00 :: b => xO (pos_of_bytes b)
  | _ :: b => xI (pos_of_bytes b)
  end.

Lemma pos_of_to_bytes p : pos_of_bytes (pos_to_bytes p) = p.
Proof. induction p; simpl; congruence. Qed.

Definition countable_serde (T : Type) `{Countable T} : RmpSerde T := {|
  to_vec_named x := Ok (pos_to_bytes (encode x));
  from_slice b := match decode (pos_of_bytes b) with
                  | Some x => Ok x
                  | None => Err "invalid encoding"
                  end |}.

Lemma countable_serde_laws (T : Type) `{Countable T} :
  RmpLaws T (countable_serde T).
Proof.
  split; [by eexists|]. intros x b [= <-]; simpl.
  by rewrite pos_of_to_bytes, decode_encode.
Qed.

(** * Countable message types *)

#[export] Instance f64_countable : Countable f64.
Proof.
  refine (inj_countable'
    (fun x : spec_float => match x with
       | S754_zero s => inl (inl s)
       | S754_infinity s => inl (inr s)
       | S754_nan => inr (inl tt)
       | S754_finite s m e => inr (inr (s, m, e))
       end : (bool + bool) + (unit + bool * positive * Z))
    (fun y => match y with
       | inl (inl s) => S754_zero s
       | inl (inr s) => S754_infinity s
       | inr (inl _) => S754_nan
       | inr (inr (s, m, e)) => S754_finite s m e
       end) _); by intros [].
Defined.

#[export] Instance Envelope_eq_dec : EqDecision Envelope.
Proof. solve_decision. Defined.
#[export] Instance Envelope_countable : Countable Envelope.
Proof.
  refine (inj_countable'
    (fun e => (v e, kind e, msg_id e, env_from e, env_to e, ts e))
    (fun '(a, b, c, d, e, f) => mkEnvelope a b c d e f) _); by intros [].
Defined.

#[export] Instance PeerClass_countable : Countable PeerClass.
Proof.
  refine (inj_countable' (fun c => match c with Service => true | Caller => false end)
    (fun b : bool => if b then Service else Caller) _); by intros [].
Defined.

#[export] Instance RegisterBody_eq_dec : EqDecision RegisterBody.
Proof. solve_decision. Defined.
#[export] Instance RegisterBody_countable : Countable RegisterBody.
Proof.
  refine (inj_countable' (fun r => (reg_peer_id r, reg_class r))
    (fun '(a, b) => mkRegisterBody a b) _); by intros [].
Defined.

#[export] Instance RegisterAckBody_eq_dec : EqDecision RegisterAckBody.
Proof. solve_decision. Defined.
#[export] Instance RegisterAckBody_countable : Countable RegisterAckBody.
Proof.
  refine (inj_countable' (fun r => (accepted r, reason r))
    (fun '(a, b) => mkRegisterAckBody a b) _); by intros [].
Defined.

#[export] Instance QueryBody_eq_dec : EqDecision QueryBody.
Proof. solve_decision. Defined.
#[export] Instance QueryBody_countable : Countable QueryBody.
Proof.
  refine (inj_countable'
    (fun q => match q with PeerExists p => inl p | PeerGet p => inr p end)
    (fun y : string + string => match y with inl p => PeerExists p | inr p => PeerGet p end) _);
    by intros [].
Defined.

#[export] Instance QueryExists_eq_dec : EqDecision QueryExistsResponseBody.
Proof. solve_decision. Defined.
#[export] Instance QueryExists_countable : Countable QueryExistsResponseBody.
Proof.
  refine (inj_countable' (fun q => (qe_peer_id q, qe_exists q, qe_class q, qe_connected q))
    (fun '(a, b, c, d) => mkQueryExists a b c d) _); by intros [].
Defined.

#[export] Instance QueryGet_eq_dec : EqDecision QueryGetResponseBody.
Proof. solve_decision. Defined.
#[export] Instance QueryGet_countable : Countable QueryGetResponseBody.
Proof.
  refine (inj_countable' (fun q => (qg_peer_id q, qg_exists q, qg_class q, qg_connected q))
    (fun '(a, b, c, d) => mkQueryGet a b c d) _); by intros [].
Defined.

(** Error bodies without details. *)
Definition error_serde : RmpSerde ErrorBody := {|
  to_vec_named x := Ok (pos_to_bytes (encode (code x, message x, err_kind x, stack x)));
  from_slice b :=
    match decode (A := string * string * string * option string) (pos_of_bytes b) with
    | Some (a, b, c, d) => Ok (mkErrorBody a b c d None)
    | None => Err "invalid encoding"
    end |}.

#[export] Instance ref_router_codec : RouterCodec := {|
  rc_envelope := countable_serde Envelope;
  rc_register := countable_serde RegisterBody;
  rc_ack := countable_serde RegisterAckBody;
  rc_query := countable_serde QueryBody;
  rc_exists := countable_serde QueryExistsResponseBody;
  rc_get := countable_serde QueryGetResponseBody;
  rc_error := error_serde |}.

Lemma error_serde_roundtrip x : details x = None -> RoundTrips error_serde error_serde x.
Proof.
  intros Hx b [= <-]; simpl. rewrite pos_of_to_bytes, decode_encode.
  destruct x; simpl in *; by subst.
Qed.

#[export] Instance ref_router_codec_laws : RouterCodecLaws ref_router_codec.
Proof.
  split; try apply countable_serde_laws.
  - intros x. by eexists.
  - apply error_serde_roundtrip.
Qed.
