(* ===== verification/Registry.v ===== *)
(** The router's live peer registry: [router/src/registry.rs].

    The map is guarded by one [RwLock]; every operation takes the lock once,
    so each of them is one atomic transition. *)

From S2P Require Import Prelude Float64 Wire Protocol.

Local Open Scope string_scope.

(** The write half of a connection, identified by its connection. *)
Abbreviation sink := nat (only parsing).

Record PeerSnapshot : Set := mkPeerSnapshot {
  snap_peer_id : string;
  snap_class : PeerClass;
  snap_connected : bool;
}.

Record PeerRecord : Set := mkPeerRecord {
  rec_peer_id : string;
  rec_class : PeerClass;
  rec_sender : sink;
  rec_connected : bool;
  rec_last_heartbeat : option Z;     (* Instant *)
}.

#[export] Instance PeerRecord_eq_dec : EqDecision PeerRecord.
Proof. solve_decision. Defined.

Abbreviation PeerRegistry := (gmap string PeerRecord).

Module Registry.

Definition new : PeerRegistry := ∅.

Definition insert_live_peer (now : Z) (peer_id : string) (class : PeerClass)
    (sender : sink) (peers : PeerRegistry) : Result unit * PeerRegistry :=
  match peers !! peer_id with
  | Some _ => (Err (DuplicatePeerId peer_id), peers)
  | None =>
      (Ok tt, <[peer_id := mkPeerRecord peer_id class sender true (Some now)]> peers)
  end.

Definition reject_duplicate_live_peer_id (peer_id : string) (peers : PeerRegistry) : bool :=
  bool_decide (is_Some (peers !! peer_id)).

Definition lookup_by_peer_id (peer_id : string) (peers : PeerRegistry) : option PeerSnapshot :=
  (fun r => mkPeerSnapshot (rec_peer_id r) (rec_class r) (rec_connected r))
  <$> peers !! peer_id.

Definition sender_by_peer_id (peer_id : string) (peers : PeerRegistry) : option sink :=
  rec_sender <$> peers !! peer_id.

Definition remove_by_peer_id (peer_id : string) (peers : PeerRegistry) :
    option PeerSnapshot * PeerRegistry :=
  ((fun r => mkPeerSnapshot (rec_peer_id r) (rec_class r) false) <$> peers !! peer_id,
   delete peer_id peers).

Definition snapshot_peer_exists (peer_id : string) (peers : PeerRegistry) : bool :=
  bool_decide (is_Some (peers !! peer_id)).

Definition snapshot_peer_class (peer_id : string) (peers : PeerRegistry) : option PeerClass :=
  rec_class <$> peers !! peer_id.

Definition mark_heartbeat (now : Z) (peer_id : string) (peers : PeerRegistry) : PeerRegistry :=
  alter (fun r => mkPeerRecord (rec_peer_id r) (rec_class r) (rec_sender r)
                    (rec_connected r) (Some now)) peer_id peers.

Definition connected_snapshot (peer_id : string) (peers : PeerRegistry) : option bool :=
  rec_connected <$> peers !! peer_id.

(** * The registry invariant

    A record is stored under its own id and is marked connected: the code
    removes a record instead of clearing its flag. *)
Definition wf (peers : PeerRegistry) : Prop :=
  map_Forall (fun k r => rec_peer_id r = k /\ rec_connected r = true) peers.

Lemma wf_new : wf new.
Proof. apply map_Forall_empty. Qed.

Lemma wf_insert now p c s peers :
  wf peers -> wf (insert_live_peer now p c s peers).2.
Proof.
  intros Hwf. unfold insert_live_peer.
  destruct (peers !! p); simpl; [done|]. by apply map_Forall_insert_2.
Qed.

Lemma wf_remove p peers : wf peers -> wf (remove_by_peer_id p peers).2.
Proof. apply map_Forall_delete. Qed.

Lemma wf_mark now p peers : wf peers -> wf (mark_heartbeat now p peers).
Proof.
  intros Hwf k r. unfold mark_heartbeat. rewrite lookup_alter_Some.
  intros [(-> & r' & Hr' & ->)|[_ Hr]]; [|by apply Hwf].
  destruct (Hwf _ _ Hr'); done.
Qed.

(** A refused insertion leaves the owner in place. *)
Lemma insert_some now p c s peers r :
  peers !! p = Some r ->
  insert_live_peer now p c s peers = (Err (DuplicatePeerId p), peers).
Proof. intros H. unfold insert_live_peer. by rewrite H. Qed.

Lemma insert_none now p c s peers :
  peers !! p = None ->
  insert_live_peer now p c s peers =
  (Ok tt, <[p := mkPeerRecord p c s true (Some now)]> peers).
Proof. intros H. unfold insert_live_peer. by rewrite H. Qed.

Lemma exists_class p peers :
  snapshot_peer_exists p peers = bool_decide (is_Some (snapshot_peer_class p peers)).
Proof.
  unfold snapshot_peer_exists, snapshot_peer_class.
  apply bool_decide_ext. by rewrite fmap_is_Some.
Qed.

End Registry.
