(* ===== verification/Server.v ===== *)
(** The router's connection handler: [router/src/server.rs].

    Every function of the file is a program over [routerE]: one constructor
    per operation on shared state (a registry call, a send on a WebSocket
    sink, a reading of the clock).  Each of them is a suspension point of the
    async function, so a program's operations may be interleaved with those
    of other connections (see [RouterSafety]); [run] executes a handler
    without interference. *)

From S2P Require Import Prelude Prog Float64 Wire Protocol Registry.

Local Open Scope string_scope.
Local Open Scope rust_scope.

(** * Operations on shared state *)

Inductive routerE : Set -> Type :=
| InsertLivePeer (peer_id : string) (class : PeerClass) (sender : sink) :
    routerE (Result unit)
| LookupByPeerId (peer_id : string) : routerE (option PeerSnapshot)
| SenderByPeerId (peer_id : string) : routerE (option sink)
| RemoveByPeerId (peer_id : string) : routerE (option PeerSnapshot)
| SnapshotPeerExists (peer_id : string) : routerE bool
| SnapshotPeerClass (peer_id : string) : routerE (option PeerClass)
| MarkHeartbeat (peer_id : string) : routerE unit
| SendRaw (target : sink) (raw : bytes) : routerE (Result unit)
| NowTs : routerE f64.

Abbreviation routerM A := (prog routerE A).

(** The shared state: the registry, the clocks, the sinks whose transport is
    still writable, and the frames written so far, oldest first. *)
Record World : Set := mkWorld {
  registry : PeerRegistry;
  instant : Z;              (* monotonic clock, nanoseconds *)
  system_time : Z;          (* nanoseconds since the epoch *)
  writable : gset sink;
  outbox : list (sink * bytes);
}.

Definition set_registry (r : PeerRegistry) (w : World) : World :=
  mkWorld r (instant w) (system_time w) (writable w) (outbox w).
Definition push_outbox (s : sink) (raw : bytes) (w : World) : World :=
  mkWorld (registry w) (instant w) (system_time w) (writable w) (outbox w ++ [(s, raw)]).

(** [now_ts]: 0.0 when the clock is before the epoch. *)
Definition now_ts (system_time : Z) : f64 :=
  if (0 <=? system_time)%Z then as_secs_f64 system_time else F64.zero.

(** [send_raw]: a write on a sink fails once its transport is gone. *)
Definition send_raw (s : sink) (raw : bytes) (w : World) : Result unit * World :=
  if bool_decide (s ∈ writable w)
  then (Ok tt, push_outbox s raw w)
  else (Err (WebSocket "connection closed"), w).

Definition handle_op (X : Set) (e : routerE X) (w : World) : X * World :=
  match e in routerE X return X * World with
  | InsertLivePeer p c s =>
      let '(r, reg) := Registry.insert_live_peer (instant w) p c s (registry w) in
      (r, set_registry reg w)
  | LookupByPeerId p => (Registry.lookup_by_peer_id p (registry w), w)
  | SenderByPeerId p => (Registry.sender_by_peer_id p (registry w), w)
  | RemoveByPeerId p =>
      let '(r, reg) := Registry.remove_by_peer_id p (registry w) in
      (r, set_registry reg w)
  | SnapshotPeerExists p => (Registry.snapshot_peer_exists p (registry w), w)
  | SnapshotPeerClass p => (Registry.snapshot_peer_class p (registry w), w)
  | MarkHeartbeat p =>
      (tt, set_registry (Registry.mark_heartbeat (instant w) p (registry w)) w)
  | SendRaw s raw => send_raw s raw w
  | NowTs => (now_ts (system_time w), w)
  end.

Definition exec {A} (p : routerM A) (w : World) : A * World := run handle_op p w.

(** * Building and sending frames *)

Definition build_envelope (kind msg_id from to : string) (ts : f64) : Envelope :=
  mkEnvelope PROTOCOL_VERSION kind msg_id from to ts.

Definition build_ack_body : RegisterAckBody := mkRegisterAckBody true None.

Definition build_error_body (code message : string) : ErrorBody :=
  mkErrorBody code message "router" None None.

Inductive RouteTargetDecision : Set :=
| Deliver
| Reject (code message : string).

Definition decide_route_target (kind : string) (target_class : option PeerClass) :
    RouteTargetDecision :=
  match target_class with
  | None => Reject "peer_not_found" (kind +:+ " target not found")
  | Some Caller =>
      if (kind =? KIND_CALL)%string
      then Reject "invalid_target_class" "invalid target class"
      else Deliver
  | Some Service =>
      if (kind =? KIND_RESPONSE)%string
      then Reject "invalid_target_class" "responses must target a caller peer"
      else if (kind =? KIND_ERROR)%string
      then Reject "invalid_target_class" "errors must target a caller peer"
      else Deliver
  end.

Definition validate_register_envelope (e : Envelope) (register : RegisterBody) : Result unit :=
  if negb (env_to e =? ROUTER_PEER_ID)%string
  then Err (MalformedRegisterBody "register target must be router")
  else if negb (env_from e =? reg_peer_id register)%string
  then Err (MalformedRegisterBody "register body peer_id must match envelope.from")
  else Ok tt.

Section server.
Context {RC : RouterCodec}.

Definition send_frame (s : sink) (e : Envelope) (body : bytes) : routerM (Result unit) :=
  frame ←! encode_frame e body;
  perform (SendRaw s frame).

Definition send_register_ack (s : sink) (msg_id : string) (register : RegisterBody) :
    routerM (Result unit) :=
  now ← perform NowTs;
  let e := build_envelope KIND_RESPONSE msg_id ROUTER_PEER_ID (reg_peer_id register) now in
  body ←! encode_register_ack_body build_ack_body;
  send_frame s e body.

Definition send_error_and_close (s : sink) (msg_id code message : string) :
    routerM (Result unit) :=
  now ← perform NowTs;
  let e := build_envelope KIND_ERROR msg_id ROUTER_PEER_ID ROUTER_PEER_ID now in
  body ←! encode_error_body (build_error_body code message);
  send_frame s e body.

Definition send_peer_error (s : sink) (msg_id code message : string) :
    routerM (Result unit) :=
  now ← perform NowTs;
  let e := build_envelope KIND_ERROR msg_id ROUTER_PEER_ID ROUTER_PEER_ID now in
  body ←! encode_error_body (build_error_body code message);
  send_frame s e body.

(** * Routing *)

Definition route_to_target (e : Envelope) (raw : bytes) (s : sink) (kind : string) :
    routerM (Result unit) :=
  found ← perform (SnapshotPeerExists (env_to e));
  if negb found
  then send_peer_error s (msg_id e) "peer_not_found" (kind +:+ " target not found")
  else
    target ← perform (SenderByPeerId (env_to e));
    match target with
    | None => send_peer_error s (msg_id e) "peer_not_found" (kind +:+ " target not found")
    | Some target_sink =>
        sent ← perform (SendRaw target_sink raw);
        match sent with
        | Ok _ => Ret (Ok tt)
        | Err _ =>
            _ ← perform (RemoveByPeerId (env_to e));
            send_peer_error s (msg_id e) "peer_not_found" (kind +:+ " target disconnected")
        end
    end.

Definition route_or_error (e : Envelope) (raw : bytes) (kind : string) (s : sink) :
    routerM (Result unit) :=
  class ← perform (SnapshotPeerClass (env_to e));
  match decide_route_target kind class with
  | Deliver => route_to_target e raw s kind
  | Reject code message => send_peer_error s (msg_id e) code message
  end.

(** * Message handlers *)

Definition handle_query (s : sink) (current_peer_id : string) (e : Envelope) (body : bytes) :
    routerM (Result unit) :=
  query ←! decode_query_body body;
  response ←?
    match query with
    | PeerExists peer_id =>
        snapshot ← perform (LookupByPeerId peer_id);
        let exists_ := bool_decide (is_Some snapshot) in
        Ret (encode_query_exists_response peer_id exists_ (snap_class <$> snapshot) exists_)
    | PeerGet peer_id =>
        snapshot ← perform (LookupByPeerId peer_id);
        let exists_ := bool_decide (is_Some snapshot) in
        Ret (encode_query_get_response peer_id exists_ (snap_class <$> snapshot)
               (default false (snap_connected <$> snapshot)))
    end;
  let response_envelope :=
    mkEnvelope (v e) KIND_RESPONSE (msg_id e) ROUTER_PEER_ID current_peer_id (ts e) in
  send_frame s response_envelope response.

Definition handle_call (s : sink) (current_class : PeerClass) (e : Envelope) (raw : bytes) :
    routerM (Result unit) :=
  match current_class with
  | Caller => route_or_error e raw "call" s
  | Service =>
      send_peer_error s (msg_id e) "invalid_source_class"
        "call traffic must originate from a caller peer"
  end.

Definition handle_response (s : sink) (current_class : PeerClass) (e : Envelope) (raw : bytes) :
    routerM (Result unit) :=
  match current_class with
  | Service => route_to_target e raw s "response"
  | Caller =>
      send_peer_error s (msg_id e) "invalid_source_class"
        "response traffic must originate from a service peer"
  end.

Definition handle_error (s : sink) (current_class : PeerClass) (e : Envelope) (raw : bytes) :
    routerM (Result unit) :=
  match current_class with
  | Service => route_or_error e raw "error" s
  | Caller =>
      send_peer_error s (msg_id e) "invalid_source_class"
        "error traffic must originate from a service peer"
  end.

Definition handle_heartbeat (s : sink) (current_peer_id : string) (e : Envelope) (raw : bytes) :
    routerM (Result unit) :=
  _ ← perform (MarkHeartbeat current_peer_id);
  found ← perform (SnapshotPeerExists (env_to e));
  if (found : bool)
  then route_to_target e raw s "heartbeat"
  else
    let echoed_envelope :=
      build_envelope KIND_HEARTBEAT (msg_id e) ROUTER_PEER_ID current_peer_id (ts e) in
    body ←! encode_register_ack_body build_ack_body;
    send_frame s echoed_envelope body.

Definition handle_disconnect (s : sink) (current_peer_id : string) (e : Envelope) :
    routerM (Result unit) :=
  _ ← perform (RemoveByPeerId current_peer_id);
  let response_envelope :=
    build_envelope KIND_RESPONSE (msg_id e) ROUTER_PEER_ID current_peer_id (ts e) in
  body ←! encode_register_ack_body build_ack_body;
  send_frame s response_envelope body.

(** * The message loop *)

Inductive Flow : Set := Continue | Break.

(** The dispatch of one decoded frame of a registered peer. *)
Definition dispatch (s : sink) (peer_id : string) (class : PeerClass) (raw : bytes)
    (frame : FrameParts) : routerM (Result Flow) :=
  let e := envelope frame in
  let continue_after p := _ ←? p; Ret (Ok Continue) in
  if negb (env_from e =? peer_id)%string
  then continue_after (send_peer_error s (msg_id e) "invalid_source"
         "envelope.from does not match registered peer")
  else if (kind e =? KIND_QUERY)%string
  then continue_after (handle_query s peer_id e (body_bytes frame))
  else if (kind e =? KIND_CALL)%string
  then continue_after (handle_call s class e raw)
  else if (kind e =? KIND_RESPONSE)%string
  then continue_after (handle_response s class e raw)
  else if (kind e =? KIND_ERROR)%string
  then continue_after (handle_error s class e raw)
  else if (kind e =? KIND_HEARTBEAT)%string
  then continue_after (handle_heartbeat s peer_id e raw)
  else if (kind e =? KIND_DISCONNECT)%string
  then _ ←? handle_disconnect s peer_id e; Ret (Ok Break)
  else continue_after (send_peer_error s (msg_id e) "unsupported_kind"
         ("unsupported message kind: " +:+ kind e)).

(** One iteration of the [while let] loop. *)
Definition handle_message (s : sink) (peer_id : string) (class : PeerClass) (item : WsItem) :
    routerM (Result Flow) :=
  match item with
  | Ok (Binary raw) =>
      frame ←! decode_frame raw;
      dispatch s peer_id class raw frame
  | Ok Close => Ret (Ok Break)
  | Ok (Ping _) | Ok (Pong _) => Ret (Ok Continue)
  | Ok _ =>
      _ ←? send_peer_error s "unknown" "non_binary_message"
             "router only accepts binary websocket messages";
      Ret (Ok Break)
  | Err err => Ret (Err (WebSocket err))
  end.

Fixpoint message_loop (s : sink) (peer_id : string) (class : PeerClass) (source : list WsItem) :
    routerM (Result unit) :=
  match source with
  | [] => Ret (Ok tt)
  | item :: source =>
      flow ←? handle_message s peer_id class item;
      match flow with
      | Continue => message_loop s peer_id class source
      | Break => Ret (Ok tt)
      end
  end.

(** * Registration *)

(** The first frame of a connection. *)
Definition first_frame (first : option WsItem) : Result FrameParts :=
  let? message :=
    match first with
    | Some (Ok message) => Ok message
    | Some (Err err) => Err (WebSocket err)
    | None => Err ConnectionClosed
    end in
  let? first_bytes := ensure_binary_ws_message message in
  decode_frame first_bytes.

(** The code before the loop.  The first component is the value of
    [registered_peer_id]; the second is an error, an early [return Ok(())]
    ([Ok None]), or the identity with which the loop is entered. *)
Definition register_phase (s : sink) (first : option WsItem) :
    routerM (option string * Result (option (string * PeerClass))) :=
  let rejected (r : Result unit) := Ret (None, and_then r (fun _ => Ok None)) in
  match first_frame first with
  | Err e => Ret (None, Err e)
  | Ok frame =>
      if negb (kind (envelope frame) =? KIND_REGISTER)%string
      then
        r ← send_error_and_close s (msg_id (envelope frame)) "register.required"
              "first message must be register";
        rejected r
      else
        match
          (let? register := decode_register_body (body_bytes frame) in
           let? _ := validate_register_envelope (envelope frame) register in
           Ok register)
        with
        | Err e => Ret (None, Err e)
        | Ok register =>
            inserted ← perform (InsertLivePeer (reg_peer_id register) (reg_class register) s);
            match inserted with
            | Ok _ =>
                acked ← send_register_ack s (msg_id (envelope frame)) register;
                Ret (Some (reg_peer_id register),
                     and_then acked
                       (fun _ => Ok (Some (reg_peer_id register, reg_class register))))
            | Err (DuplicatePeerId peer_id) =>
                r ← send_error_and_close s (msg_id (envelope frame)) "duplicate_peer_id"
                      ("peer_id " +:+ peer_id +:+ " is already live");
                rejected r
            | Err err => Ret (None, Err err)
            end
        end
  end.

(** The whole connection: handshake, registration, loop, and the removal of
    the registered id on every way out.  [source] is what the peer sends. *)
Definition handle_connection (s : sink) (accepted : result unit string) (source : list WsItem) :
    routerM (Result unit) :=
  match accepted with
  | Err err => Ret (Err (WebSocket err))
  | Ok _ =>
      phase ← register_phase s (head source);
      let '(registered_peer_id, outcome) := phase in
      result ←
        match outcome with
        | Err e => Ret (Err e)
        | Ok None => Ret (Ok tt)
        | Ok (Some (peer_id, peer_class)) => message_loop s peer_id peer_class (tail source)
        end;
      match registered_peer_id with
      | Some peer_id => _ ← perform (RemoveByPeerId peer_id); Ret result
      | None => Ret result
      end
  end.

End server.
