(* ===== verification/RouterSpec.v ===== *)
(** What the router promises for one frame of a registered peer, and that the
    handlers of [Server] implement it.

    The specification is a function of the routing table alone: which frames
    leave the router, to whom, and how the table changes.  It does not mention
    the sequence of registry reads, sends and removals that the code performs;
    the refinement theorem says that a handler run without interference has
    exactly the specified effect. *)

From S2P Require Import Prelude Prog Float64 Wire Protocol RefCodec Registry Server.

Local Open Scope string_scope.
Local Open Scope rust_scope.

(** * The specification *)

(** The routing table: the class and the connection behind each live id. *)
Abbreviation Table := (gmap string (PeerClass * nat)).

(** A frame made by the router, up to its time stamp. *)
Inductive Notice : Set :=
| NError (msg_id code message : string)
| NAck (kind msg_id to : string) (ts : f64)
| NExists (ver : Z) (msg_id to : string) (ts : f64) (id : string) (class : option PeerClass)
| NGet (ver : Z) (msg_id to : string) (ts : f64) (id : string) (class : option PeerClass).

Inductive Effect : Set :=
| Forward (target : nat) (raw : bytes)
| Reply (n : Notice).

(** Which targets a kind accepts. *)
Definition target_allowed (k : string) (class : PeerClass) : bool :=
  match class with
  | Service => negb (k =? KIND_ERROR)
  | Caller => negb (k =? KIND_CALL)
  end.

Definition source_allowed (k : string) (class : PeerClass) : bool :=
  match class with
  | Service => negb (k =? KIND_CALL)
  | Caller => negb ((k =? KIND_RESPONSE) || (k =? KIND_ERROR))
  end.

Definition class_mismatch (k : string) : string :=
  if k =? KIND_CALL then "invalid target class" else "errors must target a caller peer".

Definition source_mismatch (k : string) : string :=
  if k =? KIND_CALL then "call traffic must originate from a caller peer"
  else if k =? KIND_RESPONSE then "response traffic must originate from a service peer"
  else "error traffic must originate from a service peer".

Section spec.
Context (writable : gset nat).

(** Delivery by id: forward to the live connection, or tell the sender. *)
Definition spec_route (tbl : Table) (e : Envelope) (raw : bytes) (k : string) :
    list Effect * Table :=
  match tbl !! env_to e with
  | None => ([Reply (NError (msg_id e) "peer_not_found" (k +:+ " target not found"))], tbl)
  | Some (class, s) =>
      if negb (target_allowed k class)
      then ([Reply (NError (msg_id e) "invalid_target_class" (class_mismatch k))], tbl)
      else if bool_decide (s ∈ writable)
      then ([Forward s raw], tbl)
      else ([Reply (NError (msg_id e) "peer_not_found" (k +:+ " target disconnected"))],
            delete (env_to e) tbl)
  end.

(** Traffic between peers: only from a class that may originate the kind. *)
Definition spec_traffic (tbl : Table) (class : PeerClass) (e : Envelope) (raw : bytes)
    (k : string) : list Effect * Table :=
  if negb (source_allowed k class)
  then ([Reply (NError (msg_id e) "invalid_source_class" (source_mismatch k))], tbl)
  else spec_route tbl e raw k.

Definition spec_query (tbl : Table) (id : string) (e : Envelope) (q : QueryBody) : Effect :=
  match q with
  | PeerExists p => Reply (NExists (v e) (msg_id e) id (ts e) p (fst <$> tbl !! p))
  | PeerGet p => Reply (NGet (v e) (msg_id e) id (ts e) p (fst <$> tbl !! p))
  end.

(** One frame [e] with bytes [raw] of the peer [id] of class [class]; [query]
    is its body as a query. *)
Definition spec_dispatch (tbl : Table) (id : string) (class : PeerClass) (e : Envelope)
    (raw : bytes) (query : Result QueryBody) : Result (list Effect * Table * Flow) :=
  let k := kind e in
  if negb (env_from e =? id)
  then Ok ([Reply (NError (msg_id e) "invalid_source"
              "envelope.from does not match registered peer")], tbl, Continue)
  else if k =? KIND_QUERY
  then let? q := query in Ok ([spec_query tbl id e q], tbl, Continue)
  else if (k =? KIND_CALL) || (k =? KIND_RESPONSE) || (k =? KIND_ERROR)
  then Ok (spec_traffic tbl class e raw k, Continue)
  else if k =? KIND_HEARTBEAT
  then match tbl !! env_to e with
       | Some _ => Ok (spec_route tbl e raw k, Continue)
       | None => Ok ([Reply (NAck KIND_HEARTBEAT (msg_id e) id (ts e))], tbl, Continue)
       end
  else if k =? KIND_DISCONNECT
  then Ok ([Reply (NAck KIND_RESPONSE (msg_id e) id (ts e))], delete id tbl, Break)
  else Ok ([Reply (NError (msg_id e) "unsupported_kind"
              ("unsupported message kind: " +:+ k))], tbl, Continue).
End spec.

(** What the first message of a connection leads to: the peer is registered,
    refused with a notice, or the connection is dropped with an error that is
    only logged. *)
Inductive Registration : Set :=
| Registered (id : string) (class : PeerClass)
| Rejected (n : Notice)
| Dropped (e : RouterError).

Definition spec_register {RC : RouterCodec} (tbl : Table) (first : option WsItem) : Registration :=
  match first_frame first with
  | Err e => Dropped e
  | Ok f =>
      let e := envelope f in
      if negb (kind e =? KIND_REGISTER)
      then Rejected (NError (msg_id e) "register.required" "first message must be register")
      else match decode_register_body (body_bytes f) with
      | Err err => Dropped err
      | Ok r =>
          if negb (env_to e =? ROUTER_PEER_ID)
          then Dropped (MalformedRegisterBody "register target must be router")
          else if negb (env_from e =? reg_peer_id r)
          then Dropped (MalformedRegisterBody "register body peer_id must match envelope.from")
          else match tbl !! reg_peer_id r with
          | Some _ => Rejected (NError (msg_id e) "duplicate_peer_id"
                        ("peer_id " +:+ reg_peer_id r +:+ " is already live"))
          | None => Registered (reg_peer_id r) (reg_class r)
          end
      end
  end.

(** * Refinement *)

Definition table (reg : PeerRegistry) : Table :=
  (fun r => (rec_class r, rec_sender r)) <$> reg.

Section refinement.
Context {RC : RouterCodec} {RCL : RouterCodecLaws RC}.

(** The bytes of a router frame. *)
Definition notice_frame (now : f64) (n : Notice) : Result bytes :=
  match n with
  | NError m code text =>
      let? body := encode_error_body (build_error_body code text) in
      encode_frame (build_envelope KIND_ERROR m ROUTER_PEER_ID ROUTER_PEER_ID now) body
  | NAck k m to ts =>
      let? body := encode_register_ack_body build_ack_body in
      encode_frame (build_envelope k m ROUTER_PEER_ID to ts) body
  | NExists ver m to ts id class =>
      let? body := encode_query_exists_response id (bool_decide (is_Some class)) class
                     (bool_decide (is_Some class)) in
      encode_frame (mkEnvelope ver KIND_RESPONSE m ROUTER_PEER_ID to ts) body
  | NGet ver m to ts id class =>
      let? body := encode_query_get_response id (bool_decide (is_Some class)) class
                     (bool_decide (is_Some class)) in
      encode_frame (mkEnvelope ver KIND_RESPONSE m ROUTER_PEER_ID to ts) body
  end.

Definition render (now : f64) (c : nat) (x : Effect) : nat * bytes :=
  match x with
  | Forward s raw => (s, raw)
  | Reply n => (c, match notice_frame now n with Ok b => b | Err _ => [] end)
  end.

Definition emit (w : World) (c : nat) (l : list Effect) : list (nat * bytes) :=
  outbox w ++ map (render (now_ts (system_time w)) c) l.

(** ** Sends *)

Lemma encode_frame_total e body : exists b, encode_frame e body = Ok b.
Proof.
  unfold encode_frame, encode_envelope. destruct (rmp_total e) as [b ->]. simpl. eauto.
Qed.

Lemma notice_frame_total now n : exists b, notice_frame now n = Ok b.
Proof.
  destruct n; simpl;
    unfold encode_error_body, encode_register_ack_body, encode_query_exists_response,
      encode_query_get_response;
    match goal with |- context [to_vec_named ?x] =>
      first [destruct (rcl_error_total x) as [? ->]|destruct (rmp_total x) as [? ->]] end;
    apply encode_frame_total.
Qed.

Lemma notice_frame_render now c n : notice_frame now n = Ok (render now c (Reply n)).2.
Proof. simpl. by destruct (notice_frame_total now n) as [b ->]. Qed.

(** After encoding a body [b] and sending it in a frame with envelope [e]. *)
Lemma exec_reply now c n w (enc : Result bytes) e :
  c ∈ writable w -> notice_frame now n = (let? body := enc in encode_frame e body) ->
  exec (lift_try enc (fun body => send_frame c e body)) w
  = (Ok tt, push_outbox c (render now c (Reply n)).2 w).
Proof.
  intros Hc Hn. pose proof (notice_frame_render now c n) as Hr. rewrite Hn in Hr.
  destruct enc as [body|]; simpl in *; [|done].
  unfold send_frame. rewrite Hr, Hn. unfold exec; simpl. unfold send_raw.
  by rewrite bool_decide_true, Hr.
Qed.

Lemma exec_send_peer_error c m code text w :
  c ∈ writable w ->
  exec (send_peer_error c m code text) w
  = (Ok tt, push_outbox c (render (now_ts (system_time w)) c (Reply (NError m code text))).2 w).
Proof. intros Hc. by apply (exec_reply _ _ (NError m code text) _ _ _ Hc). Qed.

Lemma exec_send_error_and_close c m code text w :
  c ∈ writable w ->
  exec (send_error_and_close c m code text) w
  = (Ok tt, push_outbox c (render (now_ts (system_time w)) c (Reply (NError m code text))).2 w).
Proof. apply exec_send_peer_error. Qed.

Lemma exec_send_register_ack c m r w :
  c ∈ writable w ->
  exec (send_register_ack c m r) w
  = (Ok tt, push_outbox c (render (now_ts (system_time w)) c
              (Reply (NAck KIND_RESPONSE m (reg_peer_id r) (now_ts (system_time w))))).2 w).
Proof. intros Hc. by apply (exec_reply _ _ (NAck _ m _ _) _ _ _ Hc). Qed.

Lemma exec_bind {A B} (p : routerM A) (f : A -> routerM B) w :
  exec (bind p f) w = exec (f (exec p w).1) (exec p w).2.
Proof. apply run_bind. Qed.

Lemma set_registry_id w : set_registry (registry w) w = w.
Proof. by destruct w. Qed.

Lemma exec_insert p class c w :
  exec (perform (InsertLivePeer p class c)) w =
  match registry w !! p with
  | Some _ => (Err (DuplicatePeerId p), w)
  | None => (Ok tt, set_registry (<[p := mkPeerRecord p class c true (Some (instant w))]>
                                   (registry w)) w)
  end.
Proof.
  unfold exec; simpl. unfold Registry.insert_live_peer.
  destruct (registry w !! p); simpl; by rewrite ?set_registry_id.
Qed.

Lemma exec_bind_try {A B} (p : routerM (Result A)) (f : A -> routerM (Result B)) w a w' :
  exec p w = (Ok a, w') -> exec (bind_try p f) w = exec (f a) w'.
Proof. unfold exec, bind_try. intros H. by rewrite run_bind, H. Qed.

(** What an execution of a handler leaves. *)
Definition effect (c : nat) (w w' : World) (l : list Effect) (tbl : Table) : Prop :=
  table (registry w') = tbl /\ outbox w' = emit w c l
  /\ writable w' = writable w /\ instant w' = instant w /\ system_time w' = system_time w.

Definition refines (c : nat) (p : routerM (Result unit)) (w : World)
    (spec : list Effect * Table) : Prop :=
  exists w', exec p w = (Ok tt, w') /\ effect c w w' spec.1 spec.2.

Lemma effect_reply c w n :
  effect c w (push_outbox c (render (now_ts (system_time w)) c (Reply n)).2 w) [Reply n]
    (table (registry w)).
Proof. done. Qed.

Lemma table_lookup reg p : table reg !! p = (fun r => (rec_class r, rec_sender r)) <$> reg !! p.
Proof. apply lookup_fmap. Qed.

Lemma route_to_target_refines c e raw k w :
  c ∈ writable w ->
  (forall r, registry w !! env_to e = Some r -> target_allowed k (rec_class r) = true) ->
  refines c (route_to_target e raw c k) w
    (spec_route (writable w) (table (registry w)) e raw k).
Proof.
  intros Hc Hcl. unfold refines, route_to_target, spec_route. rewrite table_lookup.
  unfold exec; simpl.
  unfold Registry.snapshot_peer_exists.
  destruct (registry w !! env_to e) as [r|] eqn:Er; simpl.
  - rewrite (Hcl r eq_refl). unfold Registry.sender_by_peer_id. rewrite Er; simpl.
    unfold send_raw.
    case_bool_decide as Hs; simpl.
    + eexists. split; done.
    + eexists. split; [by apply (exec_send_peer_error _ _ _ _ (set_registry _ w))|].
      split; [|done]. simpl. apply fmap_delete.
  - eexists. split; [by apply exec_send_peer_error|]. done.
Qed.

Lemma decide_route_target_spec k class :
  k <> KIND_RESPONSE ->
  decide_route_target k class =
  match class with
  | None => Reject "peer_not_found" (k +:+ " target not found")
  | Some cl => if target_allowed k cl then Deliver
               else Reject "invalid_target_class" (class_mismatch k)
  end.
Proof.
  intros Hk. apply String.eqb_neq in Hk.
  destruct class as [[]|]; simpl; rewrite ?Hk; unfold class_mismatch; try done.
  - destruct (String.eqb_spec k KIND_ERROR) as [->|]; done.
  - destruct (String.eqb_spec k KIND_CALL) as [->|]; done.
Qed.

Lemma route_or_error_refines c e raw k w :
  c ∈ writable w -> k <> KIND_RESPONSE ->
  refines c (route_or_error e raw k c) w
    (spec_route (writable w) (table (registry w)) e raw k).
Proof.
  intros Hc Hk. unfold refines, route_or_error.
  change (exec _ w) with
    (exec (match decide_route_target k (Registry.snapshot_peer_class (env_to e) (registry w)) with
           | Deliver => route_to_target e raw c k
           | Reject code message => send_peer_error c (msg_id e) code message
           end) w).
  rewrite decide_route_target_spec by done. unfold Registry.snapshot_peer_class.
  destruct (registry w !! env_to e) as [r|] eqn:Er; simpl.
  - destruct (target_allowed k (rec_class r)) eqn:Et.
    + apply route_to_target_refines; [done|]. intros ? Hr. by simplify_eq.
    + unfold spec_route. rewrite table_lookup, Er; simpl. rewrite Et; simpl.
      eexists. split; [by apply exec_send_peer_error|done].
  - unfold spec_route. rewrite table_lookup, Er; simpl.
    eexists. split; [by apply exec_send_peer_error|done].
Qed.

Lemma handle_heartbeat_refines c id e raw w :
  c ∈ writable w ->
  refines c (handle_heartbeat c id e raw) w
    match table (registry w) !! env_to e with
    | Some _ => spec_route (writable w) (table (registry w)) e raw "heartbeat"
    | None => ([Reply (NAck KIND_HEARTBEAT (msg_id e) id (ts e))], table (registry w))
    end.
Proof.
  intros Hc. set (w1 := set_registry (Registry.mark_heartbeat (instant w) id (registry w)) w).
  assert (Ht : table (registry w1) = table (registry w)).
  { apply map_eq; intros p. rewrite !table_lookup; simpl. unfold Registry.mark_heartbeat.
    rewrite lookup_alter. case_decide; [|done]. subst. by destruct (registry w !! p). }
  unfold refines. change (exec (handle_heartbeat c id e raw) w) with
    (exec (if Registry.snapshot_peer_exists (env_to e) (registry w1)
           then route_to_target e raw c "heartbeat"
           else lift_try (encode_register_ack_body build_ack_body) (fun body =>
             send_frame c (build_envelope KIND_HEARTBEAT (msg_id e) ROUTER_PEER_ID id (ts e)) body))
          w1).
  rewrite <- Ht, table_lookup. unfold Registry.snapshot_peer_exists.
  destruct (registry w1 !! env_to e) as [r|] eqn:Er; simpl.
  - destruct (route_to_target_refines c e raw "heartbeat" w1) as (w' & He & Heff); [done|..].
    + intros r' _. by destruct (rec_class r').
    + exists w'. split; [exact He|exact Heff].
  - eexists. split; [|done || apply (effect_reply c w1)].
    by apply (exec_reply (now_ts (system_time w)) c
                (NAck KIND_HEARTBEAT (msg_id e) id (ts e)) w1).
Qed.

Lemma handle_query_refines c id e body q w :
  c ∈ writable w -> Registry.wf (registry w) -> decode_query_body body = Ok q ->
  refines c (handle_query c id e body) w
    ([spec_query (table (registry w)) id e q], table (registry w)).
Proof.
  intros Hc Hwf Hq. unfold handle_query. rewrite Hq; simpl.
  set (n := match q with
    | PeerExists p => NExists (v e) (msg_id e) id (ts e) p (fst <$> table (registry w) !! p)
    | PeerGet p => NGet (v e) (msg_id e) id (ts e) p (fst <$> table (registry w) !! p) end).
  exists (push_outbox c (render (now_ts (system_time w)) c (Reply n)).2 w).
  replace (spec_query _ _ _ _) with (Reply n) by (by destruct q).
  split; [|apply effect_reply].
  destruct q as [p|p]; subst n.
  - apply (exec_reply _ _ (NExists _ _ _ _ _ _) _ _ _ Hc); simpl. do 2 f_equal;
    rewrite table_lookup; unfold Registry.lookup_by_peer_id; by destruct (registry w !! p).
  - apply (exec_reply _ _ (NGet _ _ _ _ _ _) _ _ _ Hc); simpl. do 2 f_equal;
    rewrite table_lookup; unfold Registry.lookup_by_peer_id;
    destruct (registry w !! p) as [r|] eqn:Er; simpl; try done.
    by destruct (Hwf _ _ Er) as [_ ->].
Qed.

Lemma handle_disconnect_refines c id e w :
  c ∈ writable w ->
  refines c (handle_disconnect c id e) w
    ([Reply (NAck KIND_RESPONSE (msg_id e) id (ts e))], delete id (table (registry w))).
Proof.
  intros Hc. set (w1 := set_registry (delete id (registry w)) w).
  exists (push_outbox c (render (now_ts (system_time w)) c
           (Reply (NAck KIND_RESPONSE (msg_id e) id (ts e)))).2 w1).
  split; [|split; [apply fmap_delete|done]].
  by apply (exec_reply (now_ts (system_time w)) c
              (NAck KIND_RESPONSE (msg_id e) id (ts e)) w1).
Qed.

Lemma send_peer_error_refines c m code text w :
  c ∈ writable w ->
  refines c (send_peer_error c m code text) w ([Reply (NError m code text)], table (registry w)).
Proof. intros. eexists. split; [by apply exec_send_peer_error|apply effect_reply]. Qed.

Lemma handle_call_refines c class e raw w :
  c ∈ writable w ->
  refines c (handle_call c class e raw) w
    (spec_traffic (writable w) (table (registry w)) class e raw KIND_CALL).
Proof.
  intros Hc. destruct class; simpl.
  - by apply send_peer_error_refines.
  - by apply route_or_error_refines.
Qed.

Lemma handle_response_refines c class e raw w :
  c ∈ writable w ->
  refines c (handle_response c class e raw) w
    (spec_traffic (writable w) (table (registry w)) class e raw KIND_RESPONSE).
Proof.
  intros Hc. destruct class; simpl.
  - apply route_to_target_refines; [done|]. intros r _. by destruct (rec_class r).
  - by apply send_peer_error_refines.
Qed.

Lemma handle_error_refines c class e raw w :
  c ∈ writable w ->
  refines c (handle_error c class e raw) w
    (spec_traffic (writable w) (table (registry w)) class e raw KIND_ERROR).
Proof.
  intros Hc. destruct class; simpl.
  - by apply route_or_error_refines.
  - by apply send_peer_error_refines.
Qed.

(** A handler followed by the loop's decision. *)
Lemma refines_then c p w spec flow :
  refines c p w spec ->
  exists w', exec (bind_try p (fun _ => Ret (Ok (A := Flow) (E := RouterError) flow))) w = (Ok flow, w')
    /\ effect c w w' spec.1 spec.2.
Proof.
  intros (w' & Hp & He). exists w'. split; [|done]. by rewrite (exec_bind_try _ _ _ _ _ Hp).
Qed.

Lemma refines_then_pair c p w spec :
  refines c p w spec ->
  let '(effs, tbl, flow) := (spec, Continue) in
  exists w', exec (bind_try p (fun _ => Ret (Ok (A := Flow) (E := RouterError) flow))) w = (Ok flow, w')
    /\ effect c w w' effs tbl.
Proof. destruct spec. apply (refines_then c p w (_, _)). Qed.

(** C12: for every frame of a registered peer whose own sink is writable, and
    every registry in which records are well formed, [dispatch] run without
    interference has exactly the specified effect: the frames written, the
    recipients, the new routing table, whether the loop goes on, and the error
    when a query body does not decode. *)
Theorem dispatch_refines_spec c id class raw f w :
  c ∈ writable w -> Registry.wf (registry w) ->
  match spec_dispatch (writable w) (table (registry w)) id class (envelope f) raw
          (decode_query_body (body_bytes f)) with
  | Ok (effs, tbl, flow) =>
      exists w', exec (dispatch c id class raw f) w = (Ok flow, w') /\ effect c w w' effs tbl
  | Err err => exec (dispatch c id class raw f) w = (Err err, w)
  end.
Proof.
  intros Hc Hwf. unfold spec_dispatch, dispatch. set (e := envelope f).
  destruct (negb (env_from e =? id)); [by apply (refines_then c _ _ (_, _)), send_peer_error_refines|].
  destruct (String.eqb_spec (kind e) KIND_QUERY) as [_|_].
  { destruct (decode_query_body (body_bytes f)) as [q|er] eqn:Eq; simpl.
    - by apply (refines_then c _ _ (_, _)), handle_query_refines.
    - unfold handle_query. by rewrite Eq. }
  destruct (String.eqb_spec (kind e) KIND_CALL) as [->|_]; cbn [orb].
  { by apply refines_then_pair, handle_call_refines. }
  destruct (String.eqb_spec (kind e) KIND_RESPONSE) as [->|_]; cbn [orb].
  { by apply refines_then_pair, handle_response_refines. }
  destruct (String.eqb_spec (kind e) KIND_ERROR) as [->|_]; cbn [orb].
  { by apply refines_then_pair, handle_error_refines. }
  destruct (String.eqb_spec (kind e) KIND_HEARTBEAT) as [->|_]; cbn [orb].
  { pose proof (handle_heartbeat_refines c id e raw w Hc) as Hh.
    destruct (table (registry w) !! env_to e);
      [by apply refines_then_pair|by apply (refines_then c _ _ (_, _))]. }
  destruct (String.eqb_spec (kind e) KIND_DISCONNECT) as [_|_]; cbn [orb].
  { by apply (refines_then c _ _ (_, _)), handle_disconnect_refines. }
  by apply (refines_then c _ _ (_, _)), send_peer_error_refines.
Qed.

(** C19: the registration code run without interference implements
    [spec_register]: it registers the peer and acknowledges it, refuses it
    with an error frame that leaves the registry as it was, or drops the
    connection without writing anything. *)
Theorem register_phase_refines_spec c first w :
  c ∈ writable w ->
  match spec_register (table (registry w)) first with
  | Registered id class =>
      exists m w', exec (register_phase c first) w = ((Some id, Ok (Some (id, class))), w') /\
        effect c w w' [Reply (NAck KIND_RESPONSE m id (now_ts (system_time w)))]
          (<[id := (class, c)]> (table (registry w)))
  | Rejected n =>
      exists w', exec (register_phase c first) w = ((None, Ok None), w') /\
        effect c w w' [Reply n] (table (registry w))
  | Dropped e => exec (register_phase c first) w = ((None, Err e), w)
  end.
Proof.
  intros Hc. unfold spec_register, register_phase, validate_register_envelope.
  destruct (first_frame first) as [f|]; [|done].
  destruct (negb (kind (envelope f) =? KIND_REGISTER)).
  { rewrite exec_bind, exec_send_error_and_close by done.
    eexists. split; [done|apply effect_reply]. }
  destruct (decode_register_body (body_bytes f)) as [r|]; cbn [and_then]; [|done].
  destruct (negb (env_to (envelope f) =? ROUTER_PEER_ID)); [done|].
  destruct (negb (env_from (envelope f) =? reg_peer_id r)); [done|]. cbn [and_then].
  rewrite table_lookup, exec_bind, exec_insert.
  destruct (registry w !! reg_peer_id r) as [old|]; cbn [fst snd fmap option_fmap option_map].
  - rewrite exec_bind, exec_send_error_and_close by done.
    eexists. split; [done|apply effect_reply].
  - rewrite exec_bind, exec_send_register_ack by done.
    exists (msg_id (envelope f)). eexists. split; [done|].
    split; [|done]. simpl. unfold table. by rewrite fmap_insert.
Qed.

(** Although [decide_route_target] refuses a response addressed to a
    service, [handle_response] never asks it: a response of a service to
    another live service is forwarded to that service. *)
Theorem response_to_service_is_forwarded c e raw w r :
  registry w !! env_to e = Some r -> rec_class r = Service -> rec_sender r ∈ writable w ->
  decide_route_target KIND_RESPONSE (Some (rec_class r))
    = Reject "invalid_target_class" "responses must target a caller peer"
  /\ exec (handle_response c Service e raw) w = (Ok tt, push_outbox (rec_sender r) raw w).
Proof.
  intros Hr Hcl Hs. rewrite Hcl. split; [done|]. unfold exec; simpl.
  unfold Registry.snapshot_peer_exists. rewrite Hr; simpl.
  unfold Registry.sender_by_peer_id. rewrite Hr; simpl.
  unfold send_raw. by rewrite bool_decide_true.
Qed.

(** A query whose body does not decode ends the connection with
    [MalformedQueryBody] and nothing is written to the peer: no error frame
    answers it. *)
Theorem malformed_query_is_not_answered c id class raw f w err :
  decode_frame raw = Ok f -> env_from (envelope f) = id -> kind (envelope f) = KIND_QUERY ->
  decode_query_body (body_bytes f) = Err err ->
  exec (handle_message c id class (Ok (Binary raw))) w = (Err err, w)
  /\ exec (message_loop c id class [Ok (Binary raw)]) w = (Err err, w).
Proof.
  intros Hf Hid Hk Hq.
  assert (H : exec (handle_message c id class (Ok (Binary raw))) w = (Err err, w)).
  { simpl. rewrite Hf; simpl. unfold dispatch. rewrite Hid, String.eqb_refl, Hk; simpl.
    unfold handle_query. by rewrite Hq. }
  split; [done|]. unfold message_loop, bind_try. rewrite exec_bind, H. done.
Qed.

End refinement.
