(* ===== verification/RouterSafety.v ===== *)
(** The router as a whole: [serve] of [router/src/server.rs] with any number
    of connection tasks interleaved at every operation on shared state.

    The transition system is executable ([apply_action]); its invariants are
    proved by induction on runs, from properties of the program of one
    connection. *)

From S2P Require Import Prelude Prog Float64 Wire Protocol Registry Server.

Local Open Scope string_scope.

(** * The transition system *)

Record Task : Type := mkTask {
  t_source : list WsItem;
  t_prog : routerM (Result unit);
}.

(** [history] records, for every frame written, the connection whose task
    wrote it, the sink it was written to, and the bytes. *)
Record RouterState : Type := mkRouter {
  tasks : gmap nat Task;
  world : World;
  history : list (nat * nat * bytes);
}.

Inductive Action : Type :=
| Accept (c : nat) (accepted : result unit string) (source : list WsItem)
| TaskStep (c : nat)
| ClockTick (d_instant d_system : Z)
| TransportLost (c : nat).

Section router.
Context {RC : RouterCodec}.

(** [serve] accepts a connection and spawns its task; a task performs its next
    operation; the environment moves the clocks and loses transports. *)
Definition apply_action (a : Action) (st : RouterState) : option RouterState :=
  let w := world st in
  match a with
  | Accept c accepted source =>
      match tasks st !! c with
      | Some _ => None
      | None =>
          Some (mkRouter
            (<[c := mkTask source (handle_connection c accepted source)]> (tasks st))
            (mkWorld (registry w) (instant w) (system_time w) ({[c]} ∪ writable w) (outbox w))
            (history st))
      end
  | TaskStep c =>
      t ← tasks st !! c;
      '(p', w') ← step1 handle_op (t_prog t) w;
      Some (mkRouter (<[c := mkTask (t_source t) p']> (tasks st)) w'
              (history st ++ map (fun '(s, raw) => (c, s, raw))
                                 (drop (length (outbox w)) (outbox w'))))
  | ClockTick d1 d2 =>
      Some (mkRouter (tasks st)
              (mkWorld (registry w) (instant w + Z.max 0 d1) (system_time w + d2)
                 (writable w) (outbox w))
              (history st))
  | TransportLost c =>
      Some (mkRouter (tasks st)
              (mkWorld (registry w) (instant w) (system_time w) (writable w ∖ {[c]}) (outbox w))
              (history st))
  end.

Definition router_init : RouterState :=
  mkRouter ∅ (mkWorld Registry.new 0 0 ∅ []) [].

Definition router_step (st st' : RouterState) : Prop :=
  exists a, apply_action a st = Some st'.

Definition reachable (st : RouterState) : Prop := star router_step router_init st.

Fixpoint run_actions (l : list Action) (st : RouterState) : option RouterState :=
  match l with
  | [] => Some st
  | a :: l => st' ← apply_action a st; run_actions l st'
  end.

Lemma run_actions_star l st st' :
  run_actions l st = Some st' -> star router_step st st'.
Proof.
  revert st. induction l as [|a l IH]; simpl; intros st H.
  - simplify_eq. constructor.
  - destruct (apply_action a st) as [st1|] eqn:E; simplify_eq/=.
    eapply star_trans; [|by apply IH]. apply star_one. by exists a.
Qed.

(** * What the program of a connection may do *)

(** The operation is an insertion that the answer accepts, of this id. *)
Definition inserted (X : Set) (e : routerE X) : X -> option string :=
  match e in routerE X return X -> option string with
  | InsertLivePeer p _ _ => fun r => match r with Ok _ => Some p | Err _ => None end
  | _ => fun _ => None
  end.

Definition not_insert (X : Set) (e : routerE X) : Prop :=
  match e with InsertLivePeer _ _ _ => False | _ => True end.

Definition inserts_as (c : nat) (X : Set) (e : routerE X) : Prop :=
  match e with InsertLivePeer _ _ s => s = c | _ => True end.

Definition is_remove (q : string) (X : Set) (e : routerE X) : Prop :=
  match e with RemoveByPeerId p => p = q | _ => False end.

(** On every path the program removes [q] before it returns. *)
Fixpoint will_remove {A} (q : string) (p : routerM A) : Prop :=
  match p with
  | Ret _ => False
  | Do e k => is_remove q _ e \/ forall x, will_remove q (k x)
  end.

Definition owes {A} (q : string) (p : routerM A) : Prop :=
  all_ops not_insert p /\ will_remove q p.

(** Not registered yet: insertions carry the connection's own sink, and after
    one that succeeds the program owes the removal of the id. *)
Fixpoint unregistered {A} (c : nat) (p : routerM A) : Prop :=
  match p with
  | Ret _ => True
  | Do e k =>
      inserts_as c _ e /\
      forall x, match inserted _ e x with
                | Some q => owes q (k x)
                | None => unregistered c (k x)
                end
  end.

Lemma will_remove_bind {A B} q (p : routerM A) (f : A -> routerM B) :
  (forall a, will_remove q (f a)) -> will_remove q (bind p f).
Proof. intros Hf. induction p; simpl; auto. Qed.

Lemma not_insert_inserted (X : Set) (e : routerE X) x :
  not_insert X e -> inserted X e x = None.
Proof. by destruct e. Qed.

Lemma unregistered_no_insert {A} c (p : routerM A) :
  all_ops not_insert p -> unregistered c p.
Proof.
  induction p as [a|X e k IH]; simpl; [done|]. intros [He Hk]. split.
  - by destruct e.
  - intros x. rewrite not_insert_inserted by done. auto.
Qed.

(** * The programs of [Server] *)

Lemma send_frame_ops (P : forall X : Set, routerE X -> Prop) s e body :
  (forall raw, P _ (SendRaw s raw)) -> all_ops P (send_frame s e body).
Proof. intros H. apply all_ops_lift_try. intros raw _; simpl. auto. Qed.

Lemma send_peer_error_ops (P : forall X : Set, routerE X -> Prop) s m c t :
  P _ NowTs -> (forall raw, P _ (SendRaw s raw)) -> all_ops P (send_peer_error s m c t).
Proof.
  intros Hn Hs. split; [done|]. intros ts.
  apply all_ops_lift_try. intros; by apply send_frame_ops.
Qed.

Lemma send_error_and_close_ops (P : forall X : Set, routerE X -> Prop) s m c t :
  P _ NowTs -> (forall raw, P _ (SendRaw s raw)) -> all_ops P (send_error_and_close s m c t).
Proof. apply send_peer_error_ops. Qed.

Lemma send_register_ack_ops (P : forall X : Set, routerE X -> Prop) s m r :
  P _ NowTs -> (forall raw, P _ (SendRaw s raw)) -> all_ops P (send_register_ack s m r).
Proof.
  intros Hn Hs. split; [done|]. intros ts.
  apply all_ops_lift_try. intros; by apply send_frame_ops.
Qed.

(** The operations a connection in its loop performs: no insertion, and a
    send goes to its own sink or carries the frame being handled, when its
    kind is routable for the class of the peer. *)
Definition routable (class : PeerClass) (k : string) : Prop :=
  match class with
  | Caller => k = KIND_CALL \/ k = KIND_HEARTBEAT
  | Service => k = KIND_RESPONSE \/ k = KIND_ERROR \/ k = KIND_HEARTBEAT
  end.

Definition loop_op (c : nat) (fwd : bytes -> Prop) (X : Set) (e : routerE X) : Prop :=
  match e with
  | InsertLivePeer _ _ _ => False
  | SendRaw s raw => s = c \/ fwd raw
  | _ => True
  end.

Lemma route_to_target_ops c (fwd : bytes -> Prop) e raw k :
  fwd raw -> all_ops (loop_op c fwd) (route_to_target e raw c k).
Proof.
  intros Hraw.
  assert (Herr : forall m cd t, all_ops (loop_op c fwd) (send_peer_error c m cd t))
    by (intros; apply send_peer_error_ops; simpl; auto).
  split; [done|]. intros []; simpl; [|apply Herr].
  split; [done|]. intros [s|]; simpl; [|apply Herr].
  split; [by right|]. intros []; simpl; [done|]. split; [done|]. intros; apply Herr.
Qed.

Lemma route_or_error_ops c (fwd : bytes -> Prop) e raw k :
  fwd raw -> all_ops (loop_op c fwd) (route_or_error e raw k c).
Proof.
  intros Hraw. split; [done|]. intros cl. simpl.
  destruct (decide_route_target k cl).
  - by apply route_to_target_ops.
  - apply send_peer_error_ops; simpl; auto.
Qed.

Lemma handle_query_ops c fwd q e body :
  all_ops (loop_op c fwd) (handle_query c q e body).
Proof.
  apply all_ops_lift_try. intros query _. apply all_ops_bind_try.
  - destruct query; (split; [done|]; intros; simpl; done).
  - intros. apply send_frame_ops; simpl; auto.
Qed.

Lemma handle_heartbeat_ops c (fwd : bytes -> Prop) q e raw :
  fwd raw -> all_ops (loop_op c fwd) (handle_heartbeat c q e raw).
Proof.
  intros Hraw. split; [done|]. intros ?; simpl. split; [done|]. intros []; simpl.
  - by apply route_to_target_ops.
  - apply all_ops_lift_try. intros. apply send_frame_ops; simpl; auto.
Qed.

Lemma handle_disconnect_ops c fwd q e :
  all_ops (loop_op c fwd) (handle_disconnect c q e).
Proof.
  split; [done|]. intros ?; simpl.
  apply all_ops_lift_try. intros. apply send_frame_ops; simpl; auto.
Qed.

(** A frame that the loop may forward for a peer. *)
Definition forwardable (peer_id : string) (class : PeerClass) (raw : bytes) : Prop :=
  exists f, decode_frame raw = Ok f /\ env_from (envelope f) = peer_id
            /\ routable class (kind (envelope f)).

Lemma dispatch_ops c q cl raw f :
  decode_frame raw = Ok f ->
  all_ops (loop_op c (fun b => b = raw /\ forwardable q cl b)) (dispatch c q cl raw f).
Proof.
  intros Hf. unfold dispatch.
  set (fwd := fun b => b = raw /\ forwardable q cl b).
  assert (Herr : forall m cd t, all_ops (loop_op c fwd) (send_peer_error c m cd t))
    by (intros; apply send_peer_error_ops; simpl; auto).
  assert (Hfwd : env_from (envelope f) = q -> routable cl (kind (envelope f)) -> fwd raw)
    by (intros; split; [done|]; by exists f).
  repeat case_match; apply all_ops_bind_try; try done; try apply Herr;
    rewrite ?negb_false_iff, ?String.eqb_eq in *.
  - apply handle_query_ops.
  - destruct cl; simpl; [apply Herr|]. apply route_or_error_ops. apply Hfwd; simpl; auto.
  - destruct cl; simpl; [|apply Herr]. apply route_to_target_ops. apply Hfwd; simpl; auto.
  - destruct cl; simpl; [|apply Herr]. apply route_or_error_ops. apply Hfwd; simpl; auto.
  - apply handle_heartbeat_ops. apply Hfwd; destruct cl; simpl; auto.
  - apply handle_disconnect_ops.
Qed.

Lemma loop_op_mono c (f g : bytes -> Prop) (X : Set) (e : routerE X) :
  (forall b, f b -> g b) -> loop_op c f X e -> loop_op c g X e.
Proof. destruct e; simpl; naive_solver. Qed.

(** A frame that the peer sent after its registration. *)
Definition received (source : list WsItem) (raw : bytes) : Prop :=
  In (Ok (Binary raw)) source.

Lemma handle_message_ops c q cl item :
  all_ops (loop_op c (fun b => item = Ok (Binary b) /\ forwardable q cl b))
    (handle_message c q cl item).
Proof.
  destruct item as [[]|]; try done;
    try (apply all_ops_bind_try; [apply send_peer_error_ops; simpl; auto|done]).
  apply all_ops_lift_try. intros f Hf.
  eapply all_ops_impl; [|by apply dispatch_ops].
  intros X e. apply loop_op_mono. intros raw [-> ?]. done.
Qed.

Lemma message_loop_ops c q cl source :
  all_ops (loop_op c (fun b => received source b /\ forwardable q cl b))
    (message_loop c q cl source).
Proof.
  induction source as [|item source IH]; [done|].
  apply all_ops_bind_try.
  - eapply all_ops_impl; [|apply handle_message_ops].
    intros X e. apply loop_op_mono. intros raw [-> ?]. split; [by left|done].
  - intros []; simpl; [|done]. eapply all_ops_impl; [|apply IH].
    intros X e. apply loop_op_mono. intros raw [??]. split; [by right|done].
Qed.

Lemma loop_op_not_insert c fwd (X : Set) (e : routerE X) :
  loop_op c fwd X e -> not_insert X e.
Proof. by destruct e. Qed.

(** * A connection registers at most once and cleans up after itself *)

(** The shape of the registration code: it returns an unset
    [registered_peer_id] unless an insertion succeeded, and then the id that
    was inserted. *)
Fixpoint registers {R} (c : nat) (p : routerM (option string * R)) : Prop :=
  match p with
  | Ret a => a.1 = None
  | Do e k =>
      inserts_as c _ e /\
      forall x, match inserted _ e x with
                | Some q => all_ops not_insert (k x) /\ all_rets (fun a => a.1 = Some q) (k x)
                | None => registers c (k x)
                end
  end.

Lemma registers_no_insert {R} c (p : routerM (option string * R)) :
  all_ops not_insert p -> all_rets (fun a => a.1 = None) p -> registers c p.
Proof.
  induction p as [a|X e k IH]; simpl; [done|]. intros [He Hk] Hr. split.
  - by destruct e.
  - intros x. rewrite not_insert_inserted by done. auto.
Qed.

Lemma owes_bind {R B} q (p : routerM (option string * R)) (f : option string * R -> routerM B) :
  all_ops not_insert p -> all_rets (fun a => a.1 = Some q) p ->
  (forall a, a.1 = Some q -> owes q (f a)) -> owes q (bind p f).
Proof.
  intros Hp Hr Hf. induction p as [a|X e k IH]; simpl in *; [by apply Hf|].
  destruct Hp as [He Hk]. split; simpl.
  - split; [done|]. intros x. by apply IH.
  - right. intros x. by apply IH.
Qed.

Lemma unregistered_bind {R B} c (p : routerM (option string * R))
    (f : option string * R -> routerM B) :
  registers c p ->
  (forall a, a.1 = None -> unregistered c (f a)) ->
  (forall q a, a.1 = Some q -> owes q (f a)) ->
  unregistered c (bind p f).
Proof.
  intros Hp Hn Hs. induction p as [a|X e k IH]; simpl in *; [by apply Hn|].
  destruct Hp as [He Hk]. split; [done|]. intros x. specialize (Hk x).
  destruct (inserted X e x) as [q|].
  - destruct Hk. apply owes_bind; auto.
  - auto.
Qed.

Lemma message_loop_no_insert c q cl source :
  all_ops not_insert (message_loop c q cl source).
Proof.
  eapply all_ops_impl; [|apply message_loop_ops]. intros X e. apply loop_op_not_insert.
Qed.

Lemma register_phase_registers c first : registers c (register_phase c first).
Proof.
  unfold register_phase.
  assert (Hrej : forall m cd t, registers c
      (bind (send_error_and_close c m cd t)
        (fun r => Ret (None, and_then r (fun _ => Ok (A := option (string * PeerClass)) None))))).
  { intros. apply registers_no_insert.
    - apply all_ops_bind; [by apply send_error_and_close_ops|done].
    - by apply all_rets_bind. }
  destruct (first_frame first) as [f|]; [|done].
  case_match; [apply Hrej|]. case_match; [|done].
  split; [done|]. intros [u|er]; cbn [inserted bind perform].
  - split.
    + apply all_ops_bind; [by apply send_register_ack_ops|done].
    + by apply all_rets_bind.
  - destruct er; done || apply Hrej.
Qed.

Lemma handle_connection_unregistered c accepted source :
  unregistered c (handle_connection c accepted source).
Proof.
  unfold handle_connection. destruct accepted; [|done].
  assert (Hloop : forall o : Result (option (string * PeerClass)),
    all_ops not_insert (match o with
      | Ok None => Ret (Ok tt)
      | Ok (Some (peer_id, peer_class)) => message_loop c peer_id peer_class (tail source)
      | Err e => Ret (Err e) end)).
  { intros [[[q cl]|]|]; try done. apply message_loop_no_insert. }
  apply unregistered_bind; [apply register_phase_registers| |].
  - intros [reg o] Hr; simpl in Hr; subst reg.
    by apply unregistered_no_insert, all_ops_bind.
  - intros q [reg o] Hr; simpl in Hr; subst reg. split.
    + by apply all_ops_bind.
    + apply will_remove_bind. intros; simpl; auto.
Qed.

(** * The routing table names live connections only *)

(** [c] is the sink of the entry at [q]. *)
Definition entry_of (c : nat) (q : string) (reg : PeerRegistry) : Prop :=
  exists r, reg !! q = Some r /\ rec_sender r = c.

(** What the registry may hold for a connection, by the state of its task. *)
Definition task_ok (c : nat) (p : routerM (Result unit)) (reg : PeerRegistry) : Prop :=
  (unregistered c p /\ forall q, ~ entry_of c q reg)
  \/ (exists q, owes q p /\ forall q', entry_of c q' reg -> q' = q)
  \/ (all_ops not_insert p /\ forall q, ~ entry_of c q reg).

Definition router_inv (st : RouterState) : Prop :=
  Registry.wf (registry (world st))
  /\ (forall c t, tasks st !! c = Some t -> task_ok c (t_prog t) (registry (world st)))
  /\ (forall c q, entry_of c q (registry (world st)) -> is_Some (tasks st !! c)).

(** An operation only adds the entry it inserts. *)
Lemma handle_op_entry (X : Set) (e : routerE X) w c q :
  entry_of c q (registry (handle_op X e w).2) ->
  entry_of c q (registry w)
  \/ (inserted X e (handle_op X e w).1 = Some q /\ (forall c', inserts_as c' X e -> c' = c)).
Proof.
  destruct e as [p cl s| | |p| | |p|s raw|]; simpl; auto.
  - unfold Registry.insert_live_peer. destruct (registry w !! p) eqn:E; simpl; auto.
    intros (r & Hr & <-). rewrite lookup_insert in Hr. case_decide; simplify_eq/=; auto.
    left. by exists r.
  - intros (r & Hr & <-). simpl in Hr. apply lookup_delete_Some in Hr as [_ Hr].
    left. by exists r.
  - intros (r & Hr & <-). simpl in Hr. unfold Registry.mark_heartbeat in Hr.
    apply lookup_alter_Some in Hr as [(-> & r' & Hr' & ->)|[_ Hr]].
    + left. by exists r'.
    + left. by exists r.
  - unfold send_raw. case_match; simpl; auto.
Qed.

Lemma handle_op_remove (X : Set) (e : routerE X) w c q :
  is_remove q X e -> ~ entry_of c q (registry (handle_op X e w).2).
Proof.
  destruct e; simpl; try done. intros -> (r & Hr & _). simpl in Hr.
  by rewrite lookup_delete_eq in Hr.
Qed.

Lemma handle_op_wf (X : Set) (e : routerE X) w :
  Registry.wf (registry w) -> Registry.wf (registry (handle_op X e w).2).
Proof.
  destruct e as [p cl s| | |p| | |p|s raw|]; simpl; auto.
  - intros H. pose proof (Registry.wf_insert (instant w) p cl s _ H) as Hi.
    destruct (Registry.insert_live_peer _ _ _ _ _). done.
  - apply Registry.wf_remove.
  - apply Registry.wf_mark.
  - unfold send_raw. by case_match.
Qed.



(** The entries of [c] can only shrink: what a step of another task does. *)
Lemma task_ok_shrink c p reg reg' :
  (forall q, entry_of c q reg' -> entry_of c q reg) -> task_ok c p reg -> task_ok c p reg'.
Proof.
  intros Hs [[Hp Hn]|[(q & Hp & Hq)|[Hp Hn]]].
  - left. naive_solver.
  - right; left. exists q. naive_solver.
  - right; right. naive_solver.
Qed.

Lemma task_ok_inserts_as c (X : Set) (e : routerE X) k reg :
  task_ok c (Do e k) reg -> inserts_as c X e.
Proof.
  intros [[[He _] _]|[(q & [[He _] _] & _)|[[He _] _]]]; [done|by destruct e|by destruct e].
Qed.

Lemma handle_op_no_insert_entry (X : Set) (e : routerE X) w c q :
  not_insert X e -> entry_of c q (registry (handle_op X e w).2) -> entry_of c q (registry w).
Proof.
  intros He [|[Hi _]]%handle_op_entry; [done|].
  by rewrite not_insert_inserted in Hi.
Qed.

(** A task's own step. *)
Lemma task_ok_step c (X : Set) (e : routerE X) k w :
  task_ok c (Do e k) (registry w) ->
  task_ok c (k (handle_op X e w).1) (registry (handle_op X e w).2).
Proof.
  intros [[[He Hk] Hn]|[(q & [[He Hk] Hr] & Hq)|[[He Hk] Hn]]].
  - specialize (Hk (handle_op X e w).1).
    destruct (inserted X e (handle_op X e w).1) as [q|] eqn:Ei.
    + right; left. exists q. split; [done|].
      intros q' [Hold|[Hnew _]]%handle_op_entry; [by apply Hn in Hold|congruence].
    + left. split; [done|]. intros q' [Hold|[Hnew _]]%handle_op_entry; [by eapply Hn|congruence].
  - destruct Hr as [Hr|Hr].
    + right; right. split; [apply Hk|]. intros q' Hq'.
      assert (q' = q) as -> by eauto using handle_op_no_insert_entry.
      by eapply handle_op_remove.
    + right; left. exists q. split; [split; auto|].
      eauto using handle_op_no_insert_entry.
  - right; right. split; [apply Hk|]. intros q Hq.
    eapply Hn. eauto using handle_op_no_insert_entry.
Qed.

(** The state after a step of task [c]. *)
Definition after_task (c : nat) (src : list WsItem) (p' : routerM (Result unit)) (w' : World)
    (st : RouterState) : RouterState :=
  mkRouter (<[c := mkTask src p']> (tasks st)) w'
    (history st ++ map (fun '(s, raw) => (c, s, raw))
                       (drop (length (outbox (world st))) (outbox w'))).

Lemma task_step_inv c st st' :
  apply_action (TaskStep c) st = Some st' ->
  exists src (X : Set) (e : routerE X) k,
    tasks st !! c = Some (mkTask src (Do e k)) /\
    st' = after_task c src (k (handle_op X e (world st)).1) (handle_op X e (world st)).2 st.
Proof.
  simpl. destruct (tasks st !! c) as [[src [|X e k]]|]; simpl; [done| |done].
  destruct (handle_op X e (world st)) as [x w'] eqn:E; simpl. intros [= <-].
  exists src, X, e, k. by rewrite E.
Qed.

Lemma router_inv_task_step c src (X : Set) (e : routerE X) k st :
  router_inv st -> tasks st !! c = Some (mkTask src (Do e k)) ->
  router_inv (after_task c src (k (handle_op X e (world st)).1) (handle_op X e (world st)).2 st).
Proof.
  intros (Hwf & Hok & Hown) Ht.
  pose proof (Hok _ _ Ht) as Hc; simpl in Hc.
  pose proof (task_ok_step _ _ _ _ _ Hc) as Hc'.
  pose proof (task_ok_inserts_as _ _ _ _ _ Hc) as Hins.
  pose proof (handle_op_entry X e (world st)) as Hentry.
  split; [by apply handle_op_wf|]; split; simpl.
  - intros c' t'. rewrite lookup_insert. case_decide as Hcc; [naive_solver|].
    intros Ht'. eapply task_ok_shrink; [|by apply Hok].
    intros q [|[_ Hq]]%Hentry; [done|]. by apply Hq in Hins.
  - intros c' q. rewrite lookup_insert. case_decide as Hcc; [naive_solver|].
    intros [Hold|[_ Hq]]%Hentry; [by eapply Hown|]. by apply Hq in Hins.
Qed.

Lemma router_inv_step st st' : router_inv st -> router_step st st' -> router_inv st'.
Proof.
  intros Hinv [[c acc src|c|d1 d2|c] Ha]; [simpl in Ha| |simpl in Ha..].
  - destruct (tasks st !! c) eqn:E; simplify_eq. destruct Hinv as (Hwf & Hok & Hown).
    split; [done|]; split; simpl.
    + intros c' t'. rewrite lookup_insert. case_decide as Hcc; [|by apply Hok].
      intros [= <-]. subst c'. left. split; [apply handle_connection_unregistered|].
      intros q Hq. apply Hown in Hq as [? Hq]. congruence.
    + intros c' q Hq. rewrite lookup_insert. case_decide; [done|]. eauto.
  - apply task_step_inv in Ha as (src & X & e & k & Ht & ->).
    by apply router_inv_task_step.
  - by simplify_eq.
  - by simplify_eq.
Qed.

Lemma router_inv_reachable st : reachable st -> router_inv st.
Proof.
  apply star_invariant; [apply router_inv_step|].
  split; [apply Registry.wf_new|]. split; simpl.
  - intros c t. by rewrite lookup_empty.
  - intros c q (r & Hr & _). simpl in Hr. unfold Registry.new in Hr. by rewrite lookup_empty in Hr.
Qed.

(** * Every forwarded frame is genuine *)

(** The identity a connection registers with. *)
Definition identity_of (source : list WsItem) : option (string * PeerClass) :=
  match first_frame (head source) with
  | Ok f =>
      match decode_register_body (body_bytes f) with
      | Ok r => Some (reg_peer_id r, reg_class r)
      | Err _ => None
      end
  | Err _ => None
  end.

(** [raw] is a frame the peer sent after registering, with its registered id
    as [from] and a kind that its class may send. *)
Definition genuine (source : list WsItem) (raw : bytes) : Prop :=
  exists id class, identity_of source = Some (id, class)
    /\ received (tail source) raw /\ forwardable id class raw.

Definition conn_op (c : nat) (source : list WsItem) (X : Set) (e : routerE X) : Prop :=
  match e with SendRaw s raw => s = c \/ genuine source raw | _ => True end.

Lemma register_phase_ops c source first :
  all_ops (conn_op c source) (register_phase c first).
Proof.
  unfold register_phase. destruct (first_frame first) as [f|]; [|done].
  case_match; [apply all_ops_bind; [apply send_error_and_close_ops; simpl; auto|done]|].
  case_match; [|done]. split; [done|]. intros [|[]]; cbn [bind]; try done;
    (apply all_ops_bind; [|done]);
    (apply send_register_ack_ops || apply send_error_and_close_ops); simpl; auto.
Qed.

Lemma register_phase_identity c source :
  all_rets (fun a => match a.2 with Ok (Some i) => identity_of source = Some i | _ => True end)
    (register_phase c (head source)).
Proof.
  unfold register_phase, identity_of.
  destruct (first_frame (head source)) as [f|]; [|done].
  destruct (negb (kind (envelope f) =? KIND_REGISTER)); [by apply all_rets_bind; intros []|].
  destruct (decode_register_body (body_bytes f)) as [r|]; cbn [and_then]; [|done].
  destruct (validate_register_envelope (envelope f) r); cbn [and_then bind perform]; [|done].
  intros [|[]]; try done; apply all_rets_bind; by intros [].
Qed.

Lemma handle_connection_ops c accepted source :
  all_ops (conn_op c source) (handle_connection c accepted source).
Proof.
  unfold handle_connection. destruct accepted; [|done].
  eapply all_ops_bind_rets; [apply register_phase_ops|apply register_phase_identity|].
  intros [reg o]; simpl. intros Hid. apply all_ops_bind; [|by destruct reg].
  destruct o as [[[id cl]|]|]; try done.
  eapply all_ops_impl; [|apply message_loop_ops].
  intros X []; simpl; try done. intros [->|[Hr Hf]]; [by left|].
  right. by exists id, cl.
Qed.

Definition history_inv (st : RouterState) : Prop :=
  (forall c t, tasks st !! c = Some t -> all_ops (conn_op c (t_source t)) (t_prog t))
  /\ (forall a s raw, (a, s, raw) ∈ history st ->
       s = a \/ exists t, tasks st !! a = Some t /\ genuine (t_source t) raw).

(** A step appends at most the frame it sends. *)
Lemma handle_op_outbox (X : Set) (e : routerE X) w s raw :
  (s, raw) ∈ drop (length (outbox w)) (outbox (handle_op X e w).2) ->
  forall P : forall X : Set, routerE X -> Prop, P X e -> P _ (SendRaw s raw).
Proof.
  assert (Hnil : forall w', outbox w' = outbox w -> (s, raw) ∈ drop (length (outbox w)) (outbox w') -> False).
  { intros w' ->. rewrite drop_all. by intros ?%elem_of_nil. }
  destruct e as [p cl t| | |p| | |p|t b|]; simpl; intros Hin; try by apply Hnil in Hin.
  - unfold Registry.insert_live_peer in Hin.
    destruct (registry w !! p); simpl in Hin; by apply Hnil in Hin.
  - unfold send_raw in Hin. case_match; simpl in Hin; [|by apply Hnil in Hin].
    rewrite drop_app_length in Hin. apply list_elem_of_singleton in Hin. by simplify_eq.
Qed.

Lemma history_inv_step st st' : history_inv st -> router_step st st' -> history_inv st'.
Proof.
  intros [Hops Hhist] [[c acc src|c|d1 d2|c] Ha]; [simpl in Ha| |simpl in Ha..].
  - destruct (tasks st !! c) eqn:E; simplify_eq. split; simpl.
    + intros c' t'. rewrite lookup_insert. case_decide; [|apply Hops].
      intros [= <-]. subst. apply handle_connection_ops.
    + intros a s raw [|(t & Ht & Hg)]%Hhist; [by left|]. right.
      rewrite lookup_insert. case_decide; [congruence|eauto].
  - apply task_step_inv in Ha as (src & X & e & k & Ht & ->).
    pose proof (Hops _ _ Ht) as [He Hk]; simpl in He, Hk. split; simpl.
    + intros c' t'. rewrite lookup_insert. case_decide; [|apply Hops].
      intros [= <-]. subst. apply Hk.
    + intros a s raw. rewrite elem_of_app, lookup_insert. intros [[|(t & Hta & Hg)]%Hhist|Hin].
      * by left.
      * right. case_decide; [|by eauto]. simplify_eq. by eexists.
      * apply list_elem_of_fmap in Hin as ([s' b] & [= -> -> ->] & Hin).
        pose proof (handle_op_outbox _ _ _ _ _ Hin (conn_op c src) He) as [->|Hg]; [by left|].
        right. rewrite decide_True by done. by eexists.
  - by simplify_eq.
  - by simplify_eq.
Qed.

Lemma history_inv_reachable st : reachable st -> history_inv st.
Proof.
  apply star_invariant; [apply history_inv_step|]. split; simpl.
  - intros c t. by rewrite lookup_empty.
  - intros a s raw. by intros ?%elem_of_nil.
Qed.

(** * Properties *)

(** C10: in every reachable state, each routing entry leads to a connection
    whose task is still running and which, on every way its program can go,
    will remove that entry's id before it returns: a finished connection is
    never a routing target. *)
Theorem routing_entries_are_live st q r :
  reachable st -> registry (world st) !! q = Some r ->
  exists t, tasks st !! rec_sender r = Some t /\ will_remove q (t_prog t).
Proof.
  intros (_ & Hok & Hown)%router_inv_reachable Hr.
  assert (He : entry_of (rec_sender r) q (registry (world st))) by (by exists r).
  destruct (Hown _ _ He) as [t Ht]. exists t. split; [done|].
  destruct (Hok _ _ Ht) as [[_ Hn]|[(q' & [_ Hrm] & Hq)|[_ Hn]]]; [by apply Hn in He| |by apply Hn in He].
  by rewrite (Hq _ He).
Qed.

(** C11: in every reachable state, the record stored under an id carries that
    id and is marked connected, and no two ids share a connection: the id of
    a peer determines its connection and conversely. *)
Theorem registry_is_injective st :
  reachable st ->
  Registry.wf (registry (world st)) /\
  forall q1 q2 r1 r2,
    registry (world st) !! q1 = Some r1 -> registry (world st) !! q2 = Some r2 ->
    rec_sender r1 = rec_sender r2 -> q1 = q2.
Proof.
  intros (Hwf & Hok & Hown)%router_inv_reachable. split; [done|].
  intros q1 q2 r1 r2 H1 H2 Hs.
  assert (E1 : entry_of (rec_sender r1) q1 (registry (world st))) by (by exists r1).
  assert (E2 : entry_of (rec_sender r1) q2 (registry (world st))) by (by exists r2).
  destruct (Hown _ _ E1) as [t Ht].
  destruct (Hok _ _ Ht) as [[_ Hn]|[(q & _ & Hq)|[_ Hn]]]; [by apply Hn in E1| |by apply Hn in E1].
  by rewrite (Hq _ E1), (Hq _ E2).
Qed.

(** In every reachable state, a frame that the task of connection [a]
    wrote to another connection's sink is, byte for byte, a frame the peer of
    [a] sent after registering; its envelope's [from] is the id that peer
    registered, and its kind is one its class may originate (a caller's calls,
    a service's responses and errors, heartbeats). *)
Theorem forwarded_frames_are_genuine st a s raw :
  reachable st -> (a, s, raw) ∈ history st -> s <> a ->
  exists t id class f,
    tasks st !! a = Some t
    /\ identity_of (t_source t) = Some (id, class)
    /\ In (Ok (Binary raw)) (tail (t_source t))
    /\ decode_frame raw = Ok f /\ env_from (envelope f) = id
    /\ routable class (kind (envelope f)).
Proof.
  intros [_ Hh]%history_inv_reachable Hin Hne.
  destruct (Hh _ _ _ Hin) as [|(t & Ht & id & cl & Hid & Hrc & f & Hf & Hfrom & Hk)]; [done|].
  by exists t, id, cl, f.
Qed.

End router.
