(* ===== verification/RouterTypes.v ===== *)
(** What the router writes: every frame has a type.

    A frame that the task of a connection writes is either one it received
    after the registration and passes on, of a kind that is routed, or one it
    built: version 5, from the router, with the body its kind calls for. *)

From S2P Require Import Prelude Prog Float64 Wire Protocol Registry Server RouterSafety.

Local Open Scope string_scope.

Section types.
Context {RC : RouterCodec}.

(** The bodies of the frames the router builds, by kind. *)
Inductive built_body : string -> bytes -> Prop :=
| BAck k b :
    k = KIND_RESPONSE \/ k = KIND_HEARTBEAT ->
    encode_register_ack_body build_ack_body = Ok b -> built_body k b
| BExists id known class b :
    encode_query_exists_response id known class known = Ok b -> built_body KIND_RESPONSE b
| BGet id known class connected b :
    encode_query_get_response id known class connected = Ok b -> built_body KIND_RESPONSE b
| BError code message b :
    encode_error_body (build_error_body code message) = Ok b -> built_body KIND_ERROR b.

Definition routed_kind (k : string) : Prop :=
  k = KIND_CALL \/ k = KIND_RESPONSE \/ k = KIND_ERROR \/ k = KIND_HEARTBEAT.

(** A frame written by the task of a connection that sends [source]. *)
Inductive router_frame (source : list WsItem) (raw : bytes) : Prop :=
| Forwarded f :
    received (tail source) raw -> decode_frame raw = Ok f ->
    routed_kind (kind (envelope f)) -> router_frame source raw
| Built e body :
    v e = PROTOCOL_VERSION -> env_from e = ROUTER_PEER_ID -> built_body (kind e) body ->
    encode_frame e body = Ok raw -> router_frame source raw.

Section connection.
Context (source : list WsItem).

Definition typed_op (X : Set) (e : routerE X) : Prop :=
  match e with SendRaw _ raw => router_frame source raw | _ => True end.

Abbreviation typed p := (all_ops typed_op p).

(** * The handlers *)

Lemma send_frame_typed s e body :
  v e = PROTOCOL_VERSION -> env_from e = ROUTER_PEER_ID -> built_body (kind e) body ->
  typed (send_frame s e body).
Proof.
  intros Hv Hf Hb. apply all_ops_lift_try. intros raw Hraw. split; [|done].
  by apply (Built source raw e body).
Qed.

Lemma send_peer_error_typed s m c t : typed (send_peer_error s m c t).
Proof.
  split; [done|]. intros now. apply all_ops_lift_try. intros b Hb.
  apply send_frame_typed; [done|done|]. by eapply BError.
Qed.

Lemma send_error_and_close_typed s m c t : typed (send_error_and_close s m c t).
Proof. apply send_peer_error_typed. Qed.

Lemma send_register_ack_typed s m r : typed (send_register_ack s m r).
Proof.
  split; [done|]. intros now. apply all_ops_lift_try. intros b Hb.
  apply send_frame_typed; [done|done|]. apply BAck; [by left|done].
Qed.

Hint Resolve send_peer_error_typed send_error_and_close_typed send_register_ack_typed : mf.

Lemma route_to_target_typed s e raw k : router_frame source raw -> typed (route_to_target e raw s k).
Proof.
  intros Hraw. split; [done|]. intros []; simpl; [|apply send_peer_error_typed].
  split; [done|]. intros [target|]; simpl; [|apply send_peer_error_typed].
  split; [done|]. intros []; simpl; [done|]. split; [done|]. intros; apply send_peer_error_typed.
Qed.

Hint Resolve route_to_target_typed : mf.

Lemma route_or_error_typed s e raw k : router_frame source raw -> typed (route_or_error e raw k s).
Proof.
  intros Hraw. split; [done|]. intros cl; simpl.
  destruct (decide_route_target k cl); [by apply route_to_target_typed|apply send_peer_error_typed].
Qed.

Hint Resolve route_or_error_typed : mf.

Lemma handle_query_typed s q e body :
  v e = PROTOCOL_VERSION -> typed (handle_query s q e body).
Proof.
  intros Hv. apply all_ops_lift_try. intros query _.
  destruct query as [id|id]; (split; [done|]); intros snap; cbn;
    match goal with |- context [encode_query_exists_response ?a ?b ?c ?d] =>
        destruct (encode_query_exists_response a b c d) eqn:E
    | |- context [encode_query_get_response ?a ?b ?c ?d] =>
        destruct (encode_query_get_response a b c d) eqn:E
    end; try done; apply send_frame_typed; try done; [by eapply BExists|by eapply BGet].
Qed.

Lemma handle_heartbeat_typed s q e raw : router_frame source raw -> typed (handle_heartbeat s q e raw).
Proof.
  intros Hraw. split; [done|]. intros ?; simpl. split; [done|].
  intros []; simpl; [by apply route_to_target_typed|].
  apply all_ops_lift_try. intros b Hb. apply send_frame_typed; [done|done|].
  apply BAck; [by right|done].
Qed.

Lemma handle_disconnect_typed s q e : typed (handle_disconnect s q e).
Proof.
  split; [done|]. intros ?; simpl. apply all_ops_lift_try. intros b Hb.
  apply send_frame_typed; [done|done|]. apply BAck; [by left|done].
Qed.

Hint Resolve handle_query_typed handle_heartbeat_typed handle_disconnect_typed : mf.

Lemma decoded_version raw f : decode_frame raw = Ok f -> v (envelope f) = PROTOCOL_VERSION.
Proof.
  unfold decode_frame. repeat case_match; try done. rewrite and_then_ok.
  intros (e & He & [= <-]). apply decode_envelope_ok in He as [_ Hv]. exact Hv.
Qed.

Lemma dispatch_typed s q cl raw f :
  received (tail source) raw -> decode_frame raw = Ok f -> typed (dispatch s q cl raw f).
Proof.
  intros Hin Hf. pose proof (decoded_version raw f Hf) as Hv. unfold dispatch.
  assert (Hraw : routed_kind (kind (envelope f)) -> router_frame source raw)
    by (intros; by apply (Forwarded source raw f)).
  unfold routed_kind in Hraw.
  repeat case_match; apply all_ops_bind_try; try done; auto with mf;
    rewrite ?negb_false_iff, ?String.eqb_eq in *; destruct cl; cbn [handle_call handle_response handle_error];
    auto 6 with mf.
Qed.

Lemma message_loop_typed s q cl l : l ⊆ tail source -> typed (message_loop s q cl l).
Proof.
  induction l as [|item l IH]; intros Hl; [done|].
  apply all_ops_bind_try; [|intros []; [apply IH; set_solver|done]].
  destruct item as [[]|]; try done; try (apply all_ops_bind_try; [auto with mf|done]).
  apply all_ops_lift_try. intros f Hf. apply dispatch_typed; [|done].
  apply list_elem_of_In. set_solver.
Qed.

Lemma register_phase_typed s first : typed (register_phase s first).
Proof.
  unfold register_phase. destruct (first_frame first) as [f|]; [|done].
  case_match; [apply all_ops_bind; [auto with mf|done]|].
  case_match; [|done]. split; [done|]. intros [|[]]; cbn [bind]; try done;
    (apply all_ops_bind; [auto with mf|done]).
Qed.

Lemma handle_connection_typed s accepted : typed (handle_connection s accepted source).
Proof.
  unfold handle_connection. destruct accepted; [|done].
  apply all_ops_bind; [apply register_phase_typed|]. intros [reg o].
  apply all_ops_bind; [|by destruct reg]. destruct o as [[[q cl]|]|]; try done.
  by apply message_loop_typed.
Qed.
End connection.

(** * The router *)

(** [raw] was written by the task of some connection. *)
Definition typed_frame (st : RouterState) (raw : bytes) : Prop :=
  exists c t, tasks st !! c = Some t /\ router_frame (t_source t) raw.

Definition typed_inv (st : RouterState) : Prop :=
  (forall c t, tasks st !! c = Some t -> all_ops (typed_op (t_source t)) (t_prog t)) /\
  (forall s raw, (s, raw) ∈ outbox (world st) -> typed_frame st raw).

(** An operation leaves what was written and appends at most what it sends. *)
Lemma handle_op_writes (X : Set) (e : routerE X) w s raw :
  (s, raw) ∈ outbox (handle_op X e w).2 ->
  (s, raw) ∈ outbox w \/ (s, raw) ∈ drop (length (outbox w)) (outbox (handle_op X e w).2).
Proof.
  destruct e as [p cl t| | |p| | |p|t b|]; simpl; auto.
  - unfold Registry.insert_live_peer. destruct (registry w !! p); simpl; auto.
  - unfold send_raw. case_match; simpl; auto. rewrite drop_app_length, elem_of_app. done.
Qed.

(** A step that keeps the sources keeps who wrote what. *)
Lemma typed_frame_mono st st' raw :
  (forall c t, tasks st !! c = Some t ->
     exists t', tasks st' !! c = Some t' /\ t_source t' = t_source t) ->
  typed_frame st raw -> typed_frame st' raw.
Proof.
  intros Hkeep (c & t & Ht & Hraw). destruct (Hkeep c t Ht) as (t' & Ht' & E).
  exists c, t'. by rewrite E.
Qed.

Lemma typed_inv_step st st' : typed_inv st -> router_step st st' -> typed_inv st'.
Proof.
  intros [Ht Ho] [[c acc src|c|d1 d2|c] Ha]; [simpl in Ha| |simpl in Ha..].
  - destruct (tasks st !! c) eqn:E; simplify_eq. split; simpl.
    + intros c' t' [[<- <-]|[_ H]]%lookup_insert_Some; [apply handle_connection_typed|eauto].
    + intros s raw Hin. eapply typed_frame_mono; [|by eapply Ho]. simpl. intros c' t' Hc'.
      exists t'. split; [|done]. rewrite lookup_insert_ne; [done|congruence].
  - apply task_step_inv in Ha as (src & X & e & k & Hc & ->).
    pose proof (Ht _ _ Hc) as [He Hk]; simpl in He, Hk. split; simpl.
    + intros c' t' [[<- <-]|[_ H]]%lookup_insert_Some; [apply Hk|eauto].
    + intros s raw [Hin|Hin]%handle_op_writes.
      * eapply typed_frame_mono; [|by eapply Ho]. simpl. intros c' t' Hc'.
        rewrite lookup_insert. case_decide; [simplify_eq; by eexists|by exists t'].
      * eexists c, _. split; [apply lookup_insert_eq|]. simpl.
        by apply (handle_op_outbox _ _ _ _ _ Hin (typed_op src)).
  - by simplify_eq.
  - by simplify_eq.
Qed.

(** C28: every frame the router ever writes is well typed.  In every reachable
    state, each frame written to a sink was written by the task of some
    connection and is either a frame that connection received after its
    registration, byte for byte, which decodes and has one of the four routed
    kinds, or one the router built: protocol version 5, from the router, whose
    body is an acknowledgement, a query response or an error body according to
    its kind. *)
Theorem written_frames_are_typed (st : RouterState) (s : nat) (raw : bytes)
    (Hreach : reachable st) (Hin : (s, raw) ∈ outbox (world st)) :
  exists c t, tasks st !! c = Some t /\ router_frame (t_source t) raw.
Proof.
  assert (H : typed_inv st).
  { revert Hreach. apply star_invariant; [apply typed_inv_step|]. split; simpl.
    - intros c t. by rewrite lookup_empty.
    - intros s' raw' E. by apply elem_of_nil in E. }
  by apply (proj2 H) in Hin.
Qed.
End types.
