(* ===== verification/RouterRouting.v ===== *)
(** Where the router's frames go, under any interleaving of connections.

    A frame passed on reaches the connection that registered the id it is
    addressed to, and a frame the router makes itself goes back to the
    connection whose frame it answers, under that frame's id. *)

From S2P Require Import Prelude Prog Float64 Wire Protocol Registry Server RouterSafety RouterTypes.

Local Open Scope string_scope.

Section routing.
Context {RC : RouterCodec}.

(** * The operations of a connection *)

(** The kinds of the router's answers to a frame. *)
Definition answer_kind (asked : string) (k : string) : Prop :=
  (asked = KIND_REGISTER \/ asked = KIND_QUERY \/ asked = KIND_DISCONNECT) /\ k = KIND_RESPONSE
  \/ asked = KIND_HEARTBEAT /\ k = KIND_HEARTBEAT.

(** [body] answers the query of frame [f] with a registry entry that was
    looked up. *)
Definition answers_query (seen : string -> option PeerSnapshot -> Prop) (f : FrameParts)
    (body : bytes) : Prop :=
  exists q x, decode_query_body (body_bytes f) = Ok q /\
    match q with
    | PeerExists p => seen p x /\
        encode_query_exists_response p (bool_decide (is_Some x)) (snap_class <$> x)
          (bool_decide (is_Some x)) = Ok body
    | PeerGet p => seen p x /\
        encode_query_get_response p (bool_decide (is_Some x)) (snap_class <$> x)
          (default false (snap_connected <$> x)) = Ok body
    end.

(** A frame of [source] that [e] and [body] answer, under its id and to the
    peer that introduced itself on the connection. *)
Definition answers (seen : string -> option PeerSnapshot -> Prop) (source : list WsItem)
    (e : Envelope) (body : bytes) : Prop :=
  exists b f, received source b /\ decode_frame b = Ok f /\
    msg_id (envelope f) = msg_id e /\ answer_kind (kind (envelope f)) (kind e) /\
    (exists class, identity_of source = Some (env_to e, class)) /\
    (kind (envelope f) = KIND_QUERY -> answers_query seen f body).

(** What an error under the id [m] with this code complains about: a frame of
    [source] with that id; or a message of [source] that is not a frame, under
    an id that stands for none. *)
Definition complaint (source : list WsItem) (m code : string) : Prop :=
  (exists b f, received source b /\ decode_frame b = Ok f /\ msg_id (envelope f) = m) \/
  m = "unknown" /\ code = "non_binary_message" /\
    (Ok Frame ∈ tail source \/ exists text, Ok (Text text) ∈ tail source).

(** [e] and [body] are an error of the router about something in [source]. *)
Definition complains (source : list WsItem) (e : Envelope) (body : bytes) : Prop :=
  kind e = KIND_ERROR /\ env_to e = ROUTER_PEER_ID /\
  exists code m, encode_error_body (build_error_body code m) = Ok body /\
    complaint source (msg_id e) code.

(** [raw] is a frame the router built: an error, or an answer. *)
Definition own_frame (seen : string -> option PeerSnapshot -> Prop) (source : list WsItem)
    (raw : bytes) : Prop :=
  exists e body,
    encode_frame e body = Ok raw /\ v e = PROTOCOL_VERSION /\ env_from e = ROUTER_PEER_ID /\
    (complains source e body \/ answers seen source e body).

(** [raw] is passed on to [s], which holds the id it is addressed to. *)
Definition passed_on (holds : nat -> string -> Prop) (source : list WsItem) (s : nat)
    (raw : bytes) : Prop :=
  genuine source raw /\ forall f, decode_frame raw = Ok f -> holds s (env_to (envelope f)).

Section connection.
Context (c : nat) (source : list WsItem) (holds : nat -> string -> Prop).
Context (seen : string -> option PeerSnapshot -> Prop).

Definition route_op (X : Set) (e : routerE X) : Prop :=
  match e with
  | InsertLivePeer p class s => s = c /\ identity_of source = Some (p, class)
  | SendRaw s raw => passed_on holds source s raw \/ s = c /\ own_frame seen source raw
  | _ => True
  end.

(** What the answers are assumed to satisfy. *)
Definition route_answer (X : Set) (e : routerE X) : X -> Prop :=
  match e in routerE X return X -> Prop with
  | SenderByPeerId p => fun x => forall s, x = Some s -> holds s p
  | LookupByPeerId p => seen p
  | _ => fun _ => True
  end.

Abbreviation routes p := (given route_op route_answer p).

Lemma send_own_routes e body :
  v e = PROTOCOL_VERSION -> env_from e = ROUTER_PEER_ID ->
  complains source e body \/ answers seen source e body ->
  routes (send_frame c e body).
Proof.
  intros Hv Hf Hk. apply given_lift_try. intros raw Hraw. split; [|done].
  right. split; [done|]. by exists e, body.
Qed.

Lemma send_peer_error_routes m code t :
  complaint source m code -> routes (send_peer_error c m code t).
Proof.
  intros Hm. split; [done|]. intros now _. apply given_lift_try. intros b Hb.
  apply send_own_routes; [done|done|]. left. split; [done|]. split; [done|]. by exists code, t.
Qed.

Lemma send_error_and_close_routes m code t :
  complaint source m code -> routes (send_error_and_close c m code t).
Proof. apply send_peer_error_routes. Qed.

(** An error about a frame that was received. *)
Lemma frame_error_routes raw f code t :
  received source raw -> decode_frame raw = Ok f ->
  routes (send_peer_error c (msg_id (envelope f)) code t).
Proof. intros Hin Hf. apply send_peer_error_routes. left. by exists raw, f. Qed.

Lemma genuine_received raw : genuine source raw -> received source raw.
Proof.
  intros (q & cl & _ & Hr & _). unfold received in *. destruct source; [done|by right].
Qed.

Lemma route_to_target_routes f raw k :
  decode_frame raw = Ok f -> genuine source raw -> routes (route_to_target (envelope f) raw c k).
Proof.
  intros Hf Hg. pose proof (genuine_received raw Hg) as Hin.
  split; [done|]. intros [] _; simpl; [|by apply (frame_error_routes raw)].
  split; [done|]. intros [s|] Hs; simpl; [|by apply (frame_error_routes raw)].
  split.
  - left. split; [done|]. intros f' Hf'. assert (f' = f) as -> by congruence. by apply Hs.
  - intros [] _; simpl; [done|]. split; [done|]. intros ? _. by apply (frame_error_routes raw).
Qed.

Lemma route_or_error_routes f raw k :
  decode_frame raw = Ok f -> genuine source raw -> routes (route_or_error (envelope f) raw k c).
Proof.
  intros Hf Hg. split; [done|]. intros cl _; simpl.
  destruct (decide_route_target k cl); [by apply route_to_target_routes|].
  apply (frame_error_routes raw); [|done]. by apply genuine_received.
Qed.

(** The dispatch of a frame received after registering. *)
Lemma dispatch_routes q cl raw f :
  identity_of source = Some (q, cl) -> received (tail source) raw -> decode_frame raw = Ok f ->
  routes (dispatch c q cl raw f).
Proof.
  intros Hid Hin Hf. pose proof (decoded_version raw f Hf) as Hv.
  assert (Hgen : env_from (envelope f) = q -> routable cl (kind (envelope f)) ->
                 genuine source raw).
  { intros Hq Hk. exists q, cl. split; [done|]. split; [done|]. by exists f. }
  assert (Hin' : received source raw)
    by (unfold received in *; destruct source; [done|by right]).
  assert (Hown : forall e body, v e = PROTOCOL_VERSION -> env_from e = ROUTER_PEER_ID ->
    msg_id e = msg_id (envelope f) -> answer_kind (kind (envelope f)) (kind e) -> env_to e = q ->
    (kind (envelope f) = KIND_QUERY -> answers_query seen f body) ->
    routes (send_frame c e body)).
  { intros e body H1 H2 H3 H4 H5 H6. apply send_own_routes; [done|done|]. right. exists raw, f.
    do 4 (split; [done|]). split; [exists cl; by rewrite H5|done]. }
  pose proof (fun code t => frame_error_routes raw f code t Hin' Hf) as Herr.
  unfold dispatch. unfold answer_kind in Hown.
  repeat case_match; apply given_bind_try; try done; try apply Herr;
    rewrite ?negb_false_iff, ?String.eqb_eq in *.
  - apply given_lift_try. intros query Hquery.
    destruct query; (split; [done|]); intros x Hx; cbn [bind perform]; unfold bind_try; cbn [bind];
      (case_match eqn:Hb; [|done]); apply Hown; auto 6; intros _; by eexists _, x.
  - destruct cl; [apply Herr|].
    apply route_or_error_routes; [done|]. apply Hgen; simpl; auto.
  - destruct cl; [|apply Herr].
    apply route_to_target_routes; [done|]. apply Hgen; simpl; auto.
  - destruct cl; [|apply Herr].
    apply route_or_error_routes; [done|]. apply Hgen; simpl; auto.
  - split; [done|]. intros ? _; simpl. split; [done|]. intros [] _; simpl.
    + apply route_to_target_routes; [done|]. apply Hgen; destruct cl; simpl; auto.
    + apply given_lift_try. intros b _. apply Hown; simpl; auto.
      match goal with H : kind _ = KIND_HEARTBEAT |- _ => by rewrite H end.
  - split; [done|]. intros ? _; simpl. apply given_lift_try. intros b _. apply Hown; simpl; auto 6.
    match goal with H : kind _ = KIND_DISCONNECT |- _ => by rewrite H end.
Qed.

Lemma message_loop_routes q cl l :
  identity_of source = Some (q, cl) -> l ⊆ tail source -> routes (message_loop c q cl l).
Proof.
  intros Hid. induction l as [|item l IH]; intros Hl; [done|].
  apply given_bind_try; [|intros []; simpl; [apply IH; set_solver|done]].
  destruct item as [[]|]; try done;
    try (apply given_bind_try; [|done]; apply send_peer_error_routes; right;
         do 2 (split; [done|]); set_solver).
  apply given_lift_try. intros f Hf. apply dispatch_routes; [done| |done].
  apply list_elem_of_In. set_solver.
Qed.

Lemma register_phase_routes : routes (register_phase c (head source)).
Proof.
  unfold register_phase. destruct (first_frame (head source)) as [f|] eqn:Hf; [|done].
  assert (Hfirst : exists b, received source b /\ decode_frame b = Ok f).
  { destruct source as [|[[ |b| | | | ]|] l]; try done. exists b. split; [by left|done]. }
  destruct Hfirst as (b0 & Hb0 & Hdec).
  assert (Hcomp : forall code, complaint source (msg_id (envelope f)) code)
    by (intros code; left; by exists b0, f).
  case_match eqn:Hk; [apply given_bind; [by apply send_error_and_close_routes|done]|].
  destruct (decode_register_body (body_bytes f)) as [r|] eqn:Hr; cbn [and_then]; [|done].
  destruct (validate_register_envelope (envelope f) r); cbn [and_then]; [|done].
  split.
  - split; [done|]. unfold identity_of. by rewrite Hf, Hr.
  - intros [|[]] _; cbn [bind]; try done;
      (apply given_bind; [|done]); [|by apply send_error_and_close_routes].
    split; [done|]. intros now _. apply given_lift_try. intros b _.
    apply send_own_routes; [done|done|]. right.
    exists b0, f. do 3 (split; [done|]).
    rewrite negb_false_iff, String.eqb_eq in Hk. split; [left; split; [by left|done]|].
    split; [|by rewrite Hk]. exists (reg_class r). unfold identity_of. by rewrite Hf, Hr.
Qed.

Lemma handle_connection_routes accepted : routes (handle_connection c accepted source).
Proof.
  unfold handle_connection. destruct accepted; [|done].
  eapply given_bind_rets; [apply register_phase_routes|apply register_phase_identity|].
  intros [reg o]; simpl. intros Hid. apply given_bind; [|by destruct reg].
  destruct o as [[[q cl]|]|]; try done. by apply message_loop_routes.
Qed.
End connection.

(** * The router *)

(** The peer of connection [s] introduced itself as [q]. *)
Definition registered_as (st : RouterState) (s : nat) (q : string) : Prop :=
  exists t class, tasks st !! s = Some t /\ identity_of (t_source t) = Some (q, class).

(** [x] is what the registry said of [p] at some point of the run to [st]. *)
Definition looked_up (st : RouterState) (p : string) (x : option PeerSnapshot) : Prop :=
  exists st1, reachable st1 /\ star router_step st1 st /\
    Registry.lookup_by_peer_id p (registry (world st1)) = x.

(** Every registry entry is the identity of its connection; every program
    keeps to [route_op] for whatever holds of the identities and of the
    registry so far; and so did every frame written. *)
Record routing_inv (st : RouterState) : Prop := {
  ri_registry : forall q r, registry (world st) !! q = Some r ->
    exists t, tasks st !! rec_sender r = Some t /\
      identity_of (t_source t) = Some (q, rec_class r);
  ri_programs : forall c t, tasks st !! c = Some t ->
    forall (holds : nat -> string -> Prop) seen,
      (forall s q, registered_as st s q -> holds s q) ->
      (forall p x, looked_up st p x -> seen p x) ->
      given (route_op c (t_source t) holds seen) (route_answer holds seen) (t_prog t);
  ri_history : forall a s raw, (a, s, raw) ∈ history st ->
    exists t, tasks st !! a = Some t /\
      (passed_on (registered_as st) (t_source t) s raw \/
       s = a /\ own_frame (looked_up st) (t_source t) raw);
}.

(** An entry after an operation was there before, or is being inserted. *)
Lemma handle_op_record (X : Set) (e : routerE X) w q r :
  registry (handle_op X e w).2 !! q = Some r ->
  (exists r0, registry w !! q = Some r0 /\ rec_sender r = rec_sender r0 /\
     rec_class r = rec_class r0) \/
  forall P : forall X : Set, routerE X -> Prop,
    P X e -> P _ (InsertLivePeer q (rec_class r) (rec_sender r)).
Proof.
  destruct e as [p cl t| | |p| | |p|t b|]; simpl; try (by left; eauto).
  - unfold Registry.insert_live_peer. destruct (registry w !! p) eqn:E; simpl; [by left; eauto|].
    intros [[<- <-]|[_ H]]%lookup_insert_Some; [by right|left; eauto].
  - intros [_ H]%lookup_delete_Some. left; eauto.
  - unfold Registry.mark_heartbeat. rewrite lookup_alter. case_decide; [subst q|by left; eauto].
    destruct (registry w !! p) as [r0|]; [|done]. intros [= <-]. left. by exists r0.
  - unfold send_raw. case_match; simpl; left; eauto.
Qed.

Lemma passed_on_mono (h h' : nat -> string -> Prop) src s raw :
  (forall s q, h s q -> h' s q) -> passed_on h src s raw -> passed_on h' src s raw.
Proof. intros Hh [? H]. split; [done|]. eauto. Qed.

(** A step that keeps the sources of the tasks only adds identities. *)
Lemma registered_as_mono st st' s q :
  (forall c t, tasks st !! c = Some t -> exists t', tasks st' !! c = Some t' /\ t_source t' = t_source t) ->
  registered_as st s q -> registered_as st' s q.
Proof.
  intros Ht (t & cl & Hs & Hid). destruct (Ht s t Hs) as (t' & Ht' & E).
  exists t', cl. by rewrite E.
Qed.

(** The registry answers as assumed. *)
Lemma route_answer_of st (holds : nat -> string -> Prop) (seen : string -> option PeerSnapshot -> Prop)
    (X : Set) (e : routerE X) :
  (forall q r, registry (world st) !! q = Some r ->
     exists t, tasks st !! rec_sender r = Some t /\ identity_of (t_source t) = Some (q, rec_class r)) ->
  (forall s q, registered_as st s q -> holds s q) ->
  (forall p x, Registry.lookup_by_peer_id p (registry (world st)) = x -> seen p x) ->
  route_answer holds seen X e (handle_op X e (world st)).1.
Proof.
  intros Hreg Hh Hl. destruct e; simpl; try done; [by apply Hl|]. intros s.
  unfold Registry.sender_by_peer_id. intros (r & Hr & ->)%fmap_Some_1.
  apply Hh. destruct (Hreg _ _ Hr) as (t & Hs & Hid). by exists t, (rec_class r).
Qed.

Lemma own_frame_mono (f g : string -> option PeerSnapshot -> Prop) src raw :
  (forall p x, f p x -> g p x) -> own_frame f src raw -> own_frame g src raw.
Proof.
  intros Hfg (e & body & He & Hv & Hr & H). exists e, body. repeat (split; [done|]).
  destruct H as [H|(b & fr & Hb & Hf & Hid & Hk & Hto & Hq)]; [by left|]. right. exists b, fr.
  repeat (split; [done|]). intros Hkind. destruct (Hq Hkind) as (q & x & Hd & Hx).
  exists q, x. split; [done|]. destruct q, Hx; auto.
Qed.

Lemma looked_up_mono st st' p x : router_step st st' -> looked_up st p x -> looked_up st' p x.
Proof.
  intros Hs (st1 & Hr & Hst & Hx). exists st1. split; [done|]. split; [|done].
  by eapply star_snoc.
Qed.

Lemma routing_inv_step st st' :
  reachable st -> routing_inv st -> router_step st st' -> routing_inv st'.
Proof.
  intros Hreach [Hreg Hprog Hhist] Hstep.
  pose proof (fun p x => looked_up_mono st st' p x Hstep) as Hseen.
  assert (Hkeep : (forall s q, registered_as st s q -> registered_as st' s q) ->
    forall a s raw t, passed_on (registered_as st) (t_source t) s raw \/
      s = a /\ own_frame (looked_up st) (t_source t) raw ->
    passed_on (registered_as st') (t_source t) s raw \/
      s = a /\ own_frame (looked_up st') (t_source t) raw).
  { intros Hmono a s raw t [H|[-> H]]; [left; by eapply passed_on_mono|right].
    split; [done|]. by eapply own_frame_mono. }
  destruct Hstep as [[c acc src|c|d1 d2|c] Ha]; [simpl in Ha| |simpl in Ha..].
  - destruct (tasks st !! c) eqn:E; simplify_eq. set (st' := mkRouter _ _ _) in *.
    assert (Hmono : forall s q, registered_as st s q -> registered_as st' s q).
    { intros s q. apply registered_as_mono. intros c' t Ht. exists t. split; [|done].
      simpl. rewrite lookup_insert_ne; [done|congruence]. }
    split; simpl.
    + intros q r (t & Ht & Hid)%Hreg. exists t. split; [|done].
      rewrite lookup_insert_ne; [done|congruence].
    + intros c' t [[<- <-]|[_ Ht]]%lookup_insert_Some holds seen Hh Hl;
        [apply handle_connection_routes|]. apply Hprog; auto.
    + intros a s raw (t & Ht & H)%Hhist. exists t. split; [rewrite lookup_insert_ne; congruence|].
      by apply Hkeep.
  - apply task_step_inv in Ha as (src & X & e & k & Ht & ->). set (st' := after_task _ _ _ _ _) in *.
    set (x := (handle_op X e (world st)).1) in *. set (w' := (handle_op X e (world st)).2) in *.
    assert (Hlook : forall c' t', tasks st !! c' = Some t' -> exists t'',
              tasks st' !! c' = Some t'' /\ t_source t'' = t_source t').
    { intros c' t' Ht'. simpl. rewrite lookup_insert. case_decide; [|by eauto].
      simplify_eq. by eexists. }
    assert (Hmono : forall s q, registered_as st s q -> registered_as st' s q)
      by (intros s q; by apply registered_as_mono).
    pose proof (Hprog _ _ Ht (registered_as st) (looked_up st) (fun s q H => H) (fun p x H => H))
      as [He _]; simpl in He.
    split.
    + intros q r Hr. change (registry w' !! q = Some r) in Hr.
      destruct (handle_op_record X e (world st) q r Hr) as [(r0 & Hr0 & Es0 & Ec0)|Hins].
      * rewrite Es0, Ec0. destruct (Hreg _ _ Hr0) as (t & Hs & Hid).
        destruct (Hlook _ _ Hs) as (t' & Ht' & Es). exists t'. by rewrite Es.
      * destruct (Hins _ He) as [Hs Hid]. rewrite Hs.
        destruct (Hlook _ _ Ht) as (t' & Ht' & Es). exists t'. by rewrite Es.
    + simpl. intros c' t' [[<- <-]|[_ Ht']]%lookup_insert_Some holds seen Hh Hl; simpl.
      * apply (Hprog _ _ Ht holds seen); [by auto|by auto|]. apply route_answer_of; auto.
        intros p y Hy. apply Hl, Hseen. exists st. split; [done|]. split; [constructor|done].
      * apply Hprog; auto.
    + simpl. intros a s raw. rewrite elem_of_app. intros [(t & Hta & H)%Hhist|Hin].
      * destruct (Hlook _ _ Hta) as (t' & Ht' & Es). exists t'. rewrite Es. split; [done|].
        by apply Hkeep.
      * apply list_elem_of_fmap in Hin as ([s' b] & [= -> -> ->] & Hin).
        destruct (Hlook _ _ Ht) as (t' & Ht' & Es). exists t'. rewrite Es. split; [done|].
        apply (Hkeep Hmono c s' b (mkTask src (Do e k))). apply (handle_op_outbox _ _ _ _ _ Hin _ He).
  - simplify_eq. split; [done| |].
    + intros c' t Ht holds seen Hh Hl. apply Hprog; auto.
    + intros a s raw (t & Ht & H)%Hhist. exists t. split; [done|]. by apply Hkeep.
  - simplify_eq. split; [done| |].
    + intros c' t Ht holds seen Hh Hl. apply Hprog; auto.
    + intros a s raw (t & Ht & H)%Hhist. exists t. split; [done|]. by apply Hkeep.
Qed.

Lemma routing_inv_reachable st : reachable st -> routing_inv st.
Proof.
  intros Hst. assert (H : reachable st /\ routing_inv st); [|apply H]. revert Hst.
  apply (star_invariant _ (fun st => reachable st /\ routing_inv st)).
  - intros st1 st2 [Hr HI] Hs. split; [by eapply star_snoc|by eapply routing_inv_step].
  - split; [constructor|]. split; simpl.
    + unfold Registry.new. intros q r. by rewrite lookup_empty.
    + intros c t. by rewrite lookup_empty.
    + intros a s raw. by intros ?%elem_of_nil.
Qed.

(** C3: under any interleaving, a frame written by the task of connection [a]
    to connection [s] is one of two things.  Either it is a frame the peer of
    [a] sent after registering, byte for byte, from the id and of a kind of the
    class it registered with, and [s] is a connection whose peer introduced
    itself with the very id the frame is addressed to; or the router made it,
    for [a] itself: as the answer to a frame of [a], under that frame's id and
    to the id [a] introduced itself with, where an answer to a query says what
    the registry held of the peer asked for at some point of the run; or as an
    error under the id of a frame of [a], or under the id "unknown" for a
    message of [a] that is not binary. *)
Theorem frames_reach_their_addressee (st : RouterState) (a s : nat) (raw : bytes)
    (Hreach : reachable st) (Hin : (a, s, raw) ∈ history st) :
  exists t, tasks st !! a = Some t /\
    ((exists f class, decode_frame raw = Ok f /\ In (Ok (Binary raw)) (tail (t_source t)) /\
        identity_of (t_source t) = Some (env_from (envelope f), class) /\
        routable class (kind (envelope f)) /\ registered_as st s (env_to (envelope f)))
     \/ s = a /\ own_frame (looked_up st) (t_source t) raw).
Proof.
  destruct (ri_history _ (routing_inv_reachable st Hreach) _ _ _ Hin) as (t & Ht & H).
  exists t. split; [done|].
  destruct H as [[(q & cl & Hid & Hr & f & Hf & <- & Hk) Hto]|H]; [|by right].
  left. exists f, cl. repeat (split; [done|]). by apply Hto.
Qed.

(** The frames written are those of the history, in its order. *)
Lemma outbox_history st : reachable st -> outbox (world st) = map (fun '(_, s, raw) => (s, raw)) (history st).
Proof.
  apply (star_invariant _ (fun st => outbox (world st) = map _ (history st))); [|done].
  clear st. intros st st' IH [[c acc src|c|d1 d2|c] Ha]; [simpl in Ha| |simpl in Ha..].
  - destruct (tasks st !! c); by simplify_eq.
  - apply task_step_inv in Ha as (src & X & e & k & Ht & ->). simpl.
    rewrite map_app, <-IH, map_map.
    rewrite <-(take_drop (length (outbox (world st))) (outbox (handle_op X e (world st)).2)) at 1.
    f_equal.
    + destruct e; simpl; try apply firstn_all; unfold Registry.insert_live_peer, send_raw;
        case_match; simpl; try apply firstn_all. apply take_app_length.
    + symmetry. rewrite <-(map_id (drop _ _)) at 2. apply map_ext. by intros [].
  - by simplify_eq.
  - by simplify_eq.
Qed.
End routing.
