(* ===== verification/RouterOrder.v ===== *)
(** Forwarding keeps the order of a connection and repeats nothing, under any
    interleaving of connections. *)

From S2P Require Import Prelude Prog Float64 Wire Protocol Registry Server RouterSafety RouterTypes RouterRouting.

Local Open Scope string_scope.

Section order.
Context {RC : RouterCodec}.

(** * The frames a connection sends, in order *)

(** The router's own frames: never a call. *)
Definition made (raw : bytes) : Prop :=
  exists e body, encode_frame e body = Ok raw /\ v e = PROTOCOL_VERSION /\
    env_from e = ROUTER_PEER_ID /\ kind e <> KIND_CALL.

Section connection.
Context (c : nat).

(** The program sends frames of its own back to [c], and frames of [l], in
    order, each at most once. *)
Fixpoint in_order {A} (l : list bytes) (p : routerM A) : Prop :=
  match p with
  | Ret _ => True
  | Do e k =>
      match e in routerE X return (X -> routerM A) -> (list bytes -> X -> Prop) -> Prop with
      | SendRaw s raw => fun k rec =>
          s = c /\ made raw /\ (forall x, rec l x) \/
          exists skipped rest, l = (skipped ++ raw :: rest)%list /\ forall x, rec rest x
      | _ => fun k rec => forall x, rec l x
      end k (fun l x => in_order l (k x))
  end.

Lemma in_order_skip {A} skipped l (p : routerM A) : in_order l p -> in_order (skipped ++ l) p.
Proof.
  revert l. induction p as [a|X e k IH]; simpl; [done|].
  destruct e; intros l H; try (intros x; by apply IH).
  destruct H as [(? & ? & H)|(s1 & rest & -> & H)].
  - left. split; [done|]. split; [done|]. intros x. by apply IH.
  - right. exists (skipped ++ s1)%list, rest. by rewrite app_assoc.
Qed.

Lemma in_order_nil {A} l (p : routerM A) : in_order [] p -> in_order l p.
Proof. intros H. rewrite <-(app_nil_r l). by apply in_order_skip. Qed.

Lemma in_order_bind {A B} l1 l2 (p : routerM A) (f : A -> routerM B) :
  in_order l1 p -> (forall a, in_order l2 (f a)) -> in_order (l1 ++ l2) (bind p f).
Proof.
  intros Hp Hf. revert l1 Hp. induction p as [a|X e k IH]; simpl; intros l1;
    [by intros _; apply in_order_skip|].
  destruct e; intros H; try (intros x; by apply IH).
  destruct H as [(? & ? & H)|(s1 & rest & -> & H)].
  - left. split; [done|]. split; [done|]. intros x. by apply IH.
  - right. exists s1, (rest ++ l2)%list. rewrite <-app_assoc. split; [done|].
    intros x. by apply IH.
Qed.

Lemma in_order_then {A B} l (p : routerM A) (f : A -> routerM B) :
  in_order l p -> (forall a, in_order [] (f a)) -> in_order l (bind p f).
Proof. intros. rewrite <-(app_nil_r l). by apply in_order_bind. Qed.

Lemma in_order_lift_try {A B Er} l (r : result A Er) (f : A -> routerM (result B Er)) :
  (forall a, r = Ok a -> in_order l (f a)) -> in_order l (lift_try r f).
Proof. destruct r; simpl; auto. Qed.

Lemma send_frame_order e body :
  v e = PROTOCOL_VERSION -> env_from e = ROUTER_PEER_ID -> kind e <> KIND_CALL ->
  in_order [] (send_frame c e body).
Proof.
  intros Hv Hf Hk. apply in_order_lift_try. intros raw Hraw. left. split; [done|].
  split; [|done]. by exists e, body.
Qed.

Lemma send_peer_error_order m code t : in_order [] (send_peer_error c m code t).
Proof.
  intros now. apply in_order_lift_try. intros b _. by apply send_frame_order.
Qed.

Lemma route_to_target_order e raw k : in_order [raw] (route_to_target e raw c k).
Proof.
  intros []; cbn [bind perform negb]; [|apply (in_order_nil [raw]), send_peer_error_order].
  intros [s|]; cbn [bind perform negb]; [|apply (in_order_nil [raw]), send_peer_error_order].
  right. exists [], []. split; [done|]. intros []; cbn [bind perform negb]; [done|].
  intros ?. apply send_peer_error_order.
Qed.

Lemma route_or_error_order e raw k : in_order [raw] (route_or_error e raw k c).
Proof.
  intros cl; cbn [bind perform]. destruct (decide_route_target k cl); [apply route_to_target_order|].
  apply (in_order_nil [raw]), send_peer_error_order.
Qed.

Lemma dispatch_order q cl raw f :
  v (envelope f) = PROTOCOL_VERSION -> in_order [raw] (dispatch c q cl raw f).
Proof.
  intros Hv.
  assert (Herr : forall m code t, in_order [raw] (send_peer_error c m code t))
    by (intros; apply (in_order_nil [raw]), send_peer_error_order).
  unfold dispatch. repeat case_match; (apply in_order_then; [|by intros []]); try done.
  - apply in_order_lift_try. intros query _. apply (in_order_nil [raw]).
    apply in_order_then; [by destruct query|]. intros []; [by apply send_frame_order|done].
  - destruct cl; [apply Herr|]. apply route_or_error_order.
  - destruct cl; [|apply Herr]. apply route_to_target_order.
  - destruct cl; [|apply Herr]. apply route_or_error_order.
  - intros ?; cbn [bind perform negb]. intros []; cbn [bind perform negb]; [apply route_to_target_order|].
    apply (in_order_nil [raw]), in_order_lift_try. intros b _. by apply send_frame_order.
  - intros ?; cbn [bind perform negb]. apply (in_order_nil [raw]), in_order_lift_try. intros b _. by apply send_frame_order.
Qed.

Lemma message_loop_order q cl l : in_order (omap item_payload l) (message_loop c q cl l).
Proof.
  induction l as [|item l IH]; [done|].
  assert (Hitem : in_order (option_list (item_payload item)) (handle_message c q cl item)).
  { destruct item as [[]|]; try done;
      try (apply in_order_then; [apply send_peer_error_order|by intros []]).
    apply in_order_lift_try. intros f Hf. by apply dispatch_order, (decoded_version b). }
  assert (E : omap item_payload (item :: l) = (option_list (item_payload item) ++ omap item_payload l)%list)
    by (simpl; by destruct (item_payload item)).
  rewrite E. apply in_order_bind; [done|]. intros [[]|]; cbn [bind perform negb]; [done|by apply (in_order_nil (omap _ _))..].
Qed.

Lemma handle_connection_order accepted source :
  in_order (omap item_payload (tail source)) (handle_connection c accepted source).
Proof.
  unfold handle_connection. destruct accepted; [|done].
  apply (in_order_bind []).
  - unfold register_phase. destruct (first_frame (head source)) as [f|]; [|done].
    case_match; [apply in_order_then; [apply send_peer_error_order|done]|].
    case_match; [|done]. intros [|[]]; cbn [bind]; try done;
      (apply in_order_then; [|done]); [|apply send_peer_error_order].
    intros now. apply in_order_lift_try. intros b _. by apply send_frame_order.
  - intros [reg o]. apply in_order_then; [|by destruct reg].
    destruct o as [[[q cl]|]|]; try done. apply message_loop_order.
Qed.
End connection.

(** * The router *)

(** The frames task [a] wrote, in order, with the connections they went to. *)
Definition written_by (st : RouterState) (a : nat) : list (nat * bytes) :=
  omap (fun '(a', s, raw) => if decide (a' = a) then Some (s, raw) else None) (history st).

(** [h] is made of frames of the router to [a], and of frames of [used], in
    order, each passed on at most once. *)
Inductive relays (a : nat) : list (nat * bytes) -> list bytes -> Prop :=
| relays_nil : relays a [] []
| relays_skip h used raw : relays a h used -> relays a h (used ++ [raw])
| relays_own h used raw : made raw -> relays a h used -> relays a (h ++ [(a, raw)]) used
| relays_pass h used s raw : relays a h used -> relays a (h ++ [(s, raw)]) (used ++ [raw]).

Lemma relays_skips a h used l : relays a h used -> relays a h (used ++ l).
Proof.
  revert used. induction l as [|x l IH]; intros used H; [by rewrite app_nil_r|].
  rewrite (cons_middle x used l), app_assoc. by apply IH, relays_skip.
Qed.

Definition order_ok (st : RouterState) (a : nat) (t : Task) : Prop :=
  exists used rest, omap item_payload (tail (t_source t)) = (used ++ rest)%list /\
    relays a (written_by st a) used /\ in_order a rest (t_prog t).

Definition order_inv (st : RouterState) : Prop :=
  (forall a t, tasks st !! a = Some t -> order_ok st a t) /\
  (forall a, tasks st !! a = None -> written_by st a = []).

(** What an operation writes. *)
Lemma handle_op_writes_one (X : Set) (e : routerE X) w :
  let new := drop (length (outbox w)) (outbox (handle_op X e w).2) in
  match e with SendRaw s raw => new = [] \/ new = [(s, raw)] | _ => new = [] end.
Proof.
  destruct e; simpl; try apply drop_all; unfold Registry.insert_live_peer, send_raw;
    case_match; simpl; try apply drop_all; [right; apply drop_app_length|left; apply drop_all].
Qed.

Lemma written_by_after c src p w st a :
  written_by (after_task c src p w st) a =
    (written_by st a ++
     if decide (c = a) then drop (length (outbox (world st))) (outbox w) else [])%list.
Proof.
  unfold written_by, after_task; simpl. rewrite omap_app. f_equal.
  generalize (drop (length (outbox (world st))) (outbox w)). intros l.
  induction l as [|[s raw] l IH]; [by case_decide|]. csimpl. rewrite IH. by case_decide.
Qed.

(** One operation of a task. *)
Lemma order_ok_step st c src (X : Set) (e : routerE X) k :
  order_ok st c (mkTask src (Do e k)) ->
  order_ok (after_task c src (k (handle_op X e (world st)).1) (handle_op X e (world st)).2 st) c
    (mkTask src (k (handle_op X e (world st)).1)).
Proof.
  intros (used & rest & Hl & Hrel & Hord). simpl in Hl.
  pose proof (handle_op_writes_one X e (world st)) as Hnew. unfold order_ok. simpl.
  rewrite written_by_after, decide_True by done.
  set (x := (handle_op X e (world st)).1) in *. clearbody x.
  assert (Hquiet : drop (length (outbox (world st))) (outbox (handle_op X e (world st)).2) = [] ->
    in_order c rest (k x) -> exists used rest, omap item_payload (tail src) = (used ++ rest)%list /\
      relays c (written_by st c ++ drop (length (outbox (world st))) (outbox (handle_op X e (world st)).2)) used /\
      in_order c rest (k x)).
  { intros -> Hk. rewrite app_nil_r. by exists used, rest. }
  simpl in Hord. destruct e as [| | | | | | |s raw|]; try (apply Hquiet; [done|apply Hord]).
  destruct Hord as [(-> & Hmade & Hk)|(skipped & rest' & -> & Hk)].
  - destruct Hnew as [Hnew|Hnew]; [by apply Hquiet|]. rewrite Hnew.
    exists used, rest. split; [done|]. split; [by apply relays_own|done].
  - exists ((used ++ skipped) ++ [raw])%list, rest'. split; [by rewrite Hl, <-!app_assoc|].
    split; [|done]. destruct Hnew as [-> | ->].
    + rewrite app_nil_r. by apply relays_skips, relays_skips.
    + by apply relays_pass, relays_skips.
Qed.

Lemma order_inv_step st st' : order_inv st -> router_step st st' -> order_inv st'.
Proof.
  intros [Hok Hnone] [[c acc src|c|d1 d2|c] Ha]; [simpl in Ha| |simpl in Ha..].
  - destruct (tasks st !! c) eqn:E; simplify_eq. split; simpl.
    + intros a t [[<- <-]|[_ Ht]]%lookup_insert_Some; [|by apply (Hok a t)].
      exists [], (omap item_payload (tail src)). split; [done|]. split.
      * change (relays c (written_by st c) []). rewrite (Hnone _ E). constructor.
      * apply handle_connection_order.
    + intros a [Ha _]%lookup_insert_None. by apply Hnone.
  - apply task_step_inv in Ha as (src & X & e & k & Ht & ->). split; simpl.
    + intros a t [[<- <-]|[Hne Hta]]%lookup_insert_Some; [by apply order_ok_step, Hok|].
      destruct (Hok _ _ Hta) as (used & rest & Hl & Hrel & Hord).
      exists used, rest. rewrite written_by_after, decide_False, app_nil_r by done. done.
    + intros a [Ha Hne]%lookup_insert_None.
      rewrite written_by_after, decide_False, app_nil_r by done. auto.
  - simplify_eq. by split.
  - simplify_eq. by split.
Qed.

Lemma order_inv_reachable st : reachable st -> order_inv st.
Proof. apply star_invariant; [apply order_inv_step|]. split; [|done]. intros a t; simpl. by rewrite lookup_empty. Qed.

(** C7: under any interleaving, what the task of a connection has written is
    made of frames of the router's own, written back to that connection, and
    of frames the peer sent after its registration, in the order it sent them,
    each passed on at most once. *)
Theorem forwarding_keeps_order (st : RouterState) (a : nat) (t : Task)
    (Hreach : reachable st) (Ht : tasks st !! a = Some t) :
  exists used rest, omap item_payload (tail (t_source t)) = (used ++ rest)%list /\
    relays a (written_by st a) used.
Proof.
  destruct (proj1 (order_inv_reachable st Hreach) a t Ht) as (used & rest & Hl & Hrel & _).
  by exists used, rest.
Qed.

(** What [f] sees of the frames written is in order in what it sees of the
    frames received, unless it sees the router's own. *)
Lemma relays_sees {B} (f : bytes -> option B) a h used :
  relays a h used -> (forall raw, (a, raw) ∈ h -> made raw -> f raw = None) ->
  omap f (h.*2) `sublist_of` omap f used.
Proof.
  induction 1 as [|h used raw H IH|h used raw Hm H IH|h used s raw H IH]; intros Hown; [done| | |].
  - rewrite omap_app. apply sublist_inserts_r. auto.
  - rewrite fmap_app, omap_app. simpl. rewrite (Hown raw); [|set_solver|done].
    rewrite app_nil_r. apply IH. intros raw' Hin. apply Hown. set_solver.
  - rewrite fmap_app, !omap_app. apply sublist_app; [|done].
    apply IH. intros raw' Hin. apply Hown. set_solver.
Qed.
End order.
