(* ===== verification/RouterScenarios.v ===== *)
(** Runs of the router on concrete inputs, with the serializer of [RefCodec]:
    instances of the properties of [RouterSpec] and [RouterSafety], and the
    schedules in which a stale removal or a stale class check has a visible
    effect. *)

From S2P Require Import Prelude Prog Float64 Wire Protocol RefCodec Registry Server.
From S2P Require Import RouterSpec RouterSafety RouterTypes RouterRouting RouterOrder.

Local Open Scope string_scope.

(** * Frames *)

Definition sample_frame (k m from to : string) (body : bytes) : bytes :=
  match encode_frame (build_envelope k m from to F64.zero) body with
  | Ok b => b
  | Err _ => []
  end.

Definition register_frame (id : string) (class : PeerClass) : bytes :=
  sample_frame KIND_REGISTER "m0" id ROUTER_PEER_ID
    (match encode_register_body (mkRegisterBody id class) with Ok b => b | Err _ => [] end).

Definition call_frame (from to : string) : bytes := sample_frame KIND_CALL "m1" from to [].
Definition response_frame (from to : string) : bytes := sample_frame KIND_RESPONSE "m1" from to [].
Definition heartbeat_frame (from : string) : bytes :=
  sample_frame KIND_HEARTBEAT "m2" from ROUTER_PEER_ID [].
Definition disconnect_frame (from : string) : bytes :=
  sample_frame KIND_DISCONNECT "m3" from ROUTER_PEER_ID [].

Definition peer (frames : list bytes) : list WsItem := map (fun b => Ok (Binary b)) frames.

Definition steps (c n : nat) : list Action := replicate n (TaskStep c).

(** The state after a schedule, from the initial state. *)
Definition after (l : list Action) : RouterState := default router_init (run_actions l router_init).

Definition valid (l : list Action) : bool :=
  match run_actions l router_init with Some _ => true | None => false end.

Lemma after_reachable l : valid l = true -> reachable (after l).
Proof.
  unfold valid, after, reachable. destruct (run_actions l router_init) eqn:E; [|done].
  intros _. by eapply run_actions_star.
Qed.



(** Caller "a" on connection 1, service "s" on connection 2, one call. *)
Definition call_run : list Action :=
  [Accept 1 (Ok tt) (peer [register_frame "a" Caller; call_frame "a" "s"; heartbeat_frame "a"])]
  ++ steps 1 3
  ++ [Accept 2 (Ok tt) (peer [register_frame "s" Service; heartbeat_frame "s"])]
  ++ steps 2 3
  ++ steps 1 4.

Example call_run_valid : valid call_run = true.
Proof. vm_compute. reflexivity. Qed.

Example call_run_history :
  last (history (after call_run)) = Some (1, 2, call_frame "a" "s").
Proof. vm_compute. reflexivity. Qed.

(** * Instances of the safety properties *)

Definition record_of (q : string) (st : RouterState) : PeerRecord :=
  default (mkPeerRecord "" Caller 0 false None) (registry (world st) !! q).

Lemma routing_entries_are_live_witness :
  exists t, tasks (after call_run) !! 2 = Some t /\ will_remove "s" (t_prog t).
Proof.
  apply (routing_entries_are_live (after call_run) "s" (record_of "s" (after call_run))).
  - apply after_reachable. vm_compute. reflexivity.
  - vm_compute. reflexivity.
Defined.

Lemma registry_is_injective_witness :
  registry (world (after call_run)) !! "a" = Some (record_of "a" (after call_run)) /\
  (forall q2, registry (world (after call_run)) !! q2 = Some (record_of "a" (after call_run)) ->
     "a" = q2).
Proof.
  split; [vm_compute; reflexivity|].
  intros q2 H2.
  destruct (registry_is_injective (after call_run)) as [_ Hinj].
  - apply after_reachable. vm_compute. reflexivity.
  - eapply Hinj; [|exact H2|reflexivity]. vm_compute. reflexivity.
Defined.

Lemma forwarded_frames_are_genuine_witness :
  exists t id class f,
    tasks (after call_run) !! 1 = Some t
    /\ identity_of (t_source t) = Some (id, class)
    /\ In (Ok (Binary (call_frame "a" "s"))) (tail (t_source t))
    /\ decode_frame (call_frame "a" "s") = Ok f /\ env_from (envelope f) = id
    /\ routable class (kind (envelope f)).
Proof.
  apply (forwarded_frames_are_genuine (after call_run) 1 2).
  - apply after_reachable. vm_compute. reflexivity.
  - apply (list_elem_of_lookup_2 _ 2). vm_compute. reflexivity.
  - discriminate.
Defined.

Lemma frames_reach_their_addressee_witness :
  exists t, tasks (after call_run) !! 1 = Some t /\
    ((exists f class, decode_frame (call_frame "a" "s") = Ok f /\
        In (Ok (Binary (call_frame "a" "s"))) (tail (t_source t)) /\
        identity_of (t_source t) = Some (env_from (envelope f), class) /\
        routable class (kind (envelope f)) /\ registered_as (after call_run) 2 (env_to (envelope f)))
     \/ 2 = 1 /\ own_frame (looked_up (after call_run)) (t_source t) (call_frame "a" "s")).
Proof.
  apply (frames_reach_their_addressee (after call_run) 1 2).
  - apply after_reachable. vm_compute. reflexivity.
  - apply (list_elem_of_lookup_2 _ 2). vm_compute. reflexivity.
Defined.

Definition task_of (c : nat) (st : RouterState) : Task :=
  default (mkTask [] (Ret (Ok tt))) (tasks st !! c).

Lemma task_of_lookup c st : bool_decide (is_Some (tasks st !! c)) = true -> tasks st !! c = Some (task_of c st).
Proof. intros H%bool_decide_eq_true. unfold task_of. by destruct H as [t ->]. Qed.

Lemma forwarding_keeps_order_witness :
  exists used rest, omap item_payload (tail (t_source (task_of 1 (after call_run)))) = (used ++ rest)%list /\
    relays 1 (written_by (after call_run) 1) used.
Proof.
  apply (forwarding_keeps_order (after call_run) 1).
  - apply after_reachable. vm_compute. reflexivity.
  - apply task_of_lookup. vm_compute. reflexivity.
Defined.

Lemma written_frames_are_typed_witness :
  exists s raw c t, outbox (world (after call_run)) !! 2%nat = Some (s, raw) /\
    tasks (after call_run) !! c = Some t /\ router_frame (t_source t) raw.
Proof.
  exists 2, (call_frame "a" "s").
  enough (exists c t, tasks (after call_run) !! c = Some t /\
    router_frame (t_source t) (call_frame "a" "s")) as (c & t & H)
    by (exists c, t; split; [vm_compute; reflexivity|exact H]).
  apply (written_frames_are_typed (after call_run) 2).
  - apply after_reachable. vm_compute. reflexivity.
  - apply (list_elem_of_lookup_2 _ 2). vm_compute. reflexivity.
Defined.

(** A world with caller "a" on sink 1 and service "s" on sink 2. *)
Definition two_peers : World :=
  mkWorld {["a" := mkPeerRecord "a" Caller 1 true (Some 0%Z);
            "s" := mkPeerRecord "s" Service 2 true (Some 0%Z)]} 0 0 {[1; 2; 3]} [].

Lemma two_peers_wf : Registry.wf (registry two_peers).
Proof.
  unfold two_peers; simpl. apply map_Forall_insert_2; [done|].
  by apply map_Forall_singleton.
Qed.

Definition sample_parts (b : bytes) : FrameParts :=
  match decode_frame b with
  | Ok f => f
  | Err _ => mkFrameParts (build_envelope "" "" "" "" F64.zero) []
  end.

Lemma dispatch_refines_spec_witness :
  exists w',
    exec (dispatch 1 "a" Caller (call_frame "a" "s") (sample_parts (call_frame "a" "s"))) two_peers
      = (Ok Continue, w')
    /\ outbox w' = [(2, call_frame "a" "s")] /\ table (registry w') = table (registry two_peers).
Proof.
  assert (H1 : 1 ∈ writable two_peers) by (apply (bool_decide_unpack _); vm_compute; exact I).
  pose proof (dispatch_refines_spec 1 "a" Caller (call_frame "a" "s")
    (sample_parts (call_frame "a" "s")) two_peers H1 two_peers_wf) as H.
  assert (E : spec_dispatch (writable two_peers) (table (registry two_peers)) "a" Caller
      (envelope (sample_parts (call_frame "a" "s"))) (call_frame "a" "s")
      (decode_query_body (body_bytes (sample_parts (call_frame "a" "s"))))
    = Ok ([Forward 2 (call_frame "a" "s")], table (registry two_peers), Continue))
    by (vm_compute; reflexivity).
  rewrite E in H. destruct H as (w' & Hx & Ht & Ho & _).
  exists w'. split; [exact Hx|]. split; [exact Ho|exact Ht].
Defined.

Lemma register_phase_refines_spec_witness :
  exists m w',
    exec (register_phase 3 (Some (Ok (Binary (register_frame "b" Service))))) two_peers
      = ((Some "b", Ok (Some ("b", Service))), w')
    /\ effect 3 two_peers w' [Reply (NAck KIND_RESPONSE m "b" (now_ts 0))]
         (<["b" := (Service, 3)]> (table (registry two_peers))).
Proof.
  assert (H3 : 3 ∈ writable two_peers) by (apply (bool_decide_unpack _); vm_compute; exact I).
  pose proof (register_phase_refines_spec 3 (Some (Ok (Binary (register_frame "b" Service))))
    two_peers H3) as H.
  assert (E : spec_register (table (registry two_peers))
      (Some (Ok (Binary (register_frame "b" Service)))) = Registered "b" Service)
    by (vm_compute; reflexivity).
  rewrite E in H. exact H.
Defined.

(** * Interleavings with a visible effect *)




(** The service "x" leaves between the class check of a call and its delivery,
    and a caller takes over the id. *)
Definition takeover_run : list Action :=
  [Accept 1 (Ok tt) (peer [register_frame "a" Caller; call_frame "a" "x"; heartbeat_frame "a"])]
  ++ steps 1 3
  ++ [Accept 2 (Ok tt) (peer [register_frame "x" Service; disconnect_frame "x"])]
  ++ steps 2 3 ++ steps 1 2 ++ steps 2 3
  ++ [Accept 3 (Ok tt) (peer [register_frame "x" Caller; heartbeat_frame "x"])]
  ++ steps 3 3 ++ steps 1 2.

(** The class check of [route_or_error] and the delivery of
    [route_to_target] read the registry separately.  There is a run in which
    a call is delivered to a connection that registered as a caller. *)
Theorem call_can_reach_a_caller_peer :
  exists st raw f r,
    reachable st /\ (1, 3, raw) ∈ history st
    /\ decode_frame raw = Ok f /\ kind (envelope f) = KIND_CALL /\ env_to (envelope f) = "x"
    /\ registry (world st) !! "x" = Some r /\ rec_sender r = 3 /\ rec_class r = Caller.
Proof.
  exists (after takeover_run), (call_frame "a" "x"), (sample_parts (call_frame "a" "x")),
    (record_of "x" (after takeover_run)).
  split; [apply after_reachable; vm_compute; reflexivity|].
  split; [apply (list_elem_of_lookup_2 _ 4); vm_compute; reflexivity|].
  repeat split; vm_compute; reflexivity.
Qed.

(** * Instances of the frame properties *)

Lemma frame_roundtrip_witness :
  let e := build_envelope KIND_CALL "m1" "a" "s" F64.zero in
  decode_frame (sample_frame KIND_CALL "m1" "a" "s" [Byte.x81; Byte.x00])
  = Ok (mkFrameParts e [Byte.x81; Byte.x00]).
Proof.
  intros e.
  apply (frame_roundtrip e [Byte.x81; Byte.x00]
    (match encode_envelope e with Ok b => b | Err _ => [] end)); vm_compute; reflexivity.
Defined.

(** * Instances of the routing properties *)

Lemma response_to_service_is_forwarded_witness :
  exec (handle_response 3 Service (build_envelope KIND_RESPONSE "m1" "t" "s" F64.zero)
          (response_frame "t" "s")) two_peers
  = (Ok tt, push_outbox 2 (response_frame "t" "s") two_peers).
Proof.
  apply (response_to_service_is_forwarded 3 (build_envelope KIND_RESPONSE "m1" "t" "s" F64.zero)
    (response_frame "t" "s") two_peers (mkPeerRecord "s" Service 2 true (Some 0%Z))).
  - vm_compute. reflexivity.
  - reflexivity.
  - apply (bool_decide_unpack _). vm_compute. exact I.
Defined.

Definition bad_query : bytes := sample_frame KIND_QUERY "m4" "a" ROUTER_PEER_ID [].

Lemma malformed_query_is_not_answered_witness :
  exec (message_loop 1 "a" Caller [Ok (Binary bad_query)]) two_peers
  = (Err (MalformedQueryBody "invalid encoding"), two_peers).
Proof.
  apply (malformed_query_is_not_answered 1 "a" Caller bad_query (sample_parts bad_query) two_peers
    (MalformedQueryBody "invalid encoding")); vm_compute; reflexivity.
Defined.
