(* ===== verification/ClientMessage.v ===== *)
(** The client crate's protocol layer: [rust/src/error.rs] and
    [rust/src/message.rs].

    The functions repeat those of the router ([Protocol]) with the client's
    error type; the serializer instances are the client's own, since the two
    crates derive [Serialize] and [Deserialize] separately. *)

From S2P Require Import Prelude Float64 Wire.

Local Open Scope string_scope.
Local Open Scope Z_scope.
Local Open Scope rust_scope.

(** * Errors *)

Inductive MultifrostError : Set :=
| SerializeError (s : string)
| DeserializeError (s : string)
| WebSocketError (s : string)
| IoError (s : string)
| JsonError (s : string)
| TimeoutError
| InvalidMessage (s : string)
| MalformedFrame (s : string)
| BootstrapFailure (s : string)
| RouterUnavailable (s : string)
| RegisterRejected (s : string)
| InvalidTargetClass (s : string)
| PeerNotFound (s : string)
| InvalidProtocolKey (s : string)
| RemoteCallError (s : string)
| FunctionNotFound (s : string)
| ConfigError (s : string).

(** The [#[error(...)]] texts: [err.to_string()]. *)
Definition MultifrostError_display (e : MultifrostError) : string :=
  match e with
  | SerializeError s => "Failed to serialize message: " +:+ s
  | DeserializeError s => "Failed to deserialize message: " +:+ s
  | WebSocketError s => "WebSocket error: " +:+ s
  | IoError s => "IO error: " +:+ s
  | JsonError s => "JSON error: " +:+ s
  | TimeoutError => "Timeout waiting for response"
  | InvalidMessage s => "Invalid message: " +:+ s
  | MalformedFrame s => "Malformed frame: " +:+ s
  | BootstrapFailure s => "Bootstrap failure: " +:+ s
  | RouterUnavailable s => "Router unavailable: " +:+ s
  | RegisterRejected s => "Register rejected: " +:+ s
  | InvalidTargetClass s => "Invalid target class: " +:+ s
  | PeerNotFound s => "Peer not found: " +:+ s
  | InvalidProtocolKey s => "Protocol key mismatch: " +:+ s
  | RemoteCallError s => "Remote call error: " +:+ s
  | FunctionNotFound s => "Function not found: " +:+ s
  | ConfigError s => "Configuration error: " +:+ s
  end.

Abbreviation MResult A := (result A MultifrostError).

(** The serializer at the types the client uses, and the [Debug] text of a
    WebSocket message. *)
Class ClientCodec := {
  #[global] cc_envelope :: RmpSerde Envelope;
  #[global] cc_register :: RmpSerde RegisterBody;
  #[global] cc_ack :: RmpSerde RegisterAckBody;
  #[global] cc_query :: RmpSerde QueryBody;
  #[global] cc_exists :: RmpSerde QueryExistsResponseBody;
  #[global] cc_get :: RmpSerde QueryGetResponseBody;
  #[global] cc_call :: RmpSerde CallBody;
  #[global] cc_response :: RmpSerde ResponseBody;
  #[global] cc_error :: RmpSerde ErrorBody;
  message_debug : Message -> string;
}.

Class ClientCodecLaws (CC : ClientCodec) : Prop := {
  #[global] ccl_envelope :: RmpLaws Envelope cc_envelope;
  #[global] ccl_register :: RmpLaws RegisterBody cc_register;
  #[global] ccl_ack :: RmpLaws RegisterAckBody cc_ack;
  #[global] ccl_query :: RmpLaws QueryBody cc_query;
  #[global] ccl_exists :: RmpLaws QueryExistsResponseBody cc_exists;
  #[global] ccl_get :: RmpLaws QueryGetResponseBody cc_get;
  ccl_response_total : forall x : ResponseBody, exists b, to_vec_named x = Ok b;
  ccl_error_total : forall x : ErrorBody, exists b, to_vec_named x = Ok b;
  ccl_error : forall x : ErrorBody, details x = None -> RoundTrips cc_error cc_error x;
}.

Definition validate_protocol_key (value : string) : MResult unit :=
  if (value =? PROTOCOL_KEY)%string then Ok tt else Err (InvalidProtocolKey value).

(** [now_ts]: 0.0 when the clock is before the epoch. *)
Definition now_ts (system_time : Z) : f64 :=
  if 0 <=? system_time then as_secs_f64 system_time else F64.zero.

Section message.
Context {CC : ClientCodec}.

Definition ensure_binary_ws_message (m : Message) : MResult bytes :=
  match m with
  | Binary b => Ok b
  | other => Err (MalformedFrame ("expected binary websocket message, got " +:+ message_debug other))
  end.

Definition encode_envelope (e : Envelope) : MResult bytes :=
  map_err SerializeError (to_vec_named e).

Definition decode_envelope (b : bytes) : MResult Envelope :=
  let? e := map_err MalformedFrame (from_slice b) in
  if negb (v e =? PROTOCOL_VERSION)
  then Err (InvalidProtocolKey ("v=" +:+ pretty (v e)))
  else Ok e.

Definition encode_frame (e : Envelope) (body : bytes) : MResult bytes :=
  let? envelope_bytes := encode_envelope e in
  Ok (u32_to_be_bytes (wrap 32 (Z.of_nat (length envelope_bytes)))
      ++ envelope_bytes ++ body)%list.

Definition decode_frame (b : bytes) : MResult FrameParts :=
  if Z.of_nat (length b) <? 4
  then Err (MalformedFrame "frame too short for envelope length")
  else
    let envelope_len := u32_from_be_bytes (take 4 b) in
    if Z.of_nat (length b) <? 4 + envelope_len
    then Err (MalformedFrame "frame shorter than declared envelope length")
    else
      let n := Z.to_nat envelope_len in
      let? e := decode_envelope (take n (drop 4 b)) in
      Ok (mkFrameParts e (drop (4 + n) b)).

Definition encode_register_body (x : RegisterBody) : MResult bytes :=
  map_err SerializeError (to_vec_named x).
Definition decode_register_body (b : bytes) : MResult RegisterBody :=
  map_err MalformedFrame (from_slice b).
Definition encode_register_ack_body (x : RegisterAckBody) : MResult bytes :=
  map_err SerializeError (to_vec_named x).
Definition decode_register_ack_body (b : bytes) : MResult RegisterAckBody :=
  map_err MalformedFrame (from_slice b).
Definition encode_query_body (x : QueryBody) : MResult bytes :=
  map_err SerializeError (to_vec_named x).
Definition decode_query_body (b : bytes) : MResult QueryBody :=
  map_err MalformedFrame (from_slice b).
Definition encode_query_exists_response (x : QueryExistsResponseBody) : MResult bytes :=
  map_err SerializeError (to_vec_named x).
Definition decode_query_exists_response (b : bytes) : MResult QueryExistsResponseBody :=
  map_err MalformedFrame (from_slice b).
Definition encode_query_get_response (x : QueryGetResponseBody) : MResult bytes :=
  map_err SerializeError (to_vec_named x).
Definition decode_query_get_response (b : bytes) : MResult QueryGetResponseBody :=
  map_err MalformedFrame (from_slice b).
Definition encode_call_body (x : CallBody) : MResult bytes :=
  map_err SerializeError (to_vec_named x).
Definition decode_call_body (b : bytes) : MResult CallBody :=
  map_err MalformedFrame (from_slice b).
Definition encode_response_body (x : ResponseBody) : MResult bytes :=
  map_err SerializeError (to_vec_named x).
Definition decode_response_body (b : bytes) : MResult ResponseBody :=
  map_err MalformedFrame (from_slice b).
Definition encode_error_body (x : ErrorBody) : MResult bytes :=
  map_err SerializeError (to_vec_named x).
Definition decode_error_body (b : bytes) : MResult ErrorBody :=
  map_err MalformedFrame (from_slice b).

Definition binary_message (b : bytes) : Message := Binary b.

(** ** Envelope builders; [fresh] is [new_msg_id()], [now] is [now_ts()] *)

Definition build_register_envelope (peer_id : string) (_class : PeerClass)
    (fresh : string) (now : f64) : Envelope :=
  mkEnvelope PROTOCOL_VERSION KIND_REGISTER fresh peer_id ROUTER_PEER_ID now.

Definition build_query_envelope (peer_id to : string) (fresh : string) (now : f64) : Envelope :=
  mkEnvelope PROTOCOL_VERSION KIND_QUERY fresh peer_id to now.

Definition build_call_envelope (from to : string) (fresh : string) (now : f64) : Envelope :=
  mkEnvelope PROTOCOL_VERSION KIND_CALL fresh from to now.

Definition build_response_envelope (from to msg_id : string) (now : f64) : Envelope :=
  mkEnvelope PROTOCOL_VERSION KIND_RESPONSE msg_id from to now.

Definition build_error_envelope (from to msg_id : string) (now : f64) : Envelope :=
  mkEnvelope PROTOCOL_VERSION KIND_ERROR msg_id from to now.

Definition build_disconnect_envelope (from to msg_id : string) (now : f64) : Envelope :=
  mkEnvelope PROTOCOL_VERSION KIND_DISCONNECT msg_id from to now.

(** ** Lemmas *)

Lemma client_decode_envelope_ok b e :
  decode_envelope b = Ok e <-> from_slice b = Ok e /\ v e = PROTOCOL_VERSION.
Proof.
  unfold decode_envelope. rewrite and_then_ok. setoid_rewrite map_err_ok.
  split.
  - intros (e' & He & Hv). destruct (Z.eqb_spec (v e') PROTOCOL_VERSION);
      simplify_eq/=. done.
  - intros [He Hv]. exists e. split; [done|].
    by rewrite (proj2 (Z.eqb_eq _ _) Hv).
Qed.

(** A frame is cut where the encoder glued it. *)
Lemma client_decode_frame_app env body :
  Z.of_nat (length env) < 2 ^ 32 ->
  decode_frame (u32_to_be_bytes (wrap 32 (Z.of_nat (length env))) ++ env ++ body)%list
  = (let? e := decode_envelope env in Ok (mkFrameParts e body)).
Proof.
  intros Hlen. destruct (length_prefix_cut env body Hlen) as (H1 & H2 & H3 & H4 & H5).
  unfold decode_frame. by rewrite H1, H2, H3, Nat2Z.id, H4, H5.
Qed.

Lemma client_encode_frame_total {CCL : ClientCodecLaws CC} e body : exists b, encode_frame e body = Ok b.
Proof.
  unfold encode_frame, encode_envelope. destruct (rmp_total e) as [b ->]. simpl. eauto.
Qed.
End message.
