(* ===== verification/Config.v ===== *)
(** Configuration of both crates: [router/src/config.rs] and the configuration
    part of [rust/src/router_bootstrap.rs].

    The process environment is a parameter: [env::var] as a function, the
    answer of [dirs::home_dir], paths as Unix path strings. *)

From S2P Require Import Prelude Text Float64 Wire Protocol.

Local Open Scope string_scope.
Local Open Scope Z_scope.
Local Open Scope rust_scope.

(** * [str::parse::<u16>] and [u16::to_string] *)

Definition U16_MAX : Z := 65535.

Definition parse_u16 (s : string) : option Z := parse_uint U16_MAX s.

Definition u16_to_string (n : Z) : string := pretty n.

(** * Environment *)

Record Env : Type := mkEnv {
  env_var : string -> option string;
  dirs_home_dir : option string;
}.

(** [Path::join] with a relative second component. *)
Definition path_join (base rel : string) : string :=
  match String.length base with
  | O => rel
  | S n =>
      if (String.substring n 1 base =? "/")%string
      then base +:+ rel else base +:+ "/" +:+ rel
  end.

(** * Router configuration *)

Definition DEFAULT_PORT : Z := 9981.
Definition PORT_ENV_VAR : string := "MULTIFROST_ROUTER_PORT".

Record RouterConfig : Type := mkRouterConfig {
  protocol_key : string;
  rc_port : Z;
  rc_home_dir : string;
  runtime_dir : string;
  rc_log_path : string;
  rc_lock_path : string;
}.

Definition parse_port (value : option string) : Result Z :=
  match value with
  | Some raw =>
      let? port := ok_or (parse_u16 raw) (InvalidPort raw) in
      if port =? 0 then Err (InvalidPort raw) else Ok port
  | None => Ok DEFAULT_PORT
  end.

Definition load (env : Env) : Result RouterConfig :=
  let? port := parse_port (env_var env PORT_ENV_VAR) in
  let home_dir := default "." (dirs_home_dir env) in
  let runtime_dir := path_join home_dir ".multifrost" in
  let? _ := validate_protocol_key PROTOCOL_KEY in
  Ok {| protocol_key := PROTOCOL_KEY;
        rc_port := port;
        rc_home_dir := home_dir;
        runtime_dir := runtime_dir;
        rc_log_path := path_join runtime_dir "router.log";
        rc_lock_path := path_join runtime_dir "router.lock" |}.

(** [bind_addr]: the loopback address and the port. *)
Definition bind_addr (c : RouterConfig) : string * Z := ("127.0.0.1", rc_port c).

(** * Client configuration *)

Definition DEFAULT_ROUTER_PORT : Z := 9981.
Definition ROUTER_PORT_ENV : string := "MULTIFROST_ROUTER_PORT".
Definition ROUTER_LOCK_PATH : string := ".multifrost/router.lock".
Definition ROUTER_LOG_PATH : string := ".multifrost/router.log".
Definition ROUTER_BIN_ENV : string := "MULTIFROST_ROUTER_BIN".

Record RouterEndpointConfig : Set := mkEndpoint {
  host : string;
  port : Z;
}.

Record RouterBootstrapConfig : Set := mkBootstrapConfig {
  endpoint : RouterEndpointConfig;
  lock_path : string;
  log_path : string;
  readiness_timeout : Z;            (* Duration, nanoseconds *)
  readiness_poll_interval : Z;
}.

Definition router_port_from_env (env : Env) : Z :=
  default DEFAULT_ROUTER_PORT (env_var env ROUTER_PORT_ENV ≫= parse_u16).

Definition endpoint_from_env (env : Env) : RouterEndpointConfig :=
  mkEndpoint "127.0.0.1" (router_port_from_env env).

Definition ws_url (e : RouterEndpointConfig) : string :=
  "ws://" +:+ host e +:+ ":" +:+ u16_to_string (port e).

Definition router_ws_url (port : Z) : string := "ws://127.0.0.1:" +:+ u16_to_string port.

Definition home_dir (env : Env) : option string :=
  match dirs_home_dir env with
  | Some d => Some d
  | None => env_var env "HOME"
  end.

Definition default_router_lock_path (env : Env) : string :=
  path_join (default "." (home_dir env)) ROUTER_LOCK_PATH.
Definition default_router_log_path (env : Env) : string :=
  path_join (default "." (home_dir env)) ROUTER_LOG_PATH.

Definition bootstrap_config_from_env (env : Env) : RouterBootstrapConfig :=
  {| endpoint := endpoint_from_env env;
     lock_path := default_router_lock_path env;
     log_path := default_router_log_path env;
     readiness_timeout := from_secs 10;
     readiness_poll_interval := from_millis 100 |}.

(** * Lemmas *)

Lemma parse_u16_range s n : parse_u16 s = Some n -> 0 <= n <= U16_MAX.
Proof. by apply parse_uint_range. Qed.

Lemma parse_u16_to_string n : 0 <= n <= U16_MAX -> parse_u16 (u16_to_string n) = Some n.
Proof. apply parse_uint_pretty. Qed.

(** * Properties *)

(** The port the client puts in the environment of the router it spawns
    ([port.to_string()]) is read back by the router as the same port, and is
    refused as invalid exactly when it is 0. *)
Theorem spawned_router_reads_client_port (p : Z) (Hp : 0 <= p <= U16_MAX) :
  parse_port (Some (u16_to_string p)) =
    if p =? 0 then Err (InvalidPort (u16_to_string p)) else Ok p.
Proof. unfold parse_port. rewrite parse_u16_to_string by done. done. Qed.

(** C36: with the same environment the client connects to the port the router
    binds: if the router's configuration loads, both resolve the same port and
    it is a nonzero [u16]; if the router refuses the value, the client either
    falls back to the default port or takes the invalid port 0. *)
Theorem port_resolution_agrees (env : Env) :
  match load env with
  | Ok cfg =>
      rc_port cfg = router_port_from_env env /\ 0 < rc_port cfg <= U16_MAX /\
      "ws://" +:+ (bind_addr cfg).1 +:+ ":" +:+ u16_to_string (bind_addr cfg).2
        = ws_url (endpoint_from_env env)
  | Err e =>
      (exists raw, env_var env PORT_ENV_VAR = Some raw /\ e = InvalidPort raw) /\
      (router_port_from_env env = DEFAULT_ROUTER_PORT \/ router_port_from_env env = 0)
  end.
Proof.
  unfold load, ws_url, endpoint_from_env, router_port_from_env, bind_addr.
  change ROUTER_PORT_ENV with PORT_ENV_VAR.
  destruct (env_var env PORT_ENV_VAR) as [raw|]; simpl; [|done].
  destruct (parse_u16 raw) as [p|] eqn:Hp; simpl; [|eauto].
  apply parse_u16_range in Hp. destruct (Z.eqb_spec p 0) as [->|]; simpl; [eauto|].
  repeat split; try done; lia.
Qed.

Lemma spawned_router_reads_client_port_witness :
  0 <= 4242 <= U16_MAX /\ parse_port (Some (u16_to_string 4242)) = Ok 4242.
Proof.
  split; [unfold U16_MAX; lia|].
  apply (spawned_router_reads_client_port 4242). unfold U16_MAX. lia.
Defined.
