(* ===== verification/RouterEntry.v ===== *)
(** The router process: [run] of [router/src/lib.rs], [main] of
    [router/src/main.rs], the accept loop of [router/src/server.rs], and
    [ensure_runtime_dir] of [router/src/config.rs]. *)

From S2P Require Import Prelude Text Prog Float64 Wire Protocol RefCodec Config Registry Server.
From S2P Require Import RouterSafety RouterScenarios.

Local Open Scope string_scope.
Local Open Scope rust_scope.

(** * Operations *)

Inductive entryE : Set -> Type :=
| MakeDirs (path : string) : entryE (result unit string)
| OpenAppend (path : string) : entryE (result unit string)
| WriteLine (path line : string) : entryE (result unit string)
| Bind (addr : string * Z) : entryE (result unit string)
| NewRegistry : entryE unit
| SpawnConnection (c : nat) (handshake : result unit string) (source : list WsItem) : entryE unit.

Abbreviation entryM A := (prog entryE A).

(** What [listener.accept()] yields: an error, or a connection with the answer
    of its handshake and what its peer sends. *)
Abbreviation Accepted := (result (result unit string * list WsItem) string).

(** [fs_error] is the answer of the file system for a path it refuses; [bound]
    the ports in use; [router] the state of the router once it serves. *)
Record EntryWorld : Type := mkEntryWorld {
  dirs : gset string;
  logs : gmap string (list string);
  fs_error : string -> option string;
  bound : gset Z;
  router : option RouterState;
}.

Section entry.
Context {RC : RouterCodec}.

Definition entry_op (X : Set) (e : entryE X) (w : EntryWorld) : X * EntryWorld :=
  match e in entryE X return X * EntryWorld with
  | MakeDirs p =>
      match fs_error w p with
      | Some err => (Err err, w)
      | None => (Ok tt, mkEntryWorld ({[p]} ∪ dirs w) (logs w) (fs_error w) (bound w) (router w))
      end
  | OpenAppend p =>
      match fs_error w p with
      | Some err => (Err err, w)
      | None => (Ok tt, mkEntryWorld (dirs w) (<[p := default [] (logs w !! p)]> (logs w))
                          (fs_error w) (bound w) (router w))
      end
  | WriteLine p l =>
      match fs_error w p with
      | Some err => (Err err, w)
      | None => (Ok tt, mkEntryWorld (dirs w)
                          (<[p := (default [] (logs w !! p) ++ [l])%list]> (logs w))
                          (fs_error w) (bound w) (router w))
      end
  | Bind addr =>
      if bool_decide (addr.2 ∈ bound w) then (Err "address already in use", w)
      else (Ok tt, mkEntryWorld (dirs w) (logs w) (fs_error w) ({[addr.2]} ∪ bound w) (router w))
  | NewRegistry => (tt, mkEntryWorld (dirs w) (logs w) (fs_error w) (bound w) (Some router_init))
  | SpawnConnection c h src =>
      (tt, mkEntryWorld (dirs w) (logs w) (fs_error w) (bound w)
             (router w ≫= apply_action (Accept c h src)))
  end.

(** * The program *)

(** [SocketAddr]'s [Display]. *)
Definition addr_to_string (addr : string * Z) : string :=
  addr.1 +:+ ":" +:+ u16_to_string addr.2.

Definition ensure_runtime_dir (c : RouterConfig) : entryM (Result unit) :=
  made ← perform (MakeDirs (runtime_dir c));
  Ret (map_err Io made).

(** The accept loop on the connections that arrive: [None] while it waits for
    the next one.  The connection number stands for the stream. *)
Fixpoint serve (c : nat) (arrivals : list Accepted) : entryM (option (Result unit)) :=
  match arrivals with
  | [] => Ret None
  | Err err :: _ => Ret (Some (Err (Io err)))
  | Ok (handshake, source) :: arrivals =>
      _ ← perform (SpawnConnection c handshake source);
      serve (S c) arrivals
  end.

Definition run (env : Env) (arrivals : list Accepted) : entryM (option (Result unit)) :=
  match load env with
  | Err e => Ret (Some (Err e))
  | Ok config =>
      dir ← ensure_runtime_dir config;
      match dir with
      | Err e => Ret (Some (Err e))
      | Ok _ =>
          log ← perform (OpenAppend (rc_log_path config));
          match log with
          | Err err => Ret (Some (Err (Io err)))
          | Ok _ =>
              line ← perform (WriteLine (rc_log_path config)
                       ("multifrost-router starting on " +:+ addr_to_string (bind_addr config)));
              match line with
              | Err err => Ret (Some (Err (Io err)))
              | Ok _ =>
                  listener ← perform (Bind (bind_addr config));
                  match listener with
                  | Err err => Ret (Some (Err (Io err)))
                  | Ok _ => _ ← perform NewRegistry; serve 0 arrivals
                  end
              end
          end
      end
  end.

(** [main]: its result is the exit status of the process. *)
Definition main (env : Env) (arrivals : list Accepted) : entryM (option (Result unit)) :=
  run env arrivals.

Definition entry {A} (p : entryM A) (w : EntryWorld) : A * EntryWorld := Prog.run entry_op p w.

(** * Properties *)

(** The connections a run of the accept loop has spawned. *)
Fixpoint spawned_actions (c : nat) (arrivals : list Accepted) : list Action :=
  match arrivals with
  | Ok (handshake, source) :: arrivals =>
      Accept c handshake source :: spawned_actions (S c) arrivals
  | _ => []
  end.

Fixpoint first_accept_error (arrivals : list Accepted) : option (Result unit) :=
  match arrivals with
  | [] => None
  | Err err :: _ => Some (Err (Io err))
  | Ok _ :: arrivals => first_accept_error arrivals
  end.

(** Numbers from [c] on are free. *)
Definition fresh_from (c : nat) (st : RouterState) : Prop :=
  forall i, (c <= i)%nat -> tasks st !! i = None.

Lemma serve_spawns c arrivals w st :
  router w = Some st -> fresh_from c st ->
  exists st', run_actions (spawned_actions c arrivals) st = Some st' /\
    entry (serve c arrivals) w =
      (first_accept_error arrivals,
       mkEntryWorld (dirs w) (logs w) (fs_error w) (bound w) (Some st')).
Proof.
  revert c w st. induction arrivals as [|[[h src]|err] arrivals IH]; intros c w st Hr Hf;
    cbn [spawned_actions run_actions first_accept_error].
  - exists st. split; [done|]. destruct w; simpl in *; by subst.
  - assert (E : apply_action (Accept c h src) st = Some (mkRouter
        (<[c := mkTask src (handle_connection c h src)]> (tasks st))
        (mkWorld (registry (world st)) (instant (world st)) (system_time (world st))
           ({[c]} ∪ writable (world st)) (outbox (world st))) (history st))).
    { simpl. by rewrite (Hf c (le_n c)). }
    rewrite E. cbn [mbind option_bind].
    unfold entry. cbn [serve bind perform Prog.run entry_op]. rewrite Hr.
    cbn [mbind option_bind]. rewrite E.
    match goal with |- context [Prog.run entry_op (serve (S c) arrivals) ?w1] =>
      apply (IH (S c) w1) end; [done|]. intros i Hi. simpl. rewrite lookup_insert_ne by lia. apply Hf. lia.
  - exists st. split; [done|]. destruct w; simpl in *; by subst.
Qed.

(** C33: the router process from [main] to the accept loop.  With a bad
    configuration it returns that error and touches nothing.  Otherwise it
    stops with an I/O error before serving if a path is refused or the port is
    taken, or it has logged one line with its address, holds exactly the
    configured port, and serves: its state is the one reached from the empty
    registry by accepting the connections that arrived, so every property of
    the reachable states of the router holds of the running process. *)
Theorem router_process_outcome (env : Env) (arrivals : list Accepted) (w : EntryWorld)
    (Hnew : router w = None) :
  let (r, w') := entry (main env arrivals) w in
  match load env with
  | Err e => r = Some (Err e) /\ w' = w
  | Ok cfg =>
      (router w' = None /\ bound w' = bound w /\ exists err, r = Some (Err (Io err))) \/
      exists st, router w' = Some st /\ reachable st /\
        run_actions (spawned_actions 0 arrivals) router_init = Some st /\
        r = first_accept_error arrivals /\
        rc_port cfg ∉ bound w /\ bound w' = {[rc_port cfg]} ∪ bound w /\
        logs w' !! rc_log_path cfg =
          Some (default [] (logs w !! rc_log_path cfg) ++
                ["multifrost-router starting on " +:+ addr_to_string (bind_addr cfg)])%list
  end.
Proof.
  unfold main, run. destruct (load env) as [cfg|e]; [|done].
  unfold entry, ensure_runtime_dir. cbn [bind perform Prog.run entry_op].
  destruct (fs_error w (runtime_dir cfg)) as [err|]; cbn; [left; by eauto|].
  destruct (fs_error w (rc_log_path cfg)) as [err|] eqn:Elog; cbn; [left; by eauto|].
  rewrite Elog. cbn. case_bool_decide as Hport; cbn; [left; by eauto|].
  match goal with |- context [Prog.run entry_op (serve 0 arrivals) ?w1] =>
    destruct (serve_spawns 0 arrivals w1 router_init) as (st & Hst & Hserve);
      [done|by intros i _; apply lookup_empty|] end.
  unfold entry in Hserve. rewrite Hserve. right. exists st. cbn.
  split; [done|]. split; [by eapply run_actions_star|]. split; [done|]. split; [done|].
  split; [done|]. split; [done|]. by rewrite !lookup_insert_eq.
Qed.
End entry.

(** An idle host, and a caller that connects. *)
Definition idle_host : EntryWorld := mkEntryWorld ∅ ∅ (fun _ => None) ∅ None.

Definition sample_arrivals : list Accepted := [Ok (Ok tt, peer [register_frame "a" Caller])].

Lemma router_process_outcome_witness :
  router idle_host = None /\
  let (r, w') := entry (main (mkEnv (fun _ => None) (Some "/home/u")) sample_arrivals) idle_host in
  (router w' = None /\ bound w' = ∅ /\ exists err, r = Some (Err (Io err))) \/
  exists st, router w' = Some st /\ reachable st /\
    run_actions (spawned_actions 0 sample_arrivals) router_init = Some st /\
    r = None /\ 9981%Z ∉ bound idle_host /\ bound w' = {[9981%Z]} ∪ ∅ /\
    logs w' !! "/home/u/.multifrost/router.log" =
      Some ["multifrost-router starting on 127.0.0.1:9981"].
Proof.
  split; [reflexivity|].
  exact (router_process_outcome (mkEnv (fun _ => None) (Some "/home/u")) sample_arrivals idle_host
           eq_refl).
Defined.
