(* ===== verification/Bootstrap.v ===== *)
(** Router bootstrap: [rust/src/router_bootstrap.rs].

    A client that finds no router takes a lock file, spawns a router and waits
    for it.  The functions are programs over [bootE]: the file system, the
    clocks, process liveness, spawning, and one connection attempt
    ([connect_async]).  [run boot_op] executes one process alone; several
    processes are interleaved by [step1].  The three loops of the code take
    fuel; their [None] means that they are still running. *)

From S2P Require Import Prelude Prog Float64 Wire Config ClientMessage.
From Stdlib Require Import Ascii.

Local Open Scope string_scope.
Local Open Scope Z_scope.
Local Open Scope rust_scope.

(** * The lock file *)

Record LockFileData : Set := mkLockFileData {
  format : string;
  pid : Z;                          (* u32 *)
  router_pid : option Z;
  lock_port : Z;                    (* u16 *)
  created_at_unix : f64;
  expires_at_unix : f64;
  status : string;
  language : string;
}.

Definition set_status (s : string) (d : LockFileData) : LockFileData :=
  mkLockFileData (format d) (pid d) (router_pid d) (lock_port d) (created_at_unix d)
    (expires_at_unix d) s (language d).
Definition set_router_pid (p : Z) (d : LockFileData) : LockFileData :=
  mkLockFileData (format d) (pid d) (Some p) (lock_port d) (created_at_unix d)
    (expires_at_unix d) (status d) (language d).

(** [serde_json] at this type.  Printing a structure of strings and numbers
    does not fail. *)
Class LockJson := {
  lock_to_string : LockFileData -> string;
  lock_from_str : string -> result LockFileData string;
}.

Inductive LockEvalResult : Set := Reclaim | SkipSpawn | Wait.

(** * Operations *)

Inductive Opened : Set :=
| Created (file : nat)
| AlreadyExists
| OpenFailed (err : string).

Inductive bootE : Set -> Type :=
| ConnectAsync (url : string) : bootE bool
| InstantNow : bootE Z
| SystemNow : bootE Z
| Sleep (d : Z) : bootE unit
| CreateDirAll (path : string) : bootE (result unit string)
| CreateNew (path : string) : bootE Opened
| WriteAll (file : nat) (content : string) : bootE (result unit string)
| WritePath (path content : string) : bootE unit
| RemoveFile (path : string) : bootE unit
| ReadToString (path : string) : bootE (result string string)
| KillZero (pid : Z) : bootE (result Z string)
| ProcessId : bootE Z
| OpenLog (path : string) : bootE (result unit string)
| SpawnRouter (bin port : string) : bootE (result Z string)
| KillChild (pid : Z) : bootE unit.

Abbreviation bootM A := (prog bootE A).

(** [Path::parent], for a path that does not end in a slash. *)
Fixpoint last_slash (i : nat) (s : string) : option nat :=
  match s with
  | EmptyString => None
  | String a s =>
      match last_slash (S i) s with
      | Some j => Some j
      | None => if Ascii.eqb a "/"%char then Some i else None
      end
  end.

Definition path_parent (s : string) : option string :=
  if (s =? "")%string || (s =? "/")%string then None
  else match last_slash 0 s with
       | None => Some ""
       | Some O => Some "/"
       | Some (S n) => Some (String.substring 0 (S n) s)
       end.

Section bootstrap.
Context {LJ : LockJson}.

(** [AcquiredLock::update]; the result is the new in-memory data. *)
Definition lock_update (path : string) (f : LockFileData -> LockFileData) (d : LockFileData) :
    bootM LockFileData :=
  let d := f d in
  _ ← perform (WritePath path (lock_to_string d));
  Ret d.

(** [Drop for AcquiredLock]. *)
Definition lock_drop (path : string) : bootM unit := perform (RemoveFile path).

(** On Unix: the command [kill -0 pid] runs and exits with status 0. *)
Definition platform_is_process_alive (pid : Z) : bootM bool :=
  status ← perform (KillZero pid);
  Ret (match status with Ok code => code =? 0 | Err _ => false end).

Definition is_process_alive (pid : Z) : bootM bool :=
  if pid =? 0 then Ret false else platform_is_process_alive pid.

(** The six rules. *)
Definition evaluate_existing_lock (path : string) : bootM LockEvalResult :=
  content ← perform (ReadToString path);
  match content with
  | Err _ => Ret Reclaim
  | Ok content =>
      match lock_from_str content with
      | Err _ => Ret Reclaim
      | Ok lock =>
          if negb (format lock =? "v1")%string then Ret Reclaim
          else
            now ← perform SystemNow;
            if F64.ltb (expires_at_unix lock) (as_secs_f64 now) then Ret Reclaim
            else
              holder ← is_process_alive (pid lock);
              if negb holder then Ret Reclaim
              else if (status lock =? "failed")%string then Ret Reclaim
              else
                match router_pid lock with
                | Some rp =>
                    router ← is_process_alive rp;
                    if (router : bool) then Ret SkipSpawn else Ret Wait
                | None => Ret Wait
                end
      end
  end.

Definition lock_data (my_pid port now_ns stale_after : Z) : LockFileData :=
  let now := as_secs_f64 now_ns in
  mkLockFileData "v1" my_pid None port now (F64.add now (as_secs_f64 stale_after))
    "starting" "rust".

Fixpoint acquire_loop (fuel : nat) (lock_path : string) (port stale_after deadline : Z) :
    bootM (option (MResult (option LockFileData))) :=
  match fuel with
  | O => Ret None
  | S fuel =>
      opened ← perform (CreateNew lock_path);
      match opened with
      | Created file =>
          now ← perform SystemNow;
          my_pid ← perform ProcessId;
          let data := lock_data my_pid port now stale_after in
          written ← perform (WriteAll file (lock_to_string data));
          match written with
          | Err err => Ret (Some (Err (IoError err)))
          | Ok _ => Ret (Some (Ok (Some data)))
          end
      | AlreadyExists =>
          verdict ← evaluate_existing_lock lock_path;
          match verdict with
          | Reclaim =>
              _ ← perform (RemoveFile lock_path);
              acquire_loop fuel lock_path port stale_after deadline
          | SkipSpawn => Ret (Some (Ok None))
          | Wait =>
              now ← perform InstantNow;
              if deadline <=? now
              then Ret (Some (Err (BootstrapFailure
                     "timed out waiting for router bootstrap lock")))
              else
                _ ← perform (Sleep (from_millis 100));
                acquire_loop fuel lock_path port stale_after deadline
          end
      | OpenFailed err => Ret (Some (Err (IoError err)))
      end
  end.

Definition acquire_lock (fuel : nat) (lock_path : string) (port stale_after : Z) :
    bootM (option (MResult (option LockFileData))) :=
  made ←
    match path_parent lock_path with
    | Some parent => perform (CreateDirAll parent)
    | None => Ret (Ok tt)
    end;
  match made with
  | Err err => Ret (Some (Err (IoError err)))
  | Ok _ =>
      start ← perform InstantNow;
      acquire_loop fuel lock_path port stale_after (start + from_secs 10)
  end.

Definition router_is_reachable (e : RouterEndpointConfig) : bootM bool :=
  perform (ConnectAsync (ws_url e)).

Definition ensure_router (e : RouterEndpointConfig) : bootM (MResult unit) :=
  up ← router_is_reachable e;
  if (up : bool) then Ret (Ok tt) else Ret (Err (RouterUnavailable (ws_url e))).

(** [bin] is the value of [ROUTER_BIN_ENV]. *)
Definition spawn_router_process (bin : option string) (config : RouterBootstrapConfig) :
    bootM (MResult Z) :=
  log ← perform (OpenLog (log_path config));
  _ ←! map_err IoError log;
  child ← perform (SpawnRouter (default "multifrost-router" bin)
                     (u16_to_string (port (endpoint config))));
  Ret (map_err BootstrapFailure child).

(** The wait of a process that found a live router behind the lock. *)
Fixpoint skip_spawn_loop (fuel : nat) (config : RouterBootstrapConfig) (deadline : Z) :
    bootM (option (MResult unit)) :=
  match fuel with
  | O => Ret None
  | S fuel =>
      now ← perform InstantNow;
      if now <? deadline
      then
        up ← router_is_reachable (endpoint config);
        if (up : bool) then Ret (Some (Ok tt))
        else
          _ ← perform (Sleep (readiness_poll_interval config));
          skip_spawn_loop fuel config deadline
      else Ret (Some (Err (BootstrapFailure
             "timeout waiting for router to become reachable (skip_spawn)")))
  end.

(** The wait for the router that this process spawned; [readiness] is the
    [Debug] text of the time limit. *)
Fixpoint readiness_loop (fuel : nat) (readiness : string) (config : RouterBootstrapConfig)
    (child deadline : Z) (d : LockFileData) : bootM (option (MResult unit)) :=
  match fuel with
  | O => Ret None
  | S fuel =>
      up ← router_is_reachable (endpoint config);
      if (up : bool)
      then _ ← lock_update (lock_path config) (set_status "ready") d; Ret (Some (Ok tt))
      else
        now ← perform InstantNow;
        if deadline <=? now
        then
          _ ← lock_update (lock_path config) (set_status "failed") d;
          _ ← perform (KillChild child);
          Ret (Some (Err (BootstrapFailure
            ("router did not become reachable at " +:+ ws_url (endpoint config)
             +:+ " within " +:+ readiness))))
        else
          _ ← perform (Sleep (readiness_poll_interval config));
          readiness_loop fuel readiness config child deadline d
  end.

(** What the holder of the lock does, before the lock is dropped. *)
Definition bootstrap_holding (fuel : nat) (readiness : string) (bin : option string)
    (config : RouterBootstrapConfig) (d : LockFileData) : bootM (option (MResult unit)) :=
  up ← router_is_reachable (endpoint config);
  if (up : bool)
  then _ ← lock_update (lock_path config) (set_status "ready") d; Ret (Some (Ok tt))
  else
    child ← spawn_router_process bin config;
    match child with
    | Err e => Ret (Some (Err e))
    | Ok child =>
        d ← lock_update (lock_path config) (set_router_pid child) d;
        start ← perform InstantNow;
        readiness_loop fuel readiness config child (start + readiness_timeout config) d
    end.

Definition bootstrap_router (fuel : nat) (readiness : string) (bin : option string)
    (config : RouterBootstrapConfig) : bootM (option (MResult unit)) :=
  up ← router_is_reachable (endpoint config);
  if (up : bool) then Ret (Some (Ok tt))
  else
    lock ← acquire_lock fuel (lock_path config) (port (endpoint config)) (from_secs 10);
    match lock with
    | None => Ret None
    | Some (Err e) => Ret (Some (Err e))
    | Some (Ok None) =>
        start ← perform InstantNow;
        skip_spawn_loop fuel config (start + readiness_timeout config)
    | Some (Ok (Some d)) =>
        r ← bootstrap_holding fuel readiness bin config d;
        match r with
        | None => Ret None
        | Some r => _ ← lock_drop (lock_path config); Ret (Some r)
        end
    end.

Definition connect_or_bootstrap (fuel : nat) (readiness : string) (bin : option string)
    (config : RouterBootstrapConfig) : bootM (option (MResult unit)) :=
  up ← router_is_reachable (endpoint config);
  if (up : bool) then Ret (Some (Ok tt))
  else bootstrap_router fuel readiness bin config.
End bootstrap.

(** * The machine *)

(** A name is a file, by inode, or a directory. *)
Inductive Node : Set := NFile (inode : nat) | NDir.

(** A write to a path fails before the file is opened (and truncated), or after
    part of the text. *)
Inductive WriteFault : Set :=
| NotOpened
| Partial (written : string).

(** What the environment refuses: permissions, full or read-only file systems,
    a missing [kill].  [f_create] may depend on what the path names, [f_open_log]
    covers the duplication of the handle too. *)
Record Faults : Set := mkFaults {
  f_create_dir : string -> option string;
  f_create : string -> option Node -> option string;
  f_write_all : option (string * string);        (* the text written, the error *)
  f_write_path : string -> option WriteFault;
  f_remove : string -> bool;
  f_kill : option string;
  f_open_log : string -> option string;
}.

Definition no_faults : Faults :=
  mkFaults (fun _ => None) (fun _ _ => None) None (fun _ => None) (fun _ => false) None
    (fun _ => None).

(** The text of an inode is absent from [inodes] when it cannot be read.
    [router_up]: when (on the monotonic clock) the router accepts connections;
    [startup]: what spawning gives, a pid and the time the router needs. *)
Record Machine : Type := mkMachine {
  names : gmap string Node;
  inodes : gmap nat string;
  next_inode : nat;
  mono : Z;
  system : Z;
  my_pid : Z;
  alive : Z -> bool;
  router_up : option Z;
  startup : result (Z * option Z) string;
  spawned : list Z;
  killed : list Z;
  faults : Faults;
}.

Definition set_fs (n : gmap string Node) (i : gmap nat string) (k : nat) (m : Machine) : Machine :=
  mkMachine n i k (mono m) (system m) (my_pid m) (alive m) (router_up m) (startup m)
    (spawned m) (killed m) (faults m).
Definition advance (d : Z) (m : Machine) : Machine :=
  mkMachine (names m) (inodes m) (next_inode m) (mono m + d) (system m + d) (my_pid m) (alive m)
    (router_up m) (startup m) (spawned m) (killed m) (faults m).
Definition set_procs (up : option Z) (s k : list Z) (m : Machine) : Machine :=
  mkMachine (names m) (inodes m) (next_inode m) (mono m) (system m) (my_pid m) (alive m)
    up (startup m) s k (faults m).

Definition reachable_now (m : Machine) : bool :=
  match router_up m with Some t => t <=? mono m | None => false end.

(** [create_new]: the new file is empty. *)
Definition create_file (path content : string) (m : Machine) : Machine :=
  set_fs (<[path := NFile (next_inode m)]> (names m)) (<[next_inode m := content]> (inodes m))
    (S (next_inode m)) m.

Definition set_text (i : nat) (content : string) (m : Machine) : Machine :=
  set_fs (names m) (<[i := content]> (inodes m)) (next_inode m) m.

(** [std::fs::write], whose error is ignored by the callers. *)
Definition put_text (path content : string) (m : Machine) : Machine :=
  match names m !! path with
  | Some (NFile i) => set_text i content m
  | Some NDir => m
  | None => create_file path content m
  end.

Definition write_path (path content : string) (m : Machine) : Machine :=
  match f_write_path (faults m) path with
  | None => put_text path content m
  | Some NotOpened => m
  | Some (Partial written) => put_text path written m
  end.

(** [remove_file] removes files only. *)
Definition remove_path (path : string) (m : Machine) : Machine :=
  match names m !! path with
  | Some (NFile _) =>
      if f_remove (faults m) path then m
      else set_fs (delete path (names m)) (inodes m) (next_inode m) m
  | _ => m
  end.

Definition fails (o : option string) : result unit string :=
  match o with Some err => Err err | None => Ok tt end.

Definition boot_op (X : Set) (e : bootE X) (m : Machine) : X * Machine :=
  match e in bootE X return X * Machine with
  | ConnectAsync _ => (reachable_now m, m)
  | InstantNow => (mono m, m)
  | SystemNow => (system m, m)
  | Sleep d => (tt, advance d m)
  | CreateDirAll path => (fails (f_create_dir (faults m) path), m)
  | CreateNew path =>
      match f_create (faults m) path (names m !! path), names m !! path with
      | Some err, _ => (OpenFailed err, m)
      | None, Some _ => (AlreadyExists, m)
      | None, None => (Created (next_inode m), create_file path "" m)
      end
  | WriteAll i content =>
      match f_write_all (faults m) with
      | Some (written, err) => (Err err, set_text i written m)
      | None => (Ok tt, set_text i content m)
      end
  | WritePath path content => (tt, write_path path content m)
  | RemoveFile path => (tt, remove_path path m)
  | ReadToString path =>
      (match names m !! path with
       | Some (NFile i) =>
           match inodes m !! i with Some content => Ok content | None => Err "unreadable" end
       | Some NDir => Err "is a directory"
       | None => Err "not found"
       end, m)
  | KillZero p =>
      (match f_kill (faults m) with
       | Some err => Err err
       | None => Ok (if alive m p then 0 else 1)
       end, m)
  | ProcessId => (my_pid m, m)
  | OpenLog path => (fails (f_open_log (faults m) path), m)
  | SpawnRouter _ _ =>
      match startup m with
      | Err err => (Err err, m)
      | Ok (p, delay) =>
          (Ok p, set_procs (match router_up m with
                            | Some t => Some t
                            | None => (fun d => mono m + d) <$> delay
                            end) (p :: spawned m) (killed m) m)
      end
  | KillChild p => (tt, set_procs (router_up m) (spawned m) (p :: killed m) m)
  end.

Definition boot {A} (p : bootM A) (m : Machine) : A * Machine := run boot_op p m.
