(* ===== verification/BootstrapSpec.v ===== *)
(** Properties of the bootstrap: one process alone, and two processes that
    interleave. *)

From S2P Require Import Prelude Prog Float64 Wire Protocol RefCodec Config ClientMessage Bootstrap.
From stdpp Require Import countable.

Local Open Scope string_scope.
Local Open Scope Z_scope.

Section spec.
Context {LJ : LockJson}.

Lemma boot_bind {A B} (p : bootM A) (f : A -> bootM B) m :
  boot (bind p f) m = boot (f (boot p m).1) (boot p m).2.
Proof. apply run_bind. Qed.

(** * The verdict on an existing lock *)

(** [kill -0] runs and says that the process is there. *)
Definition pid_alive (m : Machine) (p : Z) : bool :=
  if p =? 0 then false
  else match f_kill (faults m) with Some _ => false | None => alive m p end.

(** The holder is entitled to the lock at this time. *)
Definition held (now : f64) (m : Machine) (l : LockFileData) : bool :=
  (format l =? "v1")%string && negb (F64.ltb (expires_at_unix l) now)
  && pid_alive m (pid l) && negb (status l =? "failed")%string.

Definition spec_verdict (path : string) (m : Machine) : LockEvalResult :=
  match names m !! path with
  | Some (NFile i) =>
      match and_then (from_option Ok (Err "unreadable") (inodes m !! i)) lock_from_str with
      | Ok l =>
          if held (as_secs_f64 (system m)) m l
          then match router_pid l with
               | Some p => if pid_alive m p then SkipSpawn else Wait
               | None => Wait
               end
          else Reclaim
      | Err _ => Reclaim
      end
  | _ => Reclaim
  end.

Lemma boot_is_process_alive p m : boot (is_process_alive p) m = (pid_alive m p, m).
Proof.
  unfold is_process_alive, pid_alive. destruct (p =? 0); [done|]. cbn.
  destruct (f_kill (faults m)); [done|]. by destruct (alive m p).
Qed.

Lemma boot_evaluate path m :
  boot (evaluate_existing_lock path) m = (spec_verdict path m, m).
Proof.
  unfold evaluate_existing_lock, spec_verdict. rewrite boot_bind. cbn.
  destruct (names m !! path) as [[i|]|]; cbn; [|done|done].
  destruct (inodes m !! i) as [content|]; cbn; [|done].
  destruct (lock_from_str content) as [l|]; [|done].
  unfold held. destruct (format l =? "v1")%string; cbn; [|done].
  change (boot (Do SystemNow ?k) m) with (boot (k (system m)) m).
  destruct (F64.ltb _ _); cbn; [done|].
  rewrite boot_bind, boot_is_process_alive. cbn.
  destruct (pid_alive m (pid l)); cbn; [|done].
  destruct (status l =? "failed")%string; cbn; [done|].
  destruct (router_pid l) as [p|]; [|done].
  rewrite boot_bind, boot_is_process_alive. cbn. by destruct (pid_alive m p).
Qed.

(** One round of the acquisition loop. *)
Lemma boot_acquire_step fuel path port stale deadline m :
  boot (acquire_loop (S fuel) path port stale deadline) m =
    match f_create (faults m) path (names m !! path), names m !! path with
    | Some err, _ => (Some (Err (IoError err)), m)
    | None, None =>
        let d := lock_data (my_pid m) port (system m) stale in
        match f_write_all (faults m) with
        | Some (written, err) =>
            (Some (Err (IoError err)), set_text (next_inode m) written (create_file path "" m))
        | None =>
            (Some (Ok (Some d)),
             set_text (next_inode m) (lock_to_string d) (create_file path "" m))
        end
    | None, Some _ =>
        match spec_verdict path m with
        | Reclaim => boot (acquire_loop fuel path port stale deadline) (remove_path path m)
        | SkipSpawn => (Some (Ok None), m)
        | Wait =>
            if deadline <=? mono m
            then (Some (Err (BootstrapFailure "timed out waiting for router bootstrap lock")), m)
            else boot (acquire_loop fuel path port stale deadline) (advance (from_millis 100) m)
        end
    end.
Proof.
  cbn [acquire_loop]. rewrite boot_bind. unfold boot at 2 3. cbn [run perform boot_op].
  destruct (f_create (faults m) path (names m !! path)) as [err|]; [done|].
  destruct (names m !! path) as [n|]; cbn [fst snd].
  - rewrite boot_bind, boot_evaluate. cbn [fst snd].
    destruct (spec_verdict path m); [done|done|].
    unfold boot; cbn -[from_millis]. by destruct (deadline <=? mono m).
  - unfold boot; cbn -[lock_data create_file set_text]. by destruct (f_write_all _) as [[written err]|].
Qed.

(** The lock path is free, or it is a file that can be removed. *)
Definition removable (path : string) (m : Machine) : Prop :=
  match names m !! path with
  | None => True
  | Some (NFile _) => f_remove (faults m) path = false
  | Some NDir => False
  end.

Lemma removed path m : removable path m -> names (remove_path path m) !! path = None.
Proof.
  unfold removable, remove_path. destruct (names m !! path) as [[i|]|] eqn:E; [|done|done].
  intros ->. apply lookup_delete_eq.
Qed.

Lemma acquire_loop_free fuel path port stale deadline m :
  names m !! path = None ->
  exists r m', boot (acquire_loop (S fuel) path port stale deadline) m = (Some r, m').
Proof.
  intros E. rewrite boot_acquire_step, E.
  repeat case_match; by do 2 eexists.
Qed.

Lemma acquire_loop_returns k fuel path port stale deadline m :
  removable path m ->
  deadline - Z.of_nat k * from_millis 100 <= mono m -> (k + 3 <= fuel)%nat ->
  exists r m', boot (acquire_loop fuel path port stale deadline) m = (Some r, m').
Proof.
  revert fuel m. induction k as [|k IH]; intros fuel m Hrem Hk Hfuel;
    (destruct fuel as [|[|fuel]]; [lia|lia|]); rewrite boot_acquire_step;
    (destruct (f_create _ _ _); [by eauto|]);
    (destruct (names m !! path) as [n|]; [|by destruct (f_write_all _) as [[]|]; eauto]);
    (destruct (spec_verdict path m); [by apply acquire_loop_free, removed|by eauto|]).
  - rewrite (proj2 (Z.leb_le _ _)) by lia. by eauto.
  - destruct (Z.leb_spec deadline (mono m)); [by eauto|].
    apply IH; cbn; [done|lia|lia].
Qed.

(** [acquire_lock]: the directory, then the loop. *)
Lemma boot_acquire_lock fuel path port stale m :
  boot (acquire_lock fuel path port stale) m =
    match path_parent path ≫= f_create_dir (faults m) with
    | Some err => (Some (Err (IoError err)), m)
    | None => boot (acquire_loop fuel path port stale (mono m + from_secs 10)) m
    end.
Proof.
  unfold acquire_lock, boot. destruct (path_parent path) as [parent|]; [|done].
  cbn -[from_secs]. by destruct (f_create_dir _ _).
Qed.

Lemma acquire_lock_returns fuel path port stale m :
  (103 <= fuel)%nat -> removable path m ->
  exists r m', boot (acquire_lock fuel path port stale) m = (Some r, m').
Proof.
  intros Hfuel Hrem. rewrite boot_acquire_lock. destruct (path_parent path ≫= _); [by eauto|].
  apply (acquire_loop_returns 100); [done| |lia].
  unfold from_secs, from_millis, NANOS_PER_SEC. lia.
Qed.

(** [acquire_lock] terminates when the lock path is free or a file that can be
    removed: 103 rounds of its loop are enough, whatever is in the file and
    whatever else fails, because a reclaimed lock is re-created at the next
    round and every wait takes 100 ms of the 10 s limit. *)
Theorem acquire_lock_terminates (fuel : nat) (path : string) (port stale : Z) (m : Machine)
    (Hfuel : (103 <= fuel)%nat) (Hrem : removable path m) :
  exists r m', boot (acquire_lock fuel path port stale) m = (Some r, m').
Proof. by apply acquire_lock_returns. Qed.

(** A stale lock that cannot be removed (a directory, or a file whose removal
    fails) is never given up: the failed removal is ignored and the loop goes
    on without looking at the deadline, so no amount of fuel gives a result,
    and no time passes. *)
Theorem unremovable_lock_loops_forever (fuel : nat) (path : string) (port stale : Z)
    (m : Machine) (Hstale : spec_verdict path m = Reclaim) (Hrem : ~ removable path m)
    (Hdir : path_parent path ≫= f_create_dir (faults m) = None)
    (Hcreate : f_create (faults m) path (names m !! path) = None) :
  boot (acquire_lock fuel path port stale) m = (None, m).
Proof.
  rewrite boot_acquire_lock, Hdir. generalize (mono m + from_secs 10) as deadline.
  intros deadline. unfold removable in Hrem.
  assert (E : is_Some (names m !! path) /\ remove_path path m = m).
  { unfold remove_path. destruct (names m !! path) as [[i|]|]; [|done|done].
    destruct (f_remove (faults m) path); done. }
  destruct E as [[n En] E].
  induction fuel as [|fuel IH]; [done|]. by rewrite boot_acquire_step, Hcreate, En, Hstale, E.
Qed.


(** * The outcome of the bootstrap *)

(** [m'] has the processes of [m]. *)
Definition same_procs (m m' : Machine) : Prop := spawned m' = spawned m /\ killed m' = killed m.

Lemma acquire_lock_procs fuel path port stale m :
  same_procs m (boot (acquire_lock fuel path port stale) m).2.
Proof.
  assert (H : forall deadline n m1, same_procs m m1 ->
    same_procs m (boot (acquire_loop n path port stale deadline) m1).2).
  { intros deadline n. induction n as [|n IH]; intros m1 Hm; [done|].
    rewrite boot_acquire_step. destruct (f_create _ _ _); [done|].
    destruct (names m1 !! path) as [nd|]; [|by destruct (f_write_all _) as [[]|]].
    destruct (spec_verdict path m1); [|done|].
    - apply IH. unfold remove_path. by repeat case_match.
    - destruct (deadline <=? mono m1); [done|]. by apply IH. }
  rewrite boot_acquire_lock. destruct (path_parent path ≫= _); [done|]. by apply H.
Qed.

Lemma write_path_procs path content m :
  same_procs m (write_path path content m) /\
  reachable_now (write_path path content m) = reachable_now m.
Proof. unfold write_path, put_text. by repeat case_match. Qed.

Definition outcome (children : list Z) (r : MResult unit) (m m' : Machine) : Prop :=
  match r with
  | Ok _ => reachable_now m' = true /\ same_procs m m'
  | Err _ => spawned m' = spawned m /\ killed m' = (children ++ killed m)%list
  end.

Lemma skip_spawn_outcome fuel config deadline m r m' :
  boot (skip_spawn_loop fuel config deadline) m = (Some r, m') -> outcome [] r m m'.
Proof.
  revert m. induction fuel as [|fuel IH]; intros m; [done|].
  unfold boot; cbn. destruct (mono m <? deadline); cbn; [|by intros [= <- <-]].
  destruct (reachable_now m) eqn:E; cbn; [by intros [= <- <-]|].
  intros H. apply IH in H. by destruct r.
Qed.

Lemma readiness_outcome fuel readiness config child deadline d m r m' :
  boot (readiness_loop fuel readiness config child deadline d) m = (Some r, m') ->
  outcome [child] r m m'.
Proof.
  revert m. induction fuel as [|fuel IH]; intros m; [done|].
  unfold boot; cbn. destruct (reachable_now m) eqn:E; cbn.
  - intros [= <- <-]. destruct (write_path_procs (lock_path config)
      (lock_to_string (set_status "ready" d)) m) as [Hp Hr]. by rewrite <- Hr in E.
  - destruct (deadline <=? mono m); cbn.
    + intros [= <- <-]. destruct (write_path_procs (lock_path config)
        (lock_to_string (set_status "failed" d)) m) as [[Hs Hk] _].
      split; cbn; [done|by rewrite Hk].
    + intros H. apply IH in H. by destruct r.
Qed.

Lemma remove_file_procs path m :
  same_procs m (remove_path path m) /\
  reachable_now (remove_path path m) = reachable_now m.
Proof. unfold remove_path. by repeat case_match. Qed.

Lemma holding_outcome fuel readiness bin config d m r m' :
  boot (bootstrap_holding fuel readiness bin config d) m = (Some r, m') ->
  exists l, (length l <= 1)%nat /\
    spawned m' = (l ++ spawned m)%list /\
    match r with
    | Ok _ => reachable_now m' = true /\ killed m' = killed m
    | Err _ => killed m' = (l ++ killed m)%list
    end.
Proof.
  unfold bootstrap_holding, boot; cbn. destruct (reachable_now m) eqn:E; cbn.
  - intros [= <- <-]. exists []. destruct (write_path_procs (lock_path config)
      (lock_to_string (set_status "ready" d)) m) as [[Hs Hk] Hr].
    rewrite <- Hr in E. split; [cbn; lia|done].
  - destruct (f_open_log (faults m) (log_path config)); cbn;
      [intros [= <- <-]; by exists []; split; [cbn; lia|]|].
    destruct (startup m) as [[p delay]|err] eqn:Es; cbn; [|intros [= <- <-]; by exists []; split; [cbn; lia|]].
    set (m1 := set_procs _ (p :: spawned m) (killed m) m).
    destruct (write_path_procs (lock_path config) (lock_to_string (set_router_pid p d)) m1)
      as [[Hs Hk] _].
    intros H. apply readiness_outcome in H. exists [p]. split; [done|].
    destruct r as [u|e]; cbn in *.
    + destruct H as [Hup [Hs1 Hk1]]. rewrite Hs1, Hk1, Hs, Hk. done.
    + destruct H as [Hs1 Hk1]. rewrite Hs1, Hk1, Hs, Hk. done.
Qed.

(** The outcome of the bootstrap. *)
Lemma boot_connect_or_bootstrap (fuel : nat) (readiness : string) (bin : option string)
    (config : RouterBootstrapConfig) (m m' : Machine) (r : MResult unit)
    (Hrun : boot (connect_or_bootstrap fuel readiness bin config) m = (Some r, m')) :
  exists l, (length l <= 1)%nat /\ spawned m' = (l ++ spawned m)%list /\
    match r with
    | Ok _ => reachable_now m' = true
    | Err _ => killed m' = (l ++ killed m)%list
    end.
Proof.
  revert Hrun. unfold connect_or_bootstrap. rewrite boot_bind. cbn -[bootstrap_router].
  destruct (reachable_now m) eqn:E; [intros [= <- <-]; exists []; by split; [cbn; lia|]|].
  unfold bootstrap_router. rewrite boot_bind. cbn -[acquire_lock bind]. rewrite E.
  rewrite boot_bind.
  destruct (acquire_lock_procs fuel (lock_path config) (port (endpoint config)) (from_secs 10) m)
    as [Hs Hk].
  destruct (boot (acquire_lock _ _ _ _) m) as [lock m1]. cbn [fst snd] in *.
  destruct lock as [[[d|]|e]|]; [| | |done].
  - rewrite boot_bind. destruct (boot (bootstrap_holding _ _ _ _ _) m1) as [[r1|] m2] eqn:Eh;
      cbn [fst snd]; [|done].
    apply holding_outcome in Eh as (l & Hl & Hs2 & Hr2).
    destruct (remove_file_procs (lock_path config) m2) as [[Hs3 Hk3] Hr3].
    unfold boot; cbn -[remove_path]. intros [= <- <-]. exists l. split; [done|].
    rewrite Hs3, Hs2, Hs. split; [done|].
    destruct r1; [rewrite Hr3; apply Hr2|]. by rewrite Hk3, Hr2, Hk.
  - unfold boot; cbn -[skip_spawn_loop]. intros H. apply skip_spawn_outcome in H.
    exists []. split; [cbn; lia|]. rewrite <- Hs. destruct r; cbn in *.
    + by destruct H as [? [? _]].
    + by rewrite <- Hk.
  - intros [= <- <-]. exists []. split; [cbn; lia|]. by rewrite Hs, Hk.
Qed.
(** [connect_or_bootstrap] reports success only when the router accepts
    connections; it spawns at most one router, and when it fails every router
    it spawned has been killed. *)
Theorem bootstrap_outcome (fuel : nat) (readiness : string) (bin : option string)
    (config : RouterBootstrapConfig) (m m' : Machine) (r : MResult unit)
    (Hrun : boot (connect_or_bootstrap fuel readiness bin config) m = (Some r, m')) :
  exists l, (length l <= 1)%nat /\ spawned m' = (l ++ spawned m)%list /\
    match r with
    | Ok _ => reachable_now m' = true
    | Err _ => killed m' = (l ++ killed m)%list
    end.
Proof. by apply boot_connect_or_bootstrap in Hrun. Qed.
End spec.

(** * Concrete machines *)

(** A JSON printer for the lock file, in the manner of [RefCodec]. *)
#[export] Instance ref_lock_json : LockJson := {|
  lock_to_string d :=
    from_bytes (pos_to_bytes (encode
      (format d, pid d, router_pid d, lock_port d, created_at_unix d, expires_at_unix d,
       status d, language d)));
  lock_from_str s :=
    match decode (A := string * Z * option Z * Z * f64 * f64 * string * string)
            (pos_of_bytes (as_bytes s)) with
    | Some (a, b, c, d, e, f, g, h) => Ok (mkLockFileData a b c d e f g h)
    | None => Err "invalid lock file"
    end |}.

Definition lock_file : string := "/home/u/.multifrost/router.lock".

(** Process 7 took the lock at time 0 and spawned router 8; both are alive and
    the router will be ready after 20 s. *)
Definition first_lock : LockFileData :=
  set_router_pid 8 (lock_data 7 9981 0 (from_secs 10)).

Definition machine (content : string) (now : Z) : Machine :=
  mkMachine {[lock_file := NFile 0]} {[0%nat := content]} 1 now now 9
    (fun p => (p =? 7) || (p =? 8)) (Some (from_secs 20)) (Ok (10, Some (from_secs 1))) [8] []
    no_faults.

Definition sample_bootstrap : RouterBootstrapConfig :=
  mkBootstrapConfig (mkEndpoint "127.0.0.1" 9981) lock_file "/home/u/.multifrost/router.log"
    (from_secs 30) (from_millis 100).


Lemma acquire_lock_terminates_witness :
  exists r m', boot (acquire_lock 103 lock_file 9981 (from_secs 10)) (machine "" 0) = (Some r, m').
Proof.
  apply (acquire_lock_terminates 103 lock_file 9981 (from_secs 10) (machine "" 0)).
  - lia.
  - vm_compute. reflexivity.
Defined.

(** The machine, on a file system from which nothing can be removed. *)
Definition read_only (m : Machine) : Machine :=
  mkMachine (names m) (inodes m) (next_inode m) (mono m) (system m) (my_pid m) (alive m)
    (router_up m) (startup m) (spawned m) (killed m)
    (mkFaults (fun _ => None) (fun _ _ => None) None (fun _ => None) (fun _ => true) None
       (fun _ => None)).

Lemma unremovable_lock_loops_forever_witness :
  let m := read_only (machine "" 0) in
  boot (acquire_lock 1000 lock_file 9981 (from_secs 10)) m = (None, m).
Proof.
  intros m. apply (unremovable_lock_loops_forever 1000 lock_file 9981 (from_secs 10) m).
  - vm_compute. reflexivity.
  - vm_compute. discriminate.
  - vm_compute. reflexivity.
  - vm_compute. reflexivity.
Defined.


Definition bootstrapped (content : string) (now : Z) : option (MResult unit) * Machine :=
  boot (connect_or_bootstrap 300 "30s" None sample_bootstrap) (machine content now).

Lemma bootstrap_outcome_witness :
  exists l, (length l <= 1)%nat /\ spawned (bootstrapped "" 0).2 = (l ++ [8])%list /\
    reachable_now (bootstrapped "" 0).2 = true.
Proof.
  apply (bootstrap_outcome 300 "30s" None sample_bootstrap (machine "" 0) (bootstrapped "" 0).2
           (Ok tt)).
  vm_compute. reflexivity.
Defined.

(** The lock of a bootstrap that takes longer than 10 s does not protect
    it, although callers wait 30 s for readiness.  While the holder and the
    router it spawned are alive and the router is still starting, a second
    process reclaims the lock after 10 s, spawns a second router, and ends by
    removing the lock file. *)
Theorem slow_bootstrap_is_duplicated :
  let m := machine (lock_to_string first_lock) (from_secs 11) in
  pid_alive m (pid first_lock) = true /\ alive m 8 = true /\ reachable_now m = false /\
  spec_verdict lock_file m = Reclaim /\
  let (r, m') := boot (connect_or_bootstrap 300 "30s" None sample_bootstrap) m in
  r = Some (Ok tt) /\ spawned m' = [10; 8] /\ names m' !! lock_file = None.
Proof. vm_compute. repeat split. Qed.

(** * Two processes *)

(** The machine as process [p] sees it. *)
Definition as_process (p : Z) (m : Machine) : Machine :=
  mkMachine (names m) (inodes m) (next_inode m) (mono m) (system m) p (alive m) (router_up m)
    (startup m) (spawned m) (killed m) (faults m).

(** One operation of process [p]. *)
Definition pstep {A} (p : Z) (s s' : bootM A * Machine) : Prop :=
  step1 boot_op s.1 (as_process p s.2) = Some s'.

(** Processes [p1] and [p2] share the machine and interleave. *)
Inductive pair_step {A} (p1 p2 : Z) : bootM A * bootM A * Machine -> bootM A * bootM A * Machine -> Prop :=
| first_steps q1 q1' q2 m m' : pstep p1 (q1, m) (q1', m') -> pair_step p1 p2 (q1, q2, m) (q1', q2, m')
| second_steps q1 q2 q2' m m' : pstep p2 (q2, m) (q2', m') -> pair_step p1 p2 (q1, q2, m) (q1, q2', m').

Lemma first_alone {A} p1 p2 (q2 : bootM A) s s' :
  star (pstep p1) s s' -> star (pair_step p1 p2) (s.1, q2, s.2) (s'.1, q2, s'.2).
Proof.
  intros H. induction H as [s|s [q m] [q' m'] _ IH Hs]; [constructor|].
  eapply star_snoc; [exact IH|]. by constructor.
Qed.

Lemma second_alone {A} p1 p2 (q1 : bootM A) s s' :
  star (pstep p2) s s' -> star (pair_step p1 p2) (q1, s.1, s.2) (q1, s'.1, s'.2).
Proof.
  intros H. induction H as [s|s [q m] [q' m'] _ IH Hs]; [constructor|].
  eapply star_snoc; [exact IH|]. by constructor.
Qed.

Lemma boot_op_keeps X (e : bootE X) m :
  my_pid (boot_op X e m).2 = my_pid m /\ faults (boot_op X e m).2 = faults m.
Proof.
  destruct e; cbn; unfold write_path, put_text, remove_path; repeat case_match; done.
Qed.

Lemma as_process_id p m : my_pid m = p -> as_process p m = m.
Proof. intros <-. by destruct m. Qed.

Lemma pstep_do {A} {X : Set} p (e : bootE X) (k : X -> bootM A) m
    (r := boot_op X e (as_process p m)) :
  pstep p (Do e k, m) (k r.1, r.2) /\ my_pid r.2 = p.
Proof.
  unfold pstep, r. cbn [step1 fst snd]. split; [by destruct (boot_op X e _)|].
  apply (boot_op_keeps X e (as_process p m)).
Qed.

(** A process that runs the part [q] of its program alone, or all of it. *)
Lemma alone_bind {A B} p (q : bootM B) (k : B -> bootM A) m :
  my_pid m = p -> star (pstep p) (bind q k, m) (k (boot q m).1, (boot q m).2).
Proof.
  revert m. induction q as [b|X e f IH]; intros m Hm; [constructor|].
  destruct (pstep_do p e (fun x => bind (f x) k) m) as [Hs Hp].
  eapply star_trans; [apply star_one, Hs|]. unfold boot; cbn [run].
  rewrite as_process_id in Hp |- * by done.
  destruct (boot_op X e m) as [x m']. by apply IH.
Qed.

Lemma alone_run {A} p (q : bootM A) m :
  my_pid m = p -> star (pstep p) (q, m) (Ret (boot q m).1, (boot q m).2).
Proof.
  revert m. induction q as [b|X e f IH]; intros m Hm; [constructor|].
  destruct (pstep_do p e f m) as [Hs Hp].
  eapply star_trans; [apply star_one, Hs|]. unfold boot; cbn [run].
  rewrite as_process_id in Hp |- * by done.
  destruct (boot_op X e m) as [x m']. by apply IH.
Qed.

Section two.
Context {LJ : LockJson} (path : string).

(** Nothing fails on this machine that the acquisition of the lock needs. *)
Definition healthy (m : Machine) : Prop :=
  path_parent path ≫= f_create_dir (faults m) = None /\
  (forall o, f_create (faults m) path o = None) /\
  f_write_all (faults m) = None /\ f_remove (faults m) path = false.

(** The process has decided to remove the file and has not done it yet. *)
Definition about_to_remove (fuel : nat) (port stale deadline : Z) :
    bootM (option (MResult (option LockFileData))) :=
  bind (perform (RemoveFile path)) (fun _ => acquire_loop fuel path port stale deadline).

Lemma decides_to_reclaim p fuel port stale m i :
  healthy m -> names m !! path = Some (NFile i) -> spec_verdict path m = Reclaim ->
  star (pstep p) (acquire_lock (S fuel) path port stale, m)
    (about_to_remove fuel port stale (mono m + from_secs 10), as_process p m).
Proof.
  intros (Hdir & Hcreate & _) Hfile Hstale.
  assert (Hloop : forall m1, as_process p m1 = as_process p m -> star (pstep p)
    (bind (perform InstantNow) (fun start =>
       acquire_loop (S fuel) path port stale (start + from_secs 10)), m1)
    (about_to_remove fuel port stale (mono m + from_secs 10), as_process p m)).
  { intros m1 E. eapply star_trans; [apply star_one, pstep_do|]. rewrite E.
    cbn [boot_op fst snd mono as_process acquire_loop bind].
    eapply star_trans; [apply alone_bind; reflexivity|].
    unfold boot at 1 2. cbn [run perform boot_op faults names as_process].
    rewrite Hcreate, Hfile. cbn [fst snd].
    eapply star_trans; [apply alone_bind; reflexivity|].
    rewrite boot_evaluate. change (spec_verdict path (as_process p m)) with (spec_verdict path m).
    rewrite Hstale. constructor. }
  unfold acquire_lock. destruct (path_parent path) as [parent|]; [|by apply Hloop].
  eapply star_trans; [apply star_one, pstep_do|].
  cbn in Hdir. cbn [bind boot_op faults as_process fst snd]. rewrite Hdir. by apply Hloop.
Qed.

Lemma removes_and_acquires p fuel port stale deadline m i
    (d := lock_data p port (system m) stale) :
  healthy m -> names m !! path = Some (NFile i) ->
  exists m', star (pstep p) (about_to_remove (S fuel) port stale deadline, m)
    (Ret (Some (Ok (Some d))), m') /\
    faults m' = faults m /\
    names m' = <[path := NFile (next_inode m)]> (names m) /\
    inodes m' !! next_inode m = Some (lock_to_string d) /\ system m' = system m.
Proof.
  intros (_ & Hcreate & Hwrite & Hremove) Hfile. eexists. split; [|split; [|split; [|split]]].
  - eapply star_trans; [apply star_one, pstep_do|]. cbn [bind boot_op fst snd].
    unfold remove_path. cbn [names faults as_process]. rewrite Hfile, Hremove.
    eapply star_trans; [by apply alone_run|].
    rewrite boot_acquire_step. cbn [names faults as_process set_fs].
    rewrite Hcreate, lookup_delete_eq, Hwrite. constructor.
  - done.
  - cbn. apply insert_delete_eq.
  - cbn. by rewrite lookup_insert_eq.
  - done.
Qed.

Lemma reclaimed_twice p1 p2 fuel1 fuel2 port1 port2 stale1 stale2 m i :
  healthy m -> names m !! path = Some (NFile i) -> spec_verdict path m = Reclaim ->
  exists m' j,
    let d1 := lock_data p1 port1 (system m) stale1 in
    let d2 := lock_data p2 port2 (system m) stale2 in
    star (pair_step p1 p2)
      (acquire_lock (S (S fuel1)) path port1 stale1, acquire_lock (S (S fuel2)) path port2 stale2, m)
      (Ret (Some (Ok (Some d1))), Ret (Some (Ok (Some d2))), m') /\
    names m' !! path = Some (NFile j) /\ inodes m' !! j = Some (lock_to_string d2).
Proof.
  intros Hok Hfile Hstale.
  pose proof (decides_to_reclaim p1 (S fuel1) port1 stale1 m i Hok Hfile Hstale) as H1.
  pose proof (decides_to_reclaim p2 (S fuel2) port2 stale2 (as_process p1 m) i Hok Hfile Hstale) as H2.
  destruct (removes_and_acquires p1 fuel1 port1 stale1 (mono m + from_secs 10)
    (as_process p2 m) i Hok Hfile) as (m1 & H3 & Hf1 & Hn1 & Hi1 & Hs1).
  destruct (removes_and_acquires p2 fuel2 port2 stale2 (mono m + from_secs 10)
    m1 (next_inode m)) as (m2 & H4 & Hf2 & Hn2 & Hi2 & Hs2).
  { unfold healthy. by rewrite Hf1. }
  { rewrite Hn1. apply lookup_insert_eq. }
  exists m2, (next_inode m1). rewrite Hn2, lookup_insert_eq. rewrite Hs1 in *.
  split; [|done].
  eapply star_trans; [exact (first_alone p1 p2 _ _ _ H1)|].
  eapply star_trans; [exact (second_alone p1 p2 _ _ _ H2)|].
  eapply star_trans; [exact (first_alone p1 p2 _ _ _ H3)|].
  exact (second_alone p1 p2 _ _ _ H4).
Qed.

(** C39: the lock is not exclusive once a stale file has to be reclaimed.
    Whatever stale lock two processes find, for whatever reason it counts as
    stale (unreadable, unparsable, of another format, expired, of a dead or
    failed holder), there is an interleaving of their operations in which both
    [acquire_lock] return as holders: both decide to reclaim the file, the
    first removes it and takes the lock, then the second removes the lock of
    the first and takes it too.  Only the second's lock is left on the disk. *)
Theorem stale_lock_is_acquired_twice (p1 p2 : Z) (fuel1 fuel2 : nat)
    (port1 port2 stale1 stale2 : Z) (m : Machine) (i : nat)
    (Hfuel1 : (2 <= fuel1)%nat) (Hfuel2 : (2 <= fuel2)%nat)
    (Hok : healthy m) (Hfile : names m !! path = Some (NFile i))
    (Hstale : spec_verdict path m = Reclaim) :
  exists d1 d2 m' j,
    star (pair_step p1 p2)
      (acquire_lock fuel1 path port1 stale1, acquire_lock fuel2 path port2 stale2, m)
      (Ret (Some (Ok (Some d1))), Ret (Some (Ok (Some d2))), m') /\
    pid d1 = p1 /\ pid d2 = p2 /\
    names m' !! path = Some (NFile j) /\ inodes m' !! j = Some (lock_to_string d2).
Proof.
  destruct fuel1 as [|[|fuel1]]; [lia|lia|]. destruct fuel2 as [|[|fuel2]]; [lia|lia|].
  destruct (reclaimed_twice p1 p2 fuel1 fuel2 port1 port2 stale1 stale2 m i Hok Hfile Hstale)
    as (m' & j & H & Hn & Hi).
  exists (lock_data p1 port1 (system m) stale1), (lock_data p2 port2 (system m) stale2), m', j. done.
Qed.
End two.

(** An expired lock of a live process, found by processes 1 and 2 at 11 s. *)
Lemma stale_lock_is_acquired_twice_witness :
  exists d1 d2 m' j,
    star (pair_step 1 2)
      (acquire_lock 10 lock_file 9981 (from_secs 10), acquire_lock 10 lock_file 9981 (from_secs 10),
       machine (lock_to_string first_lock) (from_secs 11))
      (Ret (Some (Ok (Some d1))), Ret (Some (Ok (Some d2))), m') /\
    pid d1 = 1 /\ pid d2 = 2 /\
    names m' !! lock_file = Some (NFile j) /\ inodes m' !! j = Some (lock_to_string d2).
Proof.
  apply (stale_lock_is_acquired_twice lock_file 1 2 10 10 9981 9981 (from_secs 10) (from_secs 10)
    (machine (lock_to_string first_lock) (from_secs 11)) 0).
  - lia.
  - lia.
  - unfold healthy. vm_compute. done.
  - vm_compute. reflexivity.
  - vm_compute. reflexivity.
Defined.
