(* ===== verification/BootstrapTime.v ===== *)
(** Termination of the bootstrap.

    The waits of the bootstrap are bounded in every environment whose clock
    runs: whatever the files, the processes and the network answer.  Together
    with the lock's own bound this gives termination of the whole function. *)

From S2P Require Import Prelude Prog Float64 Wire Protocol Config ClientMessage Bootstrap.
From S2P Require Import BootstrapSpec.

Local Open Scope string_scope.
Local Open Scope Z_scope.

(** * Any environment *)

(** From time [t] the operation may give the answer [x] at time [t']: time does
    not go back, and a sleep takes at least as long as asked. *)
Definition takes (X : Set) (e : bootE X) (t : Z) (x : X) (t' : Z) : Prop :=
  match e in bootE X return X -> Prop with
  | InstantNow => fun x => t <= t' /\ x = t'
  | Sleep d => fun _ => t + d <= t'
  | _ => fun _ => t <= t'
  end x.

(** Every execution of [p] from time [t] returns a value that satisfies [Q]. *)
Fixpoint on_all_paths {A} (Q : A -> Prop) (p : bootM A) (t : Z) : Prop :=
  match p with
  | Ret a => Q a
  | Do e k => forall x t', takes _ e t x t' -> on_all_paths Q (k x) t'
  end.

Lemma on_all_paths_bind {A B} (Q : B -> Prop) (p : bootM A) (f : A -> bootM B) t :
  on_all_paths (fun _ => True) p t -> (forall a t', on_all_paths Q (f a) t') ->
  on_all_paths Q (bind p f) t.
Proof. intros Hp Hf. revert t Hp. induction p as [a|X e k IH]; simpl; auto. Qed.

Lemma on_all_paths_true {A} (p : bootM A) t : on_all_paths (fun _ => True) p t.
Proof. revert t. induction p as [a|X e k IH]; simpl; auto. Qed.



(** * The waits *)

Definition ended {A} (o : option A) : Prop := o <> None.

Section waits.
Context {LJ : LockJson}.

Lemma skip_spawn_ends k fuel config deadline t :
  deadline - t <= Z.of_nat k * readiness_poll_interval config -> (k < fuel)%nat ->
  on_all_paths ended (skip_spawn_loop fuel config deadline) t.
Proof.
  revert fuel t. induction k as [|k IH]; intros [|fuel] t Hk Hf; try lia; simpl;
    rewrite ?Nat2Z.inj_succ, ?Z.mul_succ_l in Hk.
  - intros now t1 [H1 ->]. rewrite (proj2 (Z.ltb_ge t1 deadline)) by lia. done.
  - intros now t1 [H1 ->]. destruct (t1 <? deadline); [|done].
    intros up t2 H2. destruct (up : bool); [done|]. intros [] t3 H3. cbn in *. apply IH; lia.
Qed.

Lemma readiness_ends k fuel readiness config child deadline d t :
  deadline - t <= Z.of_nat k * readiness_poll_interval config -> (k < fuel)%nat ->
  on_all_paths ended (readiness_loop fuel readiness config child deadline d) t.
Proof.
  revert fuel t. induction k as [|k IH]; intros [|fuel] t Hk Hf; try lia; simpl;
    rewrite ?Nat2Z.inj_succ, ?Z.mul_succ_l in Hk; intros up t1 H1; (destruct (up : bool); [done|]); intros now t2 [H2 ->].
  - by rewrite (proj2 (Z.leb_le deadline t2)) by lia.
  - destruct (deadline <=? t2); [done|]. intros [] t3 H3. cbn in *. apply IH; lia.
Qed.

Lemma holding_ends k fuel readiness bin config d t :
  readiness_timeout config <= Z.of_nat k * readiness_poll_interval config -> (k < fuel)%nat ->
  on_all_paths ended (bootstrap_holding fuel readiness bin config d) t.
Proof.
  intros Hk Hfuel. unfold bootstrap_holding.
  apply on_all_paths_bind; [apply on_all_paths_true|]. intros [] t1; [done|]. apply on_all_paths_bind; [apply on_all_paths_true|].
  intros [child|e] t2; [|done]. simpl. intros [] t3 H3 start t4 [H4 ->].
  apply (readiness_ends k); lia.
Qed.

(** Neither wait of the bootstrap can last longer than its time limit, in
    any environment: the holder of the lock, which spawns a router and waits
    for it, and the caller that waits for another process's router, both
    return after at most [k] sleeps when [k] poll intervals cover the time
    limit. *)
Theorem bootstrap_waits_are_bounded (k fuel : nat) (readiness : string) (bin : option string)
    (config : RouterBootstrapConfig) (t : Z)
    (Hk : readiness_timeout config <= Z.of_nat k * readiness_poll_interval config)
    (Hfuel : (k < fuel)%nat) :
  (forall d, on_all_paths ended (bootstrap_holding fuel readiness bin config d) t) /\
  on_all_paths ended
    (bind (perform InstantNow)
       (fun start => skip_spawn_loop fuel config (start + readiness_timeout config))) t.
Proof.
  split.
  - intros d. by apply (holding_ends k).
  - simpl. intros start t1 [H1 ->]. apply (skip_spawn_ends k); lia.
Qed.

End waits.

(** The configuration of a connection: 30 s in steps of 100 ms. *)
Lemma bootstrap_waits_are_bounded_witness :
  on_all_paths ended (bootstrap_holding 301 "30s" None sample_bootstrap first_lock) 0.
Proof.
  apply (bootstrap_waits_are_bounded 300 301 "30s" None sample_bootstrap 0).
  - vm_compute. discriminate.
  - lia.
Defined.

