(* ===== verification/CallerTransport.v ===== *)
(** The caller side of the client crate: [rust/src/caller_transport.rs].

    A transport shares one WebSocket between any number of concurrent calls:
    each call files a one-shot sender under its message id, and one inbound
    task hands every arriving frame to the sender filed under the frame's id.
    The functions are programs over [callerE]; an operation that waits (the
    receiving end of a one-shot channel) blocks.  [source] lists the items the
    stream will yield; when they arrive, if ever, is up to the transition
    system of [CallerSafety], where [SourceNext] waits for them. *)

From S2P Require Import Prelude Prog Float64 Wire Config ClientMessage.

Local Open Scope string_scope.
Local Open Scope rust_scope.

(** * Shared state and its operations *)

(** A one-shot channel, seen from the receiver. *)
Inductive ChanState : Set :=
| Open
| Sent (r : MResult FrameParts)
| SenderDropped.

(** What [rx.await], possibly under [timeout], answers. *)
Inductive Received : Set :=
| RecvValue (r : MResult FrameParts)
| RecvClosed
| RecvElapsed.

Inductive callerE : Set -> Type :=
| ReadClosed : callerE bool
| SetClosed : callerE unit
| OneshotChannel (owner : string) : callerE nat
| PendingInsert (id : string) (tx : nat) : callerE unit
| PendingRemove (id : string) : callerE (option nat)
| PendingDrain : callerE (list nat)
| OneshotSend (tx : nat) (r : MResult FrameParts) : callerE unit
| Recv (rx : nat) (limit : option Z) : callerE Received
| SinkSend (m : Message) : callerE (result unit string)
| NewMsgId : callerE string
| SystemTime : callerE Z
| SpawnInbound : callerE unit
| TakeInboundTask : callerE bool
| AbortInbound : callerE unit
| SourceNext : callerE unit.

Abbreviation callerM A := (prog callerE A).

(** [labels] is a ghost field: the id of the call that created a channel (the
    argument of [OneshotChannel], which no operation reads back).  [uuid]
    enumerates the answers of [Uuid::new_v4]; [expired] holds the channels
    whose waiting time is over. *)
Record CWorld : Type := mkCWorld {
  closed : bool;
  pending : gmap string nat;
  chans : gmap nat ChanState;
  next_chan : nat;
  labels : gmap nat string;
  wire : list Message;
  sink_error : option string;
  uuid : nat -> string;
  next_id : nat;
  clock : Z;
  expired : gset nat;
  inbound_handle : bool;
  inbound_aborted : bool;
}.

Definition set_closed (w : CWorld) : CWorld :=
  mkCWorld true (pending w) (chans w) (next_chan w) (labels w) (wire w) (sink_error w)
    (uuid w) (next_id w) (clock w) (expired w) (inbound_handle w) (inbound_aborted w).
Definition set_pending (m : gmap string nat) (w : CWorld) : CWorld :=
  mkCWorld (closed w) m (chans w) (next_chan w) (labels w) (wire w) (sink_error w)
    (uuid w) (next_id w) (clock w) (expired w) (inbound_handle w) (inbound_aborted w).
Definition set_chan (ch : nat) (s : ChanState) (w : CWorld) : CWorld :=
  mkCWorld (closed w) (pending w) (<[ch := s]> (chans w)) (next_chan w) (labels w) (wire w)
    (sink_error w) (uuid w) (next_id w) (clock w) (expired w) (inbound_handle w)
    (inbound_aborted w).
Definition new_chan (owner : string) (w : CWorld) : CWorld :=
  mkCWorld (closed w) (pending w) (<[next_chan w := Open]> (chans w)) (S (next_chan w))
    (<[next_chan w := owner]> (labels w)) (wire w) (sink_error w) (uuid w) (next_id w)
    (clock w) (expired w) (inbound_handle w) (inbound_aborted w).
Definition push_wire (m : Message) (w : CWorld) : CWorld :=
  mkCWorld (closed w) (pending w) (chans w) (next_chan w) (labels w) (wire w ++ [m])
    (sink_error w) (uuid w) (next_id w) (clock w) (expired w) (inbound_handle w)
    (inbound_aborted w).
Definition bump_id (w : CWorld) : CWorld :=
  mkCWorld (closed w) (pending w) (chans w) (next_chan w) (labels w) (wire w) (sink_error w)
    (uuid w) (S (next_id w)) (clock w) (expired w) (inbound_handle w) (inbound_aborted w).
Definition set_inbound (handle aborted : bool) (w : CWorld) : CWorld :=
  mkCWorld (closed w) (pending w) (chans w) (next_chan w) (labels w) (wire w) (sink_error w)
    (uuid w) (next_id w) (clock w) (expired w) handle aborted.

(** Dropping a sender closes a channel that has no value yet. *)
Definition drop_sender (ch : nat) (w : CWorld) : CWorld :=
  match chans w !! ch with
  | Some Open => set_chan ch SenderDropped w
  | _ => w
  end.

Definition drop_sender_opt (o : option nat) (w : CWorld) : CWorld :=
  match o with Some ch => drop_sender ch w | None => w end.

(** [HashMap::insert]: the sender it replaces is dropped. *)
Definition pending_insert (id : string) (tx : nat) (w : CWorld) : CWorld :=
  set_pending (<[id := tx]> (pending w)) (drop_sender_opt (pending w !! id) w).

Definition oneshot_send (tx : nat) (r : MResult FrameParts) (w : CWorld) : CWorld :=
  match chans w !! tx with
  | Some Open => set_chan tx (Sent r) w
  | _ => w
  end.

(** [timeout] looks at the channel first, then at the clock. *)
Definition recv (rx : nat) (limit : option Z) (w : CWorld) : option Received :=
  match chans w !! rx with
  | Some (Sent r) => Some (RecvValue r)
  | Some SenderDropped | None => Some RecvClosed
  | Some Open =>
      match limit with
      | Some _ => if bool_decide (rx ∈ expired w) then Some RecvElapsed else None
      | None => None
      end
  end.

Definition caller_op (X : Set) (e : callerE X) (w : CWorld) : option (X * CWorld) :=
  match e in callerE X return option (X * CWorld) with
  | ReadClosed => Some (closed w, w)
  | SetClosed => Some (tt, set_closed w)
  | OneshotChannel owner => Some (next_chan w, new_chan owner w)
  | PendingInsert id tx => Some (tt, pending_insert id tx w)
  | PendingRemove id => Some (pending w !! id, set_pending (delete id (pending w)) w)
  | PendingDrain => Some ((map_to_list (pending w)).*2, set_pending ∅ w)
  | OneshotSend tx r => Some (tt, oneshot_send tx r w)
  | Recv rx limit => match recv rx limit w with Some r => Some (r, w) | None => None end
  | SinkSend m =>
      match sink_error w with
      | None => Some (Ok tt, push_wire m w)
      | Some err => Some (Err err, w)
      end
  | NewMsgId => Some (uuid w (next_id w), bump_id w)
  | SystemTime => Some (clock w, w)
  | SpawnInbound => Some (tt, set_inbound true (inbound_aborted w) w)
  | TakeInboundTask => Some (inbound_handle w, set_inbound false (inbound_aborted w) w)
  | AbortInbound => Some (tt, set_inbound (inbound_handle w) true w)
  | SourceNext => Some (tt, w)
  end.

(** * The transport *)

Record CallerTransportConfig : Set := mkCallerConfig {
  cfg_peer_id : string;
  cfg_default_target_peer_id : option string;
  cfg_request_timeout : option Z;
  cfg_bootstrap : RouterBootstrapConfig;
}.

(** The fields of [CallerTransportInner] that never change; the others (sink,
    pending map, closed flag, inbound task) are the shared state. *)
Record CallerTransport : Set := mkTransport {
  peer_id : string;
  default_target_peer_id : option string;
  router_endpoint : string;
  request_timeout : option Z;
}.

Section transport.
Context {CC : ClientCodec}.

Definition send_raw_frame (frame : bytes) : callerM (MResult unit) :=
  r ← perform (SinkSend (binary_message frame));
  Ret (map_err WebSocketError r).

(** The reply to the registration frame. *)
Definition register_reply (reply : option WsItem) : MResult RegisterAckBody :=
  match reply with
  | Some (Ok (Binary b)) =>
      let? frame := decode_frame b in
      if negb (kind (envelope frame) =? KIND_RESPONSE)%string
      then Err (RegisterRejected ("unexpected register reply kind: " +:+ kind (envelope frame)))
      else decode_register_ack_body (body_bytes frame)
  | Some (Ok other) =>
      Err (RegisterRejected ("unexpected register reply message: " +:+ message_debug other))
  | Some (Err err) => Err (RouterUnavailable err)
  | None => Err (RegisterRejected "router closed")
  end.

(** The registration frame of a peer of this class. *)
Definition register_frame (peer_id : string) (class : PeerClass) (fresh : string) (now : f64) :
    MResult bytes :=
  let? body := encode_register_body (mkRegisterBody peer_id class) in
  encode_frame (build_register_envelope peer_id class fresh now) body.

(** [connect_ws], on the answer of [connect_async]. *)
Definition connect_ws (websocket : result unit string) : MResult unit :=
  map_err RouterUnavailable websocket.

(** [bootstrapped] is the answer of [connect_or_bootstrap], [websocket] that
    of [connect_async]; [source] is what the router sends. *)
Definition connect (config : CallerTransportConfig) (bootstrapped : MResult unit)
    (websocket : result unit string) (source : list WsItem) :
    callerM (MResult CallerTransport) :=
  _ ←! bootstrapped;
  let router_endpoint := ws_url (endpoint (cfg_bootstrap config)) in
  _ ←! connect_ws websocket;
  fresh ← perform NewMsgId;
  now ← perform SystemTime;
  frame ←! register_frame (cfg_peer_id config) Caller fresh (now_ts now);
  _ ←? send_raw_frame frame;
  ack ←! register_reply (head source);
  if negb (accepted ack)
  then Ret (Err (RegisterRejected
         (default "router rejected caller registration" (reason ack))))
  else
    _ ← perform SpawnInbound;
    Ret (Ok (mkTransport (cfg_peer_id config) (cfg_default_target_peer_id config)
               router_endpoint (cfg_request_timeout config))).

(** On the path where the write fails both ends of the channel are dropped. *)
Definition send_and_wait (t : CallerTransport) (frame : bytes) (id : string) :
    callerM (MResult FrameParts) :=
  is_closed ← perform ReadClosed;
  if (is_closed : bool)
  then Ret (Err (RouterUnavailable (router_endpoint t)))
  else
    ch ← perform (OneshotChannel id);
    _ ← perform (PendingInsert id ch);
    sent ← send_raw_frame frame;
    match sent with
    | Err err => _ ← perform (PendingRemove id); Ret (Err err)
    | Ok _ =>
        received ← perform (Recv ch (request_timeout t));
        match received with
        | RecvElapsed => Ret (Err TimeoutError)
        | RecvValue r => Ret r
        | RecvClosed => Ret (Err (RouterUnavailable (router_endpoint t)))
        end
    end.

Definition decode_router_or_peer_error (b : bytes) : MResult MultifrostError :=
  let? body := decode_error_body b in
  if (err_kind body =? "router")%string then Ok (RouterUnavailable (message body))
  else if (err_kind body =? "protocol")%string then Ok (MalformedFrame (message body))
  else if (err_kind body =? "application")%string then Ok (RemoteCallError (message body))
  else if (err_kind body =? "library")%string then Ok (InvalidMessage (message body))
  else Ok (RemoteCallError (message body)).

(** [if frame.envelope.kind == KIND_ERROR { return Err(decode(..)?) }]. *)
Definition reject_error_frame (frame : FrameParts) : MResult unit :=
  if (kind (envelope frame) =? KIND_ERROR)%string
  then let? e := decode_router_or_peer_error (body_bytes frame) in Err e
  else Ok tt.

Section result_type.
Context {R : Set} (from_value : Value -> result R string).

(** What a call makes of the frame it received. *)
Definition call_reply (frame : FrameParts) : MResult R :=
  let? _ := reject_error_frame frame in
  let? response := decode_response_body (body_bytes frame) in
  map_err JsonError (from_value (resp_result response)).

Definition call_to (t : CallerTransport) (target_peer_id function : string) (args : list Value) :
    callerM (MResult R) :=
  body ←! encode_call_body (mkCallBody function args None);
  fresh ← perform NewMsgId;
  now ← perform SystemTime;
  let e := build_call_envelope (peer_id t) target_peer_id fresh (now_ts now) in
  frame ←! encode_frame e body;
  frame ←? send_and_wait t frame (msg_id e);
  Ret (call_reply frame).

Definition call (t : CallerTransport) (function : string) (args : list Value) :
    callerM (MResult R) :=
  target ←! ok_or (default_target_peer_id t) (ConfigError "no default target peer_id configured");
  call_to t target function args.
End result_type.

Definition query_exists_reply (frame : FrameParts) : MResult QueryExistsResponseBody :=
  let? _ := reject_error_frame frame in
  decode_query_exists_response (body_bytes frame).

Definition query_peer_exists (t : CallerTransport) (queried : string) :
    callerM (MResult QueryExistsResponseBody) :=
  body ←! encode_query_body (PeerExists queried);
  fresh ← perform NewMsgId;
  now ← perform SystemTime;
  let e := build_query_envelope (peer_id t) ROUTER_PEER_ID fresh (now_ts now) in
  frame ←! encode_frame e body;
  frame ←? send_and_wait t frame (msg_id e);
  Ret (query_exists_reply frame).

Definition query_get_reply (frame : FrameParts) : MResult QueryGetResponseBody :=
  let? _ := reject_error_frame frame in
  decode_query_get_response (body_bytes frame).

Definition query_peer_get (t : CallerTransport) (queried : string) :
    callerM (MResult QueryGetResponseBody) :=
  body ←! encode_query_body (PeerGet queried);
  fresh ← perform NewMsgId;
  now ← perform SystemTime;
  let e := build_query_envelope (peer_id t) ROUTER_PEER_ID fresh (now_ts now) in
  frame ←! encode_frame e body;
  frame ←? send_and_wait t frame (msg_id e);
  Ret (query_get_reply frame).

Definition send_disconnect_frame (peer_id : string) : callerM (MResult unit) :=
  fresh ← perform NewMsgId;
  now ← perform SystemTime;
  frame ←! encode_frame (build_disconnect_envelope peer_id ROUTER_PEER_ID fresh (now_ts now)) [];
  send_raw_frame frame.

Definition disconnect (t : CallerTransport) : callerM (MResult unit) :=
  fresh ← perform NewMsgId;
  now ← perform SystemTime;
  frame ←! encode_frame (build_disconnect_envelope (peer_id t) ROUTER_PEER_ID fresh (now_ts now)) [];
  _ ← send_raw_frame frame;
  task ← perform TakeInboundTask;
  if (task : bool)
  then _ ← perform AbortInbound; Ret (Ok tt)
  else Ret (Ok tt).

(** [for sender in drained]. *)
Fixpoint resolve_drained (l : list nat) (endpoint : string) : callerM unit :=
  match l with
  | [] => Ret tt
  | tx :: l =>
      _ ← perform (OneshotSend tx (Err (RouterUnavailable endpoint)));
      resolve_drained l endpoint
  end.

(** The code after the [while let] loop. *)
Definition inbound_close (endpoint : string) : callerM unit :=
  _ ← perform SetClosed;
  drained ← perform PendingDrain;
  resolve_drained drained endpoint.

(** [SourceNext] is [source.next().await]: when it answers, the next item of
    [source], or the end, has arrived. *)
Fixpoint inbound_loop (source : list WsItem) (endpoint : string) : callerM unit :=
  _ ← perform SourceNext;
  match source with
  | Ok (Binary b) :: source =>
      match decode_frame b with
      | Err _ => inbound_loop source endpoint
      | Ok frame =>
          sender ← perform (PendingRemove (msg_id (envelope frame)));
          match sender with
          | Some tx => _ ← perform (OneshotSend tx (Ok frame)); inbound_loop source endpoint
          | None => inbound_loop source endpoint
          end
      end
  | _ => inbound_close endpoint
  end.

End transport.
