(* ===== verification/CallerSafety.v ===== *)
(** The caller transport under concurrency: any number of requests and the
    inbound task, interleaved at every operation on shared state. *)

From S2P Require Import Prelude Prog Float64 Wire Config ClientMessage CallerTransport.

Local Open Scope string_scope.

(** * The transition system *)

(** The requests a [CallerTransport] accepts. *)
Inductive Request : Set :=
| RCall (function : string) (args : list Value)
| RCallTo (target function : string) (args : list Value)
| RPeerExists (queried : string)
| RPeerGet (queried : string)
| RDisconnect.

Section caller.
Context {CC : ClientCodec} {R : Set} (from_value : Value -> result R string).

Inductive Outcome : Set :=
| OCall (r : MResult R)
| OPeerExists (r : MResult QueryExistsResponseBody)
| OPeerGet (r : MResult QueryGetResponseBody)
| ODisconnect (r : MResult unit).

Definition serve_request (t : CallerTransport) (q : Request) : callerM Outcome :=
  match q with
  | RCall f a => bind (call from_value t f a) (fun r => Ret (OCall r))
  | RCallTo p f a => bind (call_to from_value t p f a) (fun r => Ret (OCall r))
  | RPeerExists p => bind (query_peer_exists t p) (fun r => Ret (OPeerExists r))
  | RPeerGet p => bind (query_peer_get t p) (fun r => Ret (OPeerGet r))
  | RDisconnect => bind (disconnect t) (fun r => Ret (ODisconnect r))
  end.

(** Of the items of the stream (its end counts as one) the first [arrived] have
    reached the transport and the first [taken] have been read. *)
Record CState : Type := mkCState {
  requests : gmap nat (Request * callerM Outcome);
  inbound : callerM unit;
  cworld : CWorld;
  arrived : nat;
  taken : nat;
}.

(** [Arrive]: the next item of the stream, or its end, reaches the transport.
    [CancelInbound]: the runtime carries out the abort of the inbound task. *)
Inductive CAction : Type :=
| Start (c : nat) (q : Request)
| RequestStep (c : nat)
| InboundStep
| Arrive
| CancelInbound
| TimerElapsed (ch : nat)
| SinkBroken (err : string)
| SetClock (now : Z).

Definition set_env (clock : Z) (expired : gset nat) (sink_error : option string) (w : CWorld) :
    CWorld :=
  mkCWorld (closed w) (pending w) (chans w) (next_chan w) (labels w) (wire w) sink_error
    (uuid w) (next_id w) clock expired (inbound_handle w) (inbound_aborted w).

(** Reading the stream waits for an item that has arrived. *)
Definition reads_next (p : callerM unit) : bool :=
  match p with Do SourceNext _ => true | _ => false end.

Definition take_item (p : callerM unit) (arrived taken : nat) : option nat :=
  if reads_next p
  then if (taken <? arrived)%nat then Some (S taken) else None
  else Some taken.

(** A task is cancelled at an [await]: every operation of the inbound task but
    the use of a sender. *)
Definition at_await (p : callerM unit) : bool :=
  match p with Do (OneshotSend _ _) _ => false | _ => true end.

Section system.
Context (t : CallerTransport) (source : list WsItem) (ids : nat -> string).

Definition apply_caction (a : CAction) (st : CState) : option CState :=
  let w := cworld st in
  match a with
  | Start c q =>
      match requests st !! c with
      | Some _ => None
      | None => Some (mkCState (<[c := (q, serve_request t q)]> (requests st)) (inbound st) w
                        (arrived st) (taken st))
      end
  | RequestStep c =>
      '(q, p) ← requests st !! c;
      '(p', w') ← bstep caller_op p w;
      Some (mkCState (<[c := (q, p')]> (requests st)) (inbound st) w' (arrived st) (taken st))
  | InboundStep =>
      n ← take_item (inbound st) (arrived st) (taken st);
      '(p', w') ← bstep caller_op (inbound st) w;
      Some (mkCState (requests st) p' w' (arrived st) n)
  | Arrive => Some (mkCState (requests st) (inbound st) w (S (arrived st)) (taken st))
  | CancelInbound =>
      if inbound_aborted w && at_await (inbound st)
      then Some (mkCState (requests st) (Ret tt) w (arrived st) (taken st))
      else None
  | TimerElapsed ch =>
      Some (mkCState (requests st) (inbound st)
              (set_env (clock w) ({[ch]} ∪ expired w) (sink_error w) w) (arrived st) (taken st))
  | SinkBroken err =>
      Some (mkCState (requests st) (inbound st) (set_env (clock w) (expired w) (Some err) w)
              (arrived st) (taken st))
  | SetClock now =>
      Some (mkCState (requests st) (inbound st) (set_env now (expired w) (sink_error w) w)
              (arrived st) (taken st))
  end.

(** The state right after [connect]. *)
Definition connected_world : CWorld := mkCWorld false ∅ ∅ 0 ∅ [] None ids 0 0 ∅ true false.

Definition caller_init : CState :=
  mkCState ∅ (inbound_loop source (router_endpoint t)) connected_world 0 0.

Definition caller_step (st st' : CState) : Prop := exists a, apply_caction a st = Some st'.
Definition caller_reachable (st : CState) : Prop := star caller_step caller_init st.

Fixpoint run_cactions (l : list CAction) (st : CState) : option CState :=
  match l with
  | [] => Some st
  | a :: l => st' ← apply_caction a st; run_cactions l st'
  end.

Lemma run_cactions_star l st st' : run_cactions l st = Some st' -> star caller_step st st'.
Proof.
  revert st. induction l as [|a l IH]; simpl; intros st H.
  - simplify_eq. constructor.
  - destruct (apply_caction a st) as [st1|] eqn:E; simplify_eq/=.
    eapply star_trans; [|by apply IH]. apply star_one. by exists a.
Qed.

(** * Invariant, rely and guarantee *)

(** The frame arrived on the transport. *)
Definition received (f : FrameParts) : Prop :=
  exists b, Ok (Binary b) ∈ source /\ decode_frame b = Ok f.

(** The errors the transport makes itself. *)
Definition local (e : MultifrostError) : Prop := forall m, e <> RemoteCallError m.

Record caller_inv (w : CWorld) : Prop := {
  ci_fresh : forall ch id, labels w !! ch = Some id -> (ch < next_chan w)%nat;
  ci_pending : forall id ch, pending w !! id = Some ch -> labels w !! ch = Some id;
  ci_sent : forall ch f, chans w !! ch = Some (Sent (Ok f)) ->
    labels w !! ch = Some (msg_id (envelope f)) /\ received f;
  ci_failed : forall ch e, chans w !! ch = Some (Sent (Err e)) -> local e;
}.

(** Labels and written messages are never lost. *)
Definition grows (w w' : CWorld) : Prop :=
  labels w ⊆ labels w' /\ wire w ⊆ wire w'.

#[local] Instance grows_preorder : PreOrder grows.
Proof.
  split; [by intros w; split|].
  intros w1 w2 w3 [] []; split; by etrans.
Qed.

Abbreviation csafe := (safe caller_op caller_inv grows).

Lemma csafe_bind {A B} (Q : B -> CWorld -> Prop) (p : callerM A) f w :
  csafe (fun a w => csafe Q (f a) w) p w -> csafe Q (bind p f) w.
Proof. apply (safe_bind _ _ _). Qed.

Lemma csafe_mono {A} (Q : A -> CWorld -> Prop) p w w' :
  grows w w' -> csafe Q p w -> csafe Q p w'.
Proof. apply (safe_mono _ _ _). Qed.

(** An operation that keeps the invariant, and whose answer the rest of the
    program handles. *)
Lemma csafe_do {A} {X : Set} (Q : A -> CWorld -> Prop) (e : callerE X) k w :
  (forall w' x w'', grows w w' -> caller_inv w' -> caller_op X e w' = Some (x, w'') ->
     caller_inv w'' /\ grows w' w'' /\ csafe Q (k x) w'') ->
  csafe Q (Do e k) w.
Proof. simpl. eauto. Qed.

(** Operations that touch neither labels, channels nor the pending map. *)
Definition quiet (X : Set) (e : callerE X) : Prop :=
  match e with
  | ReadClosed | SetClosed | Recv _ _ | SinkSend _ | NewMsgId | SystemTime | SpawnInbound
  | TakeInboundTask | AbortInbound | SourceNext => True
  | _ => False
  end.

Lemma quiet_keeps (X : Set) (e : callerE X) w x w' :
  quiet X e -> caller_inv w -> caller_op X e w = Some (x, w') ->
  caller_inv w' /\ grows w w' /\ labels w' = labels w /\ chans w' = chans w.
Proof.
  intros Hq [H1 H2 H3 H4] E. destruct e; simpl in *; try done; repeat case_match; simplify_eq;
    (split; [split; simpl; done|]); (split; [|done]); split; simpl; try done; set_solver.
Qed.

Lemma csafe_quiet {A} {X : Set} (Q : A -> CWorld -> Prop) (e : callerE X) k w :
  quiet X e -> (forall x w', grows w w' -> csafe Q (k x) w') -> csafe Q (Do e k) w.
Proof.
  intros Hq Hk. apply csafe_do. intros w1 x w2 Hw HI E.
  destruct (quiet_keeps X e w1 x w2 Hq HI E) as (? & ? & _).
  split; [done|]. split; [done|]. apply Hk. by etrans.
Qed.

Lemma inv_remove id w :
  caller_inv w -> caller_inv (set_pending (delete id (pending w)) w).
Proof.
  intros [H1 H2 H3 H4]; split; simpl; [done| |done|done].
  intros id' ch [_ Hp]%lookup_delete_Some. eauto.
Qed.

Lemma inv_set_chan ch s w :
  (forall f, s = Sent (Ok f) -> labels w !! ch = Some (msg_id (envelope f)) /\ received f) ->
  (forall e, s = Sent (Err e) -> local e) ->
  caller_inv w -> caller_inv (set_chan ch s w).
Proof.
  intros Hs He [H1 H2 H3 H4]; split; simpl; [done|done| |].
  - intros ch' f [[-> ->]|[_ E]]%lookup_insert_Some; eauto.
  - intros ch' e [[-> ->]|[_ E]]%lookup_insert_Some; eauto.
Qed.

Lemma inv_oneshot_send tx r w :
  (forall f, r = Ok f -> labels w !! tx = Some (msg_id (envelope f)) /\ received f) ->
  (forall e, r = Err e -> local e) ->
  caller_inv w -> caller_inv (oneshot_send tx r w).
Proof.
  intros Hr He HI. unfold oneshot_send. repeat case_match; try done.
  apply inv_set_chan; [| |done]; [intros f [= ->]|intros e [= ->]]; auto.
Qed.

Lemma inv_pending_insert id tx w :
  labels w !! tx = Some id -> caller_inv w -> caller_inv (pending_insert id tx w).
Proof.
  intros Hl HI. unfold pending_insert.
  assert (HI' : caller_inv (drop_sender_opt (pending w !! id) w)).
  { unfold drop_sender_opt, drop_sender. repeat case_match; try done.
    by apply inv_set_chan. }
  assert (El : labels (drop_sender_opt (pending w !! id) w) = labels w)
    by (unfold drop_sender_opt, drop_sender; by repeat case_match).
  destruct HI' as [H1 H2 H3 H4]; split; simpl; [done| |done|done].
  intros id' ch [[-> ->]|[_ E]]%lookup_insert_Some; [by rewrite El|].
  rewrite El. by apply HI.
Qed.

Lemma inv_new_chan id w :
  caller_inv w -> caller_inv (new_chan id w) /\ grows w (new_chan id w).
Proof.
  intros [H1 H2 H3 H4].
  assert (Hn : forall ch x, labels w !! ch = Some x -> <[next_chan w := id]> (labels w) !! ch = Some x).
  { intros ch x E. rewrite lookup_insert_ne; [done|]. intros <-. apply H1 in E. lia. }
  split; [split; simpl|split; simpl; [|done]].
  - intros ch x [[<- _]|[_ E]]%lookup_insert_Some; [lia|]. apply H1 in E. lia.
  - eauto.
  - intros ch f [[_ ?]|[_ E]]%lookup_insert_Some; [done|]. apply H3 in E as [? ?]. eauto.
  - intros ch e [[_ ?]|[_ E]]%lookup_insert_Some; [done|]. eauto.
  - apply map_subseteq_spec. eauto.
Qed.

Lemma grows_oneshot_send tx r w : grows w (oneshot_send tx r w).
Proof. unfold oneshot_send. repeat case_match; by split. Qed.

Lemma grows_pending_insert id tx w : grows w (pending_insert id tx w).
Proof.
  unfold pending_insert, drop_sender_opt, drop_sender. repeat case_match; by split.
Qed.

(** * The programs *)

(** The inbound task gives a frame to the sender filed under its id. *)
Lemma inbound_close_safe endpoint w : csafe (fun _ _ => True) (inbound_close endpoint) w.
Proof.
  apply csafe_quiet; [done|]. intros [] w1 _.
  apply csafe_do. intros w2 l w3 _ HI [= <- <-].
  split; [split; [apply HI|done|apply HI|apply HI]|]. split; [by split|].
  generalize ((map_to_list (pending w2)).*2) as l.
  generalize (set_pending ∅ w2) as w4.
  intros w4 l. revert w4. induction l as [|tx l IH]; intros w4; [done|].
  apply csafe_do. intros w5 [] w6 _ HI5 [= <-].
  split; [apply inv_oneshot_send; [done|by intros ? [= <-]|done]|].
  split; [apply grows_oneshot_send|]. apply IH.
Qed.

Lemma inbound_loop_safe l endpoint w :
  l ⊆ source -> csafe (fun _ _ => True) (inbound_loop l endpoint) w.
Proof.
  revert w. induction l as [|item l IH]; intros w Hl; (apply csafe_quiet; [done|]; intros [] w0 _);
    [apply inbound_close_safe|].
  assert (Hl' : l ⊆ source) by set_solver.
  destruct item as [[ |b| | | | ]|]; try apply inbound_close_safe.
  destruct (decode_frame b) as [f|] eqn:Hb; [|by apply IH].
  apply csafe_do. intros w1 o w2 _ HI [= <- <-].
  split; [by apply inv_remove|]. split; [by split|].
  destruct (pending w1 !! msg_id (envelope f)) as [tx|] eqn:Hp; [|by apply IH].
  apply (ci_pending _ HI) in Hp.
  apply csafe_do. intros w3 [] w4 [Hg _] HI3 [= <-].
  split; [|split; [apply grows_oneshot_send|by apply IH]].
  apply inv_oneshot_send; [|done|done]. intros f' [= <-].
  split; [by eapply lookup_weaken|]. exists b. split; [set_solver|done].
Qed.

(** A frame that [send_and_wait] returns arrived on the transport, carries the
    id, and was received after the request was written; an error is local. *)
Lemma send_and_wait_safe raw id w :
  csafe (fun r w => match r with
                    | Ok f => received f /\ msg_id (envelope f) = id /\ Binary raw ∈ wire w
                    | Err e => local e
                    end)
    (send_and_wait t raw id) w.
Proof.
  apply csafe_quiet; [done|]. intros [] w1 _; [by apply safe_ret|].
  apply csafe_do. intros w2 ch w3 _ HI [= <- <-].
  destruct (inv_new_chan id w2 HI) as [HI3 Hg3]. split; [done|]. split; [done|].
  assert (Hl3 : labels (new_chan id w2) !! next_chan w2 = Some id)
    by apply lookup_insert_eq.
  generalize dependent (next_chan w2). intros ch Hl3.
  apply csafe_do. intros w4 [] w5 [Hg4 _] HI4 [= <-].
  apply (lookup_weaken _ _ _ _ Hl3) in Hg4 as Hl4.
  split; [by apply inv_pending_insert|]. split; [apply grows_pending_insert|].
  assert (Hl5 : labels (pending_insert id ch w4) !! ch = Some id)
    by (eapply lookup_weaken; [done|apply grows_pending_insert]).
  revert Hl5. generalize (pending_insert id ch w4). clear -CC. intros w5 Hl5.
  apply csafe_do. intros w6 sent w7 [Hg6 _] HI6 E.
  destruct (quiet_keeps _ (SinkSend (binary_message raw)) w6 sent w7 I HI6 E)
    as (HI7 & Hg7 & El & _).
  split; [done|]. split; [done|]. simpl in E.
  destruct (sink_error w6) as [err|]; simplify_eq/=.
  - intros w8 _ HI8 x w9 [= <- <-]. split; [by apply inv_remove|]. by split.
  - apply (lookup_weaken _ _ _ _ Hl5) in Hg6 as Hl6.
    intros w8 [Hg8 Hw8] HI8 x w9 E8.
    apply (lookup_weaken _ _ _ _ Hl6) in Hg8 as Hl8.
    destruct (recv ch (request_timeout t) w8) as [r|] eqn:Er; simplify_eq/=.
    split; [done|]. split; [done|]. destruct x; simpl; try done.
    intros w10 [_ Hw10] _. unfold recv in Er. repeat case_match; simplify_eq.
    + match goal with H : chans _ !! _ = Some (Sent _) |- _ =>
        destruct (ci_sent _ HI8 _ _ H) as [Hf ?] end.
      split; [done|]. split; [congruence|]. apply Hw10, Hw8. set_solver.
    + by eapply (ci_failed _ HI8).
Qed.

(** [reply] was computed from a frame that arrived in answer to a frame of
    this kind, destination and body, written by this transport. *)
Definition answered (e_kind to : string) (body : bytes) (reply : FrameParts -> Prop) (w : CWorld) :
    Prop :=
  exists fresh now raw frame,
    encode_frame (mkEnvelope PROTOCOL_VERSION e_kind fresh (peer_id t) to now) body = Ok raw /\
    Binary raw ∈ wire w /\ received frame /\
    msg_id (envelope frame) = fresh /\ reply frame.

(** The outcome is the other side's: a result, or a remote error. *)
Definition remote {A} (r : MResult A) : Prop :=
  match r with Ok _ => True | Err e => ~ local e end.

Definition request_answered (q : Request) (o : Outcome) (w : CWorld) : Prop :=
  match q, o with
  | RCall f a, OCall r => remote r ->
      exists target body, default_target_peer_id t = Some target /\
        encode_call_body (mkCallBody f a None) = Ok body /\
        answered KIND_CALL target body (fun frame => call_reply from_value frame = r) w
  | RCallTo target f a, OCall r => remote r ->
      exists body, encode_call_body (mkCallBody f a None) = Ok body /\
        answered KIND_CALL target body (fun frame => call_reply from_value frame = r) w
  | RPeerExists p, OPeerExists r => remote r ->
      exists body, encode_query_body (PeerExists p) = Ok body /\
        answered KIND_QUERY ROUTER_PEER_ID body (fun frame => query_exists_reply frame = r) w
  | RPeerGet p, OPeerGet r => remote r ->
      exists body, encode_query_body (PeerGet p) = Ok body /\
        answered KIND_QUERY ROUTER_PEER_ID body (fun frame => query_get_reply frame = r) w
  | _, _ => True
  end.

Lemma encode_frame_local e body err : encode_frame e body = Err err -> local err.
Proof.
  unfold encode_frame, encode_envelope. destruct (to_vec_named e); simpl; [done|].
  by intros [= <-] m.
Qed.

(** The tail the three kinds of request share. *)
Lemma exchange_safe {A} (e_kind to : string) body (reply : FrameParts -> MResult A) w :
  csafe (fun r w => remote r -> answered e_kind to body (fun frame => reply frame = r) w)
    (bind (perform NewMsgId) (fun fresh => bind (perform SystemTime) (fun now =>
       let e := mkEnvelope PROTOCOL_VERSION e_kind fresh (peer_id t) to (now_ts now) in
       lift_try (encode_frame e body) (fun raw =>
         bind_try (send_and_wait t raw (msg_id e)) (fun frame => Ret (reply frame)))))) w.
Proof.
  apply csafe_quiet; [done|]. intros fresh w1 _.
  apply csafe_quiet; [done|]. intros now w2 _. simpl.
  destruct (encode_frame _ _) as [raw|err] eqn:Hraw;
    [|apply safe_ret; intros ? _ _ []; by eapply encode_frame_local].
  apply csafe_bind. eapply safe_weaken; [|apply send_and_wait_safe].
  intros [frame|err] w3 H; [|by apply safe_ret; intros ? _ _ []].
  apply safe_ret. intros w4 [_ Hw4] _ Ha. destruct H as (? & ? & ?).
  exists fresh, (now_ts now), raw, frame. repeat (split; [by auto|]). done.
Qed.

Lemma answered_mono e_kind to body reply w w' :
  grows w w' -> answered e_kind to body reply w -> answered e_kind to body reply w'.
Proof.
  intros [_ Hw] (fresh & now & raw & frame & ? & ? & ?).
  exists fresh, now, raw, frame. split; [done|]. split; [by apply Hw|done].
Qed.

Lemma call_to_safe target f a w :
  csafe (fun r w => remote r ->
           exists body, encode_call_body (mkCallBody f a None) = Ok body /\
             answered KIND_CALL target body (fun frame => call_reply from_value frame = r) w)
    (call_to from_value t target f a) w.
Proof.
  unfold call_to, encode_call_body.
  destruct (to_vec_named _) as [body|]; cbn [map_err lift_try];
    [|by apply safe_ret; intros ? _ _ []].
  eapply safe_weaken; [|apply (exchange_safe KIND_CALL target body (call_reply from_value))].
  intros r w' H Hr. exists body. split; [done|]. by apply H.
Qed.

Lemma disconnect_safe w : csafe (fun _ _ => True) (disconnect t) w.
Proof.
  apply csafe_quiet; [done|]. intros fresh w1 _.
  apply csafe_quiet; [done|]. intros now w2 _. simpl.
  destruct (encode_frame _ _) as [raw|]; [|by apply safe_ret].
  apply csafe_quiet; [done|]. intros sent w3 _.
  apply csafe_quiet; [done|]. intros [] w4 _; [|by apply safe_ret].
  apply csafe_quiet; [done|]. intros [] w5 _. by apply safe_ret.
Qed.

Lemma query_safe {A} x (reply : FrameParts -> MResult A) w :
  csafe (fun r w => remote r ->
           exists body, encode_query_body x = Ok body /\
             answered KIND_QUERY ROUTER_PEER_ID body (fun frame => reply frame = r) w)
    (lift_try (encode_query_body x) (fun body =>
       bind (perform NewMsgId) (fun fresh => bind (perform SystemTime) (fun now =>
         let e := build_query_envelope (peer_id t) ROUTER_PEER_ID fresh (now_ts now) in
         lift_try (encode_frame e body) (fun raw =>
           bind_try (send_and_wait t raw (msg_id e)) (fun frame => Ret (reply frame))))))) w.
Proof.
  unfold encode_query_body. destruct (to_vec_named x) as [body|]; cbn [map_err lift_try];
    [|by apply safe_ret; intros ? _ _ []].
  eapply safe_weaken; [|apply (exchange_safe KIND_QUERY ROUTER_PEER_ID body reply)].
  intros r w' H Hr. exists body. split; [done|]. by apply H.
Qed.

Lemma serve_request_safe q w : csafe (request_answered q) (serve_request t q) w.
Proof.
  destruct q as [f a|target f a|p|p|]; apply csafe_bind.
  - unfold call. destruct (default_target_peer_id t) as [target|] eqn:Ht; simpl;
      [|by intros ? _ _ ? _ _ []].
    eapply safe_weaken; [|apply call_to_safe]. intros r w1 H w2 Hw _ Hr.
    destruct (H Hr) as (body & Hb & Hans).
    exists target, body. split; [done|]. split; [done|]. by eapply answered_mono.
  - eapply safe_weaken; [|apply call_to_safe]. intros r w1 H w2 Hw _ Hr.
    destruct (H Hr) as (body & Hb & Hans).
    exists body. split; [done|]. by eapply answered_mono.
  - eapply safe_weaken; [|apply (query_safe (PeerExists p) query_exists_reply)].
    intros r w1 H w2 Hw _ Hr. destruct (H Hr) as (body & Hb & Hans).
    exists body. split; [done|]. by eapply answered_mono.
  - eapply safe_weaken; [|apply (query_safe (PeerGet p) query_get_reply)].
    intros r w1 H w2 Hw _ Hr. destruct (H Hr) as (body & Hb & Hans).
    exists body. split; [done|]. by eapply answered_mono.
  - eapply safe_weaken; [|apply disconnect_safe]. done.
Qed.

(** * The invariant of the system *)

Record system_inv (st : CState) : Prop := {
  si_world : caller_inv (cworld st);
  si_inbound : csafe (fun _ _ => True) (inbound st) (cworld st);
  si_requests : forall c q p, requests st !! c = Some (q, p) ->
    csafe (request_answered q) p (cworld st);
}.

Lemma set_env_keeps c e s w : caller_inv w -> caller_inv (set_env c e s w) /\ grows w (set_env c e s w).
Proof. intros [H1 H2 H3 H4]. by split; split. Qed.

Lemma system_inv_step st st' : system_inv st -> caller_step st st' -> system_inv st'.
Proof.
  intros [HI Hin Hreq] [a Ha].
  assert (Henv : forall c e s, system_inv
            (mkCState (requests st) (inbound st) (set_env c e s (cworld st)) (arrived st) (taken st))).
  { intros c e s. destruct (set_env_keeps c e s _ HI) as [HI' Hg].
    split; simpl; [done|by eapply csafe_mono; eauto|].
    intros; eapply csafe_mono; eauto. }
  destruct a as [c q|c| | | |ch|err|now]; simpl in Ha.
  - destruct (requests st !! c); simplify_eq. split; simpl; [done|done|].
    intros c' q' p' [[-> [= <- <-]]|[_ E]]%lookup_insert_Some; [|eauto].
    apply serve_request_safe.
  - destruct (requests st !! c) as [[q p]|] eqn:Ec; simplify_eq/=.
    destruct (bstep caller_op p (cworld st)) as [[p' w']|] eqn:Eb; simplify_eq/=.
    destruct (safe_bstep _ _ _ _ _ _ _ _ HI (Hreq _ _ _ Ec) Eb) as (HI' & Hg & Hp').
    split; simpl; [done|by eapply csafe_mono; eauto|].
    intros c' q' p'' [[-> [= <- <-]]|[_ E]]%lookup_insert_Some; [done|].
    eapply csafe_mono; eauto.
  - destruct (take_item _ _ _) as [n|]; simplify_eq/=.
    destruct (bstep caller_op (inbound st) (cworld st)) as [[p' w']|] eqn:Eb; simplify_eq/=.
    destruct (safe_bstep _ _ _ _ _ _ _ _ HI Hin Eb) as (HI' & Hg & Hp').
    split; simpl; [done|done|]. intros; eapply csafe_mono; eauto.
  - by simplify_eq.
  - destruct (_ && _); simplify_eq. by split.
  - simplify_eq. apply Henv.
  - simplify_eq. apply Henv.
  - simplify_eq. apply Henv.
Qed.

Lemma system_inv_reachable st : caller_reachable st -> system_inv st.
Proof.
  apply star_invariant; [apply system_inv_step|].
  split; simpl.
  - split; simpl; intros; by simplify_map_eq.
  - by apply inbound_loop_safe.
  - intros; by simplify_map_eq.
Qed.

(** * After the inbound task has stopped *)

Definition no_send (X : Set) (e : callerE X) : Prop :=
  match e with OneshotSend _ _ => False | _ => True end.

Lemma send_and_wait_no_send raw id : all_ops no_send (send_and_wait t raw id).
Proof.
  cbn. split; [done|]. intros []; cbn; [done|]. do 2 (split; [done|intros ?]).
  split; [done|]. intros [|]; cbn; (split; [done|]); [by intros []|done].
Qed.

Lemma exchange_no_send {A} e body (reply : FrameParts -> MResult A) :
  all_ops no_send
    (bind (perform NewMsgId) (fun fresh => bind (perform SystemTime) (fun now =>
       lift_try (encode_frame (e fresh now) body) (fun raw =>
         bind_try (send_and_wait t raw (msg_id (e fresh now)))
           (fun frame => Ret (reply frame)))))).
Proof.
  split; [done|]. intros fresh. split; [done|]. intros now.
  apply all_ops_lift_try. intros raw _.
  apply all_ops_bind_try; [apply send_and_wait_no_send|done].
Qed.

Lemma serve_request_no_send q : all_ops no_send (serve_request t q).
Proof.
  destruct q; (apply all_ops_bind; [|done]);
    repeat (apply all_ops_lift_try; intros ? _).
  - apply (exchange_no_send (fun fresh now => build_call_envelope _ _ fresh (now_ts now))).
  - apply (exchange_no_send (fun fresh now => build_call_envelope _ _ fresh (now_ts now))).
  - apply (exchange_no_send (fun fresh now => build_query_envelope _ _ fresh (now_ts now))).
  - apply (exchange_no_send (fun fresh now => build_query_envelope _ _ fresh (now_ts now))).
  - cbn. split; [done|]. intros fresh. split; [done|]. intros now.
    apply all_ops_lift_try. intros raw _. cbn. split; [done|]. intros sent.
    split; [done|]. intros []; cbn; by repeat split.
Qed.

Definition requests_no_send (st : CState) : Prop :=
  forall c q p, requests st !! c = Some (q, p) -> all_ops no_send p.

Lemma bstep_all_ops {A} P (p p' : callerM A) w w' :
  all_ops P p -> bstep caller_op p w = Some (p', w') -> all_ops P p'.
Proof.
  destruct p as [|X e k]; simpl; [done|]. intros [_ Hk] H.
  destruct (caller_op X e w) as [[x w1]|]; simplify_eq. apply Hk.
Qed.

Lemma requests_no_send_step st st' :
  requests_no_send st -> caller_step st st' -> requests_no_send st'.
Proof.
  intros Hreq [a Ha]. destruct a as [c q|c| | | |ch|err|now]; simpl in Ha.
  - destruct (requests st !! c); simplify_eq.
    unfold requests_no_send; simpl. intros c' q' p' [[-> [= <- <-]]|[_ E]]%lookup_insert_Some; [|eauto].
    apply serve_request_no_send.
  - destruct (requests st !! c) as [[q p]|] eqn:Ec; simplify_eq/=.
    destruct (bstep caller_op p (cworld st)) as [[p' w']|] eqn:Eb; simplify_eq/=.
    unfold requests_no_send; simpl. intros c' q' p'' [[-> [= <- <-]]|[_ E]]%lookup_insert_Some; [|eauto].
    eapply bstep_all_ops; eauto.
  - destruct (take_item _ _ _) as [n|]; simplify_eq/=.
    destruct (bstep _ _ _) as [[p' w']|]; by simplify_eq/=.
  - by simplify_eq.
  - destruct (_ && _); by simplify_eq.
  - by simplify_eq.
  - by simplify_eq.
  - by simplify_eq.
Qed.

(** The task has returned, or its abort has been carried out. *)
Definition inbound_stopped (st : CState) : Prop := inbound st = Ret tt.

(** An operation other than a send answers no channel. *)
Lemma no_send_keeps (X : Set) (e : callerE X) w x w' :
  no_send X e -> caller_op X e w = Some (x, w') ->
  forall ch r, chans w' !! ch = Some (Sent r) -> chans w !! ch = Some (Sent r).
Proof.
  destruct e; simpl; try done; intros _ H; repeat case_match; simplify_eq/=; try done.
  - intros ch r [[_ ?]|[_ E]]%lookup_insert_Some; done.
  - unfold pending_insert, drop_sender_opt, drop_sender.
    repeat case_match; simpl; try done.
    intros ch r [[_ ?]|[_ E]]%lookup_insert_Some; done.
Qed.

Lemma stopped_step st st' :
  requests_no_send st -> inbound_stopped st -> caller_step st st' ->
  inbound_stopped st' /\
  forall ch r, chans (cworld st') !! ch = Some (Sent r) ->
               chans (cworld st) !! ch = Some (Sent r).
Proof.
  intros Hreq Hstop [a Ha]. destruct a as [c q|c| | | |ch|err|now]; simpl in Ha.
  - destruct (requests st !! c); by simplify_eq.
  - destruct (requests st !! c) as [[q p]|] eqn:Ec; simplify_eq/=.
    destruct (bstep caller_op p (cworld st)) as [[p' w']|] eqn:Eb; simplify_eq/=.
    apply Hreq in Ec. destruct p as [|X e k]; simpl in *; [done|]. destruct Ec as [He _].
    destruct (caller_op X e (cworld st)) as [[x w1]|] eqn:E1; simplify_eq.
    split; [done|]. exact (no_send_keeps X e _ x w' He E1).
  - rewrite Hstop in Ha. by destruct (take_item _ _ _).
  - by simplify_eq.
  - destruct (_ && _); by simplify_eq.
  - by simplify_eq.
  - by simplify_eq.
  - by simplify_eq.
Qed.

Lemma stopped_star st st' :
  star caller_step st st' -> requests_no_send st -> inbound_stopped st ->
  requests_no_send st' /\ inbound_stopped st' /\
  forall ch r, chans (cworld st') !! ch = Some (Sent r) ->
               chans (cworld st) !! ch = Some (Sent r).
Proof.
  induction 1 as [|s u u' Hs IH Hstep]; intros Hn Hi; [done|].
  destruct (IH Hn Hi) as (Hn1 & Hi1 & H1).
  destruct (stopped_step _ _ Hn1 Hi1 Hstep) as [Hi2 H2].
  split; [by eapply requests_no_send_step|]. split; [done|]. eauto.
Qed.

Lemma reachable_no_send st : caller_reachable st -> requests_no_send st.
Proof.
  apply star_invariant; [apply requests_no_send_step|].
  intros c q p E. by simplify_map_eq.
Qed.

(** * Properties *)

(** C14: whatever the interleaving of concurrent requests, the inbound task,
    timers and transport failures, a request that completed with a result or
    with a remote error returned what it computed from a frame that arrived on
    the WebSocket and carries the message id of the very frame this request
    had written: its kind, destination and body are those of the request. *)
Theorem completed_requests_are_answered (st : CState) (c : nat) (q : Request) (o : Outcome)
    (Hst : caller_reachable st) (Hc : requests st !! c = Some (q, Ret o)) :
  request_answered q o (cworld st).
Proof.
  destruct (system_inv_reachable st Hst) as [HI _ Hreq].
  by apply (Hreq c q (Ret o) Hc (cworld st)).
Qed.

(** C29: once the inbound task has stopped, because it returned at the end of
    the stream or because the runtime has carried out the abort that
    [disconnect] asked for, no channel ever receives a value, whatever the
    requests do and whatever still arrives: a call that is still waiting, or
    starts to wait later, is never answered and ends at best with its own
    timeout.  Between the request of the abort and its execution the task may
    go on; the statement is about the states after it. *)
Theorem nothing_is_answered_after_inbound_stops (st st' : CState)
    (Hst : caller_reachable st) (Hstop : inbound_stopped st) (Hs : star caller_step st st') :
  forall ch r, chans (cworld st') !! ch = Some (Sent r) ->
               chans (cworld st) !! ch = Some (Sent r).
Proof. by apply (stopped_star st st' Hs (reachable_no_send st Hst) Hstop). Qed.
End system.
End caller.
