(* ===== verification/CallerWire.v ===== *)
(** What a caller writes, under any interleaving of its requests: frames of
    its own, each under a message id of its own. *)

From S2P Require Import Prelude Prog Float64 Wire Config ClientMessage CallerTransport CallerSafety.

Local Open Scope string_scope.

Section caller.
Context {CC : ClientCodec} {R : Set} (from_value : Value -> result R string).
Context (t : CallerTransport) (source : list WsItem) (ids : nat -> string).

(** [raw] is a frame of this caller with message id [id]. *)
Definition caller_frame (id : string) (raw : bytes) : Prop :=
  exists e body,
    encode_frame e body = Ok raw /\ v e = PROTOCOL_VERSION /\ env_from e = peer_id t /\
    msg_id e = id /\ (kind e = KIND_CALL \/ kind e = KIND_QUERY \/ kind e = KIND_DISCONNECT).

(** * The life of a request

    A request draws an id, may open a channel for it and file the sender,
    writes at most one frame, under that id, and then waits on that channel or
    takes the sender back. *)

Inductive Phase : Set :=
| Idle
| Holding (id : string)
| Opened (id : string) (ch : nat)
| Written (id : string) (ch : option nat).

Definition phase_id (ph : Phase) : option string :=
  match ph with Idle => None | Holding id | Opened id _ | Written id _ => Some id end.

(** The channel of the request. *)
Definition phase_chan (ph : Phase) : option nat :=
  match ph with Opened _ ch | Written _ (Some ch) => Some ch | _ => None end.

Definition unwritten (ph : Phase) : bool :=
  match ph with Holding _ | Opened _ _ => true | _ => false end.

Definition may (ph : Phase) (X : Set) (e : callerE X) : Prop :=
  match e with
  | NewMsgId => ph = Idle
  | OneshotChannel owner => ph = Holding owner
  | PendingInsert id ch => ph = Opened id ch
  | SinkSend m => exists id raw, unwritten ph = true /\ phase_id ph = Some id /\
      m = Binary raw /\ caller_frame id raw
  | PendingRemove id => exists ch, ph = Written id ch
  | Recv ch _ => exists id, ph = Written id (Some ch)
  | SetClosed | PendingDrain | OneshotSend _ _ | SpawnInbound | SourceNext => False
  | ReadClosed | SystemTime | TakeInboundTask | AbortInbound => True
  end.

Definition next_phase (ph : Phase) (X : Set) (e : callerE X) : X -> Phase :=
  match e in callerE X return X -> Phase with
  | NewMsgId => fun id => Holding id
  | OneshotChannel owner => fun ch => Opened owner ch
  | SinkSend _ => fun _ => match phase_id ph with Some id => Written id (phase_chan ph) | None => ph end
  | _ => fun _ => ph
  end.

Fixpoint writes_once {A} (ph : Phase) (p : callerM A) : Prop :=
  match p with
  | Ret _ => True
  | Do e k => may ph _ e /\ forall x, writes_once (next_phase ph _ e x) (k x)
  end.

(** Operations a request may perform at any time. *)
Definition free_op (X : Set) (e : callerE X) : Prop :=
  match e with ReadClosed | SystemTime | TakeInboundTask | AbortInbound => True | _ => False end.

(** Operations of the inbound task. *)
Definition silent (X : Set) (e : callerE X) : Prop :=
  match e with
  | SetClosed | PendingRemove _ | PendingDrain | OneshotSend _ _ | SourceNext => True
  | _ => False
  end.

Lemma writes_once_free {A} ph (p : callerM A) : all_ops free_op p -> writes_once ph p.
Proof.
  induction p as [a|X e k IH]; simpl; [done|]. intros [He Hk]. destruct e; try done;
    (split; [done|]); intros x; apply IH, Hk.
Qed.

Lemma writes_once_bind {A B} ph (p : callerM A) (f : A -> callerM B) :
  writes_once ph p -> (forall a, all_ops free_op (f a)) -> writes_once ph (bind p f).
Proof.
  intros Hp Hf. revert ph Hp. induction p as [a|X e k IH]; simpl; intros ph Hp;
    [by apply writes_once_free|]. destruct Hp as [He Hk]. split; [done|]. intros x. by apply IH.
Qed.

Lemma send_and_wait_writes raw id :
  caller_frame id raw -> writes_once (Holding id) (send_and_wait t raw id).
Proof.
  intros Hraw. split; [done|]. intros []; simpl; [done|].
  split; [done|]. intros ch. split; [done|]. intros ?. split; [by exists id, raw|].
  intros [|]; cbn.
  - split; [by exists id|]. by intros [].
  - split; [by exists (Some ch)|done].
Qed.

(** Drawing an id and exchanging a frame. *)
Lemma exchange_writes {A} k to body (reply : FrameParts -> MResult A) :
  k = KIND_CALL \/ k = KIND_QUERY ->
  writes_once Idle
    (bind (perform NewMsgId) (fun fresh => bind (perform SystemTime) (fun now =>
       let e := mkEnvelope PROTOCOL_VERSION k fresh (peer_id t) to (now_ts now) in
       lift_try (encode_frame e body) (fun raw =>
         bind_try (send_and_wait t raw (msg_id e)) (fun frame => Ret (reply frame)))))).
Proof.
  intros Hk. split; [done|]. intros fresh. split; [done|]. intros now.
  set (e := mkEnvelope PROTOCOL_VERSION k fresh (peer_id t) to (now_ts now)).
  change (writes_once (Holding fresh) (lift_try (encode_frame e body) (fun raw =>
    bind_try (send_and_wait t raw fresh) (fun frame => Ret (reply frame))))).
  destruct (encode_frame e body) as [raw|] eqn:Hraw; [|done].
  apply writes_once_bind; [|by intros []]. apply send_and_wait_writes.
  exists e, body. simpl. tauto.
Qed.

Lemma serve_request_writes q : writes_once Idle (serve_request from_value t q).
Proof.
  destruct q as [f a|to f a|p|p|]; (apply writes_once_bind; [|done]); unfold call, call_to,
    query_peer_exists, query_peer_get.
  - destruct (default_target_peer_id t); cbn [ok_or lift_try]; [|done].
    destruct (encode_call_body _); [|done]. apply exchange_writes. by left.
  - destruct (encode_call_body _); [|done]. apply exchange_writes. by left.
  - destruct (encode_query_body _); [|done]. apply exchange_writes. by right.
  - destruct (encode_query_body _); [|done]. apply exchange_writes. by right.
  - split; [done|]. intros fresh. split; [done|]. intros now.
    set (e := build_disconnect_envelope (peer_id t) ROUTER_PEER_ID fresh (now_ts now)).
    cbn [next_phase bind perform]. fold e.
    destruct (encode_frame e []) as [raw|] eqn:Hraw; [|done]. split.
    + exists fresh, raw. repeat (split; [done|]). exists e, []. simpl. tauto.
    + intros sent. split; [done|]. intros []; cbn; by repeat split.
Qed.

Lemma inbound_loop_silent l endpoint : all_ops silent (inbound_loop l endpoint).
Proof.
  assert (Hclose : all_ops silent (inbound_close endpoint)).
  { split; [done|]. intros ?. split; [done|]. intros drained. simpl.
    induction drained as [|tx drained IH]; [done|]. split; [done|]. intros ?. apply IH. }
  induction l as [|[[ |b| | | | ]|] l IH]; (split; [done|]; intros ?); simpl; try apply Hclose.
  destruct (decode_frame b); [|apply IH]. split; [done|]. intros [tx|]; simpl; [|apply IH].
  split; [done|]. intros ?. apply IH.
Qed.

(** * The invariant of the system *)

(** [ph] is the phase of each request and [l] the ids of the frames written. *)
Record wire_ok (ph : nat -> Phase) (l : list string) (st : CState (R := R)) : Prop := {
  wo_uuid : uuid (cworld st) = ids;
  wo_inbound : all_ops silent (inbound st);
  wo_requests : forall c q p, requests st !! c = Some (q, p) -> writes_once (ph c) p;
  wo_frames : Forall2 (fun m id => exists raw, m = Binary raw /\ caller_frame id raw)
                (wire (cworld st)) l;
  wo_used : forall id, id ∈ l -> exists n, (n < next_id (cworld st))%nat /\ id = ids n;
  wo_nodup : NoDup l;
  wo_drawn : forall c id, is_Some (requests st !! c) -> phase_id (ph c) = Some id ->
    (exists n, (n < next_id (cworld st))%nat /\ id = ids n) /\
    (unwritten (ph c) = true -> id ∉ l) /\
    forall c', is_Some (requests st !! c') -> phase_id (ph c') = Some id -> c' = c;
  wo_fresh : forall ch id, labels (cworld st) !! ch = Some id -> (ch < next_chan (cworld st))%nat;
  wo_chan : forall c id ch, is_Some (requests st !! c) -> phase_id (ph c) = Some id ->
    phase_chan (ph c) = Some ch -> labels (cworld st) !! ch = Some id;
}.

(** Worlds that agree on what the invariant reads. *)
Definition same_book (w w' : CWorld) : Prop :=
  wire w' = wire w /\ next_id w' = next_id w /\ uuid w' = uuid w /\ labels w' = labels w /\
  next_chan w' = next_chan w.

Lemma same_book_pending_insert id ch w : same_book w (pending_insert id ch w).
Proof. unfold pending_insert, drop_sender_opt, drop_sender. by repeat case_match. Qed.

Lemma silent_keeps (X : Set) (e : callerE X) w x w' :
  silent X e -> caller_op X e w = Some (x, w') -> same_book w w'.
Proof.
  destruct e; simpl; try done; intros _ H; simplify_eq/=; try done.
  unfold oneshot_send. by repeat case_match.
Qed.

(** Changes that no frame, no id and no channel depends on. *)
Lemma wire_ok_env ph l st inb w m n :
  all_ops silent inb -> same_book (cworld st) w ->
  wire_ok ph l st -> wire_ok ph l (mkCState (requests st) inb w m n).
Proof.
  intros Hi (H1 & H2 & H3 & H4 & H5) []. split; simpl; rewrite ?H1, ?H2, ?H3, ?H4, ?H5; done.
Qed.

Definition set_phase (c : nat) (x : Phase) (ph : nat -> Phase) : nat -> Phase :=
  fun c' => if decide (c' = c) then x else ph c'.

Lemma set_phase_eq c x ph : set_phase c x ph c = x.
Proof. unfold set_phase. by rewrite decide_True. Qed.

Lemma set_phase_ne c c' x ph : c' <> c -> set_phase c x ph c' = ph c'.
Proof. intros. unfold set_phase. by rewrite decide_False. Qed.

(** A request replaced, in a phase with no id it did not have before; channels
    may have been opened. *)
Lemma wire_ok_request ph l st c q p ph_c w :
  wire_ok ph l st -> writes_once ph_c p ->
  wire w = wire (cworld st) -> next_id w = next_id (cworld st) -> uuid w = uuid (cworld st) ->
  labels (cworld st) ⊆ labels w ->
  (forall ch id, labels w !! ch = Some id -> (ch < next_chan w)%nat) ->
  (forall id, phase_id ph_c = Some id -> is_Some (requests st !! c) /\ phase_id (ph c) = Some id) ->
  (unwritten ph_c = true -> unwritten (ph c) = true) ->
  (forall id ch, phase_id ph_c = Some id -> phase_chan ph_c = Some ch -> labels w !! ch = Some id) ->
  wire_ok (set_phase c ph_c ph) l (mkCState (<[c := (q, p)]> (requests st)) (inbound st) w (arrived st) (taken st)).
Proof.
  intros [Hu Hi Hr Hf Hus Hn Hh Hfr Hch] Hp H1 H2 H3 Hlab Hfresh Hid Hunw Hchan.
  assert (Hold : forall c' id, is_Some (<[c:=(q, p)]> (requests st) !! c') ->
    phase_id (set_phase c ph_c ph c') = Some id ->
    is_Some (requests st !! c') /\ phase_id (ph c') = Some id /\
    (unwritten (set_phase c ph_c ph c') = true -> unwritten (ph c') = true)).
  { intros c' id. destruct (decide (c' = c)) as [->|Hne].
    - rewrite set_phase_eq. intros _ E. destruct (Hid _ E). auto.
    - rewrite set_phase_ne, lookup_insert_ne by done. auto. }
  split; simpl; rewrite ?H1, ?H2, ?H3; try done.
  - intros c' q' p' [[<- [= <- <-]]|[Hne Hc']]%lookup_insert_Some; [by rewrite set_phase_eq|].
    rewrite set_phase_ne by done. eauto.
  - intros c' id Hc' Hph. destruct (Hold _ _ Hc' Hph) as (Hc1 & Hph1 & Hu1).
    destruct (Hh _ _ Hc1 Hph1) as (Hids & Hl & Huniq). split; [done|]. split; [auto|].
    intros c2 Hc2 Hph2. destruct (Hold _ _ Hc2 Hph2) as (? & ? & _). auto.
  - intros c' id ch. destruct (decide (c' = c)) as [->|Hne].
    + rewrite set_phase_eq. auto.
    + rewrite set_phase_ne, lookup_insert_ne by done. intros. eapply lookup_weaken; eauto.
Qed.

Lemma wire_ok_new_id ph l st c q p0 p :
  Inj (=) (=) ids -> wire_ok ph l st -> requests st !! c = Some (q, p0) ->
  writes_once (Holding (ids (next_id (cworld st)))) p ->
  wire_ok (set_phase c (Holding (ids (next_id (cworld st)))) ph) l
    (mkCState (<[c := (q, p)]> (requests st)) (inbound st) (bump_id (cworld st))
       (arrived st) (taken st)).
Proof.
  intros Hinj [Hu Hi Hr Hf Hus Hn Hh Hfr Hch] Hc Hp. set (new := ids (next_id (cworld st))) in *.
  assert (Hnew : forall m, (m < next_id (cworld st))%nat -> ids m <> new)
    by (intros m Hlt ?%Hinj; lia).
  split; simpl; try done.
  - intros c' q' p' [[<- [= <- <-]]|[Hne Hc']]%lookup_insert_Some; [by rewrite set_phase_eq|].
    rewrite set_phase_ne by done. eauto.
  - intros id (m & Hlt & ->)%Hus. exists m. split; [lia|done].
  - intros c' id. destruct (decide (c' = c)) as [->|Hne].
    + rewrite set_phase_eq. intros _ [= <-]. split; [exists (next_id (cworld st)); split; [lia|done]|].
      split; [intros _ (m & Hlt & E)%Hus; by apply (Hnew m)|].
      intros c2. destruct (decide (c2 = c)) as [|Hc2]; [done|]. rewrite set_phase_ne, lookup_insert_ne by done.
      intros H2 Hph2. destruct (Hh _ _ H2 Hph2) as [(m & Hlt & E) _]. by destruct (Hnew m Hlt).
    + rewrite set_phase_ne, lookup_insert_ne by done. intros Hc' Hph.
      destruct (Hh _ _ Hc' Hph) as ((m & Hlt & ->) & Hl & Huniq).
      split; [exists m; split; [lia|done]|]. split; [done|].
      intros c2. destruct (decide (c2 = c)) as [->|Hc2].
      * rewrite set_phase_eq. intros _ [= E]. by destruct (Hnew m Hlt).
      * rewrite set_phase_ne, lookup_insert_ne by done. auto.
  - intros c' id ch. destruct (decide (c' = c)) as [->|Hne]; [by rewrite set_phase_eq|].
    rewrite set_phase_ne, lookup_insert_ne by done. eauto.
Qed.

Lemma wire_ok_write ph l st c q p0 p id raw :
  wire_ok ph l st -> requests st !! c = Some (q, p0) -> phase_id (ph c) = Some id ->
  unwritten (ph c) = true -> caller_frame id raw -> writes_once (Written id (phase_chan (ph c))) p ->
  wire_ok (set_phase c (Written id (phase_chan (ph c))) ph) (l ++ [id])
    (mkCState (<[c := (q, p)]> (requests st)) (inbound st) (push_wire (Binary raw) (cworld st))
       (arrived st) (taken st)).
Proof.
  intros [Hu Hi Hr Hf Hus Hn Hh Hfr Hch] Hc Hid Hunw Hraw Hp.
  assert (Hsome : is_Some (requests st !! c)) by by eexists.
  destruct (Hh c id Hsome Hid) as (Hused & Hl & Huniq). specialize (Hl Hunw).
  assert (Hsame : forall c', phase_id (set_phase c (Written id (phase_chan (ph c))) ph c') = phase_id (ph c')).
  { intros c'. destruct (decide (c' = c)) as [->|]; [by rewrite set_phase_eq|by rewrite set_phase_ne]. }
  assert (Hreq : forall c', is_Some (<[c:=(q, p)]> (requests st) !! c') -> is_Some (requests st !! c')).
  { intros c'. destruct (decide (c' = c)) as [->|]; [done|by rewrite lookup_insert_ne]. }
  split; simpl; try done.
  - intros c' q' p' [[<- [= <- <-]]|[Hne Hc']]%lookup_insert_Some; [by rewrite set_phase_eq|].
    rewrite set_phase_ne by done. eauto.
  - apply Forall2_app; [done|]. constructor; [|done]. by exists raw.
  - intros id' [Hin| ->%list_elem_of_singleton]%elem_of_app; auto.
  - apply NoDup_app. split; [done|]. split; [|apply NoDup_singleton].
    intros x Hx ->%list_elem_of_singleton. done.
  - intros c' id' Hc'%Hreq. rewrite Hsame. intros Hph.
    destruct (Hh _ _ Hc' Hph) as (Hu' & Hl' & Huniq'). split; [done|]. split.
    + destruct (decide (c' = c)) as [->|Hne]; [by rewrite set_phase_eq|].
      rewrite set_phase_ne by done. intros Hunw' [?| ->%list_elem_of_singleton]%elem_of_app; [by apply Hl'|].
      by destruct Hne; apply Huniq.
    + intros c2 Hc2%Hreq. rewrite Hsame. auto.
  - intros c' id' ch Hc'%Hreq. rewrite Hsame. intros Hph Hphc. apply (Hch c'); [done|done|].
    revert Hphc. destruct (decide (c' = c)) as [->|Hne]; [|by rewrite set_phase_ne].
    rewrite set_phase_eq. simpl. by destruct (phase_chan (ph c)).
Qed.

(** A request's operation that leaves the book as it is. *)
Lemma wire_ok_free ph l st c q p0 p w :
  wire_ok ph l st -> requests st !! c = Some (q, p0) -> writes_once (ph c) p ->
  same_book (cworld st) w ->
  wire_ok (set_phase c (ph c) ph) l (mkCState (<[c := (q, p)]> (requests st)) (inbound st) w (arrived st) (taken st)).
Proof.
  intros Hok Hc Hp (H1 & H2 & H3 & H4 & H5).
  apply wire_ok_request; rewrite ?H4, ?H5; try done; [apply Hok|].
  intros id ch. apply (wo_chan _ _ _ Hok). by eexists.
Qed.

(** The phase of request [c] after the operation [e], and the ids written. *)
Lemma wire_ok_op ph l st c q (X : Set) (e : callerE X) k x w :
  Inj (=) (=) ids -> wire_ok ph l st -> requests st !! c = Some (q, Do e k) ->
  caller_op X e (cworld st) = Some (x, w) ->
  exists l', wire_ok (set_phase c (next_phase (ph c) X e x) ph) l'
    (mkCState (<[c := (q, k x)]> (requests st)) (inbound st) w (arrived st) (taken st)).
Proof.
  intros Hinj Hok Hc E. pose proof (wo_requests _ _ _ Hok _ _ _ Hc) as [He Hk].
  specialize (Hk x). destruct e; simpl in He, Hk, E |- *; try done; simplify_eq;
    try (exists l; by eapply wire_ok_free).
  - exists l. pose proof (wo_fresh _ _ _ Hok) as Hfr.
    assert (Hnone : labels (cworld st) !! next_chan (cworld st) = None).
    { destruct (labels (cworld st) !! next_chan (cworld st)) eqn:El; [|done]. apply Hfr in El. lia. }
    apply wire_ok_request; simpl; try done.
    + by apply insert_subseteq.
    + intros ch id [[<- _]|[_ H]]%lookup_insert_Some; [lia|]. apply Hfr in H. lia.
    + intros id [= <-]. rewrite Hc, He. by split.
    + by rewrite He.
    + intros id ch [= <-] [= <-]. apply lookup_insert_eq.
  - exists l. eapply wire_ok_free; try done. apply same_book_pending_insert.
  - destruct (recv rx limit (cworld st)); simplify_eq. exists l. by eapply wire_ok_free.
  - destruct He as (id & raw & Hunw & Hid & -> & Hraw). rewrite Hid in *.
    destruct (sink_error (cworld st)); simplify_eq; [exists l|].
    + apply wire_ok_request; try done; [apply Hok| |].
      * intros id' [= <-]. rewrite Hc. by split.
      * intros id' ch [= <-] Hch. apply (wo_chan _ _ _ Hok c); [by eexists|done|].
        revert Hch. simpl. by destruct (phase_chan (ph c)).
    + eexists. by eapply wire_ok_write.
  - exists l. rewrite (wo_uuid _ _ _ Hok) in *. by eapply wire_ok_new_id.
Qed.

Lemma wire_ok_step ph l st st' :
  Inj (=) (=) ids -> wire_ok ph l st -> caller_step from_value t st st' ->
  exists ph' l', wire_ok ph' l' st'.
Proof.
  intros Hinj Hok [a Ha].
  destruct a as [c q|c| | | |ch|err|now]; simpl in Ha; simplify_eq;
    try (exists ph, l; apply wire_ok_env; [apply Hok|done|done]).
  - destruct (requests st !! c) eqn:Hc; simplify_eq. exists (set_phase c Idle ph), l.
    apply wire_ok_request; try done; [apply serve_request_writes|apply Hok].
  - destruct (requests st !! c) as [[q p]|] eqn:Hc; simplify_eq/=.
    destruct (bstep caller_op p (cworld st)) as [[p' w']|] eqn:Eb; simplify_eq/=.
    destruct p as [|X e k]; simpl in Eb; [done|].
    destruct (caller_op X e (cworld st)) as [[x w1]|] eqn:E1; simplify_eq.
    destruct (wire_ok_op ph l st c q X e k x w' Hinj Hok Hc E1) as [l' H]. by eexists _, l'.
  - destruct (take_item _ _ _) as [n|]; simplify_eq/=. pose proof (wo_inbound _ _ _ Hok) as Hi.
    destruct (bstep caller_op (inbound st) (cworld st)) as [[p' w']|] eqn:Eb; simplify_eq/=.
    destruct (inbound st) as [|X e k]; simpl in Eb; [done|]. destruct Hi as [He Hk].
    destruct (caller_op X e (cworld st)) as [[x w1]|] eqn:E1; simplify_eq.
    exists ph, l. apply wire_ok_env; [done|by eapply silent_keeps|done].
  - destruct (_ && _); simplify_eq. exists ph, l. by apply wire_ok_env.
Qed.

Lemma wire_ok_reachable st :
  Inj (=) (=) ids -> caller_reachable from_value t source ids st -> exists ph l, wire_ok ph l st.
Proof.
  intros Hinj. apply (star_invariant _ (fun st => exists ph l, wire_ok ph l st)).
  - intros st1 st2 (ph & l & H) Hs. by eapply wire_ok_step.
  - exists (fun _ => Idle), []. split; simpl; try done.
    + apply inbound_loop_silent.
    + by intros id ?%elem_of_nil.
    + apply NoDup_nil_2.
Qed.

(** C8: under any interleaving of its requests, a caller writes only frames
    of its own: version 5, from its peer id, a call, a query or a disconnect.
    Each frame has a message id of its own, drawn for the request that wrote
    it: the ids of the frames on the wire are pairwise distinct. *)
Theorem written_ids_are_unique (st : CState) (Hinj : Inj (=) (=) ids)
    (Hst : caller_reachable from_value t source ids st) :
  exists l, NoDup l /\
    Forall2 (fun m id => exists raw, m = Binary raw /\ caller_frame id raw) (wire (cworld st)) l /\
    forall id, id ∈ l -> exists n, (n < next_id (cworld st))%nat /\ id = ids n.
Proof. destruct (wire_ok_reachable st Hinj Hst) as (ph & l & []). by exists l. Qed.
End caller.
