(* ===== verification/CallerLiveness.v ===== *)
(** A call that is filed before the transport closes returns, in every fair
    run in which its reply, or the end of the stream, arrives: whatever the
    other requests do, provided the inbound task and the call itself are not
    starved and nobody disconnects. *)

From S2P Require Import Prelude Prog Float64 Wire Config ClientMessage CallerTransport CallerSafety CallerWire.

Local Open Scope string_scope.

Section caller.
Context {CC : ClientCodec} {R : Set} (from_value : Value -> result R string).
Context (t : CallerTransport) (source : list WsItem) (ids : nat -> string).

(** * What the inbound task still has to do *)

Abbreviation endpoint := (router_endpoint t).

(** The round of the loop after an item has arrived. *)
Definition inbound_item (l : list WsItem) : callerM unit :=
  match l with
  | Ok (Binary b) :: l =>
      match decode_frame b with
      | Err _ => inbound_loop l endpoint
      | Ok frame =>
          bind (perform (PendingRemove (msg_id (envelope frame)))) (fun sender =>
            match sender with
            | Some tx =>
                bind (perform (OneshotSend tx (Ok frame))) (fun _ => inbound_loop l endpoint)
            | None => inbound_loop l endpoint
            end)
      end
  | _ => inbound_close endpoint
  end.

Lemma inbound_loop_unfold l : inbound_loop l endpoint = Do SourceNext (fun _ => inbound_item l).
Proof. by destruct l. Qed.

(** Where the task is, with the items [l] still to be read, as long as it has
    not closed the transport. *)
Inductive loop_point : list WsItem -> callerM unit -> Prop :=
| lp_next l : loop_point l (inbound_loop l endpoint)
| lp_remove l frame :
    loop_point l (Do (PendingRemove (msg_id (envelope frame))) (fun sender =>
      match sender with
      | Some tx => bind (perform (OneshotSend tx (Ok frame))) (fun _ => inbound_loop l endpoint)
      | None => inbound_loop l endpoint
      end))
| lp_send l tx frame : loop_point l (Do (OneshotSend tx (Ok frame)) (fun _ => inbound_loop l endpoint))
| lp_close l : loop_point l (inbound_close endpoint).

Lemma inbound_item_point l : loop_point (tail l) (inbound_item l).
Proof.
  destruct l as [|[[ |b| | | | ]|] l]; try apply lp_close. simpl.
  destruct (decode_frame b); [apply lp_remove|apply lp_next].
Qed.

(** The number of items to be read until one of them answers the call [id], by
    its id or by making the task leave the loop. *)
Fixpoint reads_until (id : string) (l : list WsItem) : nat :=
  match l with
  | Ok (Binary b) :: l =>
      match decode_frame b with
      | Ok frame => if decide (msg_id (envelope frame) = id) then 1 else S (reads_until id l)
      | Err _ => S (reads_until id l)
      end
  | _ => 1
  end.

(** It will use the sender [tx] before it reads another item. *)
Fixpoint owes_send {A} (tx : nat) (p : callerM A) : Prop :=
  match p with
  | Ret _ => False
  | Do e k =>
      match e with
      | OneshotSend tx' _ => tx' = tx \/ forall x, owes_send tx (k x)
      | SourceNext => False
      | _ => forall x, owes_send tx (k x)
      end
  end.

(** It will take the sender of [id] out of the pending map, reading at most [j]
    items before, and then use it. *)
Fixpoint takes_within {A} (id : string) (j : nat) (p : callerM A) : Prop :=
  match p with
  | Ret _ => False
  | Do e k =>
      match e in callerE X return (X -> nat -> Prop) -> (nat -> X -> Prop) -> Prop with
      | SourceNext => fun _ rest => match j with O => False | S j => forall x, rest j x end
      | PendingDrain => fun owes _ => forall l tx, tx ∈ l -> owes l tx
      | PendingRemove id' => fun owes rest =>
          if decide (id' = id) then forall tx, owes (Some tx) tx else forall o, rest j o
      | _ => fun _ rest => forall x, rest j x
      end (fun x tx => owes_send tx (k x)) (fun j x => takes_within id j (k x))
  end.

Lemma resolve_drained_owes l ep tx : tx ∈ l -> owes_send tx (resolve_drained l ep).
Proof.
  induction l as [|tx' l IH]; [by intros ?%elem_of_nil|].
  intros [->|Hin]%elem_of_cons; [by left|]. right. intros ?. by apply IH.
Qed.

Lemma inbound_close_takes id j : takes_within id j (inbound_close endpoint).
Proof. intros ? drained tx Hin. by apply resolve_drained_owes. Qed.

Lemma inbound_loop_takes id l : takes_within id (reads_until id l) (inbound_loop l endpoint).
Proof.
  induction l as [|item l IH]; rewrite inbound_loop_unfold.
  { intros x. apply inbound_close_takes. }
  destruct item as [[ |b| | | | ]|]; try (intros x; apply inbound_close_takes).
  cbn [reads_until inbound_item]. destruct (decode_frame b) as [f|]; [|by intros x].
  destruct (decide (msg_id (envelope f) = id)) as [E|E]; intros x; cbn.
  - rewrite decide_True by done. intros tx. by left.
  - rewrite decide_False by done. intros [tx|]; [intros ?|]; apply IH.
Qed.

Lemma loop_point_takes id l p : loop_point l p -> takes_within id (reads_until id l) p.
Proof.
  destruct 1 as [l|l f|l tx f|l]; [apply inbound_loop_takes| | |apply inbound_close_takes]; cbn.
  - destruct (decide _); [intros tx; by left|]. intros [tx|]; cbn; intros; apply inbound_loop_takes.
  - intros _. apply inbound_loop_takes.
Qed.

(** * A request ends where it has waited *)

Fixpoint recv_ends {A} (p : callerM A) : Prop :=
  match p with
  | Ret _ => True
  | Do e k =>
      match e with Recv _ _ => forall x, exists a, k x = Ret a | _ => True end /\
      forall x, recv_ends (k x)
  end.

Lemma recv_ends_bind {A B} (p : callerM A) (f : A -> callerM B) :
  recv_ends p -> (forall a, exists b, f a = Ret b) -> recv_ends (bind p f).
Proof.
  intros Hp Hf. induction p as [a|X e k IH]; simpl in *; [by destruct (Hf a) as [b ->]|].
  destruct Hp as [He Hk]. split; [|auto]. destruct e; try done.
  intros x. destruct (He x) as [a ->]. apply Hf.
Qed.

Lemma send_and_wait_ends raw id : recv_ends (send_and_wait t raw id).
Proof.
  cbn. split; [done|]. intros []; cbn; [done|]. do 2 (split; [done|intros ?]).
  split; [done|]. intros [|]; cbn; (split; [|by intros []]); [|done].
  intros []; by eexists.
Qed.

Lemma exchange_ends {A} e body (reply : FrameParts -> MResult A) :
  recv_ends
    (bind (perform NewMsgId) (fun fresh => bind (perform SystemTime) (fun now =>
       lift_try (encode_frame (e fresh now) body) (fun raw =>
         bind_try (send_and_wait t raw (msg_id (e fresh now)))
           (fun frame => Ret (reply frame)))))).
Proof.
  split; [done|]. intros fresh. split; [done|]. intros now. cbn [bind perform].
  destruct (encode_frame _ body) as [raw|]; [|done].
  apply recv_ends_bind; [apply send_and_wait_ends|]. intros []; by eexists.
Qed.

Lemma serve_request_ends q : recv_ends (serve_request from_value t q).
Proof.
  destruct q; (apply recv_ends_bind; [|by intros ?; eexists]);
    unfold call, call_to, query_peer_exists, query_peer_get.
  - destruct (ok_or _ _) as [target|]; [|done]. cbn [lift_try].
    destruct (encode_call_body _); [|done].
    apply (exchange_ends (fun fresh now => build_call_envelope _ _ fresh (now_ts now))).
  - destruct (encode_call_body _); [|done].
    apply (exchange_ends (fun fresh now => build_call_envelope _ _ fresh (now_ts now))).
  - destruct (encode_query_body _); [|done].
    apply (exchange_ends (fun fresh now => build_query_envelope _ _ fresh (now_ts now))).
  - destruct (encode_query_body _); [|done].
    apply (exchange_ends (fun fresh now => build_query_envelope _ _ fresh (now_ts now))).
  - split; [done|]. intros fresh. split; [done|]. intros now. cbn [bind perform].
    destruct (encode_frame _ []); [|done]. split; [done|]. intros sent.
    split; [done|]. intros []; by repeat split.
Qed.

(** * The invariant *)

Record live_inv (st : CState (R := R)) : Prop := {
  lv_open : closed (cworld st) = false -> inbound_aborted (cworld st) = false ->
    loop_point (drop (taken st) source) (inbound st);
  lv_ends : forall c q p, requests st !! c = Some (q, p) -> recv_ends p;
}.

(** A request does not close the transport. *)
Lemma may_closed ph (X : Set) (e : callerE X) w x w' :
  may t ph X e -> caller_op X e w = Some (x, w') ->
  closed w' = closed w /\ (inbound_aborted w' = false -> inbound_aborted w = false).
Proof.
  destruct e; simpl; try done; intros _ H; repeat case_match; simplify_eq/=; try done.
  unfold pending_insert, drop_sender_opt, drop_sender. by repeat case_match.
Qed.

Lemma tail_drop {A} n (l : list A) : tail (drop n l) = drop (S n) l.
Proof. revert n. by induction l as [|x l IH]; intros [|n]; simpl; rewrite ?IH. Qed.

(** One operation of the task. *)
Lemma loop_point_step tk ar n p p' w w' :
  loop_point (drop tk source) p -> take_item p ar tk = Some n ->
  bstep caller_op p w = Some (p', w') -> closed w' = false -> loop_point (drop n source) p'.
Proof.
  intros Hp. remember (drop tk source) as l eqn:El.
  destruct Hp as [l|l f|l tx f|l]; unfold take_item; cbn [reads_next].
  - rewrite inbound_loop_unfold. cbn [reads_next]. destruct (tk <? ar)%nat; [|done].
    intros [= <-] [= <- <-] _. pose proof (inbound_item_point l) as H. subst l.
    by rewrite tail_drop in H.
  - intros [= <-] [= <- <-] _. rewrite <-El.
    destruct (pending w !! _); [apply lp_send|apply lp_next].
  - intros [= <-] [= <- <-] _. rewrite <-El. apply lp_next.
  - intros _ [= <- <-]. done.
Qed.

Context (Hinj : Inj (=) (=) ids).

Lemma live_inv_step st st' :
  caller_reachable from_value t source ids st -> live_inv st ->
  caller_step from_value t st st' -> live_inv st'.
Proof.
  intros Hreach [Hopen Hends] [a Ha].
  destruct (wire_ok_reachable from_value t source ids st Hinj Hreach) as (ph & l & Hok).
  destruct a as [c q|c| | | |ch|err|now]; simpl in Ha; simplify_eq; try (split; [apply Hopen|apply Hends]).
  - destruct (requests st !! c); simplify_eq. split; [apply Hopen|]. simpl.
    intros c' q' p' [[<- [= <- <-]]|[_ H]]%lookup_insert_Some; [apply serve_request_ends|eauto].
  - destruct (requests st !! c) as [[q p]|] eqn:Hc; simplify_eq/=.
    destruct (bstep caller_op p (cworld st)) as [[p' w']|] eqn:Eb; simplify_eq/=.
    pose proof (Hends _ _ _ Hc) as He. pose proof (wo_requests _ _ _ _ _ Hok _ _ _ Hc) as Hw.
    destruct p as [|X e k]; simpl in Eb; [done|].
    destruct (caller_op X e (cworld st)) as [[x w1]|] eqn:E1; simplify_eq.
    destruct Hw as [Hmay _], He as [_ He]. split; simpl.
    + destruct (may_closed _ _ _ _ _ _ Hmay E1) as [-> Hab]. auto.
    + intros c' q' p'' [[<- [= <- <-]]|[_ H]]%lookup_insert_Some; [apply He|eauto].
  - destruct (take_item _ _ _) as [n|] eqn:En; simplify_eq/=.
    destruct (bstep caller_op (inbound st) (cworld st)) as [[p' w']|] eqn:Eb; simplify_eq/=.
    split; [|apply Hends]. pose proof (wo_inbound _ _ _ _ _ Hok) as Hi. simpl. intros Hcl Hab.
    eapply loop_point_step; [|exact En|exact Eb|done].
    destruct (inbound st) as [|X e k]; simpl in Eb; [done|]. destruct Hi as [He _].
    destruct (caller_op X e (cworld st)) as [[x w1]|] eqn:E1; simplify_eq.
    assert (closed (cworld st) = false /\ inbound_aborted (cworld st) = false) as []; [|by apply Hopen].
    revert Hcl Hab. destruct e; try done; simpl in E1; simplify_eq/=; try done.
    unfold oneshot_send. by repeat case_match.
  - destruct (inbound_aborted (cworld st)) eqn:Hab; simpl in Ha; [|done].
    destruct (at_await _); simplify_eq. split; [|apply Hends]. simpl. by rewrite Hab.
Qed.

Lemma live_inv_reachable st : caller_reachable from_value t source ids st -> live_inv st.
Proof.
  intros Hst. assert (H : caller_reachable from_value t source ids st /\ live_inv st); [|apply H].
  revert Hst. apply (star_invariant _ (fun st => caller_reachable from_value t source ids st /\ live_inv st)).
  - intros st1 st2 [Hr HI] Hs. split; [by eapply star_snoc|by eapply live_inv_step].
  - split; [constructor|]. split; simpl.
    + intros _ _. apply lp_next.
    + intros c q p. by rewrite lookup_empty.
Qed.

(** * A sender that is filed is used *)

(** The channel [ch] of the call [id] has its value, or will have it before
    more than [b] items of the stream are read. *)
Definition tracked (b ch : nat) (id : string) (st : CState (R := R)) : Prop :=
  chans (cworld st) !! ch = Some Open ->
  pending (cworld st) !! id = Some ch /\ takes_within id (b - taken st) (inbound st) \/
  owes_send ch (inbound st).

(** An operation of another request. *)
Lemma other_op_keeps ph (X : Set) (e : callerE X) w x w' ch id :
  may t ph X e -> phase_id ph <> Some id -> caller_inv source w -> labels w !! ch = Some id ->
  caller_op X e w = Some (x, w') ->
  (chans w' !! ch = Some Open -> chans w !! ch = Some Open) /\
  (pending w !! id = Some ch -> pending w' !! id = Some ch).
Proof.
  intros Hmay Hid HI Hl E. destruct e; simpl in Hmay, E; try done; simplify_eq/=; try done;
    try (repeat case_match; by simplify_eq/=).
  - split; [|done]. rewrite lookup_insert_ne; [done|].
    intros <-. apply (ci_fresh _ _ HI) in Hl. lia.
  - simpl in Hid. split.
    + unfold drop_sender_opt, drop_sender. repeat case_match; try done; simpl.
      intros [[_ ?]|[_ ?]]%lookup_insert_Some; done.
    + rewrite lookup_insert_ne by congruence. done.
  - destruct Hmay as [c ->]. simpl in Hid. split; [done|].
    rewrite lookup_delete_ne by congruence. done.
Qed.

(** An operation of the inbound task. *)
Lemma inbound_op_tracked b (X : Set) (e : callerE X) k reqs w x w' ch id ar n tk :
  silent X e -> caller_op X e w = Some (x, w') -> take_item (Do e k) ar tk = Some n ->
  tracked b ch id (mkCState reqs (Do e k) w ar tk) -> tracked b ch id (mkCState reqs (k x) w' ar n).
Proof.
  intros He E En H Hopen. unfold tracked, take_item in *.
  destruct e; try done; simpl in E, En; simplify_eq/=.
  - destruct (H Hopen) as [[Hp Hd]|Ho]; [left; by split|by right].
  - destruct (H Hopen) as [[Hp Hd]|Ho]; [|by right].
    destruct (decide (id0 = id)) as [->|Hne].
    + right. rewrite Hp. apply Hd.
    + left. rewrite lookup_delete_ne by done. by split.
  - destruct (H Hopen) as [[Hp Hd]|Ho]; [|by right]. right. apply Hd.
    apply list_elem_of_fmap. exists (id, ch). split; [done|]. by apply elem_of_map_to_list.
  - assert (Htx : tx <> ch /\ chans w !! ch = Some Open).
    { revert Hopen. unfold oneshot_send. destruct (chans w !! tx) as [[]|] eqn:Etx; simpl;
        try (intros Hc; split; [|done]; congruence).
      intros [[_ ?]|[? ?]]%lookup_insert_Some; done. }
    destruct Htx as [Hne Hopen'].
    assert (Hpend : pending (oneshot_send tx r w) = pending w)
      by (unfold oneshot_send; by repeat case_match).
    destruct (H Hopen') as [[Hp Hd]|[->|Ho]]; [left|done|by right]. by rewrite Hpend.
  - destruct (tk <? ar)%nat; simplify_eq. destruct (H Hopen) as [[Hp Hd]|[]]. left. split; [done|].
    destruct (b - tk)%nat as [|j] eqn:Ej; [done|]. by replace (b - S tk)%nat with j by lia.
Qed.

(** [c] waits on [ch], which it opened under [id]. *)
Definition awaits (st : CState (R := R)) (c : nat) (q : Request) (ch : nat) (limit : option Z)
    (k : Received -> callerM (Outcome (R := R))) : Prop :=
  requests st !! c = Some (q, Do (Recv ch limit) k).

Lemma tracked_step b st a st' c q ch limit k id :
  caller_reachable from_value t source ids st -> apply_caction from_value t a st = Some st' ->
  awaits st c q ch limit k -> labels (cworld st) !! ch = Some id ->
  inbound_aborted (cworld st) = false -> tracked b ch id st ->
  (exists o, requests st' !! c = Some (q, Ret o)) \/
  awaits st' c q ch limit k /\ tracked b ch id st'.
Proof.
  intros Hreach Ha Hc Hl Hkeep Htr.
  destruct (wire_ok_reachable from_value t source ids st Hinj Hreach) as (ph & l & Hok).
  pose proof (system_inv_reachable _ _ _ _ _ Hreach) as [HI _ _].
  pose proof (wo_requests _ _ _ _ _ Hok _ _ _ Hc) as [[id' Hph] _].
  assert (id' = id) as ->.
  { pose proof (wo_chan _ _ _ _ _ Hok c id' ch) as Hlab. rewrite Hph in Hlab.
    rewrite Hlab in Hl; [by injection Hl|by eexists|done|done]. }
  destruct a as [d q'|d| | | |ch'|err|now]; simpl in Ha; simplify_eq; try (right; by split).
  - destruct (requests st !! d) eqn:Hd; simplify_eq. right. split; [|done].
    unfold awaits. simpl. rewrite lookup_insert_ne; [done|]. intros ->. by rewrite Hc in Hd.
  - destruct (requests st !! d) as [[q' p]|] eqn:Hd; simplify_eq/=.
    destruct (bstep caller_op p (cworld st)) as [[p' w']|] eqn:Eb; simplify_eq/=.
    destruct (decide (d = c)) as [->|Hne].
    + left. unfold awaits in Hc. rewrite Hc in Hd. simplify_eq. simpl in Eb.
      destruct (recv ch limit (cworld st)) as [x|]; simplify_eq.
      destruct (lv_ends _ (live_inv_reachable st Hreach) _ _ _ Hc) as [Hend _].
      destruct (Hend x) as [o Ho]. exists o. by rewrite lookup_insert_eq, Ho.
    + right. split; [unfold awaits; simpl; by rewrite lookup_insert_ne|].
      pose proof (wo_requests _ _ _ _ _ Hok _ _ _ Hd) as Hw.
      destruct p as [|X e k']; simpl in Eb; [done|]. destruct Hw as [Hmay _].
      destruct (caller_op X e (cworld st)) as [[x w1]|] eqn:E1; simplify_eq.
      assert (Hid : phase_id (ph d) <> Some id).
      { intros Hpd. destruct (wo_drawn _ _ _ _ _ Hok d id) as (_ & _ & Huniq); [by eexists|done|].
        destruct Hne. symmetry. apply Huniq; [by eexists|by rewrite Hph]. }
      destruct (other_op_keeps _ _ _ _ _ _ ch id Hmay Hid HI Hl E1) as [Ho Hpend].
      intros Hopen. destruct (Htr (Ho Hopen)) as [[Hp Hdr]|Hs]; [left; by auto|by right].
  - destruct (take_item _ _ _) as [n|] eqn:En; simplify_eq/=.
    destruct (bstep caller_op (inbound st) (cworld st)) as [[p' w']|] eqn:Eb; simplify_eq/=.
    right. split; [done|]. pose proof (wo_inbound _ _ _ _ _ Hok) as Hi.
    destruct (inbound st) as [|X e k'] eqn:Hin; simpl in Eb; [done|]. destruct Hi as [He _].
    destruct (caller_op X e (cworld st)) as [[x w1]|] eqn:E1; simplify_eq.
    eapply inbound_op_tracked; [done|exact E1|exact En|]. unfold tracked in *. by rewrite Hin in Htr.
  - by rewrite Hkeep in Ha.
Qed.

(** Labels are kept, and a channel that is decided stays so. *)
Lemma op_label (X : Set) (e : callerE X) w x w' ch id :
  caller_inv source w -> caller_op X e w = Some (x, w') -> labels w !! ch = Some id ->
  labels w' !! ch = Some id /\ (chans w' !! ch = Some Open -> chans w !! ch = Some Open).
Proof.
  intros HI E Hl. destruct e; simpl in E; repeat case_match; simplify_eq/=; try done.
  - rewrite !lookup_insert_ne; [done| |]; intros <-; apply (ci_fresh _ _ HI) in Hl; lia.
  - unfold drop_sender_opt, drop_sender. repeat case_match; try done. split; [done|]. simpl.
    intros [[_ ?]|[_ ?]]%lookup_insert_Some; done.
  - unfold oneshot_send. repeat case_match; try done. split; [done|]. simpl.
    intros [[_ ?]|[_ ?]]%lookup_insert_Some; done.
Qed.

Lemma step_label st a st' ch id :
  caller_reachable from_value t source ids st -> apply_caction from_value t a st = Some st' ->
  labels (cworld st) !! ch = Some id ->
  labels (cworld st') !! ch = Some id /\
  (chans (cworld st') !! ch = Some Open -> chans (cworld st) !! ch = Some Open).
Proof.
  intros Hreach Ha Hl. pose proof (system_inv_reachable _ _ _ _ _ Hreach) as [HI _ _].
  destruct a as [d q|d| | | |ch'|err|now]; simpl in Ha; simplify_eq; try done.
  - destruct (requests st !! d); by simplify_eq.
  - destruct (requests st !! d) as [[q p]|]; simplify_eq/=.
    destruct (bstep caller_op p (cworld st)) as [[p' w']|] eqn:Eb; simplify_eq/=.
    destruct p as [|X e k]; simpl in Eb; [done|].
    destruct (caller_op X e (cworld st)) as [[x w1]|] eqn:E1; simplify_eq. by eapply op_label.
  - destruct (take_item _ _ _); simplify_eq/=.
    destruct (bstep caller_op (inbound st) (cworld st)) as [[p' w']|] eqn:Eb; simplify_eq/=.
    destruct (inbound st) as [|X e k]; simpl in Eb; [done|].
    destruct (caller_op X e (cworld st)) as [[x w1]|] eqn:E1; simplify_eq. by eapply op_label.
  - destruct (_ && _); by simplify_eq.
Qed.

(** * Fair runs *)

Section run.
Context (run : nat -> CState (R := R)) (acts : nat -> CAction).

(** An infinite run; the environment's actions are always possible. *)
Definition execution : Prop :=
  run 0%nat = caller_init t source ids /\
  forall n, apply_caction from_value t (acts n) (run n) = Some (run (S n)).

(** An action that stays possible is taken. *)
Definition weakly_fair (a : CAction) : Prop :=
  forall n, exists m, (n <= m)%nat /\ (acts m = a \/ apply_caction from_value t a (run m) = None).

Hypothesis Hrun : execution.

Lemma run_reachable n : caller_reachable from_value t source ids (run n).
Proof.
  destruct Hrun as [H0 Hs]. induction n as [|n IH]; [rewrite H0; constructor|].
  eapply star_snoc; [exact IH|]. by exists (acts n).
Qed.

Hypothesis Hkeep : forall n, inbound_aborted (cworld (run n)) = false.

(** From [n] on the request waits, tracked, until it returns. *)
Definition waits (b c : nat) (q : Request) (ch : nat) (limit : option Z)
    (k : Received -> callerM (Outcome (R := R))) (id : string) (n : nat) : Prop :=
  awaits (run n) c q ch limit k /\ labels (cworld (run n)) !! ch = Some id /\ tracked b ch id (run n).

Definition returns (c : nat) (q : Request) (n : nat) : Prop :=
  exists m o, (n <= m)%nat /\ requests (run m) !! c = Some (q, Ret o).

Lemma returns_mono c q n m : (n <= m)%nat -> returns c q m -> returns c q n.
Proof. intros Hle (m' & o & ? & ?). exists m', o. split; [lia|done]. Qed.

Lemma waits_step b c q ch limit k id n :
  waits b c q ch limit k id n -> returns c q n \/ waits b c q ch limit k id (S n).
Proof.
  intros (Hw & Hl & Htr). destruct Hrun as [_ Hs].
  destruct (tracked_step b _ _ _ c q ch limit k id (run_reachable n) (Hs n) Hw Hl (Hkeep n) Htr)
    as [[o Ho]|[Hw2 Htr2]].
  - left. exists (S n), o. split; [lia|done].
  - right. split; [done|]. split; [|done].
    exact (proj1 (step_label _ _ _ _ _ (run_reachable n) (Hs n) Hl)).
Qed.

Lemma waits_until b c q ch limit k id n m :
  (n <= m)%nat -> waits b c q ch limit k id n -> returns c q n \/ waits b c q ch limit k id m.
Proof.
  intros Hle Hw. induction Hle as [|m Hle IH]; [by right|].
  destruct IH as [|IH]; [by left|]. destruct (waits_step _ _ _ _ _ _ _ _ IH); [left|by right].
  by eapply returns_mono.
Qed.

Lemma decided_until b c q ch limit k id n m :
  (n <= m)%nat -> waits b c q ch limit k id n -> chans (cworld (run n)) !! ch <> Some Open ->
  returns c q n \/ waits b c q ch limit k id m /\ chans (cworld (run m)) !! ch <> Some Open.
Proof.
  intros Hle Hw Hd. induction Hle as [|m Hle IH]; [by right|].
  destruct IH as [|[IH Hm]]; [by left|]. destruct (waits_step _ _ _ _ _ _ _ _ IH) as [|Hw2];
    [left; by eapply returns_mono|right]. split; [done|]. intros Ho. destruct Hm.
  destruct Hrun as [_ Hs], IH as (_ & Hl & _).
  by apply (step_label _ _ _ _ _ (run_reachable m) (Hs m) Hl).
Qed.

Lemma step_arrived a st st' :
  apply_caction from_value t a st = Some st' -> (arrived st <= arrived st')%nat.
Proof.
  destruct a as [c q|c| | | |ch|err|now]; simpl; intros Ha; simplify_eq; simpl; try lia.
  - destruct (requests st !! c); by simplify_eq.
  - destruct (requests st !! c) as [[q p]|]; simplify_eq/=.
    destruct (bstep caller_op p (cworld st)) as [[p' w']|]; by simplify_eq/=.
  - destruct (take_item _ _ _); simplify_eq/=.
    destruct (bstep caller_op (inbound st) (cworld st)) as [[p' w']|]; by simplify_eq/=.
  - destruct (_ && _); by simplify_eq.
Qed.

Lemma arrived_mono n m : (n <= m)%nat -> (arrived (run n) <= arrived (run m))%nat.
Proof.
  intros Hle. induction Hle as [|m Hle IH]; [done|]. etrans; [exact IH|].
  destruct Hrun as [_ Hs]. exact (step_arrived _ _ _ (Hs m)).
Qed.

Lemma other_keeps_inbound a st st' :
  a <> InboundStep -> inbound_aborted (cworld st) = false ->
  apply_caction from_value t a st = Some st' -> inbound st' = inbound st.
Proof.
  intros Hne Hab Ha. destruct a; simpl in Ha; try done; try by simplify_eq.
  - by case_match; simplify_eq.
  - destruct (requests st !! c) as [[q p]|]; simplify_eq/=.
    by destruct (bstep caller_op p (cworld st)) as [[p' w']|]; simplify_eq/=.
  - by rewrite Hab in Ha.
Qed.

Hypothesis Hfair : weakly_fair InboundStep.

(** [p'] is what is left of [p] after an operation. *)
Definition continues (p p' : callerM unit) : Prop :=
  match p with Ret _ => False | Do e f => exists x, p' = f x end.

(** While the channel of the call is open and enough has arrived, the inbound
    task is not blocked. *)
Lemma inbound_step_enabled b c q ch limit k id n :
  waits b c q ch limit k id n -> chans (cworld (run n)) !! ch = Some Open ->
  (b <= arrived (run n))%nat ->
  exists st', apply_caction from_value t InboundStep (run n) = Some st' /\
    continues (inbound (run n)) (inbound st').
Proof.
  intros (_ & _ & Htr) Ho Hb. specialize (Htr Ho).
  destruct (wire_ok_reachable from_value t source ids (run n) Hinj (run_reachable n)) as (ph & l & Hok).
  pose proof (wo_inbound _ _ _ _ _ Hok) as Hsil. cbn [apply_caction].
  destruct (inbound (run n)) as [|X e f] eqn:Hin; [by destruct Htr as [[_ ?]|?]|].
  destruct Hsil as [He _].
  assert (Hen : is_Some (take_item (Do e f) (arrived (run n)) (taken (run n)))).
  { unfold take_item. destruct e; try done; simpl in *.
    destruct Htr as [[_ Htr]|[]]. destruct (b - taken (run n))%nat eqn:Ej; [done|].
    rewrite (proj2 (Nat.ltb_lt _ _)) by lia. done. }
  destruct Hen as [m Hm]. rewrite Hm. simpl.
  destruct e; try done; simpl; (eexists; split; [reflexivity|by eexists]).
Qed.

Lemma open_or_decided ch w : chans w !! ch = Some Open \/ chans w !! ch <> Some Open.
Proof. destruct (chans w !! ch) as [[]|]; [by left|by right..]. Qed.

(** The channel is decided. *)
Lemma decided b c q ch limit k id n :
  waits b c q ch limit k id n -> (b <= arrived (run n))%nat ->
  returns c q n \/
  exists m, (n <= m)%nat /\ waits b c q ch limit k id m /\ chans (cworld (run m)) !! ch <> Some Open.
Proof.
  remember (inbound (run n)) as p eqn:Hp. revert n Hp.
  induction p as [u|X e f IH]; intros n Hp Hw Hb.
  { right. exists n. split; [done|]. split; [done|]. intros Ho.
    destruct (inbound_step_enabled _ _ _ _ _ _ _ _ Hw Ho Hb) as (st' & _ & Hc). by rewrite <-Hp in Hc. }
  destruct (Hfair n) as (m1 & Hle & Hm1). remember (m1 - n)%nat as d eqn:Hd.
  revert n Hp Hw Hb Hle Hd. induction d as [|d IHd]; intros n Hp Hw Hb Hle Hd.
  all: destruct (open_or_decided ch (cworld (run n))) as [Ho|Ho]; [|right; by exists n].
  all: destruct (inbound_step_enabled _ _ _ _ _ _ _ _ Hw Ho Hb) as (st' & Hen & Hc);
    rewrite <-Hp in Hc; destruct Hc as [x Hx].
  all: destruct (waits_step _ _ _ _ _ _ _ _ Hw) as [|Hw2]; [by left|].
  all: pose proof (arrived_mono n (S n) ltac:(lia)) as Har.
  all: pose proof (proj2 Hrun n) as Hstep.
  all: assert (Htaken : acts n = InboundStep -> returns c q n \/
    exists m, (n <= m)%nat /\ waits b c q ch limit k id m /\
      chans (cworld (run m)) !! ch <> Some Open);
    [intros Ha; rewrite Ha, Hen in Hstep; injection Hstep as Hstep;
     destruct (IH x (S n)) as [Hr|(m & ? & ?)]; [by rewrite <-Hstep|done|lia|left; by eapply returns_mono; [|exact Hr]; lia|];
     right; exists m; split; [lia|done]|].
  - assert (m1 = n) as -> by lia. destruct Hm1 as [Ha|Ha]; [by apply Htaken|congruence].
  - assert (Hdec : acts n = InboundStep \/ acts n <> InboundStep)
      by (destruct (acts n); by (left + right)).
    destruct Hdec as [Ha|Ha]; [by apply Htaken|].
    destruct (IHd (S n)) as [Hr|(m & ? & ?)]; try done; try lia.
    + by rewrite (other_keeps_inbound _ _ _ Ha (Hkeep n) Hstep).
    + left. by eapply returns_mono; [|exact Hr]; lia.
    + right. exists m. split; [lia|done].
Qed.

(** Once its channel is decided, a request that waits can go on. *)
Lemma awaits_enabled st c q ch limit k :
  awaits st c q ch limit k -> chans (cworld st) !! ch <> Some Open ->
  apply_caction from_value t (RequestStep c) st <> None.
Proof.
  intros Hw Hopen. unfold awaits in Hw. simpl. rewrite Hw. simpl. unfold recv.
  destruct (chans (cworld st) !! ch) as [[]|]; simpl; done.
Qed.

(** A call that takes the step it waits for returns. *)
Lemma awaits_returns n c q ch limit k :
  awaits (run n) c q ch limit k -> acts n = RequestStep c -> returns c q n.
Proof.
  intros Hw Ha. pose proof (proj2 Hrun n) as Hstep. rewrite Ha in Hstep. simpl in Hstep.
  unfold awaits in Hw. rewrite Hw in Hstep. simpl in Hstep.
  destruct (recv ch limit (cworld (run n))) as [x|]; simplify_eq/=.
  destruct (lv_ends _ (live_inv_reachable _ (run_reachable n)) _ _ _ Hw) as [Hend _].
  destruct (Hend x) as [o Ho]. exists (S n), o. split; [lia|].
  rewrite <-Hstep. simpl. by rewrite lookup_insert_eq, Ho.
Qed.

(** C9: a call whose sender is filed while the transport is open returns once
    its reply or the end of the stream arrives.  Take an infinite run in which
    nobody aborts the inbound task, and neither the inbound task nor the call
    is starved; items of the stream arrive when the environment lets them, and
    the task waits for them.  If the call waits with its sender in the pending
    map of a transport that is not closed, and at some time the item has
    arrived that answers it (the first item, of those not yet read, that carries
    its id, or at which the task leaves its loop: a stream error, a non-binary
    message or the end), the call returns: whatever the clock, the sink and the
    other requests do, and without a time limit too. *)
Theorem filed_calls_return (n c : nat) (q : Request) (ch : nat) (limit : option Z)
    (k : Received -> callerM (Outcome (R := R))) (id : string)
    (Hfair_c : weakly_fair (RequestStep c))
    (Hwaits : requests (run n) !! c = Some (q, Do (Recv ch limit) k))
    (Hfiled : pending (cworld (run n)) !! id = Some ch)
    (Hopen : closed (cworld (run n)) = false)
    (Harrives : exists m,
       (taken (run n) + reads_until id (drop (taken (run n)) source) <= arrived (run m))%nat) :
  exists m o, (n <= m)%nat /\ requests (run m) !! c = Some (q, Ret o).
Proof.
  destruct Harrives as [m0 Hm0].
  set (b := (taken (run n) + reads_until id (drop (taken (run n)) source))%nat) in *.
  pose proof (system_inv_reachable _ _ _ _ _ (run_reachable n)) as [HI _ _].
  assert (Hw : waits b c q ch limit k id n).
  { split; [done|]. split; [exact (ci_pending _ _ HI _ _ Hfiled)|]. intros _. left. split; [done|].
    replace (b - taken (run n))%nat with (reads_until id (drop (taken (run n)) source)) by lia.
    apply loop_point_takes, (lv_open _ (live_inv_reachable _ (run_reachable n))); auto. }
  set (m1 := (n + m0)%nat).
  destruct (waits_until _ _ _ _ _ _ _ n m1 ltac:(lia) Hw) as [Hr|Hw1]; [exact Hr|].
  pose proof (arrived_mono m0 m1 ltac:(lia)) as Har.
  destruct (decided _ _ _ _ _ _ _ _ Hw1 ltac:(lia)) as [Hr|(m2 & Hm2 & Hw2 & Hd2)];
    [apply (returns_mono c q n m1); [lia|exact Hr]|].
  destruct (Hfair_c m2) as (m3 & Hm3 & Hact). apply (returns_mono c q n m2); [lia|].
  destruct (decided_until _ _ _ _ _ _ _ m2 m3 Hm3 Hw2 Hd2) as [Hr|[[Hw3 _] Hd3]]; [exact Hr|].
  destruct Hact as [Ha|Ha]; [|by apply (awaits_enabled _ _ _ _ _ _ Hw3 Hd3) in Ha].
  apply (returns_mono c q m2 m3); [done|]. by eapply awaits_returns.
Qed.
End run.
End caller.
