(* ===== verification/CallerSpec.v ===== *)
(** The functions of [rust/src/caller_transport.rs], each run without
    interference: what they return and leave behind, on every branch. *)

From S2P Require Import Prelude Prog Float64 Wire Config ClientMessage CallerTransport.

Local Open Scope string_scope.

Section spec.
Context {CC : ClientCodec}.

Definition crun {A} (p : callerM A) (w : CWorld) : option (A * CWorld) := brun caller_op p w.

(** * The inbound loop *)
















(** * Waiting for a reply *)

(** On a closed transport a request fails at once with
    [RouterUnavailable] and changes nothing; when the write fails, the error
    is reported and the pending map is as before; otherwise the frame is
    written, the sender is filed, and the call waits until an answer, a closed
    channel or its time limit: a call with no limit waits indefinitely. *)
Theorem send_and_wait_outcome (t : CallerTransport) (raw : bytes) (id : string) (w : CWorld)
    (Hfresh : pending w !! id = None) :
  if closed w
  then crun (send_and_wait t raw id) w = Some (Err (RouterUnavailable (router_endpoint t)), w)
  else match sink_error w with
       | Some err =>
           exists w', crun (send_and_wait t raw id) w = Some (Err (WebSocketError err), w') /\
                      pending w' = pending w /\ wire w' = wire w
       | None =>
           let w' := push_wire (Binary raw) (pending_insert id (next_chan w) (new_chan id w)) in
           pending w' = <[id := next_chan w]> (pending w) /\
           crun (send_and_wait t raw id) w =
             match request_timeout t with
             | Some _ => if bool_decide (next_chan w ∈ expired w)
                         then Some (Err TimeoutError, w') else None
             | None => None
             end
       end.
Proof.
  assert (E : pending_insert id (next_chan w) (new_chan id w) =
              set_pending (<[id := next_chan w]> (pending w)) (new_chan id w))
    by (unfold pending_insert; cbn; by rewrite Hfresh).
  rewrite E. unfold crun. cbn. destruct (closed w); [done|]. cbn.
  rewrite E, Hfresh. cbn.
  destruct (sink_error w) as [err|] eqn:Es; cbn.
  - eexists. split; [reflexivity|]. cbn. by rewrite delete_insert_id.
  - split; [done|]. unfold recv; cbn. rewrite lookup_insert_eq.
    destruct (request_timeout t); [|done]. by case_bool_decide.
Qed.

(** A call that times out does not take its sender back: the entry stays
    in the pending map until a late reply or the end of the stream. *)
Theorem timed_out_call_stays_pending (t : CallerTransport) (raw : bytes) (id : string)
    (w w' : CWorld)
    (Hrun : crun (send_and_wait t raw id) w = Some (Err TimeoutError, w'))
    (Hchan : sink_error w = None) :
  pending w' !! id = Some (next_chan w).
Proof.
  revert Hrun. unfold crun. cbn. destruct (closed w); [done|].
  cbn -[pending_insert new_chan recv].
  assert (E : sink_error (pending_insert id (next_chan w) (new_chan id w)) = None)
    by (unfold pending_insert, drop_sender_opt, drop_sender; cbn; by repeat case_match).
  rewrite E. cbn -[recv]. destruct (recv _ _ _) as [[| |]|] eqn:Er; cbn; intros H; simplify_eq/=.
  - exfalso. revert Er. unfold recv. cbn.
    unfold pending_insert, drop_sender_opt, drop_sender. cbn.
    repeat case_match; intros; simplify_eq/=;
      repeat match goal with
      | H : <[?i := _]> _ !! ?i = _ |- _ => rewrite lookup_insert_eq in H
      | H : <[_ := _]> _ !! _ = Some _ |- _ => apply lookup_insert_Some in H as [[??]|[??]]
      end; simplify_eq.
  - apply lookup_insert_eq.
Qed.

(** * Connecting *)

Ltac not_connected :=
  eexists _, _; split; [done|]; cbn; rewrite orb_false_r; naive_solver.

(** The transport [connect] returns. *)
Lemma crun_connect_transport config bootstrapped websocket source w t w' :
  crun (connect config bootstrapped websocket source) w = Some (Ok t, w') ->
  t = mkTransport (cfg_peer_id config) (cfg_default_target_peer_id config)
        (ws_url (endpoint (cfg_bootstrap config))) (cfg_request_timeout config).
Proof.
  unfold connect, crun. destruct bootstrapped as [[]|e]; cbn; [|done].
  destruct websocket as [[]|e]; cbn; [|done].
  destruct (register_frame _ _ _ _); cbn; [|done].
  destruct (sink_error w); cbn; [done|]. destruct (register_reply (head source)); cbn; [|done].
  destruct (accepted _); cbn; [|done]. by intros [= <- _].
Qed.

(** The outcome of [connect]. *)
Lemma crun_connect {CCL : ClientCodecLaws CC} (config : CallerTransportConfig)
    (bootstrapped : MResult unit) (websocket : result unit string) (source : list WsItem)
    (w : CWorld) :
  exists r w', crun (connect config bootstrapped websocket source) w = Some (r, w') /\
    (is_ok r = true <->
       bootstrapped = Ok tt /\ websocket = Ok tt /\ sink_error w = None /\
       exists ack, register_reply (head source) = Ok ack /\ accepted ack = true) /\
    inbound_handle w' = (inbound_handle w || is_ok r) /\
    (is_ok r = true -> exists raw,
       register_frame (cfg_peer_id config) Caller (uuid w (next_id w)) (now_ts (clock w)) = Ok raw /\
       wire w' = (wire w ++ [Binary raw])%list).
Proof.
  unfold connect, crun. destruct bootstrapped as [[]|e]; cbn;
    [|not_connected].
  destruct websocket as [[]|e]; cbn;
    [|not_connected].
  assert (Hf : exists raw, register_frame (cfg_peer_id config) Caller (uuid w (next_id w))
                (now_ts (clock w)) = Ok raw).
  { unfold register_frame, encode_register_body.
    destruct (rmp_total (mkRegisterBody (cfg_peer_id config) Caller)) as [body ->]; cbn.
    apply client_encode_frame_total. }
  destruct Hf as [raw Hraw]. rewrite Hraw. cbn.
  destruct (sink_error w) as [err|]; cbn;
    [not_connected|].
  destruct (register_reply (head source)) as [ack|e]; cbn;
    [|not_connected].
  destruct (accepted ack) eqn:Hack; cbn; eexists _, _; (split; [done|]); cbn;
    rewrite ?orb_false_r, ?orb_true_r; naive_solver.
Qed.
(** [connect] succeeds exactly when the bootstrap, the WebSocket
    handshake and the write of the registration frame succeed and the router
    answers first with a response frame whose body accepts the peer; only then
    is the inbound task spawned. *)
Theorem connect_succeeds_iff_accepted {CCL : ClientCodecLaws CC} (config : CallerTransportConfig)
    (bootstrapped : MResult unit) (websocket : result unit string) (source : list WsItem)
    (w : CWorld) :
  exists r w', crun (connect config bootstrapped websocket source) w = Some (r, w') /\
    (is_ok r = true <->
       bootstrapped = Ok tt /\ websocket = Ok tt /\ sink_error w = None /\
       exists ack, register_reply (head source) = Ok ack /\ accepted ack = true) /\
    inbound_handle w' = (inbound_handle w || is_ok r) /\
    (is_ok r = true -> exists raw,
       register_frame (cfg_peer_id config) Caller (uuid w (next_id w)) (now_ts (clock w)) = Ok raw /\
       wire w' = (wire w ++ [Binary raw])%list).
Proof. apply crun_connect. Qed.
End spec.
