(* ===== verification/Service.v ===== *)
(** The service side of the client crate: [rust/src/child.rs], with the
    environment a spawned service receives from [rust/src/process.rs].

    [worker] is the user's [ServiceWorker]: a state machine that answers a
    call, or panics.  A service performs the transport's operations ([Net], those of the
    caller transport) and calls to the worker, one at a time. *)

From S2P Require Import Prelude Text Prog Float64 Wire Config ClientMessage CallerTransport.

Local Open Scope string_scope.
Local Open Scope rust_scope.

(** * Context *)

Record ServiceContext : Type := mkServiceContext {
  ctx_namespace : string;
  service_id : option string;
  entrypoint_path : option string;
  ctx_router : RouterBootstrapConfig;
  ctx_request_timeout : option Z;
  extra_functions : gmap string string;
}.

Definition ServiceContext_new (env : Env) : ServiceContext :=
  mkServiceContext "default" None None (bootstrap_config_from_env env) (Some (from_secs 30)) ∅.

Definition with_service_id (id : string) (c : ServiceContext) : ServiceContext :=
  mkServiceContext (ctx_namespace c) (Some id) (entrypoint_path c) (ctx_router c)
    (ctx_request_timeout c) (extra_functions c).
Definition with_entrypoint_path (path : string) (c : ServiceContext) : ServiceContext :=
  mkServiceContext (ctx_namespace c) (service_id c) (Some path) (ctx_router c)
    (ctx_request_timeout c) (extra_functions c).
Definition with_namespace (namespace : string) (c : ServiceContext) : ServiceContext :=
  mkServiceContext namespace (service_id c) (entrypoint_path c) (ctx_router c)
    (ctx_request_timeout c) (extra_functions c).
Definition with_timeout (timeout : Z) (c : ServiceContext) : ServiceContext :=
  mkServiceContext (ctx_namespace c) (service_id c) (entrypoint_path c) (ctx_router c)
    (Some timeout) (extra_functions c).
Definition register_function (name description : string) (c : ServiceContext) : ServiceContext :=
  mkServiceContext (ctx_namespace c) (service_id c) (entrypoint_path c) (ctx_router c)
    (ctx_request_timeout c) (<[name := description]> (extra_functions c)).

Definition list_functions (c : ServiceContext) : list string :=
  (map_to_list (extra_functions c)).*1.

(** The file system and the process, as far as identity goes. *)
Record Host : Type := mkHost {
  canonicalize : string -> result string string;
  current_exe : result string string;
}.

Definition canonical_peer_path (h : Host) (path : string) : string :=
  match canonicalize h path with Ok p => p | Err _ => path end.

Definition resolve_peer_id (h : Host) (env : Env) (c : ServiceContext) : MResult string :=
  match service_id c with
  | Some id => Ok id
  | None =>
      let fallback :=
        let path :=
          match entrypoint_path c with
          | Some p => p
          | None =>
              match env_var env "MULTIFROST_ENTRYPOINT_PATH" with
              | Some p => p
              | None => match current_exe h with Ok p => p | Err _ => "." end
              end
          end in
        Ok (canonical_peer_path h path) in
      match env_var env "MULTIFROST_SERVICE_PEER_ID" with
      | Some explicit => if negb (blank (as_bytes explicit)) then Ok explicit else fallback
      | None => fallback
      end
  end.

(** * Spawning a service ([process.rs]) *)

(** The environment [spawn_service_process] gives the child. *)
Definition spawn_environment (h : Host) (parent : Env) (service_entrypoint : string)
    (router_port : option Z) : Env :=
  let with_path :=
    fun name => if (name =? "MULTIFROST_ENTRYPOINT_PATH")%string
                then Some (canonical_peer_path h service_entrypoint)
                else env_var parent name in
  mkEnv
    (match router_port with
     | Some port =>
         fun name => if (name =? "MULTIFROST_ROUTER_PORT")%string
                     then Some (u16_to_string port) else with_path name
     | None => with_path
     end)
    (dirs_home_dir parent).

(** * The service loop *)

Inductive serviceE : Set -> Type :=
| Net {X : Set} (e : callerE X) : serviceE X
| HandleCall (function : string) (args : list Value) : serviceE (MResult Value).

Abbreviation serviceM A := (prog serviceE A).

Definition net {A} (p : callerM A) : serviceM A := embed (fun X e => Net e) p.

Definition build_response_envelope (from to msg_id : string) (now : f64) : Envelope :=
  mkEnvelope PROTOCOL_VERSION KIND_RESPONSE msg_id from to now.

Section service.
Context {CC : ClientCodec}.

(** [send_ws_frame], whose body is that of [send_raw_frame]. *)
Definition send_ws_frame (frame : bytes) : serviceM (MResult unit) :=
  r ← perform (Net (SinkSend (Binary frame)));
  Ret (map_err WebSocketError r).

Definition send_error (from_peer to_peer msg_id code kind message : string)
    (details : option WireValue) : serviceM (MResult unit) :=
  now ← perform (Net SystemTime);
  let e := build_error_envelope from_peer to_peer msg_id (now_ts now) in
  body ←! encode_error_body (mkErrorBody code message kind None details);
  frame ←! encode_frame e body;
  send_ws_frame frame.

(** [Some ns] when the call names a namespace the service does not serve. *)
Definition foreign_namespace (c : CallBody) : option string :=
  match namespace c with
  | Some ns => if negb (ns =? "default")%string then Some ns else None
  | None => None
  end.

Definition handle_call_frame (peer_id : string) (frame : FrameParts) : serviceM (MResult unit) :=
  let e := envelope frame in
  match decode_call_body (body_bytes frame) with
  | Err err =>
      _ ←? send_error peer_id (env_from e) (msg_id e) "malformed_call" "protocol"
             (MultifrostError_display err) None;
      Ret (Ok tt)
  | Ok c =>
      match foreign_namespace c with
      | Some ns =>
          _ ←? send_error peer_id (env_from e) (msg_id e) "invalid_namespace" "protocol"
                 ("unsupported namespace: " +:+ ns) None;
          Ret (Ok tt)
      | None =>
          answer ← perform (HandleCall (function c) (args c));
          reply ←?
            match answer with
            | Ok result =>
                now ← perform (Net SystemTime);
                let re := build_response_envelope peer_id (env_from e) (msg_id e) (now_ts now) in
                body ←! encode_response_body (mkResponseBody result);
                Ret (encode_frame re body)
            | Err err =>
                now ← perform (Net SystemTime);
                let re := build_error_envelope peer_id (env_from e) (msg_id e) (now_ts now) in
                body ←! encode_error_body
                          (mkErrorBody "application_error" (MultifrostError_display err)
                             "application" None None);
                Ret (encode_frame re body)
            end;
          _ ←? send_ws_frame reply;
          Ret (Ok tt)
      end
  end.

(** The [while let] loop; a call that fails is logged and the loop goes on. *)
Fixpoint service_loop (peer_id : string) (source : list WsItem) : serviceM unit :=
  match source with
  | [] => Ret tt
  | item :: source =>
      match item with
      | Ok (Binary b) =>
          match decode_frame b with
          | Err _ => service_loop peer_id source
          | Ok frame =>
              if negb (env_to (envelope frame) =? peer_id)%string
              then service_loop peer_id source
              else if (kind (envelope frame) =? KIND_CALL)%string
              then _ ← handle_call_frame peer_id frame; service_loop peer_id source
              else if (kind (envelope frame) =? KIND_DISCONNECT)%string
              then Ret tt
              else service_loop peer_id source
          end
      | Ok Close => Ret tt
      | Ok _ => service_loop peer_id source
      | Err _ => Ret tt
      end
  end.

Definition run_service_async (h : Host) (env : Env) (ctx : ServiceContext)
    (bootstrapped : MResult unit) (websocket : result unit string) (source : list WsItem) :
    serviceM (MResult unit) :=
  peer_id ←! resolve_peer_id h env ctx;
  _ ←! bootstrapped;
  _ ←! connect_ws websocket;
  fresh ← perform (Net NewMsgId);
  now ← perform (Net SystemTime);
  frame ←! register_frame peer_id Service fresh (now_ts now);
  _ ←? send_ws_frame frame;
  ack ←! register_reply (head source);
  if negb (accepted ack)
  then Ret (Err (RegisterRejected
         (default "router rejected service registration" (reason ack))))
  else
    _ ← service_loop peer_id (tail source);
    _ ← net (send_disconnect_frame peer_id);
    Ret (Ok tt).

(** How a service process ends: [run_service] returns, or the process exits
    with a status and a last line on its standard error. *)
Inductive ServiceEnd : Set :=
| Returned
| Exited (status : Z) (line : string).

Definition end_of (r : MResult unit) : ServiceEnd :=
  match r with
  | Ok _ => Returned
  | Err err => Exited 1 ("Worker error: " +:+ MultifrostError_display err)
  end.

Definition run_service (h : Host) (env : Env) (ctx : ServiceContext)
    (bootstrapped : MResult unit) (websocket : result unit string) (source : list WsItem) :
    serviceM ServiceEnd :=
  r ← run_service_async h env ctx bootstrapped websocket source;
  Ret (end_of r).

(** [runtime] is the answer of [Runtime::new()]; the adapter of the worker
    calls it in place. *)
Definition run_service_sync_inner (runtime : result unit string) (h : Host) (env : Env)
    (ctx : ServiceContext) (bootstrapped : MResult unit) (websocket : result unit string)
    (source : list WsItem) : serviceM (MResult unit) :=
  _ ←! map_err IoError runtime;
  run_service_async h env ctx bootstrapped websocket source.

Definition run_service_sync (runtime : result unit string) (h : Host) (env : Env)
    (ctx : ServiceContext) (bootstrapped : MResult unit) (websocket : result unit string)
    (source : list WsItem) : serviceM ServiceEnd :=
  r ← run_service_sync_inner runtime h env ctx bootstrapped websocket source;
  Ret (end_of r).

(** * Workers *)

(** The trait [ServiceWorker]: a call gives an answer and the next state, or
    panics. *)
Record ServiceWorker (St : Type) : Type := mkServiceWorker {
  worker_handle_call : St -> string -> list Value -> option (MResult Value * St);
  worker_list_functions : list string;
}.
#[global] Arguments mkServiceWorker {St} _ _.
#[global] Arguments worker_handle_call {St} _ _ _ _.
#[global] Arguments worker_list_functions {St} _.

Record SyncServiceWorker (St : Type) : Type := mkSyncServiceWorker {
  sync_handle_call : St -> string -> list Value -> option (MResult Value * St);
  sync_list_functions : list string;
}.
#[global] Arguments mkSyncServiceWorker {St} _ _.
#[global] Arguments sync_handle_call {St} _ _ _ _.
#[global] Arguments sync_list_functions {St} _.

(** The default of [list_functions] in both traits. *)
Definition default_list_functions : list string := [].

Definition SyncToAsyncAdapter {St} (w : SyncServiceWorker St) : ServiceWorker St :=
  mkServiceWorker (fun s f a => sync_handle_call w s f a) (sync_list_functions w).

(** * Running *)

(** The worker's answer to a call and its next state; [None] when it panics:
    the panic unwinds the only task of the service, which stops there. *)
Section partial_worker.
Context {St : Type} (worker : St -> string -> list Value -> option (MResult Value * St)).

Definition partial_service_op (X : Set) (e : serviceE X) (w : CWorld * St) :
    option (X * (CWorld * St)) :=
  match e in serviceE X return option (X * (CWorld * St)) with
  | Net e => match caller_op _ e w.1 with
             | Some (x, w') => Some (x, (w', w.2))
             | None => None
             end
  | HandleCall f a =>
      match worker w.2 f a with
      | Some (r, s) => Some (r, (w.1, s))
      | None => None
      end
  end.
End partial_worker.

(** A worker that does not panic. *)
Definition total_worker {St : Type} (worker : St -> string -> list Value -> MResult Value * St) :
    St -> string -> list Value -> option (MResult Value * St) :=
  fun s f a => Some (worker s f a).

Section worker.
Context {St : Type} (worker : St -> string -> list Value -> MResult Value * St).

Definition service_op : forall X : Set, serviceE X -> CWorld * St -> option (X * (CWorld * St)) :=
  partial_service_op (total_worker worker).

Definition srun {A} (p : serviceM A) (w : CWorld * St) : option (A * (CWorld * St)) :=
  brun service_op p w.
End worker.
End service.
