(* ===== verification/ServiceSpec.v ===== *)
(** What a service promises: one reply per call, in order, under the call's
    id, and the identity it registers with. *)

From S2P Require Import Prelude Prog Float64 Wire Config ClientMessage CallerTransport Service.

Local Open Scope string_scope.
Local Open Scope rust_scope.

(** The two forms of a reply. *)
Inductive Reply : Set :=
| Answer (v : Value)
| Failure (body : ErrorBody).

Definition reply_kind (r : Reply) : string :=
  match r with Answer _ => KIND_RESPONSE | Failure _ => KIND_ERROR end.

Section spec.
Context {CC : ClientCodec}.
Context {St : Type} (worker : St -> string -> list Value -> MResult Value * St).

(** * Specification *)

(** The reply to a call, and the worker's next state. *)
Definition spec_reply (s : St) (call : FrameParts) : Reply * St :=
  match decode_call_body (body_bytes call) with
  | Err err =>
      (Failure (mkErrorBody "malformed_call" (MultifrostError_display err) "protocol" None None), s)
  | Ok c =>
      match foreign_namespace c with
      | Some ns =>
          (Failure (mkErrorBody "invalid_namespace" ("unsupported namespace: " +:+ ns)
                      "protocol" None None), s)
      | None =>
          let '(r, s') := worker s (function c) (args c) in
          (match r with
           | Ok v => Answer v
           | Err err => Failure (mkErrorBody "application_error" (MultifrostError_display err)
                                   "application" None None)
           end, s')
      end
  end.

Definition encode_reply_body (r : Reply) : MResult bytes :=
  match r with
  | Answer v => encode_response_body (mkResponseBody v)
  | Failure b => encode_error_body b
  end.

(** The frame of a reply: addressed to the caller, under the call's id. *)
Definition reply_frame (peer_id : string) (now : f64) (call : FrameParts) (r : Reply) :
    MResult bytes :=
  let? body := encode_reply_body r in
  encode_frame
    (mkEnvelope PROTOCOL_VERSION (reply_kind r) (msg_id (envelope call)) peer_id
       (env_from (envelope call)) now) body.

(** The calls of a stream: the frames addressed to the service before the
    first item that ends the loop. *)
Fixpoint calls_of (peer_id : string) (source : list WsItem) : list FrameParts :=
  match source with
  | Ok (Binary b) :: source =>
      match decode_frame b with
      | Err _ => calls_of peer_id source
      | Ok f =>
          if negb (env_to (envelope f) =? peer_id)%string then calls_of peer_id source
          else if (kind (envelope f) =? KIND_CALL)%string then f :: calls_of peer_id source
          else if (kind (envelope f) =? KIND_DISCONNECT)%string then []
          else calls_of peer_id source
      end
  | Ok (Text _ | Ping _ | Pong _ | Frame) :: source => calls_of peer_id source
  | _ => []
  end.

Fixpoint spec_replies (s : St) (calls : list FrameParts) : list (FrameParts * Reply) * St :=
  match calls with
  | [] => ([], s)
  | c :: calls =>
      let '(r, s1) := spec_reply s c in
      let '(rs, s2) := spec_replies s1 calls in
      ((c, r) :: rs, s2)
  end.

Definition frames_of (peer_id : string) (now : f64) (l : list (FrameParts * Reply))
    (raws : list bytes) : Prop :=
  Forall2 (fun '(call, r) raw => reply_frame peer_id now call r = Ok raw) l raws.

Fixpoint push_all (raws : list bytes) (w : CWorld) : CWorld :=
  match raws with
  | [] => w
  | raw :: raws => push_all raws (push_wire (Binary raw) w)
  end.

Lemma wire_push_all raws w : wire (push_all raws w) = (wire w ++ map Binary raws)%list.
Proof.
  revert w. induction raws as [|raw raws IH]; intros w; simpl; [by rewrite app_nil_r|].
  rewrite IH; simpl. by rewrite <-app_assoc.
Qed.

Lemma push_all_env raws w :
  clock (push_all raws w) = clock w /\ sink_error (push_all raws w) = sink_error w.
Proof. revert w. induction raws as [|raw raws IH]; intros w; simpl; [done|]. apply (IH (push_wire (Binary raw) w)). Qed.

(** * Refinement *)

Context {CCL : ClientCodecLaws CC}.

Lemma reply_frame_total peer_id now call r : exists raw, reply_frame peer_id now call r = Ok raw.
Proof.
  unfold reply_frame.
  assert (Hb : exists b, encode_reply_body r = Ok b).
  { destruct r as [v|b]; simpl.
    - unfold encode_response_body.
      destruct (ccl_response_total (mkResponseBody v)) as [b ->]. by eexists.
    - unfold encode_error_body. destruct (ccl_error_total b) as [x ->]. by eexists. }
  destruct Hb as [b ->]. simpl. apply client_encode_frame_total.
Qed.

Lemma srun_bind {A B} (p : serviceM A) (f : A -> serviceM B) w :
  srun worker (bind p f) w =
    match srun worker p w with Some (a, w') => srun worker (f a) w' | None => None end.
Proof. apply brun_bind. Qed.

(** A handler whose worker may panic. *)
Section partial.
Context (pw : St -> string -> list Value -> option (MResult Value * St)).

(** The reply to a call; [None] when the worker panics on it. *)
Definition spec_reply_partial (s : St) (call : FrameParts) : option (Reply * St) :=
  match decode_call_body (body_bytes call) with
  | Err err =>
      Some (Failure (mkErrorBody "malformed_call" (MultifrostError_display err) "protocol"
                       None None), s)
  | Ok c =>
      match foreign_namespace c with
      | Some ns =>
          Some (Failure (mkErrorBody "invalid_namespace" ("unsupported namespace: " +:+ ns)
                           "protocol" None None), s)
      | None =>
          match pw s (function c) (args c) with
          | Some (Ok v, s') => Some (Answer v, s')
          | Some (Err err, s') =>
              Some (Failure (mkErrorBody "application_error" (MultifrostError_display err)
                               "application" None None), s')
          | None => None
          end
      end
  end.

Lemma prun_send_error peer_id call code kind message w s raw :
  sink_error w = None ->
  reply_frame peer_id (now_ts (clock w)) call (Failure (mkErrorBody code message kind None None))
    = Ok raw ->
  brun (partial_service_op pw)
    (send_error peer_id (env_from (envelope call)) (msg_id (envelope call)) code kind message None)
    (w, s)
    = Some (Ok tt, (push_wire (Binary raw) w, s)).
Proof.
  intros Hs Hraw. unfold reply_frame in Hraw; simpl in Hraw.
  unfold send_error; cbn.
  destruct (encode_error_body _) as [body|]; simpl in *; [|done].
  unfold build_error_envelope. rewrite Hraw. cbn. rewrite Hs. done.
Qed.

Lemma prun_handle_call_frame peer_id call w s r s' :
  sink_error w = None -> spec_reply_partial s call = Some (r, s') ->
  exists raw,
    reply_frame peer_id (now_ts (clock w)) call r = Ok raw /\
    brun (partial_service_op pw) (handle_call_frame peer_id call) (w, s)
      = Some (Ok tt, (push_wire (Binary raw) w, s')).
Proof.
  intros Hs. destruct (reply_frame_total peer_id (now_ts (clock w)) call r) as [raw Hraw].
  intros Hr. exists raw. split; [done|]. revert Hraw Hr.
  unfold handle_call_frame, spec_reply_partial.
  destruct (decode_call_body (body_bytes call)) as [c|err].
  2: { intros Hraw [= <- <-]. unfold bind_try. rewrite brun_bind.
       by rewrite (prun_send_error _ call _ _ _ w s raw Hs Hraw). }
  destruct (foreign_namespace c) as [ns|].
  { intros Hraw [= <- <-]. unfold bind_try. rewrite brun_bind.
    by rewrite (prun_send_error _ call _ _ _ w s raw Hs Hraw). }
  cbn. destruct (pw s (function c) (args c)) as [[[v|err] s1]|]; cbn; [| |done];
    intros Hraw [= <- <-]; revert Hraw; unfold reply_frame; simpl.
  - destruct (encode_response_body _) as [body|]; simpl; [|done].
    unfold build_response_envelope. intros ->. cbn. by rewrite Hs.
  - destruct (encode_error_body _) as [body|]; simpl; [|done].
    unfold build_error_envelope. intros ->. cbn. by rewrite Hs.
Qed.

Lemma pstop_handle_call_frame peer_id call w s :
  spec_reply_partial s call = None ->
  bstop (partial_service_op pw) (handle_call_frame peer_id call) (w, s) = (None, (w, s)).
Proof.
  unfold handle_call_frame, spec_reply_partial.
  destruct (decode_call_body (body_bytes call)) as [c|err]; [|done].
  destruct (foreign_namespace c) as [ns|]; [done|]. cbn.
  by destruct (pw s (function c) (args c)) as [[[v|err] s1]|].
Qed.
End partial.

Lemma spec_reply_total s call :
  spec_reply_partial (total_worker worker) s call = Some (spec_reply s call).
Proof.
  unfold spec_reply_partial, spec_reply, total_worker. repeat case_match; by simplify_eq/=.
Qed.

Lemma srun_handle_call_frame peer_id call w s :
  sink_error w = None ->
  exists raw,
    reply_frame peer_id (now_ts (clock w)) call (spec_reply s call).1 = Ok raw /\
    srun worker (handle_call_frame peer_id call) (w, s)
      = Some (Ok tt, (push_wire (Binary raw) w, (spec_reply s call).2)).
Proof.
  intros Hs. apply (prun_handle_call_frame (total_worker worker) peer_id call w s); [done|].
  rewrite spec_reply_total. by destruct (spec_reply s call).
Qed.

Lemma srun_service_loop peer_id source w s :
  sink_error w = None ->
  exists raws,
    frames_of peer_id (now_ts (clock w)) (spec_replies s (calls_of peer_id source)).1 raws /\
    srun worker (service_loop peer_id source) (w, s)
      = Some (tt, (push_all raws w, (spec_replies s (calls_of peer_id source)).2)).
Proof.
  revert w s. induction source as [|item source IH]; intros w s Hs;
    [by exists []; split; [constructor|]|].
  destruct item as [[ |b| | | | ]|]; simpl; try by apply IH.
  2,3: by exists []; split; [constructor|].
  destruct (decode_frame b) as [f|]; [|by apply IH].
  destruct (env_to (envelope f) =? peer_id)%string; simpl; [|by apply IH].
  destruct (kind (envelope f) =? KIND_CALL)%string.
  - destruct (srun_handle_call_frame peer_id f w s Hs) as (raw & Hraw & Hrun).
    rewrite srun_bind, Hrun. simpl. destruct (spec_reply s f) as [r s1] eqn:Er; simpl in *.
    destruct (IH (push_wire (Binary raw) w) s1 Hs) as (raws & Hraws & Hrun1). rewrite Hrun1.
    destruct (spec_replies s1 _) as [rs s2]; simpl in *.
    exists (raw :: raws). split; [by constructor|done].
  - destruct (kind (envelope f) =? KIND_DISCONNECT)%string; [|by apply IH].
    by exists []; split; [constructor|].
Qed.

(** * Properties *)

(** C15: a service whose registration is accepted writes, in this order, its
    registration, one reply for every call frame addressed to it before the
    end of the stream, and a disconnect frame; then it returns.  Each reply
    goes to the peer that called, under the id of the call, and carries the
    worker's result, the worker's error, or the protocol error of a call body
    that is malformed or in a foreign namespace, on which the worker is not
    run. *)
Theorem service_answers_every_call (h : Host) (env : Env) (ctx : ServiceContext)
    (source : list WsItem) (peer_id : string) (ack : RegisterAckBody) (w : CWorld) (s : St)
    (Hid : resolve_peer_id h env ctx = Ok peer_id)
    (Hreply : register_reply (head source) = Ok ack) (Hack : accepted ack = true)
    (Hsink : sink_error w = None) :
  let now := now_ts (clock w) in
  let spec := spec_replies s (calls_of peer_id (tail source)) in
  exists register raws bye w',
    srun worker (run_service_async h env ctx (Ok tt) (Ok tt) source) (w, s)
      = Some (Ok tt, (w', spec.2)) /\
    wire w' = (wire w ++ Binary register :: map Binary raws ++ [Binary bye])%list /\
    register_frame peer_id Service (uuid w (next_id w)) now = Ok register /\
    frames_of peer_id now spec.1 raws /\
    exists id, encode_frame (build_disconnect_envelope peer_id ROUTER_PEER_ID id now) [] = Ok bye.
Proof.
  intros now spec.
  assert (Hf : exists raw, register_frame peer_id Service (uuid w (next_id w)) now = Ok raw).
  { unfold register_frame, encode_register_body.
    destruct (rmp_total (mkRegisterBody peer_id Service)) as [body ->]; simpl.
    apply client_encode_frame_total. }
  destruct Hf as [register Hregister].
  set (w1 := push_wire (Binary register) (bump_id w)).
  destruct (srun_service_loop peer_id (tail source) w1 s Hsink) as (raws & Hraws & Hloop).
  destruct (push_all_env raws w1) as [Hclock Hsink1].
  destruct (client_encode_frame_total (build_disconnect_envelope peer_id ROUTER_PEER_ID
    (uuid (push_all raws w1) (next_id (push_all raws w1))) now) []) as [bye Hbye].
  exists register, raws, bye, (push_wire (Binary bye) (bump_id (push_all raws w1))).
  split; [|split; [|by eauto]].
  - unfold run_service_async. rewrite Hid. unfold srun; cbn. fold now. rewrite Hregister. cbn.
    rewrite Hsink. cbn. rewrite Hreply. cbn. rewrite Hack. cbn. fold w1.
    rewrite brun_bind. unfold srun in Hloop. rewrite Hloop. cbn.
    rewrite Hclock. change (now_ts (clock w1)) with now. rewrite Hbye. cbn.
    rewrite Hsink1. cbn. rewrite Hsink. done.
  - cbn. rewrite wire_push_all. cbn. by rewrite <-!app_assoc.
Qed.

(** The namespace given to [with_namespace] has no effect: the service
    runs as without it, and refuses a call made in that very namespace unless
    it is "default". *)
Theorem configured_namespace_is_not_served (h : Host) (env : Env) (ctx : ServiceContext)
    (ns peer_id : string) (call : FrameParts) (f : string) (a : list Value) (s : St)
    (Hns : ns <> "default")
    (Hcall : decode_call_body (body_bytes call) = Ok (mkCallBody f a (Some ns))) :
  run_service_async h env (with_namespace ns ctx) = run_service_async h env ctx /\
  spec_reply s call =
    (Failure (mkErrorBody "invalid_namespace" ("unsupported namespace: " +:+ ns)
                "protocol" None None), s) /\
  forall w, sink_error w = None -> exists raw,
    reply_frame peer_id (now_ts (clock w)) call (spec_reply s call).1 = Ok raw /\
    srun worker (handle_call_frame peer_id call) (w, s)
      = Some (Ok tt, (push_wire (Binary raw) w, s)).
Proof.
  assert (E : spec_reply s call =
    (Failure (mkErrorBody "invalid_namespace" ("unsupported namespace: " +:+ ns)
                "protocol" None None), s)).
  { unfold spec_reply. rewrite Hcall. unfold foreign_namespace; simpl.
    by destruct (String.eqb_spec ns "default"). }
  split; [done|]. split; [done|]. intros w Hs.
  destruct (srun_handle_call_frame peer_id call w s Hs) as (raw & Hraw & Hrun).
  exists raw. split; [done|]. by rewrite Hrun, E.
Qed.
End spec.

(** A service started by [spawn] with default options registers under the
    canonical path of its entry point, the id under which callers look for it:
    provided the parent's environment does not impose another id and the
    canonical form of a path is its own canonical form. *)
Theorem spawned_service_identity (h : Host) (parent : Env) (entry canonical : string)
    (port : option Z)
    (Hcanon : canonicalize h entry = Ok canonical)
    (Hidem : canonicalize h canonical = Ok canonical)
    (Hfree : env_var parent "MULTIFROST_SERVICE_PEER_ID" = None) :
  let child := spawn_environment h parent entry port in
  resolve_peer_id h child (ServiceContext_new child) = Ok canonical /\
  (forall p, port = Some p -> (0 <= p <= U16_MAX)%Z ->
     Config.port (endpoint (ctx_router (ServiceContext_new child))) = p).
Proof.
  unfold resolve_peer_id, canonical_peer_path; simpl. split.
  - assert (Hp : canonical_peer_path h entry = canonical)
      by (unfold canonical_peer_path; by rewrite Hcanon).
    destruct port; simpl; rewrite Hfree, Hp, Hidem; done.
  - intros p -> Hp. unfold router_port_from_env; simpl. by rewrite parse_u16_to_string.
Qed.

(** A host whose only directory is [/srv]. *)
Definition sample_host : Host :=
  mkHost (fun p => if String.prefix "/" p then Ok p else Ok ("/srv/" +:+ p))
         (Err "no executable").

Definition sample_env : Env := mkEnv (fun _ => None) (Some "/home/u").

Lemma spawned_service_identity_witness :
  let child := spawn_environment sample_host sample_env "math.rs" (Some 4242%Z) in
  resolve_peer_id sample_host child (ServiceContext_new child) = Ok "/srv/math.rs" /\
  Config.port (endpoint (ctx_router (ServiceContext_new child))) = 4242%Z.
Proof.
  destruct (spawned_service_identity sample_host sample_env "math.rs" "/srv/math.rs"
              (Some 4242%Z) eq_refl eq_refl eq_refl) as [H1 H2].
  split; [exact H1|]. apply H2; [reflexivity|]. unfold U16_MAX; lia.
Defined.
