(* ===== verification/ClientRef.v ===== *)
(** A concrete serializer for the client crate, in the manner of [RefCodec]:
    JSON values are encoded through [gen_tree]. *)

From S2P Require Import Prelude Float64 Wire Protocol RefCodec ClientMessage.
From stdpp Require Import countable.

Local Open Scope string_scope.

#[export] Instance Number_eq_dec : EqDecision Number.
Proof. solve_decision. Defined.
#[export] Instance Number_countable : Countable Number.
Proof.
  refine (inj_countable'
    (fun n => match n with
       | PosInt z => inl (inl z) | NegInt z => inl (inr z) | Float x => inr x end)
    (fun y : (Z + Z) + f64 => match y with
       | inl (inl z) => PosInt z | inl (inr z) => NegInt z | inr x => Float x end) _);
    by intros [].
Defined.

Abbreviation leaf := (unit + bool + (Number + string))%type.

Fixpoint value_to_tree (x : Value) : gen_tree leaf :=
  match x with
  | Null => GenLeaf (inl (inl tt))
  | Bool b => GenLeaf (inl (inr b))
  | Num n => GenLeaf (inr (inl n))
  | Str s => GenLeaf (inr (inr s))
  | Array l => GenNode 0 (map value_to_tree l)
  | Object l =>
      GenNode 1 (map (fun '(k, x) => GenNode 2 [GenLeaf (inr (inr k)); value_to_tree x]) l)
  end.

Fixpoint tree_to_value (t : gen_tree leaf) : Value :=
  match t with
  | GenLeaf (inl (inl _)) => Null
  | GenLeaf (inl (inr b)) => Bool b
  | GenLeaf (inr (inl n)) => Num n
  | GenLeaf (inr (inr s)) => Str s
  | GenNode 0 l => Array (map tree_to_value l)
  | GenNode _ l =>
      Object (map (fun t => match t with
                            | GenNode _ [GenLeaf (inr (inr k)); x] => (k, tree_to_value x)
                            | _ => ("", Null)
                            end) l)
  end.

Lemma tree_to_of_value x : tree_to_value (value_to_tree x) = x.
Proof.
  revert x. fix IH 1. intros [| | | |l|l]; simpl; try done.
  - f_equal. induction l as [|x l IHl]; simpl; [done|]. by rewrite IH, IHl.
  - f_equal. induction l as [|[k x] l IHl]; simpl; [done|]. by rewrite IH, IHl.
Qed.

Definition decode_or {A B} `{Countable A} (f : A -> B) (b : bytes) : result B string :=
  match decode (A := A) (pos_of_bytes b) with
  | Some x => Ok (f x)
  | None => Err "invalid encoding"
  end.

Lemma decode_or_encode {A B} `{Countable A} (f : A -> B) x :
  decode_or f (pos_to_bytes (encode x)) = Ok (f x).
Proof. unfold decode_or. by rewrite pos_of_to_bytes, decode_encode. Qed.

Definition call_serde : RmpSerde CallBody := {|
  to_vec_named c :=
    Ok (pos_to_bytes (encode (function c, map value_to_tree (args c), namespace c)));
  from_slice := decode_or (A := string * list (gen_tree leaf) * option string)
    (fun '(f, a, n) => mkCallBody f (map tree_to_value a) n) |}.

Definition response_serde : RmpSerde ResponseBody := {|
  to_vec_named r := Ok (pos_to_bytes (encode (value_to_tree (resp_result r))));
  from_slice := decode_or (fun t => mkResponseBody (tree_to_value t)) |}.

Lemma call_serde_total c : exists b, @to_vec_named _ call_serde c = Ok b.
Proof. by eexists. Qed.

Lemma call_serde_roundtrip c : RoundTrips call_serde call_serde c.
Proof.
  intros b [= <-]. simpl. rewrite decode_or_encode. destruct c as [f a n]; simpl.
  rewrite map_map. repeat f_equal. induction a as [|x a IH]; simpl; [done|].
  by rewrite tree_to_of_value, IH.
Qed.

Lemma response_serde_roundtrip r : RoundTrips response_serde response_serde r.
Proof.
  intros b [= <-]. simpl. rewrite decode_or_encode, tree_to_of_value. by destruct r.
Qed.

#[export] Instance ref_client_codec : ClientCodec := {|
  cc_envelope := countable_serde Envelope;
  cc_register := countable_serde RegisterBody;
  cc_ack := countable_serde RegisterAckBody;
  cc_query := countable_serde QueryBody;
  cc_exists := countable_serde QueryExistsResponseBody;
  cc_get := countable_serde QueryGetResponseBody;
  cc_call := call_serde;
  cc_response := response_serde;
  cc_error := error_serde;
  message_debug := fun _ => "message" |}.

#[export] Instance ref_client_codec_laws : ClientCodecLaws ref_client_codec.
Proof.
  split; try apply countable_serde_laws.
  - intros x. by eexists.
  - intros x. by eexists.
  - apply error_serde_roundtrip.
Qed.
