(* ===== verification/ServicePanic.v ===== *)
(** A service whose worker panics.

    The service awaits the worker in its only task, so a panic of the worker
    ends the service at that call. *)

From S2P Require Import Prelude Prog Float64 Wire Config ClientMessage CallerTransport Service.
From S2P Require Import ServiceSpec ClientRef.

Local Open Scope string_scope.

Section panic.
Context {CC : ClientCodec} {CCL : ClientCodecLaws CC}.
Context {St : Type} (worker : St -> string -> list Value -> option (MResult Value * St)).

Definition pstop {A} (p : serviceM A) (w : CWorld * St) : option A * (CWorld * St) :=
  bstop (partial_service_op worker) p w.

Lemma pstop_bind {A B} (p : serviceM A) (f : A -> serviceM B) w :
  pstop (bind p f) w = match pstop p w with
                       | (Some a, w') => pstop (f a) w'
                       | (None, w') => (None, w')
                       end.
Proof. apply bstop_bind. Qed.

(** The replies to the calls before the first one on which the worker panics,
    and the worker's state: [None] if there is such a call. *)
Fixpoint replies_until_panic (s : St) (calls : list FrameParts) :
    list (FrameParts * Reply) * option St :=
  match calls with
  | [] => ([], Some s)
  | c :: calls =>
      match spec_reply_partial worker s c with
      | None => ([], None)
      | Some (r, s1) => let '(rs, o) := replies_until_panic s1 calls in ((c, r) :: rs, o)
      end
  end.

Lemma replies_until_panic_prefix s calls :
  let '(rs, o) := replies_until_panic s calls in
  exists rest, calls = (rs.*1 ++ rest)%list /\ (o = None <-> rest <> []).
Proof.
  revert s. induction calls as [|c calls IH]; intros s; simpl.
  { exists []. naive_solver. }
  destruct (spec_reply_partial worker s c) as [[r s1]|]; simpl; [|by exists (c :: calls)].
  specialize (IH s1). destruct (replies_until_panic s1 calls) as [rs o].
  destruct IH as (rest & -> & Ho). by exists rest.
Qed.

Lemma pstop_service_loop peer_id source w s rs o :
  sink_error w = None -> replies_until_panic s (calls_of peer_id source) = (rs, o) ->
  exists raws s',
    frames_of peer_id (now_ts (clock w)) rs raws /\
    pstop (service_loop peer_id source) (w, s)
      = (match o with Some _ => Some tt | None => None end, (push_all raws w, s')).
Proof.
  revert w s rs. induction source as [|item source IH]; intros w s rs Hs.
  { intros [= <- <-]. exists [], s. by split; [constructor|]. }
  destruct item as [[ |b| | | | ]|]; simpl; try by apply IH.
  2,3: intros [= <- <-]; exists [], s; by split; [constructor|].
  destruct (decode_frame b) as [f|]; [|by apply IH].
  destruct (env_to (envelope f) =? peer_id)%string; simpl; [|by apply IH].
  destruct (kind (envelope f) =? KIND_CALL)%string.
  - simpl. rewrite pstop_bind.
    destruct (spec_reply_partial worker s f) as [[r s1]|] eqn:Er; simpl in *.
    + destruct (prun_handle_call_frame worker peer_id f w s r s1 Hs Er) as (raw & Hraw & Hrun).
      unfold pstop at 1. rewrite (bstop_brun _ _ _ _ _ Hrun).
      destruct (replies_until_panic s1 _) as [rs1 o1] eqn:E1. intros [= <- <-].
      destruct (IH (push_wire (Binary raw) w) s1 rs1 Hs E1) as (raws & s' & Hraws & ->).
      exists (raw :: raws), s'. split; [by constructor|done].
    + intros [= <- <-]. unfold pstop at 1. rewrite pstop_handle_call_frame by done.
      exists [], s. by split; [constructor|].
  - destruct (kind (envelope f) =? KIND_DISCONNECT)%string; [|by apply IH].
    intros [= <- <-]. exists [], s. by split; [constructor|].
Qed.

(** C34: a worker that panics takes the service with it.  The calls before the
    panic are answered in order; the call it happens on and every later one
    get no reply, not even an error frame, and the service neither sends a
    disconnect frame nor returns: all that was written is the registration and
    the replies to the earlier calls. *)
Theorem worker_panic_ends_service (h : Host) (env : Env) (ctx : ServiceContext)
    (source : list WsItem) (peer_id : string) (ack : RegisterAckBody) (w : CWorld) (s : St)
    (answered : list (FrameParts * Reply))
    (Hid : resolve_peer_id h env ctx = Ok peer_id)
    (Hreply : register_reply (head source) = Ok ack) (Hack : accepted ack = true)
    (Hsink : sink_error w = None)
    (Hpanic : replies_until_panic s (calls_of peer_id (tail source)) = (answered, None)) :
  exists register raws w' s' unanswered,
    pstop (run_service_async h env ctx (Ok tt) (Ok tt) source) (w, s) = (None, (w', s')) /\
    wire w' = (wire w ++ Binary register :: map Binary raws)%list /\
    frames_of peer_id (now_ts (clock w)) answered raws /\
    calls_of peer_id (tail source) = (answered.*1 ++ unanswered)%list /\ unanswered <> [].
Proof.
  assert (Hf : exists raw, register_frame peer_id Service (uuid w (next_id w)) (now_ts (clock w))
                           = Ok raw).
  { unfold register_frame, encode_register_body.
    destruct (rmp_total (mkRegisterBody peer_id Service)) as [body ->]; simpl.
    apply client_encode_frame_total. }
  destruct Hf as [register Hregister].
  set (w1 := push_wire (Binary register) (bump_id w)).
  destruct (pstop_service_loop peer_id (tail source) w1 s answered None Hsink Hpanic)
    as (raws & s' & Hraws & Hloop).
  pose proof (replies_until_panic_prefix s (calls_of peer_id (tail source))) as Hpre.
  rewrite Hpanic in Hpre. destruct Hpre as (rest & Hrest & Hne).
  exists register, raws, (push_all raws w1), s', rest.
  split; [|split; [|split; [exact Hraws|split; [exact Hrest|by apply Hne]]]].
  - unfold run_service_async. rewrite Hid. unfold pstop in *; cbn. rewrite Hregister. cbn.
    rewrite Hsink. cbn. rewrite Hreply. cbn. rewrite Hack. cbn. fold w1.
    by rewrite bstop_bind, Hloop.
  - rewrite wire_push_all. cbn. by rewrite <-app_assoc.
Qed.
End panic.
