(* ===== verification/ServiceSafety.v ===== *)
(** A service as a process: its one task, whose sink may break and whose clock
    may change between any two operations.  Whatever happens, its worker has
    run on a prefix of the calls received, in order, and what it has written
    is its registration, replies computed on the way, and its farewell. *)

From S2P Require Import Prelude Prog Float64 Wire Config ClientMessage CallerTransport.
From S2P Require Import CallerSafety Service ServiceSpec ServicePanic.

Local Open Scope string_scope.
Local Open Scope rust_scope.

Section process.
Context {CC : ClientCodec}.
Context {St : Type} (worker : St -> string -> list Value -> option (MResult Value * St)).

(** * The transition system *)

Record SState : Type := mkSState {
  s_prog : serviceM (MResult unit);
  s_world : CWorld * St;
}.

Inductive SAction : Type :=
| ServiceStep
| ServiceSinkBroken (err : string)
| ServiceClock (now : Z).

Definition apply_saction (a : SAction) (st : SState) : option SState :=
  let '(w, s) := s_world st in
  match a with
  | ServiceStep =>
      match bstep (partial_service_op worker) (s_prog st) (w, s) with
      | Some (p', w') => Some (mkSState p' w')
      | None => None
      end
  | ServiceSinkBroken err =>
      Some (mkSState (s_prog st) (set_env (clock w) (expired w) (Some err) w, s))
  | ServiceClock now =>
      Some (mkSState (s_prog st) (set_env now (expired w) (sink_error w) w, s))
  end.

Definition service_step (st st' : SState) : Prop := exists a, apply_saction a st = Some st'.

Fixpoint run_sactions (l : list SAction) (st : SState) : option SState :=
  match l with
  | [] => Some st
  | a :: l => match apply_saction a st with Some st' => run_sactions l st' | None => None end
  end.

Lemma run_sactions_star l st st' : run_sactions l st = Some st' -> star service_step st st'.
Proof.
  revert st. induction l as [|a l IH]; simpl; intros st H.
  - simplify_eq. constructor.
  - destruct (apply_saction a st) as [st1|] eqn:E; [|done].
    eapply star_trans; [|by apply IH]. apply star_one. by exists a.
Qed.

Section service.
Context (h : Host) (env : Env) (ctx : ServiceContext) (me : string).
Context (source : list WsItem) (ids : nat -> string) (s0 : St).

(** A process whose router and WebSocket are there, before its first
    operation. *)
Definition service_init : SState :=
  mkSState (run_service_async h env ctx (Ok tt) (Ok tt) source) (connected_world ids, s0).

Definition service_reachable (st : SState) : Prop := star service_step service_init st.

(** * The invariant *)

Definition is_register (raw : bytes) : Prop :=
  exists id now, register_frame me Service id now = Ok raw.

Definition is_farewell (raw : bytes) : Prop :=
  exists id now, encode_frame (build_disconnect_envelope me ROUTER_PEER_ID id now) [] = Ok raw.

Definition replies_to (l : list (FrameParts * Reply)) (raws : list bytes) : Prop :=
  Forall2 (fun '(call, r) raw => exists now, reply_frame me now call r = Ok raw) l raws.

(** The worker ran on [ran], a prefix of the calls, which took it from [s0] to
    [s] and gave the replies [rs]; some of them, in order, were written after
    the registration. *)
Record progress (ran : list FrameParts) (bye : list bytes) (v : list Message * St) : Prop := {
  pr_ran : ran `prefix_of` calls_of me (tail source);
  pr_state : exists rs, replies_until_panic worker s0 ran = (rs, Some v.2) /\
    exists register sent raws, v.1 = map Binary (register :: raws ++ bye)%list /\
      is_register register /\ sent `sublist_of` rs /\ replies_to sent raws;
  pr_bye : Forall is_farewell bye;
}.

Definition view_inv (v : list Message * St) : Prop :=
  v = ([], s0) \/ exists ran bye, (length bye <= 1)%nat /\ progress ran bye v.

Definition service_view (w : CWorld * St) : list Message * St := (wire w.1, w.2).
Definition service_inv (w : CWorld * St) : Prop := view_inv (service_view w).

(** The environment touches neither what was written nor the worker. *)
Definition undisturbed (w w' : CWorld * St) : Prop := service_view w' = service_view w.

#[local] Instance undisturbed_preorder : PreOrder undisturbed.
Proof. split; [done|]. intros w1 w2 w3 H1 H2. unfold undisturbed in *. by rewrite H2. Qed.

Abbreviation ssolo := (solo (partial_service_op worker) service_inv undisturbed).

Lemma ssolo_bind {A B} (Q : B -> CWorld * St -> Prop) (p : serviceM A) f w :
  ssolo (fun a w => ssolo Q (f a) w) p w -> ssolo Q (bind p f) w.
Proof. apply (solo_bind _ _ _). Qed.

Lemma ssolo_clock {A} (Q : A -> CWorld * St -> Prop) k w :
  service_inv w -> (forall x w', service_view w' = service_view w -> ssolo Q (k x) w') ->
  ssolo Q (Do (Net SystemTime) k) w.
Proof.
  intros HI Hk w' Hw x w'' E. simpl in E. simplify_eq.
  assert (Hv : service_view (w'.1, w'.2) = service_view w) by (rewrite <-Hw; by destruct w').
  split; [|by apply Hk]. unfold service_inv. by rewrite Hv.
Qed.

Lemma ssolo_id {A} (Q : A -> CWorld * St -> Prop) k w :
  service_inv w -> (forall x w', service_view w' = service_view w -> ssolo Q (k x) w') ->
  ssolo Q (Do (Net NewMsgId) k) w.
Proof.
  intros HI Hk w' Hw x w'' E. simpl in E. simplify_eq.
  assert (Hv : service_view (bump_id w'.1, w'.2) = service_view w) by (rewrite <-Hw; by destruct w').
  split; [|by apply Hk]. unfold service_inv. by rewrite Hv.
Qed.

Lemma ssolo_send {A} (Q : A -> CWorld * St -> Prop) m k w :
  service_inv w -> view_inv ((wire w.1 ++ [m])%list, w.2) ->
  (forall err w', service_view w' = service_view w -> ssolo Q (k (Err err)) w') ->
  (forall w', service_view w' = ((wire w.1 ++ [m])%list, w.2) -> ssolo Q (k (Ok tt)) w') ->
  ssolo Q (Do (Net (SinkSend m)) k) w.
Proof.
  intros HI HI' Herr Hok [w' s'] Hw x w'' E. simpl in E.
  unfold undisturbed, service_view in Hw; simpl in Hw. simplify_eq.
  destruct (sink_error w') as [err|]; simplify_eq.
  - assert (Hv : service_view (w', w.2) = service_view w) by (unfold service_view; simpl; congruence).
    split; [|by apply Herr]. unfold service_inv. by rewrite Hv.
  - assert (Hv : service_view (push_wire m w', w.2) = ((wire w.1 ++ [m])%list, w.2))
      by (unfold service_view; simpl; congruence).
    split; [|by apply Hok]. unfold service_inv. by rewrite Hv.
Qed.

(** * The programs *)

Lemma replies_snoc ran rs s call r s' :
  replies_until_panic worker s0 ran = (rs, Some s) ->
  spec_reply_partial worker s call = Some (r, s') ->
  replies_until_panic worker s0 (ran ++ [call]) = ((rs ++ [(call, r)])%list, Some s').
Proof.
  generalize s0 as s1. revert rs. induction ran as [|c ran IH]; intros rs s1; simpl.
  - intros [= <- <-] ->. done.
  - destruct (spec_reply_partial worker s1 c) as [[r1 s2]|]; [|done].
    destruct (replies_until_panic worker s2 ran) as [rs1 o] eqn:E. intros [= <- ->] Hc.
    by rewrite (IH _ _ E Hc).
Qed.

(** One more call has run; its reply may have been written. *)
Lemma progress_run ran msgs s call r s' :
  progress ran [] (msgs, s) -> (ran ++ [call])%list `prefix_of` calls_of me (tail source) ->
  spec_reply_partial worker s call = Some (r, s') ->
  progress (ran ++ [call]) [] (msgs, s') /\
  forall now raw, reply_frame me now call r = Ok raw ->
    progress (ran ++ [call]) [] ((msgs ++ [Binary raw])%list, s').
Proof.
  intros [_ (rs & Hrs & reg & sent & raws & Hw & Hreg & Hsub & Hraws) _] Hpre Hr.
  simpl in *. pose proof (replies_snoc _ _ _ _ _ _ Hrs Hr) as Hrs'. split.
  - split; [done| |done]. exists (rs ++ [(call, r)])%list. split; [done|].
    exists reg, sent, raws. split; [done|]. split; [done|]. split; [|done].
    by apply sublist_inserts_r.
  - intros now raw Hraw. split; [done| |done]. exists (rs ++ [(call, r)])%list. split; [done|].
    exists reg, (sent ++ [(call, r)])%list, (raws ++ [raw])%list. split; [|split; [done|split]].
    + simpl. rewrite Hw. simpl. by rewrite !app_nil_r, map_app.
    + by apply sublist_app.
    + apply Forall2_app; [done|]. constructor; [|done]. by exists now.
Qed.

Lemma progress_inv ran w : progress ran [] (service_view w) -> service_inv w.
Proof. intros H. right. exists ran, []. by split; [simpl; lia|]. Qed.

(** Writing the reply to a call that has run. *)
Lemma send_reply_solo {A} (Q : A -> CWorld * St -> Prop) ran w raw k :
  progress ran [] (service_view w) ->
  progress ran [] ((wire w.1 ++ [Binary raw])%list, w.2) ->
  (forall x w', progress ran [] (service_view w') -> ssolo Q (k x) w') ->
  ssolo Q (bind (send_ws_frame raw) k) w.
Proof.
  intros H1 H2 Hk. apply ssolo_send.
  - by eapply progress_inv.
  - right. exists ran, []. by split; [simpl; lia|].
  - intros err w' Hv. apply Hk. by rewrite Hv.
  - intros w' Hv. apply Hk. by rewrite Hv.
Qed.

(** The replies to a call that has run, from reading the clock on: a protocol
    error, and the worker's answer. *)
Section reply.
Context (ran : list FrameParts) (call : FrameParts) (r : Reply) (w : CWorld * St).
Hypothesis Hran : progress ran [] (service_view w).
Hypothesis Hsent : forall now raw, reply_frame me now call r = Ok raw ->
  progress ran [] ((wire w.1 ++ [Binary raw])%list, w.2).

Definition reply_envelope (now : f64) : Envelope :=
  mkEnvelope PROTOCOL_VERSION (reply_kind r) (msg_id (envelope call)) me
    (env_from (envelope call)) now.

Lemma finish_solo (x : MResult unit) w' :
  progress ran [] (service_view w') ->
  ssolo (fun _ w' => progress ran [] (service_view w')) (Ret x) w'.
Proof. intros H. apply solo_ret. intros w2 Hw2. by rewrite Hw2. Qed.

Lemma written_solo now body raw w' :
  service_view w' = service_view w -> encode_reply_body r = Ok body ->
  encode_frame (reply_envelope now) body = Ok raw ->
  ssolo (fun _ w' => progress ran [] (service_view w'))
    (bind_try (send_ws_frame raw) (fun _ => Ret (Ok tt))) w'.
Proof.
  intros Hv Hb Hraw. injection Hv as Hw Hs. eapply send_reply_solo.
  - unfold service_view. by rewrite Hw, Hs.
  - rewrite Hw, Hs. apply (Hsent now). unfold reply_frame. by rewrite Hb.
  - intros [] w2 H; by apply finish_solo.
Qed.

Lemma error_solo (b : ErrorBody) :
  r = Failure b ->
  ssolo (fun _ w' => progress ran [] (service_view w'))
    (bind_try (bind (perform (Net SystemTime)) (fun now =>
       lift_try (encode_error_body b) (fun body =>
         lift_try (encode_frame (reply_envelope (now_ts now)) body) send_ws_frame)))
       (fun _ => Ret (Ok tt))) w.
Proof.
  intros Hr. apply ssolo_clock; [by eapply progress_inv|]. intros now w1 Hv.
  assert (Hp1 : progress ran [] (service_view w1)) by by rewrite Hv.
  assert (Hb : encode_reply_body r = encode_error_body b) by by rewrite Hr.
  cbn [bind]. rewrite <-Hb. destruct (encode_reply_body r) as [body|] eqn:Eb; [|by apply finish_solo].
  cbn [lift_try]. destruct (encode_frame _ body) as [raw|] eqn:Hraw; [|by apply finish_solo].
  by eapply written_solo.
Qed.

Lemma answer_solo :
  ssolo (fun _ w' => progress ran [] (service_view w'))
    (bind_try (bind (perform (Net SystemTime)) (fun now =>
       lift_try (encode_reply_body r) (fun body =>
         Ret (encode_frame (reply_envelope (now_ts now)) body))))
       (fun raw => bind_try (send_ws_frame raw) (fun _ => Ret (Ok tt)))) w.
Proof.
  apply ssolo_clock; [by eapply progress_inv|]. intros now w1 Hv.
  assert (Hp1 : progress ran [] (service_view w1)) by by rewrite Hv.
  cbn [bind]. destruct (encode_reply_body r) as [body|] eqn:Eb; [|by apply finish_solo].
  cbn [lift_try bind]. destruct (encode_frame _ body) as [raw|] eqn:Hraw; [|by apply finish_solo].
  by eapply written_solo.
Qed.
End reply.

Lemma handle_call_frame_solo ran call w :
  progress ran [] (service_view w) ->
  (ran ++ [call])%list `prefix_of` calls_of me (tail source) ->
  ssolo (fun _ w' => progress (ran ++ [call]) [] (service_view w')) (handle_call_frame me call) w.
Proof.
  intros Hp Hpre. pose proof (fun r s' => progress_run ran _ _ call r s' Hp Hpre) as Hrun.
  unfold spec_reply_partial in Hrun. unfold handle_call_frame.
  destruct (decode_call_body (body_bytes call)) as [c|err].
  2: { destruct (Hrun _ _ eq_refl) as [H1 H2].
    by apply (error_solo _ call _ w H1 H2 _ eq_refl). }
  destruct (foreign_namespace c) as [ns|].
  { destruct (Hrun _ _ eq_refl) as [H1 H2].
    by apply (error_solo _ call _ w H1 H2 _ eq_refl). }
  intros [w1 s1] Hw x w2 E. unfold undisturbed, service_view in Hw; simpl in Hw, E.
  destruct (worker s1 (function c) (args c)) as [[r s']|] eqn:Ew; [|done].
  injection E as -> <-. injection Hw as Hw Hs. subst s1. simpl in Hrun. rewrite Ew in Hrun. destruct x as [v|err]; destruct (Hrun _ _ eq_refl) as [H1 H2];
    rewrite <-Hw in H1, H2.
  - split; [by eapply progress_inv|]. by apply (answer_solo _ call (Answer v)).
  - split; [by eapply progress_inv|]. by apply (answer_solo _ call (Failure _)).
Qed.

Lemma service_loop_solo l ran w :
  progress ran [] (service_view w) -> calls_of me (tail source) = (ran ++ calls_of me l)%list ->
  ssolo (fun _ w' => exists ran, progress ran [] (service_view w')) (service_loop me l) w.
Proof.
  revert ran w. induction l as [|item l IH]; intros ran w Hp Hl.
  { apply solo_ret. intros w' Hw. exists ran. by rewrite Hw. }
  assert (Hend : ssolo (fun _ w' => exists ran, progress ran [] (service_view w')) (Ret tt) w).
  { apply solo_ret. intros w' Hw. exists ran. by rewrite Hw. }
  destruct item as [[ |b| | | | ]|]; simpl in Hl |- *; try done; try (by eapply IH).
  destruct (decode_frame b) as [f|]; [|by eapply IH].
  destruct (env_to (envelope f) =? me)%string; simpl in *; [|by eapply IH].
  destruct (kind (envelope f) =? KIND_CALL)%string.
  - apply ssolo_bind. eapply (solo_weaken _ _ undisturbed);
      [|apply (handle_call_frame_solo ran f); [done|]].
    + intros ? w' Hp'. eapply IH; [exact Hp'|]. by rewrite <-app_assoc.
    + rewrite Hl. exists (calls_of me l). by rewrite <-app_assoc.
  - destruct (kind (envelope f) =? KIND_DISCONNECT)%string; [done|by eapply IH].
Qed.

Lemma farewell_solo ran w :
  progress ran [] (service_view w) ->
  ssolo (fun _ _ => True) (net (send_disconnect_frame me)) w.
Proof.
  intros Hp. assert (HI : service_inv w) by by eapply progress_inv.
  apply ssolo_id; [done|]. intros fresh w1 H1.
  assert (HI1 : service_inv w1) by (unfold service_inv; by rewrite H1).
  apply ssolo_clock; [done|]. intros now w2 H2. rewrite H1 in H2.
  assert (HI2 : service_inv w2) by (unfold service_inv; by rewrite H2).
  destruct (encode_frame _ _) as [raw|] eqn:Hraw; cbn [lift_try embed]; [|by apply solo_ret].
  apply ssolo_send; [done| |by intros; apply solo_ret..].
  injection H2 as -> ->. right. exists ran, [raw]. split; [simpl; lia|].
  destruct Hp as [Hran (rs & Hrs & reg & sent & raws & Hw & Hrest) _]. split; [done| |].
  - exists rs. split; [done|]. exists reg, sent, raws. split; [|done].
    simpl in *. rewrite Hw. simpl. by rewrite !map_app, app_nil_r.
  - constructor; [|done]. by exists fresh, (now_ts now).
Qed.

(** * The calls and their replies *)

(** [r] is the reply to [call], one of the calls received, by a worker that
    had run on the calls before it. *)
Definition computed (call : FrameParts) (r : Reply) : Prop :=
  exists before rs s1 s2, (before ++ [call])%list `prefix_of` calls_of me (tail source) /\
    replies_until_panic worker s0 before = (rs, Some s1) /\
    spec_reply_partial worker s1 call = Some (r, s2).

Lemma calls_received l call :
  call ∈ calls_of me l -> exists b, Ok (Binary b) ∈ l /\ decode_frame b = Ok call /\
    env_to (envelope call) = me /\ kind (envelope call) = KIND_CALL.
Proof.
  assert (Hskip : forall (item : WsItem) (l : list WsItem), (exists b, Ok (Binary b) ∈ l /\ decode_frame b = Ok call /\
      env_to (envelope call) = me /\ kind (envelope call) = KIND_CALL) ->
    exists b, Ok (Binary b) ∈ item :: l /\ decode_frame b = Ok call /\
      env_to (envelope call) = me /\ kind (envelope call) = KIND_CALL).
  { intros item l' (b & ? & ?). exists b. split; [by right|done]. }
  induction l as [|item l IH]; simpl; [by intros ?%elem_of_nil|].
  destruct item as [[ |b| | | | ]|]; try (by intros ?%elem_of_nil); try (intros; by apply Hskip, IH).
  destruct (decode_frame b) as [f|] eqn:Hb; [|intros; by apply Hskip, IH].
  destruct (String.eqb_spec (env_to (envelope f)) me); simpl; [|intros; by apply Hskip, IH].
  destruct (String.eqb_spec (kind (envelope f)) KIND_CALL).
  - intros [-> |Hin]%elem_of_cons; [exists b; split; [by left|done]|by apply Hskip, IH].
  - destruct (_ =? _)%string; [by intros ?%elem_of_nil|intros; by apply Hskip, IH].
Qed.

Lemma computed_received call r :
  computed call r -> exists b, Ok (Binary b) ∈ tail source /\ decode_frame b = Ok call /\
    env_to (envelope call) = me /\ kind (envelope call) = KIND_CALL.
Proof.
  intros (before & rs & s1 & s2 & [rest E] & _). apply calls_received. rewrite E. set_solver.
Qed.

Lemma reply_run ran rs s call r :
  replies_until_panic worker s0 ran = (rs, Some s) -> (call, r) ∈ rs ->
  exists before after rs1 s1 s2, ran = (before ++ call :: after)%list /\
    replies_until_panic worker s0 before = (rs1, Some s1) /\
    spec_reply_partial worker s1 call = Some (r, s2).
Proof.
  generalize s0 as s1. revert rs. induction ran as [|c ran IH]; simpl; intros rs s1.
  { intros [= <- _] ?%elem_of_nil. done. }
  destruct (spec_reply_partial worker s1 c) as [[r1 s2]|] eqn:Ec; [|done].
  destruct (replies_until_panic worker s2 ran) as [rs1 o] eqn:E. intros [= <- ->].
  intros [[= -> ->]|Hin]%elem_of_cons.
  - exists [], ran, [], s1, s2. done.
  - destruct (IH _ _ E Hin) as (before & after & rs2 & s3 & s4 & -> & Hb & Hr).
    exists (c :: before), after, ((c, r1) :: rs2), s3, s4. split; [done|]. simpl. by rewrite Ec, Hb.
Qed.

(** * Runs *)

Hypothesis Hme : resolve_peer_id h env ctx = Ok me.

Lemma run_service_solo w :
  service_view w = ([], s0) ->
  ssolo (fun _ _ => True) (run_service_async h env ctx (Ok tt) (Ok tt) source) w.
Proof.
  intros Hw. assert (HI : service_inv w) by by left.
  unfold run_service_async. rewrite Hme. cbn [lift_try connect_ws map_err].
  apply ssolo_id; [done|]. intros fresh w1 H1. rewrite Hw in H1.
  apply ssolo_clock; [by left|]. intros now w2 H2. rewrite H1 in H2.
  cbn [bind]. destruct (register_frame me Service fresh (now_ts now)) as [reg|] eqn:Hreg;
    cbn [lift_try]; [|by apply solo_ret].
  assert (Hp : progress [] [] (map Binary [reg], s0)).
  { split; [apply prefix_nil| |done]. exists []. split; [done|]. exists reg, [], [].
    split; [done|]. split; [by exists fresh, (now_ts now)|]. split; [done|constructor]. }
  injection H2 as Hw2 Hs2. apply ssolo_send; [by left; unfold service_view; congruence| | |].
  - rewrite Hw2, Hs2. right. exists [], []. by split; [simpl; lia|].
  - intros err w3 _. by apply solo_ret.
  - intros w3 H3. rewrite Hw2, Hs2 in H3. cbn [bind map_err].
    destruct (register_reply (head source)) as [ack|]; cbn [lift_try]; [|by apply solo_ret].
    destruct (accepted ack); cbn [negb]; [|by apply solo_ret].
    apply ssolo_bind. eapply (solo_weaken _ _ undisturbed);
      [|apply (service_loop_solo (tail source) []); [by rewrite H3|done]].
    intros ? w4 [ran Hran]. apply ssolo_bind. eapply (solo_weaken _ _ undisturbed);
      [|by eapply farewell_solo]. intros ? ? _. by apply solo_ret.
Qed.

Lemma service_inv_reachable st :
  service_reachable st -> service_inv (s_world st).
Proof.
  intros Hst. assert (H : service_inv (s_world st) /\ ssolo (fun _ _ => True) (s_prog st) (s_world st));
    [|apply H]. revert Hst.
  apply (star_invariant _ (fun st => service_inv (s_world st) /\
    ssolo (fun _ _ => True) (s_prog st) (s_world st))).
  - intros [p [w s]] st' [HI Hp] [[|err|now] Ha]; cbn [s_prog s_world] in *; unfold apply_saction in Ha; cbn [s_prog s_world] in Ha.
    + destruct (bstep (partial_service_op worker) p (w, s)) as [[p' w']|] eqn:E; simplify_eq/=.
      by eapply (solo_bstep _ _ undisturbed).
    + simplify_eq/=. split; [done|]. by eapply (solo_mono _ _ undisturbed); [|done].
    + simplify_eq/=. split; [done|]. by eapply (solo_mono _ _ undisturbed); [|done].
  - split; [by left|]. by apply run_service_solo.
Qed.

(** * What a service writes *)

Lemma service_writes st raw :
  service_reachable st -> Binary raw ∈ wire (s_world st).1 ->
  is_register raw \/ is_farewell raw \/
  exists call r now, computed call r /\ reply_frame me now call r = Ok raw.
Proof.
  intros Hst Hin. destruct (service_inv_reachable st Hst) as [[= Hw _]|(ran & bye & _ & Hp)].
  { rewrite Hw in Hin. by apply elem_of_nil in Hin. }
  destruct Hp as [Hran (rs & Hrs & reg & sent & raws & Hw & Hreg & Hsub & Hraws) Hbye].
  simpl in Hw. rewrite Hw in Hin. apply elem_of_cons in Hin as [[= ->]|Hin]; [by left|].
  rewrite map_app in Hin. apply elem_of_app in Hin as [Hin|Hin].
  - apply list_elem_of_fmap in Hin as (raw' & [= <-] & Hin).
    apply list_elem_of_lookup in Hin as [i Hi].
    destruct (Forall2_lookup_r _ _ _ _ _ Hraws Hi) as ([call r] & Hc & now & Hf).
    right; right. exists call, r, now. split; [|done].
    assert (Hcr : (call, r) ∈ rs) by (eapply elem_of_sublist; [by eapply list_elem_of_lookup_2|done]).
    destruct (reply_run _ _ _ _ _ Hrs Hcr) as (before & after & rs1 & s1 & s2 & -> & Hb & Hr).
    exists before, rs1, s1, s2. split; [|done]. etrans; [|exact Hran].
    exists after. by rewrite <-app_assoc.
  - apply list_elem_of_fmap in Hin as (raw' & [= <-] & Hin).
    right; left. by apply (Forall_forall is_farewell bye).
Qed.

(** The first frame a service writes is its registration. *)
Lemma service_first_frame st m l :
  service_reachable st -> wire (s_world st).1 = m :: l ->
  exists raw, m = Binary raw /\ is_register raw.
Proof.
  intros Hst Hl. destruct (service_inv_reachable st Hst) as [[= Hw _]|(ran & bye & _ & Hp)];
    [by rewrite Hw in Hl|].
  destruct Hp as [_ (rs & _ & reg & sent & raws & Hw & Hreg & _) _].
  simpl in Hw. rewrite Hw in Hl. injection Hl as <- _. by exists reg.
Qed.

(** C6: whenever a service is observed, whatever its sink and its clock did,
    it has done nothing yet, or its worker has run on a prefix of the calls
    addressed to it, in order and each once, and is in the state this left it
    in; and what the service has written is its registration, then replies
    computed on the way, in order, each at most once, and at most one
    farewell. *)
Theorem service_runs_a_prefix (st : SState) (Hst : service_reachable st) :
  wire (s_world st).1 = [] /\ (s_world st).2 = s0 \/
  exists ran rs register sent raws bye,
    ran `prefix_of` calls_of me (tail source) /\
    replies_until_panic worker s0 ran = (rs, Some (s_world st).2) /\
    wire (s_world st).1 = map Binary (register :: raws ++ bye)%list /\
    is_register register /\ sent `sublist_of` rs /\ replies_to sent raws /\
    (length bye <= 1)%nat /\ Forall is_farewell bye.
Proof.
  destruct (service_inv_reachable st Hst) as [[= Hw Hs]|(ran & bye & Hlen & Hp)]; [by left|].
  right. destruct Hp as [Hran (rs & Hrs & reg & sent & raws & Hw & Hreg & Hsub & Hraws) Hbye].
  by exists ran, rs, reg, sent, raws, bye.
Qed.
End service.
End process.
