(* ===== verification/EndToEnd.v ===== *)
(** A remote call across the three components: caller transport, router and
    service, each running its own code, connected by the bytes they write. *)

From S2P Require Import Prelude Prog Float64 Wire Protocol RefCodec Registry Server RouterSpec.
From S2P Require Import Config ClientMessage CallerTransport CallerSafety Service.
From S2P Require Import ServiceSpec ClientRef.

Local Open Scope string_scope.

(** Both crates derive the same structures with the same serializer: the
    router reads what the client writes, and conversely. *)
Class Interop (CC : ClientCodec) (RC : RouterCodec) : Prop := {
  io_envelope : forall e, RoundTrips cc_envelope rc_envelope e;
  io_envelope_back : forall e, RoundTrips rc_envelope cc_envelope e;
  io_register : forall b, RoundTrips cc_register rc_register b;
  io_ack : forall b, RoundTrips rc_ack cc_ack b;
  io_query : forall q, RoundTrips cc_query rc_query q;
  io_exists : forall q, RoundTrips rc_exists cc_exists q;
  io_get : forall q, RoundTrips rc_get cc_get q;
  io_error : forall b, details b = None -> RoundTrips rc_error cc_error b;
}.

#[export] Instance ref_interop : Interop ref_client_codec ref_router_codec.
Proof.
  split; intros x; try (by apply countable_serde_laws). by apply error_serde_roundtrip.
Qed.

Section frames.
Context {CC : ClientCodec} {CCL : ClientCodecLaws CC} {RC : RouterCodec} {IO : Interop CC RC}.

(** The encoding of the envelope fits the 32-bit length. *)
Definition short (e : Envelope) : Prop :=
  forall b, @to_vec_named _ cc_envelope e = Ok b -> (Z.of_nat (length b) < 2 ^ 32)%Z.

(** A frame written by a client is read by clients and by the router. *)
Lemma client_frame_read e body raw :
  v e = PROTOCOL_VERSION -> short e -> ClientMessage.encode_frame e body = Ok raw ->
  ClientMessage.decode_frame raw = Ok (mkFrameParts e body) /\
  Protocol.decode_frame raw = Ok (mkFrameParts e body).
Proof.
  intros Hv Hshort. unfold ClientMessage.encode_frame, ClientMessage.encode_envelope.
  destruct (to_vec_named e) as [b|] eqn:Hb; cbn [map_err and_then]; [|done].
  specialize (Hshort b Hb). intros Hraw.
  match type of Hraw with Ok ?x = Ok ?y => assert (y = x) as -> by congruence end. split.
  - rewrite client_decode_frame_app by done. apply rmp_roundtrip in Hb.
    by rewrite (proj2 (client_decode_envelope_ok b e) (conj Hb Hv)).
  - rewrite Protocol.decode_frame_app by done. apply io_envelope in Hb.
    by rewrite (proj2 (Protocol.decode_envelope_ok b e) (conj Hb Hv)).
Qed.

(** The same for the router's frames, read by a client. *)
Definition router_short (e : Envelope) : Prop :=
  forall b, @to_vec_named _ rc_envelope e = Ok b -> (Z.of_nat (length b) < 2 ^ 32)%Z.

Lemma router_frame_read e body raw :
  v e = PROTOCOL_VERSION -> router_short e -> Protocol.encode_frame e body = Ok raw ->
  ClientMessage.decode_frame raw = Ok (mkFrameParts e body).
Proof.
  intros Hv Hshort. unfold Protocol.encode_frame, Protocol.encode_envelope.
  destruct (to_vec_named e) as [b|] eqn:Hb; cbn [map_err and_then]; [|done].
  specialize (Hshort b Hb). intros Hraw.
  match type of Hraw with Ok ?x = Ok ?y => assert (y = x) as -> by congruence end.
  rewrite client_decode_frame_app by done. apply io_envelope_back in Hb.
  by rewrite (proj2 (client_decode_envelope_ok b e) (conj Hb Hv)).
Qed.

(** * The router *)

Lemma exec_route_live e raw c k w r :
  registry w !! env_to e = Some r -> rec_sender r ∈ writable w ->
  exec (route_to_target e raw c k) w = (Ok tt, push_outbox (rec_sender r) raw w).
Proof.
  intros Hr Hs. unfold exec; simpl.
  unfold Registry.snapshot_peer_exists. rewrite Hr; simpl.
  unfold Registry.sender_by_peer_id. rewrite Hr; simpl.
  unfold Server.send_raw. by rewrite bool_decide_true.
Qed.

(** Traffic that the router lets through to a live target. *)
Definition traffic (from_class to_class : PeerClass) (k : string) : Prop :=
  match from_class, to_class with
  | Caller, Service => k = KIND_CALL
  | Service, Caller => k = KIND_RESPONSE \/ k = KIND_ERROR
  | _, _ => False
  end.

Lemma router_forwards c id class raw f w r :
  Protocol.decode_frame raw = Ok f -> env_from (envelope f) = id ->
  traffic class (rec_class r) (kind (envelope f)) ->
  registry w !! env_to (envelope f) = Some r -> rec_sender r ∈ writable w ->
  exec (handle_message c id class (Ok (Binary raw))) w
    = (Ok Continue, push_outbox (rec_sender r) raw w).
Proof.
  intros Hf <- Ht Hr Hs. unfold handle_message. rewrite Hf. cbn [lift_try].
  unfold dispatch. rewrite String.eqb_refl. cbn [negb].
  assert (Hroute : forall k, exec (route_to_target (envelope f) raw c k) w
            = (Ok tt, push_outbox (rec_sender r) raw w)) by (intros; by apply exec_route_live).
  assert (Hcheck : forall k, decide_route_target k (Some (rec_class r)) = Deliver ->
            exec (route_or_error (envelope f) raw k c) w
            = (Ok tt, push_outbox (rec_sender r) raw w)).
  { intros k Hk. unfold route_or_error, exec; cbn -[route_to_target decide_route_target].
    unfold Registry.snapshot_peer_class. rewrite Hr; cbn -[route_to_target decide_route_target].
    rewrite Hk. apply Hroute. }
  unfold traffic in Ht. destruct class, (rec_class r) eqn:Hrc; try done;
    [destruct Ht as [Hk|Hk]|rename Ht into Hk]; rewrite Hk;
    cbn -[exec bind_try handle_call handle_response handle_error];
    rewrite (exec_bind_try _ _ _ tt (push_outbox (rec_sender r) raw w)); try done.
  - apply Hroute.
  - by apply Hcheck.
  - by apply Hcheck.
Qed.

(** * The caller *)

Section caller.
Context {R : Set} (from_value : Value -> result R string) (t : CallerTransport).
Context (source : list WsItem) (ids : nat -> string).

(** A request up to the point where it waits, and its completion after one
    inbound frame: it arrives, is read, and its sender is taken and used. *)
Definition ask (q : Request) : list CAction := Start 0 q :: replicate 6 (RequestStep 0).
Definition receive : list CAction := [Arrive; InboundStep; InboundStep; InboundStep].
Definition complete : list CAction := receive ++ [RequestStep 0].

(** Several operations of one program. *)
Fixpoint bsteps {A} (n : nat) (p : callerM A) (w : CWorld) : option (callerM A * CWorld) :=
  match n with
  | O => Some (p, w)
  | S n => '(p', w') ← bstep caller_op p w; bsteps n p' w'
  end.

Lemma run_requests n q p p' inb w w' ar tk :
  bsteps n p w = Some (p', w') ->
  run_cactions from_value t (replicate n (RequestStep 0)) (mkCState {[0%nat := (q, p)]} inb w ar tk)
    = Some (mkCState {[0%nat := (q, p')]} inb w' ar tk).
Proof.
  revert p w. induction n as [|n IH]; intros p w; simpl; [by intros [= -> ->]|].
  rewrite lookup_singleton_eq; simpl.
  destruct (bstep caller_op p w) as [[p1 w1]|]; simpl; [|done].
  rewrite insert_singleton_eq. apply IH.
Qed.

(** A request that has written its frame: [reply] is what it makes of the
    answer. *)
Definition waiting {X : Set} (reply : FrameParts -> MResult X) (out : MResult X -> Outcome)
    (ch : nat) : callerM (Outcome (R := R)) :=
  Do (Recv ch (request_timeout t)) (fun x =>
    bind
      (bind_try
         match x with
         | RecvElapsed => Ret (Err TimeoutError)
         | RecvValue r => Ret r
         | RecvClosed => Ret (Err (RouterUnavailable (router_endpoint t)))
         end
         (fun frame => Ret (reply frame)))
      (fun r => Ret (out r))).

Definition filed_world (raw_call : bytes) : CWorld :=
  mkCWorld false {[ids 0%nat := 0%nat]} {[0%nat := Open]} 1 {[0%nat := ids 0%nat]}
    [Binary raw_call] None ids 1 0 ∅ true false.

Definition answered_world (raw_call : bytes) (frame : FrameParts) : CWorld :=
  mkCWorld false ∅ {[0%nat := Sent (Ok frame)]} 1 {[0%nat := ids 0%nat]}
    [Binary raw_call] None ids 1 0 ∅ true false.

Lemma call_waits target f a body raw_call :
  encode_call_body (mkCallBody f a None) = Ok body ->
  ClientMessage.encode_frame
    (build_call_envelope (peer_id t) target (ids 0%nat) (ClientMessage.now_ts 0)) body = Ok raw_call ->
  bsteps 6 (serve_request from_value t (RCallTo target f a)) (connected_world ids)
    = Some (waiting (call_reply from_value) OCall 0, filed_world raw_call).
Proof.
  intros Hbody Hcall. cbn -[new_chan pending_insert push_wire call_reply ClientMessage.now_ts].
  unfold call_to. rewrite Hbody.
  cbn -[new_chan pending_insert push_wire call_reply ClientMessage.now_ts].
  rewrite Hcall. cbn -[new_chan pending_insert push_wire call_reply ClientMessage.now_ts].
  reflexivity.
Qed.

Lemma inbound_answers reqs raw_call raw_reply frame rest :
  ClientMessage.decode_frame raw_reply = Ok frame -> msg_id (envelope frame) = ids 0%nat ->
  run_cactions from_value t receive
    (mkCState reqs (inbound_loop (Ok (Binary raw_reply) :: rest) (router_endpoint t))
       (filed_world raw_call) 0 0)
    = Some (mkCState reqs (inbound_loop rest (router_endpoint t))
              (answered_world raw_call frame) 1 1).
Proof.
  intros Hdec Hid. cbn. rewrite Hdec, Hid. cbn.
  rewrite lookup_singleton_eq. cbn. rewrite delete_singleton_eq. cbn.
  unfold oneshot_send. cbn. rewrite lookup_singleton_eq. cbn.
  unfold set_chan, set_pending, answered_world. cbn. by rewrite insert_singleton_eq.
Qed.

Lemma run_cactions_app l1 l2 st :
  run_cactions from_value t (l1 ++ l2) st = run_cactions from_value t l1 st ≫= run_cactions from_value t l2.
Proof.
  revert st. induction l1 as [|x l1 IH]; intros st; simpl; [done|].
  destruct (apply_caction from_value t x st); simpl; [apply IH|done].
Qed.

(** A request that has written its frame and waits. *)
Lemma asked_state {X : Set} q (reply : FrameParts -> MResult X) out raw :
  bsteps 6 (serve_request from_value t q) (connected_world ids)
    = Some (waiting reply out 0, filed_world raw) ->
  run_cactions from_value t (ask q) (caller_init t source ids)
    = Some (mkCState {[0%nat := (q, waiting reply out 0)]}
              (inbound_loop source (router_endpoint t)) (filed_world raw) 0 0).
Proof. by apply (run_requests 6 q (serve_request from_value t q)). Qed.

(** A request and its answer: it writes one frame, and the first frame that
    arrives under its id completes it. *)
Lemma request_round_trip {X : Set} q (reply : FrameParts -> MResult X) out raw raw_reply frame rest :
  bsteps 6 (serve_request from_value t q) (connected_world ids)
    = Some (waiting reply out 0, filed_world raw) ->
  ClientMessage.decode_frame raw_reply = Ok frame ->
  msg_id (envelope frame) = ids 0%nat ->
  exists st st',
    run_cactions from_value t (ask q) (caller_init t (Ok (Binary raw_reply) :: rest) ids)
      = Some st /\
    wire (cworld st) = [Binary raw] /\
    run_cactions from_value t complete st = Some st' /\
    requests st' !! 0%nat = Some (q, Ret (out (reply frame))).
Proof.
  intros Hask Hdec Hid.
  exists (mkCState {[0%nat := (q, waiting reply out 0)]}
            (inbound_loop (Ok (Binary raw_reply) :: rest) (router_endpoint t)) (filed_world raw) 0 0).
  eexists. split; [|split; [done|split]].
  - by apply (run_requests 6 q (serve_request from_value t q)).
  - unfold complete. rewrite run_cactions_app, (inbound_answers _ _ _ frame) by done.
    apply (run_requests 1 _ _ (Ret (out (reply frame)))).
    cbn. unfold recv. cbn. by rewrite lookup_singleton_eq.
  - cbn. by rewrite lookup_singleton_eq.
Qed.
End caller.

(** * The whole path *)

(** What the caller makes of the worker's answer. *)
Definition caller_view {R : Set} (from_value : Value -> result R string) (r : MResult Value) :
    MResult R :=
  match r with
  | Ok x => map_err JsonError (from_value x)
  | Err e => Err (RemoteCallError (MultifrostError_display e))
  end.

Section path.
Context {R : Set} (from_value : Value -> result R string).
Context {St : Type} (worker : St -> string -> list Value -> MResult Value * St).

Lemma answer_read peer now call x raw :
  short (mkEnvelope PROTOCOL_VERSION (reply_kind x) (msg_id (envelope call)) peer
           (env_from (envelope call)) now) ->
  reply_frame peer now call x = Ok raw ->
  exists f, ClientMessage.decode_frame raw = Ok f /\ Protocol.decode_frame raw = Ok f /\
    envelope f = mkEnvelope PROTOCOL_VERSION (reply_kind x) (msg_id (envelope call)) peer
                   (env_from (envelope call)) now /\
    encode_reply_body x = Ok (body_bytes f).
Proof.
  unfold reply_frame. destruct (encode_reply_body x) as [body|] eqn:Hb; simpl; [|done].
  intros Hs Hraw. eapply client_frame_read in Hraw as [H1 H2]; [|done|done].
  eexists. split; [exact H1|]. split; [exact H2|]. done.
Qed.

Lemma reply_understood f (r : MResult Value) :
  let x := match r with
           | Ok x => Answer x
           | Err e => Failure (mkErrorBody "application_error" (MultifrostError_display e)
                                 "application" None None)
           end in
  (forall y, r = Ok y -> RoundTrips cc_response cc_response (mkResponseBody y)) ->
  kind (envelope f) = reply_kind x -> encode_reply_body x = Ok (body_bytes f) ->
  call_reply from_value f = caller_view from_value r.
Proof.
  intros x Hrt Hk Hb. unfold call_reply, reject_error_frame. rewrite Hk.
  destruct r as [y|e]; simpl in *.
  - apply map_err_ok in Hb. apply (Hrt y eq_refl) in Hb.
    unfold decode_response_body. rewrite Hb. done.
  - apply map_err_ok in Hb. apply ccl_error in Hb; [|done].
    unfold decode_router_or_peer_error, decode_error_body. rewrite Hb. done.
Qed.

(** A call from the caller registered by [rp] to the service registered by [rq]
    has gone round: what every component did, and the outcome [out]. *)
Definition call_goes_round (t : CallerTransport) (ids : nat -> string) (q f : string)
    (a : list Value) (rest : list WsItem) (w : World) (rp rq : PeerRecord) (ws : CWorld)
    (s s' : St) (out : MResult R) : Prop :=
  exists raw_call raw_reply st st',
    run_cactions from_value t (ask (RCallTo q f a))
      (caller_init t (Ok (Binary raw_reply) :: rest) ids) = Some st /\
    wire (cworld st) = [Binary raw_call] /\
    exec (handle_message (rec_sender rp) (peer_id t) Caller (Ok (Binary raw_call))) w
      = (Ok Continue, push_outbox (rec_sender rq) raw_call w) /\
    srun worker (service_loop q [Ok (Binary raw_call)]) (ws, s)
      = Some (tt, (push_wire (Binary raw_reply) ws, s')) /\
    exec (handle_message (rec_sender rq) q Service (Ok (Binary raw_reply))) w
      = (Ok Continue, push_outbox (rec_sender rp) raw_reply w) /\
    run_cactions from_value t complete st = Some st' /\
    requests st' !! 0%nat = Some (RCallTo q f a, Ret (OCall (out))).

Lemma remote_call_path (t : CallerTransport) (ids : nat -> string) (q f : string)
    (a : list Value) (rest : list WsItem) (w : World) (rp rq : PeerRecord)
    (ws : CWorld) (s : St)
    (Hp : registry w !! peer_id t = Some rp) (Hpc : rec_class rp = Caller)
    (Hps : rec_sender rp ∈ writable w)
    (Hq : registry w !! q = Some rq) (Hqc : rec_class rq = Service)
    (Hqs : rec_sender rq ∈ writable w)
    (Hws : sink_error ws = None) (body : bytes)
    (Hbody : encode_call_body (mkCallBody f a None) = Ok body)
    (Hbody_rt : decode_call_body body = Ok (mkCallBody f a None))
    (Hresult_rt : forall y, (worker s f a).1 = Ok y ->
       RoundTrips cc_response cc_response (mkResponseBody y))
    (Hshort_call : short (build_call_envelope (peer_id t) q (ids 0%nat) (ClientMessage.now_ts 0)))
    (Hshort_reply : forall k, k = KIND_RESPONSE \/ k = KIND_ERROR ->
       short (mkEnvelope PROTOCOL_VERSION k (ids 0%nat) q (peer_id t)
                (ClientMessage.now_ts (clock ws)))) :
  let (r, s') := worker s f a in
  call_goes_round t ids q f a rest w rp rq ws s s' (caller_view from_value r).
Proof.
  destruct (worker s f a) as [r s'] eqn:Hworker.
  simpl in Hresult_rt.
  set (e := build_call_envelope (peer_id t) q (ids 0%nat) (ClientMessage.now_ts 0)).
  destruct (client_encode_frame_total e body) as [raw_call Hcall].
  destruct (client_frame_read e body raw_call eq_refl Hshort_call Hcall) as [Hc1 Hc2].
  set (call := mkFrameParts e body).
  destruct (srun_handle_call_frame worker q call ws s Hws) as (raw_reply & Hreply & Hserve).
  assert (Hspec : spec_reply worker s call =
    (match r with
     | Ok x => Answer x
     | Err e => Failure (mkErrorBody "application_error" (MultifrostError_display e)
                           "application" None None)
     end, s')).
  { unfold spec_reply. simpl. rewrite Hbody_rt. simpl. by rewrite Hworker. }
  rewrite Hspec in Hreply, Hserve. simpl in Hreply, Hserve.
  apply answer_read in Hreply as (fr & Hf1 & Hf2 & Hfe & Hfb);
    [|apply Hshort_reply; destruct r; auto].
  assert (Hview : call_reply from_value fr = caller_view from_value r)
    by (eapply reply_understood; [exact Hresult_rt|by rewrite Hfe|exact Hfb]).
  destruct (request_round_trip from_value t ids (RCallTo q f a) (call_reply from_value) OCall
              raw_call raw_reply fr rest) as (st & st' & H1 & H2 & H3 & H4); try done.
  { by apply (call_waits from_value t ids q f a body). }
  { by rewrite Hfe. }
  exists raw_call, raw_reply, st, st'. rewrite <- Hview.
  split; [done|]. split; [done|]. split.
  { apply (router_forwards _ _ _ _ call); try done. by rewrite Hqc. }
  split.
  { cbn -[handle_call_frame bind srun]. rewrite Hc1. cbn -[handle_call_frame bind srun].
    rewrite String.eqb_refl. cbn -[handle_call_frame bind srun].
    rewrite (srun_bind worker). fold call. by rewrite Hserve. }
  split; [|done].
  apply (router_forwards _ _ _ _ fr); try done; rewrite ?Hfe; try done.
  rewrite Hpc. by destruct r; [left|right].
Qed.
(** C13: a remote call goes all the way round.  A caller registered as [p] on
    connection [cs] calls a function of the service [q] registered on
    connection [ss].  The call writes one frame; the router, handling it as
    the next message of [cs], forwards exactly these bytes to [ss]; the
    service, receiving them, runs the worker once and writes one reply; the
    router forwards the reply's bytes to [cs]; and the call completes there
    with the worker's result, or with its error text as a
    [RemoteCallError]. *)
Theorem remote_call_end_to_end (t : CallerTransport) (ids : nat -> string) (q f : string)
    (a : list Value) (rest : list WsItem) (w : World) (rp rq : PeerRecord)
    (ws : CWorld) (s : St)
    (Hp : registry w !! peer_id t = Some rp) (Hpc : rec_class rp = Caller)
    (Hps : rec_sender rp ∈ writable w)
    (Hq : registry w !! q = Some rq) (Hqc : rec_class rq = Service)
    (Hqs : rec_sender rq ∈ writable w)
    (Hws : sink_error ws = None) (body : bytes)
    (Hbody : encode_call_body (mkCallBody f a None) = Ok body)
    (Hbody_rt : decode_call_body body = Ok (mkCallBody f a None))
    (Hresult_rt : forall y, (worker s f a).1 = Ok y ->
       RoundTrips cc_response cc_response (mkResponseBody y))
    (Hshort_call : short (build_call_envelope (peer_id t) q (ids 0%nat) (ClientMessage.now_ts 0)))
    (Hshort_reply : forall k, k = KIND_RESPONSE \/ k = KIND_ERROR ->
       short (mkEnvelope PROTOCOL_VERSION k (ids 0%nat) q (peer_id t)
                (ClientMessage.now_ts (clock ws)))) :
  let (r, s') := worker s f a in
  exists raw_call raw_reply st st',
    run_cactions from_value t (ask (RCallTo q f a))
      (caller_init t (Ok (Binary raw_reply) :: rest) ids) = Some st /\
    wire (cworld st) = [Binary raw_call] /\
    exec (handle_message (rec_sender rp) (peer_id t) Caller (Ok (Binary raw_call))) w
      = (Ok Continue, push_outbox (rec_sender rq) raw_call w) /\
    srun worker (service_loop q [Ok (Binary raw_call)]) (ws, s)
      = Some (tt, (push_wire (Binary raw_reply) ws, s')) /\
    exec (handle_message (rec_sender rq) q Service (Ok (Binary raw_reply))) w
      = (Ok Continue, push_outbox (rec_sender rp) raw_reply w) /\
    run_cactions from_value t complete st = Some st' /\
    requests st' !! 0%nat = Some (RCallTo q f a, Ret (OCall (caller_view from_value r))).
Proof.
  exact (remote_call_path t ids q f a rest w rp rq ws s Hp Hpc Hps Hq Hqc Hqs Hws body Hbody Hbody_rt Hresult_rt Hshort_call Hshort_reply).
Qed.
End path.

(** * Registration *)

Section registration.
Context {RCL : RouterCodecLaws RC}.

(** The router's reading of a client's registration frame. *)
Lemma registration_read id class fresh now raw :
  short (build_register_envelope id class fresh now) ->
  CallerTransport.register_frame id class fresh now = Ok raw ->
  exists body, first_frame (Some (Ok (Binary raw)))
      = Ok (mkFrameParts (build_register_envelope id class fresh now) body) /\
    Protocol.decode_register_body body = Ok (mkRegisterBody id class) /\
    validate_register_envelope (build_register_envelope id class fresh now)
      (mkRegisterBody id class) = Ok tt.
Proof.
  intros Hs. unfold CallerTransport.register_frame, ClientMessage.encode_register_body.
  destruct (to_vec_named (mkRegisterBody id class)) as [body|] eqn:Hb; simpl; [|done].
  intros Hraw. destruct (client_frame_read (build_register_envelope id class fresh now) _ _ eq_refl Hs Hraw)
    as [_ Hdec].
  exists body. split; [exact Hdec|]. split.
  - unfold Protocol.decode_register_body. by rewrite (io_register _ _ Hb).
  - unfold validate_register_envelope; simpl. by rewrite String.eqb_refl.
Qed.

(** An acknowledgement of the router is an acceptance for the client. *)
Lemma ack_read e body reply :
  v e = PROTOCOL_VERSION -> kind e = KIND_RESPONSE -> router_short e ->
  Protocol.encode_register_ack_body build_ack_body = Ok body -> Protocol.encode_frame e body = Ok reply ->
  register_reply (Some (Ok (Binary reply))) = Ok build_ack_body.
Proof.
  intros Hv Hk Hs Hb Hr. simpl. rewrite (router_frame_read e body reply Hv Hs Hr). simpl.
  rewrite Hk. simpl. apply map_err_ok in Hb. unfold ClientMessage.decode_register_ack_body.
  by rewrite (io_ack _ _ Hb).
Qed.

Lemma error_frame_rejected e body reply :
  v e = PROTOCOL_VERSION -> kind e = KIND_ERROR -> router_short e ->
  Protocol.encode_frame e body = Ok reply ->
  register_reply (Some (Ok (Binary reply)))
    = Err (RegisterRejected "unexpected register reply kind: error").
Proof.
  intros Hv Hk Hs Hr. simpl. rewrite (router_frame_read e body reply Hv Hs Hr). simpl.
  by rewrite Hk.
Qed.

(** C20: registration, from the client's frame to the client's verdict.  The
    router answers a registration frame with one frame.  If the id is free it
    is registered to this connection with its class and the client accepts the
    reply; if it is live, the owner keeps it and the client reports
    [RegisterRejected] (with the reply's kind as the only detail). *)
Theorem registration_end_to_end (id : string) (class : PeerClass) (fresh : string) (now : f64)
    (raw : bytes) (c : nat) (w : World)
    (Hc : c ∈ writable w)
    (Hraw : CallerTransport.register_frame id class fresh now = Ok raw)
    (Hshort : short (build_register_envelope id class fresh now))
    (Hshort_reply : forall k to, (k, to) ∈ [(KIND_RESPONSE, id); (KIND_ERROR, ROUTER_PEER_ID)] ->
       router_short (mkEnvelope PROTOCOL_VERSION k fresh ROUTER_PEER_ID to
                       (Server.now_ts (system_time w)))) :
  exists res w' reply,
    exec (register_phase c (Some (Ok (Binary raw)))) w = (res, w') /\
    outbox w' = (outbox w ++ [(c, reply)])%list /\
    match registry w !! id with
    | None =>
        res = (Some id, Ok (Some (id, class))) /\
        registry w' = <[id := mkPeerRecord id class c true (Some (instant w))]> (registry w) /\
        register_reply (Some (Ok (Binary reply))) = Ok build_ack_body
    | Some _ =>
        res = (None, Ok None) /\ registry w' = registry w /\
        register_reply (Some (Ok (Binary reply)))
          = Err (RegisterRejected "unexpected register reply kind: error")
    end.
Proof.
  destruct (registration_read id class fresh now raw Hshort Hraw) as (body & H1 & H2 & H3).
  set (sent := Server.now_ts (system_time w)) in *.
  assert (Hack : exists b reply, Protocol.encode_register_ack_body build_ack_body = Ok b /\
    Protocol.encode_frame (mkEnvelope PROTOCOL_VERSION KIND_RESPONSE fresh ROUTER_PEER_ID id sent) b
      = Ok reply).
  { destruct (rmp_total (S := rc_ack) build_ack_body) as [b Hb]. unfold Protocol.encode_register_ack_body. rewrite Hb.
    destruct (RouterSpec.encode_frame_total (mkEnvelope PROTOCOL_VERSION KIND_RESPONSE fresh
      ROUTER_PEER_ID id sent) b) as [reply Hr]. by exists b, reply. }
  set (err := build_error_body "duplicate_peer_id" ("peer_id " +:+ id +:+ " is already live")).
  assert (Herr : exists b reply, Protocol.encode_error_body err = Ok b /\
    Protocol.encode_frame (mkEnvelope PROTOCOL_VERSION KIND_ERROR fresh ROUTER_PEER_ID
      ROUTER_PEER_ID sent) b = Ok reply).
  { destruct (rcl_error_total err) as [b Hb]. unfold Protocol.encode_error_body. rewrite Hb.
    destruct (RouterSpec.encode_frame_total (mkEnvelope PROTOCOL_VERSION KIND_ERROR fresh
      ROUTER_PEER_ID ROUTER_PEER_ID sent) b) as [reply Hr]. by exists b, reply. }
  unfold register_phase. rewrite H1. simpl. rewrite H2. simpl. rewrite H3. simpl.
  unfold exec; simpl. unfold Registry.insert_live_peer.
  destruct (registry w !! id) as [r|] eqn:Hid; simpl.
  - destruct Herr as (b & reply & Hb & Hr). fold sent. fold err.
    unfold build_envelope. rewrite Hb. cbn -[Server.now_ts register_reply].
    unfold send_frame. rewrite Hr. cbn -[Server.now_ts register_reply].
    unfold Server.send_raw. rewrite bool_decide_true by done.
    eexists _, _, reply. split; [reflexivity|]. split; [done|]. split; [done|]. split; [done|].
    eapply error_frame_rejected; [| | |exact Hr]; try done. apply Hshort_reply. set_solver.
  - destruct Hack as (b & reply & Hb & Hr). fold sent.
    unfold build_envelope. rewrite Hb. cbn -[Server.now_ts register_reply].
    unfold send_frame. rewrite Hr. cbn -[Server.now_ts register_reply].
    unfold Server.send_raw. rewrite bool_decide_true by done.
    eexists _, _, reply. split; [reflexivity|]. split; [done|]. split; [done|]. split; [done|].
    eapply ack_read; [| | |exact Hb|exact Hr]; try done. apply Hshort_reply. set_solver.
Qed.
End registration.
End frames.
