(* ===== verification/CallerLate.v ===== *)
(** A call that is filed after the inbound task has ended is never answered:
    nothing will use its sender, and without a time limit it waits forever. *)

From S2P Require Import Prelude Prog Float64 Wire Config ClientMessage CallerTransport CallerSafety.
From S2P Require Import CallerWire CallerLiveness ServiceSpec EndToEnd.

Local Open Scope string_scope.

Section caller.
Context {CC : ClientCodec} {CCL : ClientCodecLaws CC} {R : Set} (from_value : Value -> result R string).
Context (t : CallerTransport) (source : list WsItem) (ids : nat -> string).
Context (Hinj : Inj (=) (=) ids).

(** * Waiting with nobody to answer *)

Record stuck (c : nat) (q : Request) (ch : nat) (k : Received -> callerM (Outcome (R := R)))
    (id : string) (st : CState (R := R)) : Prop := {
  sk_waits : requests st !! c = Some (q, Do (Recv ch None) k);
  sk_inbound : inbound st = Ret tt;
  sk_open : chans (cworld st) !! ch = Some Open;
  sk_filed : pending (cworld st) !! id = Some ch;
}.

(** Another request neither uses nor drops the sender. *)
Lemma other_op_leaves_open ph (X : Set) (e : callerE X) w x w' ch id :
  may t ph X e -> phase_id ph <> Some id -> caller_inv source w -> labels w !! ch = Some id ->
  caller_op X e w = Some (x, w') ->
  chans w !! ch = Some Open -> chans w' !! ch = Some Open.
Proof.
  intros Hmay Hid HI Hl E Ho. destruct e; simpl in Hmay, E; try done; simplify_eq/=; try done;
    try (repeat case_match; by simplify_eq/=).
  - rewrite lookup_insert_ne; [done|]. intros <-. apply (ci_fresh _ _ HI) in Hl. lia.
  - simpl in Hid. unfold drop_sender_opt, drop_sender. repeat case_match; try done; simpl.
    rewrite lookup_insert_ne; [done|]. intros <-.
    match goal with H : pending w !! _ = Some _ |- _ => apply (ci_pending _ _ HI) in H end.
    congruence.
Qed.

Lemma stuck_step c q ch k id st a st' :
  caller_reachable from_value t source ids st -> stuck c q ch k id st ->
  apply_caction from_value t a st = Some st' -> stuck c q ch k id st'.
Proof.
  intros Hreach [Hc Hin Ho Hp] Ha.
  destruct (wire_ok_reachable from_value t source ids st Hinj Hreach) as (ph & l & Hok).
  pose proof (system_inv_reachable _ _ _ _ _ Hreach) as [HI _ _].
  pose proof (ci_pending _ _ HI _ _ Hp) as Hl.
  destruct a as [d q'|d| | | |ch'|err|now]; simpl in Ha; simplify_eq; try by split.
  - destruct (requests st !! d) eqn:Hd; simplify_eq. split; try done. simpl.
    rewrite lookup_insert_ne; [done|]. intros ->. by rewrite Hc in Hd.
  - destruct (requests st !! d) as [[q' p]|] eqn:Hd; simplify_eq/=.
    destruct (bstep caller_op p (cworld st)) as [[p' w']|] eqn:Eb; simplify_eq/=.
    assert (Hne : d <> c).
    { intros ->. rewrite Hc in Hd. simplify_eq. simpl in Eb. unfold recv in Eb. by rewrite Ho in Eb. }
    pose proof (wo_requests _ _ _ _ _ Hok _ _ _ Hd) as Hw.
    destruct p as [|X e k']; simpl in Eb; [done|]. destruct Hw as [Hmay _].
    destruct (caller_op X e (cworld st)) as [[x w1]|] eqn:E1; simplify_eq.
    pose proof (wo_requests _ _ _ _ _ Hok _ _ _ Hc) as [[id' Hph] _].
    assert (id' = id) as ->.
    { pose proof (wo_chan _ _ _ _ _ Hok c id' ch) as Hlab. rewrite Hph in Hlab.
      rewrite Hlab in Hl; [by injection Hl|by eexists|done|done]. }
    assert (Hid : phase_id (ph d) <> Some id).
    { intros Hpd. destruct (wo_drawn _ _ _ _ _ Hok d id) as (_ & _ & Huniq); [by eexists|done|].
      destruct Hne. symmetry. apply Huniq; [by eexists|by rewrite Hph]. }
    split; simpl; [by rewrite lookup_insert_ne|done|by eapply other_op_leaves_open|].
    by apply (other_op_keeps t source _ _ _ _ _ _ ch id Hmay Hid HI Hl E1).
  - rewrite Hin in Ha. by destruct (take_item _ _ _).
  - destruct (_ && _); by simplify_eq.
Qed.

Lemma stuck_star c q ch k id st st' :
  caller_reachable from_value t source ids st -> stuck c q ch k id st ->
  star (caller_step from_value t) st st' -> stuck c q ch k id st'.
Proof.
  intros Hreach Hst Hs.
  enough (caller_reachable from_value t source ids st' /\ stuck c q ch k id st') as [_ ?] by done.
  revert Hs. apply (star_invariant _ (fun st => caller_reachable from_value t source ids st /\
    stuck c q ch k id st)); [|done].
  intros st1 st2 [H1 H2] [a Ha]. split; [eapply star_snoc; [done|by exists a]|by eapply stuck_step].
Qed.

(** * The run *)

(** The caller has drawn its id and the clock, and nothing is filed. *)
Definition drawn_world (is_closed : bool) : CWorld :=
  mkCWorld is_closed ∅ ∅ 0 ∅ [] None ids 1 0 ∅ true false.

Lemma item_arrives reqs l w n :
  run_cactions from_value t [Arrive; InboundStep]
    (mkCState reqs (inbound_loop l (router_endpoint t)) w n n)
    = Some (mkCState reqs (inbound_item t l) w (S n) (S n)).
Proof.
  rewrite inbound_loop_unfold. cbn. unfold take_item. cbn [reads_next].
  by rewrite Nat.leb_refl.
Qed.

(** The task reads the whole stream and closes the transport. *)
Lemma inbound_ends reqs l n :
  exists m,
    star (caller_step from_value t)
      (mkCState reqs (inbound_loop l (router_endpoint t)) (drawn_world false) n n)
      (mkCState reqs (Ret tt) (drawn_world true) m m).
Proof.
  assert (Hclose : forall m, star (caller_step from_value t)
    (mkCState reqs (inbound_close (router_endpoint t)) (drawn_world false) m m)
    (mkCState reqs (Ret tt) (drawn_world true) m m))
    by (intros m; by apply (run_cactions_star _ _ [InboundStep; InboundStep])).
  assert (Hnext : forall l n, star (caller_step from_value t)
    (mkCState reqs (inbound_loop l (router_endpoint t)) (drawn_world false) n n)
    (mkCState reqs (inbound_item t l) (drawn_world false) (S n) (S n)))
    by (intros l' n'; eapply run_cactions_star, item_arrives).
  revert n. induction l as [|item l IH]; intros n.
  { exists (S n). by eapply star_trans; [apply Hnext|apply Hclose]. }
  destruct (IH (S n)) as [m Hm].
  destruct item as [[ |b| | | | ]|];
    try (exists (S n); by eapply star_trans; [apply Hnext|apply Hclose]).
  exists m. eapply star_trans; [apply Hnext|]. cbn [inbound_item].
  destruct (decode_frame b) as [f|]; [|exact Hm].
  eapply star_trans; [|exact Hm]. by apply (run_cactions_star _ _ [InboundStep]).
Qed.

(** A call up to the check of [closed], and from there to its wait. *)
Definition checked (raw : bytes) : callerM (Outcome (R := R)) :=
  bind
    (bind_try
       (bind (perform (OneshotChannel (ids 0%nat))) (fun ch =>
        bind (perform (PendingInsert (ids 0%nat) ch)) (fun _ =>
        bind (send_raw_frame raw) (fun sent =>
        match sent with
        | Err err => bind (perform (PendingRemove (ids 0%nat))) (fun _ => Ret (Err err))
        | Ok _ =>
            bind (perform (Recv ch (request_timeout t))) (fun received =>
            match received with
            | RecvElapsed => Ret (Err TimeoutError)
            | RecvValue r => Ret r
            | RecvClosed => Ret (Err (RouterUnavailable (router_endpoint t)))
            end)
        end))))
       (fun frame => Ret (call_reply from_value frame)))
    (fun r => Ret (OCall r)).

Lemma call_checks target f a body raw :
  encode_call_body (mkCallBody f a None) = Ok body ->
  encode_frame (build_call_envelope (peer_id t) target (ids 0%nat) (now_ts 0)) body = Ok raw ->
  bsteps 3 (serve_request from_value t (RCallTo target f a)) (connected_world ids)
    = Some (checked raw, drawn_world false).
Proof.
  intros Hbody Hcall. cbn -[call_reply now_ts]. unfold call_to. rewrite Hbody.
  cbn -[call_reply now_ts]. rewrite Hcall. reflexivity.
Qed.

Definition late_world (raw : bytes) : CWorld :=
  mkCWorld true {[ids 0%nat := 0%nat]} {[0%nat := Open]} 1 {[0%nat := ids 0%nat]}
    [Binary raw] None ids 1 0 ∅ true false.

Lemma call_waits_late raw :
  bsteps 3 (checked raw) (drawn_world true)
    = Some (waiting t (call_reply from_value) OCall 0, late_world raw).
Proof. reflexivity. Qed.

Lemma late_call_reachable q raw :
  bsteps 3 (serve_request from_value t q) (connected_world ids) = Some (checked raw, drawn_world false) ->
  exists m k, caller_reachable from_value t source ids
    (mkCState {[0%nat := (q, Do (Recv 0 (request_timeout t)) k)]} (Ret tt) (late_world raw) m m).
Proof.
  intros Hcheck. destruct (inbound_ends {[0%nat := (q, checked raw)]} source 0) as [m Hm].
  exists m. eexists. unfold caller_reachable.
  eapply star_trans; [|eapply star_trans; [exact Hm|]].
  - apply (run_cactions_star _ _ (Start 0 q :: replicate 3 (RequestStep 0))).
    by apply (run_requests from_value t 3 q (serve_request from_value t q)).
  - apply (run_cactions_star _ _ (replicate 3 (RequestStep 0))).
    apply (run_requests from_value t 3 q (checked raw)), call_waits_late.
Qed.

(** C38: a call can be filed after the drain, and then waits forever.  On every
    transport without a time limit, whatever stream the router sends and
    whatever function and arguments are called (that can be serialized), there
    is a reachable state in which the stream has ended, the inbound task has
    closed the transport, drained the pending map and returned, yet the call,
    which had read the flag before, has filed its sender and written its frame;
    and in every state reachable from that one, whatever else happens, the call
    still waits, its sender still filed. *)
Theorem late_call_waits_forever (target f : string) (a : list Value) (body : bytes)
    (Hlimit : request_timeout t = None)
    (Hbody : encode_call_body (mkCallBody f a None) = Ok body) :
  exists st raw k,
    caller_reachable from_value t source ids st /\
    inbound st = Ret tt /\ closed (cworld st) = true /\ wire (cworld st) = [Binary raw] /\
    encode_frame (build_call_envelope (peer_id t) target (ids 0%nat) (now_ts 0)) body = Ok raw /\
    forall st', star (caller_step from_value t) st st' ->
      requests st' !! 0%nat = Some (RCallTo target f a, Do (Recv 0 None) k) /\
      pending (cworld st') !! ids 0%nat = Some 0%nat.
Proof.
  destruct (client_encode_frame_total
    (build_call_envelope (peer_id t) target (ids 0%nat) (now_ts 0)) body) as [raw Hraw].
  destruct (late_call_reachable _ raw (call_checks target f a body raw Hbody Hraw)) 
    as (m & k & Hreach). rewrite Hlimit in Hreach.
  eexists _, raw, k. split; [exact Hreach|]. do 4 (split; [done|]). intros st' Hs.
  enough (stuck 0 (RCallTo target f a) 0 k (ids 0%nat) st') as [H1 _ _ H2] by done.
  eapply stuck_star; [exact Hreach| |exact Hs].
  split; cbn; by rewrite ?lookup_singleton_eq.
Qed.
End caller.
