(* ===== verification/System.v ===== *)
(** The whole system: one router, any number of callers and services, every
    component running its own code, connected by what they write.

    A run interleaves the operations of the router's connection tasks, of the
    callers' requests and inbound tasks, and of the services.  The stream of a
    connection is fixed when it starts; [network] says that what arrived in it
    was written by the other end. *)

From S2P Require Import Prelude Prog Float64 Wire Protocol Registry Server RouterSafety RouterTypes RouterRouting RouterOrder.
From S2P Require Import Config ClientMessage CallerTransport CallerSafety CallerWire.
From S2P Require Import Service ServiceSpec ServicePanic ServiceSafety EndToEnd.

Local Open Scope string_scope.

(** A caller and a service of the deployment.  A caller draws its first
    message id for its registration. *)
Record CallerPeer : Type := mkCallerPeer {
  cp_transport : CallerTransport;
  cp_uuid : nat -> string;
  cp_now : Z;
  cp_stream : list WsItem;
}.

Record ServicePeer (St : Type) : Type := mkServicePeer {
  sp_host : Host;
  sp_env : Env;
  sp_ctx : ServiceContext;
  sp_id : string;
  sp_worker : St -> string -> list Value -> option (MResult Value * St);
  sp_state : St;
  sp_uuid : nat -> string;
  sp_stream : list WsItem;
}.
Arguments mkServicePeer {St} _ _ _ _ _ _ _ _.
Arguments sp_host {St} _.
Arguments sp_env {St} _.
Arguments sp_ctx {St} _.
Arguments sp_id {St} _.
Arguments sp_worker {St} _.
Arguments sp_state {St} _.
Arguments sp_uuid {St} _.
Arguments sp_stream {St} _.

Section system.
Context {CC : ClientCodec} {RC : RouterCodec}.
Context {R : Set} (from_value : Value -> result R string) {St : Type}.

(** Peers are named by their connection at the router. *)
Context (callers : gmap nat CallerPeer) (services : gmap nat (ServicePeer St)).

(** * The transition system *)

Record System : Type := mkSystem {
  sy_router : RouterState;
  sy_callers : gmap nat (CState (R := R));
  sy_services : gmap nat (SState (St := St));
}.

Definition caller_ids (p : CallerPeer) (n : nat) : string := cp_uuid p (S n).

Definition caller_start (p : CallerPeer) : CState (R := R) :=
  caller_init (cp_transport p) (tail (cp_stream p)) (caller_ids p).

Definition service_start (p : ServicePeer St) : SState (St := St) :=
  service_init (sp_host p) (sp_env p) (sp_ctx p) (sp_stream p) (sp_uuid p) (sp_state p).

Definition system_init : System :=
  mkSystem router_init (caller_start <$> callers) (service_start <$> services).

Inductive SysAction : Type :=
| OnRouter (a : Action)
| OnCaller (c : nat) (a : CAction)
| OnService (c : nat) (a : SAction).

Definition apply_sys (a : SysAction) (st : System) : option System :=
  match a with
  | OnRouter a =>
      r ← apply_action a (sy_router st);
      Some (mkSystem r (sy_callers st) (sy_services st))
  | OnCaller c a =>
      p ← callers !! c;
      s ← sy_callers st !! c;
      s' ← apply_caction from_value (cp_transport p) a s;
      Some (mkSystem (sy_router st) (<[c := s']> (sy_callers st)) (sy_services st))
  | OnService c a =>
      p ← services !! c;
      s ← sy_services st !! c;
      s' ← apply_saction (sp_worker p) a s;
      Some (mkSystem (sy_router st) (sy_callers st) (<[c := s']> (sy_services st)))
  end.

Definition sys_step (st st' : System) : Prop := exists a, apply_sys a st = Some st'.
Definition sys_reachable (st : System) : Prop := star sys_step system_init st.

Fixpoint run_sys (l : list SysAction) (st : System) : option System :=
  match l with
  | [] => Some st
  | a :: l => st' ← apply_sys a st; run_sys l st'
  end.

Lemma run_sys_star l st st' : run_sys l st = Some st' -> star sys_step st st'.
Proof.
  revert st. induction l as [|a l IH]; simpl; intros st H.
  - simplify_eq. constructor.
  - destruct (apply_sys a st) as [st1|] eqn:E; simplify_eq/=.
    eapply star_trans; [|by apply IH]. apply star_one. by exists a.
Qed.

(** * The network *)

(** The frames the peer of connection [c] has written, and those the router
    has written to it. *)
Definition written (st : System) (c : nat) : list bytes :=
  match callers !! c, sy_callers st !! c with
  | Some p, Some s =>
      match register_frame (peer_id (cp_transport p)) Caller (cp_uuid p 0)
              (ClientMessage.now_ts (cp_now p)) with
      | Ok raw => raw :: omap payload (wire (cworld s))
      | Err _ => []
      end
  | _, _ =>
      match sy_services st !! c with
      | Some s => omap payload (wire (s_world s).1)
      | None => []
      end
  end.

Definition written_to (st : System) (c : nat) : list bytes :=
  owned c (outbox (world (sy_router st))).

(** Streams deliver in order, without loss or invention, up to the point they
    have reached; every connection belongs to a peer; no frame has 4 GiB. *)
Record network (st : System) : Prop := {
  nw_peers : forall c t, tasks (sy_router st) !! c = Some t ->
    is_Some (callers !! c) \/ is_Some (services !! c);
  nw_up : forall c t, tasks (sy_router st) !! c = Some t ->
    omap item_payload (t_source t) `prefix_of` written st c;
  nw_down_caller : forall c p, callers !! c = Some p ->
    omap item_payload (cp_stream p) `prefix_of` written_to st c;
  nw_down_service : forall c p, services !! c = Some p ->
    omap item_payload (sp_stream p) `prefix_of` written_to st c;
  nw_short : forall c raw, raw ∈ written st c \/ raw ∈ written_to st c ->
    (Z.of_nat (length raw) < 2 ^ 32)%Z;
}.

(** The same, computed. *)
Definition short_frame (raw : bytes) : bool := (Z.of_nat (length raw) <? 2 ^ 32)%Z.

Definition arrived_from (src : list WsItem) (sent : list bytes) : bool :=
  bool_decide (omap item_payload src `prefix_of` sent).

Definition is_peer (c : nat) : bool :=
  bool_decide (is_Some (callers !! c)) || bool_decide (is_Some (services !! c)).

Definition network_holds (st : System) : bool :=
  forallb (fun '(c, src) => is_peer c && arrived_from src (written st c))
    (map_to_list (t_source <$> tasks (sy_router st))) &&
  forallb (fun '(c, src) => arrived_from src (written_to st c))
    (map_to_list (cp_stream <$> callers) ++ map_to_list (sp_stream <$> services)) &&
  forallb (fun c => forallb short_frame (written st c))
    (elements (dom (sy_callers st) ∪ dom (sy_services st))) &&
  forallb (fun '(_, raw) => short_frame raw) (outbox (world (sy_router st))).

Lemma network_holds_ok st : network_holds st = true -> network st.
Proof.
  unfold network_holds. rewrite !andb_true_iff, !forallb_forall. intros [[[H1 H2] H3] H4].
  assert (Hsrc : forall c t, tasks (sy_router st) !! c = Some t ->
    is_peer c && arrived_from (t_source t) (written st c) = true).
  { intros c t Ht. apply (H1 (c, t_source t)), list_elem_of_In, elem_of_map_to_list.
    by rewrite lookup_fmap, Ht. }
  split.
  - intros c t [Hp _]%Hsrc%andb_true_iff.
    unfold is_peer in Hp. by rewrite orb_true_iff, !bool_decide_eq_true in Hp.
  - intros c t [_ Hp]%Hsrc%andb_true_iff. by apply bool_decide_eq_true in Hp.
  - intros c p Hp. apply (bool_decide_eq_true _), (H2 (c, cp_stream p)), in_app_iff. left.
    apply list_elem_of_In, elem_of_map_to_list. by rewrite lookup_fmap, Hp.
  - intros c p Hp. apply (bool_decide_eq_true _), (H2 (c, sp_stream p)), in_app_iff. right.
    apply list_elem_of_In, elem_of_map_to_list. by rewrite lookup_fmap, Hp.
  - intros c raw [Hin|Hin].
    + apply Z.ltb_lt. refine (proj1 (forallb_forall short_frame (written st c)) (H3 c _) raw _);
        [|by apply list_elem_of_In].
      apply list_elem_of_In, elem_of_elements. unfold written in Hin.
      destruct (sy_callers st !! c) eqn:Ec; [apply elem_of_union_l; by eapply elem_of_dom_2|].
      destruct (sy_services st !! c) eqn:Es; [apply elem_of_union_r; by eapply elem_of_dom_2|].
      destruct (callers !! c); by apply elem_of_nil in Hin.
    + apply Z.ltb_lt, (H4 (c, raw)), list_elem_of_In. by apply elem_of_owned.
Qed.

(** Message ids are not drawn twice ([Uuid::new_v4]); a connection has one
    peer; a service uses the id that its environment gives it. *)
Record deployment : Prop := {
  dp_uuid : forall c c' p p' n m, callers !! c = Some p -> callers !! c' = Some p' ->
    cp_uuid p n = cp_uuid p' m -> c = c' /\ n = m;
  dp_disjoint : forall c, callers !! c = None \/ services !! c = None;
  dp_id : forall c p, services !! c = Some p ->
    resolve_peer_id (sp_host p) (sp_env p) (sp_ctx p) = Ok (sp_id p);
}.

(** * Runs of the components *)

Record components_ok (st : System) : Prop := {
  co_router : reachable (sy_router st);
  co_callers : forall c p, callers !! c = Some p -> exists s, sy_callers st !! c = Some s /\
    caller_reachable from_value (cp_transport p) (tail (cp_stream p)) (caller_ids p) s;
  co_services : forall c p, services !! c = Some p -> exists s, sy_services st !! c = Some s /\
    service_reachable (sp_worker p) (sp_host p) (sp_env p) (sp_ctx p) (sp_stream p) (sp_uuid p)
      (sp_state p) s;
}.

Lemma components_reachable st : sys_reachable st -> components_ok st.
Proof.
  apply star_invariant.
  - clear st. intros st st' [Hr Hc Hs] [[a|c a|c a] Ha]; simpl in Ha.
    + destruct (apply_action a (sy_router st)) as [r|] eqn:E; simplify_eq/=.
      split; simpl; [|done|done]. eapply star_snoc; [done|]. by exists a.
    + destruct (callers !! c) as [p|] eqn:Ep; simplify_eq/=.
      destruct (sy_callers st !! c) as [s|] eqn:Es; simplify_eq/=.
      destruct (apply_caction _ _ a s) as [s'|] eqn:E; simplify_eq/=.
      split; simpl; [done| |done]. intros c' p' Ep'. destruct (decide (c' = c)) as [->|Hne].
      * simplify_eq. rewrite lookup_insert_eq. exists s'. split; [done|].
        destruct (Hc _ _ Ep) as (s1 & Hs1 & Hreach). simplify_eq.
        eapply star_snoc; [done|]. by exists a.
      * rewrite lookup_insert_ne by done. auto.
    + destruct (services !! c) as [p|] eqn:Ep; simplify_eq/=.
      destruct (sy_services st !! c) as [s|] eqn:Es; simplify_eq/=.
      destruct (apply_saction _ a s) as [s'|] eqn:E; simplify_eq/=.
      split; simpl; [done|done|]. intros c' p' Ep'. destruct (decide (c' = c)) as [->|Hne].
      * simplify_eq. rewrite lookup_insert_eq. exists s'. split; [done|].
        destruct (Hs _ _ Ep) as (s1 & Hs1 & Hreach). simplify_eq.
        eapply star_snoc; [done|]. by exists a.
      * rewrite lookup_insert_ne by done. auto.
  - split; simpl; [constructor| |]; intros c p Hp; rewrite lookup_fmap, Hp; simpl;
      (eexists; split; [done|constructor]).
Qed.

(** * What the peers have written *)

Context {CCL : ClientCodecLaws CC} {IO : Interop CC RC}.

(** A frame below 4 GiB has a length field that is right. *)
Lemma frame_short e body raw :
  ClientMessage.encode_frame e body = Ok raw -> (Z.of_nat (length raw) < 2 ^ 32)%Z -> short e.
Proof.
  unfold ClientMessage.encode_frame, ClientMessage.encode_envelope. intros H Hlen b Hb.
  rewrite Hb in H. cbn [map_err and_then] in H.
  match type of H with Ok ?x = Ok ?y => assert (y = x) as -> by congruence end.
  rewrite !length_app in Hlen. lia.
Qed.

Lemma router_frame_short e body raw :
  Protocol.encode_frame e body = Ok raw -> (Z.of_nat (length raw) < 2 ^ 32)%Z -> router_short e.
Proof.
  unfold Protocol.encode_frame, Protocol.encode_envelope. intros H Hlen b Hb.
  rewrite Hb in H. cbn [map_err and_then] in H.
  match type of H with Ok ?x = Ok ?y => assert (y = x) as -> by congruence end.
  rewrite !length_app in Hlen. lia.
Qed.

(** Both crates read the frame alike. *)
Definition reads (raw : bytes) (f : FrameParts) : Prop :=
  ClientMessage.decode_frame raw = Ok f /\ Protocol.decode_frame raw = Ok f.

Lemma client_frame_reads e body raw :
  v e = PROTOCOL_VERSION -> ClientMessage.encode_frame e body = Ok raw ->
  (Z.of_nat (length raw) < 2 ^ 32)%Z -> reads raw (mkFrameParts e body).
Proof. intros Hv He Hlen. eapply client_frame_read; [done|by eapply frame_short|done]. Qed.

(** Registration frames can always be built. *)
Lemma wire_written p : exists raw,
  register_frame (peer_id (cp_transport p)) Caller (cp_uuid p 0) (ClientMessage.now_ts (cp_now p))
    = Ok raw.
Proof.
  unfold register_frame, ClientMessage.encode_register_body.
  destruct (rmp_total (S := cc_register) (mkRegisterBody (peer_id (cp_transport p)) Caller)) as [b ->].
  apply client_encode_frame_total.
Qed.

(** [connect] ends where a caller of the system starts: its registration is
    written, under the first of its ids, which [written] and [caller_ids]
    count; nothing is pending; and the inbound task reads the rest of the
    stream. *)
Lemma connect_establishes (config : CallerTransportConfig) (p : CallerPeer) ack raw :
  cfg_peer_id config = peer_id (cp_transport p) ->
  register_reply (head (cp_stream p)) = Ok ack -> accepted ack = true ->
  register_frame (peer_id (cp_transport p)) Caller (cp_uuid p 0) (ClientMessage.now_ts (cp_now p))
    = Ok raw ->
  brun caller_op (connect config (Ok tt) (Ok tt) (cp_stream p))
    (mkCWorld false ∅ ∅ 0 ∅ [] None (cp_uuid p) 0 (cp_now p) ∅ false false)
  = Some (Ok (mkTransport (cfg_peer_id config) (cfg_default_target_peer_id config)
                (ws_url (endpoint (cfg_bootstrap config))) (cfg_request_timeout config)),
          mkCWorld false ∅ ∅ 0 ∅ [Binary raw] None (cp_uuid p) 1 (cp_now p) ∅ true false).
Proof.
  intros Hid Hreply Hack Hreg. unfold connect. cbn -[register_frame register_reply ClientMessage.now_ts].
  rewrite Hid, Hreg. cbn -[register_reply]. rewrite Hreply. cbn. by rewrite Hack, <-Hid.
Qed.

(** A frame of caller [p] under message id [id]. *)
Definition caller_says (p : CallerPeer) (id : string) (raw : bytes) : Prop :=
  exists e body, ClientMessage.encode_frame e body = Ok raw /\ v e = PROTOCOL_VERSION /\
    env_from e = peer_id (cp_transport p) /\ msg_id e = id /\
    kind e ∈ [KIND_REGISTER; KIND_CALL; KIND_QUERY; KIND_DISCONNECT].

Context (Hdep : deployment).

Lemma caller_ids_inj c p : callers !! c = Some p -> Inj (=) (=) (caller_ids p).
Proof. intros Hp n m E. by destruct (dp_uuid Hdep c c p p _ _ Hp Hp E) as [_ [= ->]]. Qed.

Section state.
Context (st : System) (Hst : sys_reachable st) (Hnet : network st).

Lemma caller_written c p :
  callers !! c = Some p ->
  exists ids, NoDup ids /\ Forall2 (fun raw id => caller_says p id raw) (written st c) ids /\
    forall id, id ∈ ids -> exists n, id = cp_uuid p n.
Proof.
  intros Hp. destruct (co_callers _ (components_reachable st Hst) c p Hp) as (s & Hs & Hreach).
  unfold written. rewrite Hp, Hs.
  destruct (register_frame _ _ _ _) as [reg|] eqn:Hreg;
    [|by exists []; split; [apply NoDup_nil_2|]; split; [constructor|intros ? ?%elem_of_nil]].
  destruct (wire_ok_reachable from_value _ _ _ s (caller_ids_inj c p Hp) Hreach)
    as (ph & l & [_ _ _ Hf Hused Hnd _ _ _]).
  exists (cp_uuid p 0 :: l). split; [|split].
  - apply NoDup_cons. split; [|done]. intros (n & _ & E)%Hused.
    by destruct (dp_uuid Hdep c c p p _ _ Hp Hp E).
  - constructor.
    + unfold register_frame in Hreg. destruct (ClientMessage.encode_register_body _) as [body|];
        [|done]. cbn [and_then] in Hreg. eexists _, body. split; [exact Hreg|].
      repeat (split; [done|]). set_solver.
    + clear -Hf. induction Hf as [|m id w l (raw & -> & e & body & He & Hv & Hfrom & Hid & Hk) Hf IH];
        [constructor|]. cbn. constructor; [|done]. exists e, body.
      repeat (split; [done|]). destruct Hk as [-> |[-> | ->]]; set_solver.
  - intros id [-> |Hin]%elem_of_cons; [by exists 0%nat|].
    destruct (Hused _ Hin) as (n & _ & ->). by exists (S n).
Qed.

(** A frame written by a caller, as everyone reads it. *)
Lemma caller_frame_read c p raw :
  callers !! c = Some p -> raw ∈ written st c ->
  exists f n, reads raw f /\ env_from (envelope f) = peer_id (cp_transport p) /\
    msg_id (envelope f) = cp_uuid p n /\
    kind (envelope f) ∈ [KIND_REGISTER; KIND_CALL; KIND_QUERY; KIND_DISCONNECT].
Proof.
  intros Hp Hin. destruct (caller_written c p Hp) as (ids & _ & Hf & Hids).
  pose proof Hin as Hin'. apply list_elem_of_lookup in Hin' as [i Hi].
  destruct (Forall2_lookup_l _ _ _ _ _ Hf Hi) as (id & Hid & e & body & He & Hv & Hfrom & Hm & Hk).
  destruct (Hids id) as [n Hn]; [by eapply list_elem_of_lookup_2|].
  exists (mkFrameParts e body), n. split; [|simpl; by rewrite <-Hn].
  apply client_frame_reads; [done|done|]. apply (nw_short _ Hnet c). by left.
Qed.

(** A caller writes no two frames under one id. *)
Lemma caller_frame_unique c p raw1 raw2 f1 f2 :
  callers !! c = Some p -> raw1 ∈ written st c -> raw2 ∈ written st c ->
  reads raw1 f1 -> reads raw2 f2 -> msg_id (envelope f1) = msg_id (envelope f2) -> raw1 = raw2.
Proof.
  intros Hp H1 H2 [Hf1 _] [Hf2 _] Heq. destruct (caller_written c p Hp) as (ids & Hnd & Hf & _).
  assert (Hread : forall raw f i, raw ∈ written st c -> ClientMessage.decode_frame raw = Ok f ->
    written st c !! i = Some raw -> ids !! i = Some (msg_id (envelope f))).
  { intros raw f i Hin Hdec Hi.
    destruct (Forall2_lookup_l _ _ _ _ _ Hf Hi) as (id & Hid & e & body & He & Hv & _ & <- & _).
    destruct (client_frame_reads e body raw Hv He) as [Hdec' _];
      [apply (nw_short _ Hnet c); by left|]. rewrite Hdec in Hdec'. injection Hdec' as ->. done. }
  pose proof H1 as Hi. pose proof H2 as Hj.
  apply list_elem_of_lookup in Hi as [i Hi]. apply list_elem_of_lookup in Hj as [j Hj].
  pose proof (Hread _ _ _ H1 Hf1 Hi) as Ei. pose proof (Hread _ _ _ H2 Hf2 Hj) as Ej.
  rewrite Heq in Ei. rewrite (NoDup_lookup _ _ _ _ Hnd Ei Ej) in Hi. congruence.
Qed.

(** [r] is the reply of service [sp] to [call]. *)
Abbreviation service_computed sp call r :=
  (computed (sp_worker sp) (sp_id sp) (sp_stream sp) (sp_state sp) call r).

(** A frame written by a service, as everyone reads it. *)
Lemma service_frame_read k sp raw :
  services !! k = Some sp -> raw ∈ written st k ->
  exists f, reads raw f /\ env_from (envelope f) = sp_id sp /\
    (kind (envelope f) = KIND_REGISTER \/ kind (envelope f) = KIND_DISCONNECT \/
     exists call r, service_computed sp call r /\ kind (envelope f) = reply_kind r /\
       msg_id (envelope f) = msg_id (envelope call) /\ encode_reply_body r = Ok (body_bytes f)).
Proof.
  intros Hsp Hin. destruct (co_services _ (components_reachable st Hst) k sp Hsp) as (s & Hs & Hreach).
  assert (Hlen : (Z.of_nat (length raw) < 2 ^ 32)%Z) by (apply (nw_short _ Hnet k); by left).
  unfold written in Hin. destruct (dp_disjoint Hdep k) as [Hc|Hc]; [|congruence].
  rewrite Hc, Hs in Hin. apply list_elem_of_omap in Hin as ([] & Hin & [= ->]).
  destruct (service_writes _ _ _ _ _ _ _ _ (dp_id Hdep k sp Hsp) s raw Hreach Hin)
    as [(id & now & Hr)|[(id & now & Hr)|(call & r & now & Hc' & Hr)]].
  - unfold register_frame in Hr. destruct (ClientMessage.encode_register_body _) as [body|];
      [|done]. cbn [and_then] in Hr. eexists. split; [by eapply client_frame_reads; [|exact Hr|]|].
    split; [done|]. by left.
  - eexists. split; [by eapply client_frame_reads; [|exact Hr|]|].
    split; [done|]. right; by left.
  - unfold reply_frame in Hr. destruct (encode_reply_body r) as [body|] eqn:Hb; [|done].
    cbn [and_then] in Hr. eexists. split; [by eapply client_frame_reads; [|exact Hr|]|].
    split; [done|]. right; right. by exists call, r.
Qed.

(** * Routes *)

(** A frame written by the router to [c]: one of the peer of [a], or the
    router's own, for [c]. *)
Lemma delivered c raw :
  raw ∈ written_to st c ->
  exists a t, tasks (sy_router st) !! a = Some t /\
    (passed_on (registered_as (sy_router st)) (t_source t) c raw \/
     a = c /\ own_frame (looked_up (sy_router st)) (t_source t) raw).
Proof.
  pose proof (co_router _ (components_reachable st Hst)) as Hr.
  unfold written_to. rewrite (outbox_history _ Hr). intros Hin%elem_of_owned.
  apply list_elem_of_fmap in Hin as ([[a s] b] & [= <- <-] & Hin).
  destruct (ri_history _ (routing_inv_reachable _ Hr) _ _ _ Hin) as (t & Ht & H).
  exists a, t. split; [done|]. destruct H as [H|[-> H]]; auto.
Qed.

Lemma source_written c t raw :
  tasks (sy_router st) !! c = Some t -> RouterSafety.received (t_source t) raw -> raw ∈ written st c.
Proof.
  intros Ht Hin. destruct (nw_up _ Hnet c t Ht) as [rest ->]. apply elem_of_app. left.
  by apply elem_of_payloads, list_elem_of_In.
Qed.

(** A frame passed on was written by its sender, whom everyone knows. *)
Lemma passed_written a t c raw :
  tasks (sy_router st) !! a = Some t ->
  passed_on (registered_as (sy_router st)) (t_source t) c raw ->
  raw ∈ written st a /\ exists f class, Protocol.decode_frame raw = Ok f /\
    routable class (kind (envelope f)) /\ registered_as (sy_router st) c (env_to (envelope f)).
Proof.
  intros Ht [(q & cl & Hid & Hr & f & Hf & Hq & Hk) Hto]. split.
  - apply (source_written a t); [done|]. unfold RouterSafety.received in *.
    destruct (t_source t); [done|by right].
  - exists f, cl. auto.
Qed.

(** The router's own frames, as the peers read them: an error of the router,
    or the answer to a frame of [c] that is not a call. *)
Lemma own_frame_read c t raw f :
  tasks (sy_router st) !! c = Some t -> own_frame (looked_up (sy_router st)) (t_source t) raw -> raw ∈ written_to st c ->
  ClientMessage.decode_frame raw = Ok f ->
  kind (envelope f) = KIND_ERROR /\
    (exists code m, Protocol.encode_error_body (build_error_body code m) = Ok (body_bytes f)) \/
  kind (envelope f) <> KIND_CALL /\ exists raw0 f0, raw0 ∈ written st c /\ 
    Protocol.decode_frame raw0 = Ok f0 /\ msg_id (envelope f0) = msg_id (envelope f) /\
    kind (envelope f0) <> KIND_CALL /\
    (kind (envelope f0) = KIND_QUERY ->
       answers_query (looked_up (sy_router st)) f0 (body_bytes f)).
Proof.
  intros Ht (e & body & He & Hv & _ & Hk) Hin Hf.
  assert (Hlen : (Z.of_nat (length raw) < 2 ^ 32)%Z) by (apply (nw_short _ Hnet c); by right).
  rewrite (router_frame_read e body raw Hv (router_frame_short _ _ _ He Hlen) He) in Hf.
  injection Hf as <-. simpl. destruct Hk as [(Hk & _ & code & m & Hb & _)|(b & f0 & Hb & Hf0 & Hid & Hk & _ & Hq)];
    [left; split; [done|by exists code, m]|].
  right. split; [destruct Hk as [[_ ->]|[_ ->]]; done|].
  exists b, f0. split; [by apply (source_written c t)|]. split; [done|]. split; [done|].
  split; [destruct Hk as [[[-> |[-> | ->]] _]|[-> _]]; done|done].
Qed.

(** Calls come from callers. *)
Lemma call_from_caller c raw f :
  raw ∈ written_to st c -> ClientMessage.decode_frame raw = Ok f -> kind (envelope f) = KIND_CALL ->
  exists a p, callers !! a = Some p /\ raw ∈ written st a /\ reads raw f.
Proof.
  intros Hin Hf Hk. destruct (delivered c raw Hin) as (a & t & Ht & [Hp|[-> Hown]]).
  - destruct (passed_written a t c raw Ht Hp) as [Hw _].
    destruct (nw_peers _ Hnet a t Ht) as [[p Ha]|[sp Ha]].
    + destruct (caller_frame_read a p raw Ha Hw) as (f' & n & [H1 H2] & _).
      exists a, p. split; [done|]. split; [done|]. split; congruence.
    + destruct (service_frame_read a sp raw Ha Hw) as (f' & [H1 _] & _ & Hk').
      assert (f' = f) as -> by congruence. rewrite Hk in Hk'.
      destruct Hk' as [?|[?|(call & r & _ & ? & _)]]; [done|done|by destruct r].
  - destruct (own_frame_read c t raw f Ht Hown Hin Hf) as [[H _]|[H _]]; by rewrite Hk in H.
Qed.

(** The id a caller introduced itself with. *)
Lemma caller_registered c p q :
  callers !! c = Some p -> registered_as (sy_router st) c q -> q = peer_id (cp_transport p).
Proof.
  intros Hp (t & class & Ht & Hid). unfold identity_of in Hid.
  destruct (co_callers _ (components_reachable st Hst) c p Hp) as (s & Hs & _).
  destruct (t_source t) as [|[[ |b| | | | ]|] src] eqn:Hsrc; try done.
  destruct (nw_up _ Hnet c t Ht) as [rest Hup]. rewrite Hsrc in Hup. cbn in Hup.
  assert (Hb : b ∈ written st c) by (rewrite Hup; by left).
  assert (Hlen : (Z.of_nat (length b) < 2 ^ 32)%Z) by (apply (nw_short _ Hnet c); by left).
  clear Hb. unfold written in Hup. rewrite Hp, Hs in Hup.
  destruct (register_frame _ _ _ _) as [reg|] eqn:Hreg; [|done]. injection Hup as -> _.
  pose proof Hreg as Henc. unfold register_frame in Henc.
  destruct (ClientMessage.encode_register_body _) as [body|]; [|done]. cbn [and_then] in Henc.
  destruct (registration_read _ _ _ _ b (frame_short _ _ _ Henc Hlen) Hreg) as (body' & H1 & H2 & _).
  cbn [hd_error] in Hid. rewrite H1 in Hid. cbn [body_bytes] in Hid. rewrite H2 in Hid. by injection Hid.
Qed.

(** * Requests *)

(** A request that was answered: its frame was written, and a frame under its
    id was delivered. *)
Lemma answered_exchange c p s k to body (P : FrameParts -> Prop) :
  callers !! c = Some p -> sy_callers st !! c = Some s ->
  answered (cp_transport p) (tail (cp_stream p)) k to body P (cworld s) ->
  exists raw_q fq raw reply,
    raw_q ∈ written st c /\ reads raw_q fq /\
    kind (envelope fq) = k /\ env_to (envelope fq) = to /\ body_bytes fq = body /\
    raw ∈ written_to st c /\ ClientMessage.decode_frame raw = Ok reply /\
    msg_id (envelope reply) = msg_id (envelope fq) /\ P reply.
Proof.
  intros Hp Hs (fresh & now & raw_q & reply & Henc & Hw & (raw & Hsrc & Hdec) & Hid & HP).
  assert (Hwritten : raw_q ∈ written st c).
  { unfold written. rewrite Hp, Hs. destruct (wire_written p) as [reg ->]. right.
    apply list_elem_of_omap. by exists (Binary raw_q). }
  assert (Hlen : (Z.of_nat (length raw_q) < 2 ^ 32)%Z) by (apply (nw_short _ Hnet c); by left).
  eexists raw_q, _, raw, reply. split; [done|].
  split; [by eapply client_frame_reads; [|exact Henc|]|]. repeat (split; [done|]).
  split; [|done]. destruct (nw_down_caller _ Hnet c p Hp) as [rest ->]. apply elem_of_app. left.
  apply elem_of_payloads. destruct (cp_stream p); [done|by right].
Qed.

(** What [CallerSafety] knows of a request that returned. *)
Lemma returned_answered c p s n q o :
  callers !! c = Some p -> sy_callers st !! c = Some s -> requests s !! n = Some (q, Ret o) ->
  request_answered from_value (cp_transport p) (tail (cp_stream p)) q o (cworld s).
Proof.
  intros Hp Hs Hq. destruct (co_callers _ (components_reachable st Hst) c p Hp) as (s' & Hs' & Hreach).
  assert (s' = s) as -> by congruence.
  destruct (system_inv_reachable _ _ _ _ _ Hreach) as [HI _ Hreq].
  assert (Hg : grows (cworld s) (cworld s)) by by split.
  exact (Hreq n _ _ Hq (cworld s) Hg HI).
Qed.

(** The target, function and arguments of a call. *)
Definition asks (t : CallerTransport) (q : Request) (target f : string) (a : list Value) : Prop :=
  q = RCallTo target f a \/ q = RCall f a /\ default_target_peer_id t = Some target.

Lemma completed_call c p s n q target f a r :
  callers !! c = Some p -> sy_callers st !! c = Some s ->
  requests s !! n = Some (q, Ret (OCall r)) -> asks (cp_transport p) q target f a -> remote r ->
  exists body, encode_call_body (mkCallBody f a None) = Ok body /\
    answered (cp_transport p) (tail (cp_stream p)) KIND_CALL target body
      (fun frame => call_reply from_value frame = r) (cworld s).
Proof.
  intros Hp Hs Hq Hask Hr. pose proof (returned_answered c p s n q _ Hp Hs Hq) as Hans.
  destruct Hask as [-> |[-> Ht]]; simpl in Hans; [by apply Hans|].
  destruct (Hans Hr) as (target' & body & Ht' & ? & ?). simplify_eq. by exists body.
Qed.

(** Frames of callers under one id are one frame, of one caller. *)
Lemma same_id_same_frame c1 c2 p1 p2 raw1 raw2 f1 f2 :
  callers !! c1 = Some p1 -> callers !! c2 = Some p2 -> raw1 ∈ written st c1 -> raw2 ∈ written st c2 ->
  reads raw1 f1 -> reads raw2 f2 -> msg_id (envelope f1) = msg_id (envelope f2) ->
  c1 = c2 /\ raw1 = raw2 /\ f1 = f2.
Proof.
  intros Hp1 Hp2 Hw1 Hw2 Hr1 Hr2 Hid.
  destruct (caller_frame_read c1 p1 raw1 Hp1 Hw1) as (g1 & n1 & [Hg1 _] & _ & Hn1 & _).
  destruct (caller_frame_read c2 p2 raw2 Hp2 Hw2) as (g2 & n2 & [Hg2 _] & _ & Hn2 & _).
  pose proof Hr1 as [Hd1 _]. pose proof Hr2 as [Hd2 _].
  assert (g1 = f1) as -> by congruence. assert (g2 = f2) as -> by congruence.
  destruct (dp_uuid Hdep c1 c2 p1 p2 n1 n2 Hp1 Hp2) as [-> _]; [congruence|].
  assert (raw1 = raw2) as -> by by eapply caller_frame_unique.
  split; [done|]. split; [done|]. congruence.
Qed.

(** An error of the router is an error of the caller's own. *)
Lemma router_error_is_local code m f :
  kind (envelope f) = KIND_ERROR ->
  Protocol.encode_error_body (build_error_body code m) = Ok (body_bytes f) ->
  ~ remote (call_reply from_value f).
Proof.
  intros Hk Hb. unfold call_reply, reject_error_frame. rewrite Hk.
  unfold Protocol.encode_error_body in Hb. apply map_err_ok in Hb.
  unfold decode_router_or_peer_error, decode_error_body.
  rewrite (io_error (build_error_body code m) eq_refl _ Hb). intros H. by apply H.
Qed.

(** The call a service computed a reply for is the frame of the caller under
    its id. *)
Lemma computed_for c p raw_q fq k sp call r :
  callers !! c = Some p -> raw_q ∈ written st c -> reads raw_q fq ->
  services !! k = Some sp -> service_computed sp call r ->
  msg_id (envelope call) = msg_id (envelope fq) ->
  call = fq /\ kind (envelope fq) = KIND_CALL /\ sp_id sp = env_to (envelope fq).
Proof.
  intros Hp Hw Hq Hsp Hc Hid. apply computed_received in Hc as (b & Hb & Hdec & Hme & Hkc).
  assert (Hdown : b ∈ written_to st k).
  { destruct (nw_down_service _ Hnet k sp Hsp) as [rest ->]. apply elem_of_app. left.
    apply elem_of_payloads. destruct (sp_stream sp); [done|by right]. }
  destruct (call_from_caller k b call Hdown Hdec Hkc) as (c' & p' & Hp' & Hw' & Hread').
  by destruct (same_id_same_frame c' c p' p b raw_q call fq) as (_ & _ & <-).
Qed.

(** Of the frames a caller writes, only calls are passed on. *)
Lemma routable_call class k :
  k ∈ [KIND_REGISTER; KIND_CALL; KIND_QUERY; KIND_DISCONNECT] -> routable class k -> k = KIND_CALL.
Proof.
  rewrite !elem_of_cons, elem_of_nil. intros [->|[->|[->|[->|[]]]]]; [|done|..];
    destruct class; simpl; intros Hr; repeat destruct Hr as [Hr|Hr]; done.
Qed.

(** Where a frame under the id of a frame of the caller comes from: it is an
    error of the router, its answer to that very frame, the frame itself, sent
    to its own peer, or the reply of a service to that very frame. *)
Lemma reply_origin c p raw_q fq raw reply :
  callers !! c = Some p -> raw_q ∈ written st c -> reads raw_q fq ->
  raw ∈ written_to st c -> ClientMessage.decode_frame raw = Ok reply ->
  msg_id (envelope reply) = msg_id (envelope fq) ->
  (kind (envelope reply) = KIND_ERROR /\
     exists code m, Protocol.encode_error_body (build_error_body code m) = Ok (body_bytes reply)) \/
  (kind (envelope fq) <> KIND_CALL /\
     (kind (envelope fq) = KIND_QUERY ->
        answers_query (looked_up (sy_router st)) fq (body_bytes reply))) \/
  (kind (envelope fq) = KIND_CALL /\
     (env_to (envelope fq) = peer_id (cp_transport p) \/
      exists k sp r, services !! k = Some sp /\ sp_id sp = env_to (envelope fq) /\
        service_computed sp fq r /\ kind (envelope reply) = reply_kind r /\
        encode_reply_body r = Ok (body_bytes reply))).
Proof.
  intros Hp Hw Hq Hin Hreply Hid.
  destruct (delivered c raw Hin) as (a & t & Ht & [Hpass|[-> Hown]]).
  2: { destruct (own_frame_read c t raw reply Ht Hown Hin Hreply)
         as [Herr|(_ & raw0 & f0 & Hw0 & Hf0 & Hid0 & Hk0 & Hans)]; [by left|right; left].
       destruct (caller_frame_read c p raw0 Hp Hw0) as (g & _ & Hg & _).
       pose proof Hg as [_ Hg']. assert (g = f0) as -> by congruence.
       destruct (same_id_same_frame c c p p raw0 raw_q f0 fq) as (_ & _ & <-); try done.
       congruence. }
  right; right. destruct (passed_written a t c raw Ht Hpass) as (Hwa & f & class & Hf & Hroute & Hreg).
  destruct (nw_peers _ Hnet a t Ht) as [[p' Ha]|[sp Ha]].
  - destruct (caller_frame_read a p' raw Ha Hwa) as (g & n & Hg & _ & _ & Hk).
    pose proof Hg as [Hg1 Hg2]. assert (g = f) as -> by congruence.
    assert (f = reply) as -> by congruence.
    destruct (same_id_same_frame a c p' p raw raw_q reply fq) as (_ & _ & <-); try done.
    split; [|left; by apply (caller_registered c)].
    by eapply routable_call.
  - destruct (service_frame_read a sp raw Ha Hwa) as (g & [Hg1 Hg2] & _ & Hkind).
    assert (g = f) as -> by congruence. assert (f = reply) as -> by congruence.
    destruct Hkind as [E|[E|(call & r & Hc & Hkr & Hidr & Hb)]];
      [rewrite E in Hroute; by destruct class; simpl in Hroute; naive_solver..|].
    destruct (computed_for c p raw_q fq a sp call r) as (-> & Hk & Hto); try done; [congruence|].
    split; [done|]. right. by exists a, sp, r.
Qed.

(** A reply under the id of a call to another peer was computed for that very
    call by a service the call is addressed to. *)
Lemma reply_computed c p raw_call call raw reply :
  callers !! c = Some p -> raw_call ∈ written st c -> reads raw_call call ->
  kind (envelope call) = KIND_CALL -> env_to (envelope call) <> peer_id (cp_transport p) ->
  raw ∈ written_to st c -> ClientMessage.decode_frame raw = Ok reply ->
  msg_id (envelope reply) = msg_id (envelope call) -> remote (call_reply from_value reply) ->
  exists k sp r, services !! k = Some sp /\ sp_id sp = env_to (envelope call) /\
    service_computed sp call r /\ kind (envelope reply) = reply_kind r /\
    encode_reply_body r = Ok (body_bytes reply).
Proof.
  intros Hp Hw Hcall Hk Hto Hin Hreply Hid Hrem.
  destruct (reply_origin c p raw_call call raw reply) as [(Hke & code & m & Hb)|[[? _]|[_ [?|H]]]]; try done.
  by destruct (router_error_is_local code m reply Hke Hb).
Qed.
End state.

(** * The guarantee *)

(** C1: in any run of the whole system, with any number of callers and
    services whose frames reach each other over an ordered network, a call to
    another peer that completes with a result, or with the error of the other
    side, was computed for it: a service registered under the id the caller
    asked for received that very call, its worker, in the state the calls
    before it had left it in, was run on the function and the arguments the
    caller gave, and what the caller got is what this run returned. *)
Theorem completed_calls_were_computed (st : System) (c n : nat) (p : CallerPeer)
    (s : CState) (q : Request) (target f : string) (a : list Value) (r : MResult R)
    (Hst : sys_reachable st) (Hnet : network st)
    (Hp : callers !! c = Some p) (Hs : sy_callers st !! c = Some s)
    (Hq : requests s !! n = Some (q, Ret (OCall r)))
    (Hask : asks (cp_transport p) q target f a) (Hrem : remote r)
    (Hother : target <> peer_id (cp_transport p))
    (Hcall_rt : RoundTrips cc_call cc_call (mkCallBody f a None))
    (Hresult_rt : forall k sp s1 s2 y, services !! k = Some sp ->
       sp_worker sp s1 f a = Some (Ok y, s2) ->
       RoundTrips cc_response cc_response (mkResponseBody y)) :
  exists raw call k sp before rs s1 res s2,
    raw ∈ written st c /\ reads raw call /\ services !! k = Some sp /\ sp_id sp = target /\
    (before ++ [call])%list `prefix_of` calls_of target (tail (sp_stream sp)) /\
    decode_call_body (body_bytes call) = Ok (mkCallBody f a None) /\
    replies_until_panic (sp_worker sp) (sp_state sp) before = (rs, Some s1) /\
    sp_worker sp s1 f a = Some (res, s2) /\
    r = caller_view from_value res.
Proof.
  destruct (completed_call st Hst c p s n q target f a r Hp Hs Hq Hask Hrem) as (body & Hbody & Hans).
  destruct (answered_exchange st Hnet c p s _ _ _ _ Hp Hs Hans)
    as (raw_call & call & raw & reply & Hw & Hread & Hk & <- & Hb & Hin & Hdec & Hid & Hout). subst r.
  destruct (reply_computed st Hst Hnet c p raw_call call raw reply)
    as (k & sp & rep & Hsp & Hspid & (before & rs & s1 & s2 & Hpre & Hrun & Hrep) & Hkr & Hrb);
    try done.
  assert (Hc : decode_call_body (body_bytes call) = Ok (mkCallBody f a None)).
  { unfold encode_call_body in Hbody. apply map_err_ok in Hbody. rewrite Hb.
    unfold decode_call_body. by rewrite (Hcall_rt _ Hbody). }
  unfold spec_reply_partial in Hrep. rewrite Hc in Hrep. cbn in Hrep.
  destruct (sp_worker sp s1 f a) as [[res s3]|] eqn:Hworker; [|done].
  exists raw_call, call, k, sp, before, rs, s1, res, s3. rewrite Hspid in Hpre. repeat (split; [done|]).
  apply reply_understood.
  - intros y ->. by eapply Hresult_rt.
  - destruct res; by injection Hrep as <- _.
  - destruct res; by injection Hrep as <- _.
Qed.
End system.
