(* ===== verification/SystemOnce.v ===== *)
(** No call reaches a worker twice, in any run of the whole system. *)

From S2P Require Import Prelude Prog Float64 Wire Protocol Registry Server RouterSafety RouterTypes RouterRouting RouterOrder.
From S2P Require Import Config ClientMessage CallerTransport CallerSafety CallerWire.
From S2P Require Import Service ServiceSpec ServicePanic ServiceSafety EndToEnd System.

Local Open Scope string_scope.

Section once.
Context {CC : ClientCodec} {RC : RouterCodec}.
Context {R : Set} (from_value : Value -> result R string) {St : Type}.
Context (callers : gmap nat CallerPeer) (services : gmap nat (ServicePeer St)).
Context {CCL : ClientCodecLaws CC} {IO : Interop CC RC}.
Context (Hdep : deployment callers services).
Context (st : System (R := R) (St := St)).
Context (Hst : sys_reachable from_value callers services st) (Hnet : network callers services st).

(** The id of a frame that is a call. *)
Definition call_id (raw : bytes) : option string :=
  match ClientMessage.decode_frame raw with
  | Ok f => if (kind (envelope f) =? KIND_CALL)%string then Some (msg_id (envelope f)) else None
  | Err _ => None
  end.

Lemma call_id_Some raw id :
  call_id raw = Some id <-> exists f, ClientMessage.decode_frame raw = Ok f /\
    kind (envelope f) = KIND_CALL /\ msg_id (envelope f) = id.
Proof.
  unfold call_id. destruct (ClientMessage.decode_frame raw) as [f|]; [|naive_solver].
  destruct (String.eqb_spec (kind (envelope f)) KIND_CALL); naive_solver.
Qed.

(** A caller writes every id once; a service writes no call. *)
Lemma written_calls_NoDup c :
  is_Some (callers !! c) \/ is_Some (services !! c) -> NoDup (omap call_id (written callers st c)).
Proof.
  intros [[p Hp]|[sp Hsp]].
  - destruct (caller_written from_value callers services Hdep st Hst Hnet c p Hp) as (ids & Hnd & Hf & _).
    eapply sublist_NoDup; [exact Hnd|].
    assert (Hlen : Forall (fun raw => (Z.of_nat (length raw) < 2 ^ 32)%Z) (written callers st c)).
    { apply Forall_forall. intros raw Hin. apply (nw_short _ _ _ Hnet c). by left. }
    revert Hlen. generalize dependent (written callers st c). clear -CCL IO. intros l Hf.
    induction Hf as [|raw id l ids (e & body & He & Hv & _ & <- & _) Hf IH]; [done|].
    intros [Hraw Hl]%Forall_cons. csimpl.
    destruct (client_frame_reads e body raw Hv He Hraw) as [Hd _].
    destruct (call_id raw) as [id|] eqn:Hid; [|by constructor; apply IH].
    apply call_id_Some in Hid as (f & Hf' & _ & <-). rewrite Hd in Hf'. injection Hf' as <-.
    simpl. constructor. by apply IH.
  - assert (Hnil : omap call_id (written callers st c) = []).
    { destruct (omap call_id (written callers st c)) as [|id l] eqn:E; [done|].
      assert (Hin : id ∈ omap call_id (written callers st c)) by (rewrite E; by left).
      apply list_elem_of_omap in Hin as (raw & Hin & (f & Hf & Hk & _)%call_id_Some).
      destruct (service_frame_read from_value callers services Hdep st Hst Hnet c sp raw Hsp Hin)
        as (g & [Hg _] & _ & Hkg).
      assert (g = f) as -> by congruence. rewrite Hk in Hkg.
      destruct Hkg as [?|[?|(call & r & _ & ? & _)]]; [done|done|by destruct r]. }
    rewrite Hnil. apply NoDup_nil_2.
Qed.

(** * The calls the router has passed on *)

(** With the connection that sent the call and the one it went to. *)
Definition routed : list (nat * nat * string) :=
  omap (fun '(a, s, raw) => (fun id => (a, s, id)) <$> call_id raw) (history (sy_router st)).

Lemma elem_of_routed a s id :
  (a, s, id) ∈ routed <-> exists raw, (a, s, raw) ∈ history (sy_router st) /\ call_id raw = Some id.
Proof.
  unfold routed. rewrite list_elem_of_omap. split.
  - intros ([[a' s'] raw] & Hin & (id' & Hid & [= -> -> ->])%fmap_Some_1). by exists raw.
  - intros (raw & Hin & Hid). exists (a, s, raw). by rewrite Hid.
Qed.

Lemma routed_by a :
  owned a (map (fun '(a, _, id) => (a, id)) routed) =
    omap call_id ((written_by (sy_router st) a).*2).
Proof.
  unfold routed, written_by, owned.
  induction (history (sy_router st)) as [|[[a' s] raw] h IH]; csimpl; [done|].
  destruct (call_id raw) as [id|] eqn:Hid; csimpl; rewrite IH; case_decide; csimpl;
    by rewrite ?Hid.
Qed.

Lemma routed_to c :
  owned c (map (fun '(_, s, id) => (s, id)) routed) = omap call_id (written_to st c).
Proof.
  unfold written_to, routed, owned.
  rewrite (outbox_history _ (co_router _ _ _ _ (components_reachable _ _ _ _ Hst))).
  induction (history (sy_router st)) as [|[[a s] raw] h IH]; csimpl; [done|].
  destruct (call_id raw) as [id|] eqn:Hid; csimpl; rewrite IH; case_decide; csimpl;
    by rewrite ?Hid.
Qed.

(** The router's own frames are no calls. *)
Lemma made_is_no_call c raw : raw ∈ written_to st c -> made raw -> call_id raw = None.
Proof.
  intros Hin (e & body & He & Hv & _ & Hk).
  assert (Hlen : (Z.of_nat (length raw) < 2 ^ 32)%Z) by (apply (nw_short _ _ _ Hnet c); by right).
  unfold call_id. rewrite (router_frame_read e body raw Hv (router_frame_short _ _ _ He Hlen) He).
  simpl. by apply String.eqb_neq in Hk as ->.
Qed.

(** In the order the peer wrote them. *)
Lemma routed_by_sublist a :
  owned a (map (fun '(a, _, id) => (a, id)) routed) `sublist_of` omap call_id (written callers st a).
Proof.
  rewrite routed_by.
  pose proof (order_inv_reachable _ (co_router _ _ _ _ (components_reachable _ _ _ _ Hst)))
    as [Hok Hnone].
  destruct (tasks (sy_router st) !! a) as [t|] eqn:Ht;
    [|rewrite (Hnone a Ht); apply sublist_nil_l].
  destruct (Hok a t Ht) as (used & rest & Hsrc & Hrel & _).
  etrans; [apply (relays_sees _ _ _ _ Hrel)|].
  - intros raw Hin Hm. apply (made_is_no_call a); [|done].
    unfold written_to. rewrite (outbox_history _ (co_router _ _ _ _ (components_reachable _ _ _ _ Hst))).
    apply elem_of_owned, list_elem_of_fmap. exists (a, a, raw). split; [done|].
    unfold written_by in Hin. apply list_elem_of_omap in Hin as ([[a' s] b] & Hin & E).
    case_decide; by simplify_eq.
  - apply sublist_omap. etrans; [|apply prefix_sublist, (nw_up _ _ _ Hnet a t Ht)].
    assert (Htail : omap item_payload (tail (t_source t)) `sublist_of` omap item_payload (t_source t)).
    { apply sublist_omap. destruct (t_source t); [done|]. by apply sublist_inserts_l with (k := [_]). }
    etrans; [|exact Htail]. rewrite Hsrc. by apply sublist_inserts_r.
Qed.

Lemma routed_by_NoDup a : NoDup (owned a (map (fun '(a, _, id) => (a, id)) routed)).
Proof.
  destruct (tasks (sy_router st) !! a) as [t|] eqn:Ht.
  - eapply sublist_NoDup; [apply (written_calls_NoDup a), (nw_peers _ _ _ Hnet a t Ht)|].
    apply routed_by_sublist.
  - pose proof (order_inv_reachable _ (co_router _ _ _ _ (components_reachable _ _ _ _ Hst)))
      as [_ Hnone]. rewrite routed_by, (Hnone a Ht). apply NoDup_nil_2.
Qed.

(** A call passed on was written by the caller whose connection it came from. *)
Lemma routed_caller a s id :
  (a, s, id) ∈ routed -> exists p raw f, callers !! a = Some p /\ raw ∈ written callers st a /\
    reads raw f /\ msg_id (envelope f) = id.
Proof.
  intros (raw & Hin & Hid)%elem_of_routed.
  pose proof (co_router _ _ _ _ (components_reachable _ _ _ _ Hst)) as Hr.
  assert (Hto : raw ∈ written_to st s).
  { unfold written_to. rewrite (outbox_history _ Hr).
    apply elem_of_owned, list_elem_of_fmap. by exists (a, s, raw). }
  destruct (ri_history _ (routing_inv_reachable _ Hr) _ _ _ Hin) as (t & Ht & H).
  destruct H as [Hpass|[-> (e & body & He & Hv & Hfrom & Hk)]].
  - destruct (passed_written callers services st Hnet a t s raw Ht Hpass) as [Hw _].
    destruct (nw_peers _ _ _ Hnet a t Ht) as [[p Hp]|Hs].
    + destruct (caller_frame_read from_value callers services Hdep st Hst Hnet a p raw Hp Hw)
        as (f & n & Hread & _). apply call_id_Some in Hid as (f' & Hf' & _ & Hid).
      exists p, raw, f. split; [done|]. split; [done|]. split; [done|].
      destruct Hread. congruence.
    + destruct Hs as [sp Hsp]. apply call_id_Some in Hid as (f & Hf & Hk & _).
      destruct (service_frame_read from_value callers services Hdep st Hst Hnet a sp raw Hsp Hw)
        as (g & [Hg _] & _ & Hkg). assert (g = f) as -> by congruence. rewrite Hk in Hkg.
      destruct Hkg as [?|[?|(call & r & _ & ? & _)]]; [done|done|by destruct r].
  - rewrite (made_is_no_call a raw) in Hid; [done|done|]. exists e, body.
    split; [done|]. split; [done|]. split; [done|].
    destruct Hk as [[-> _]|(b & f & _ & _ & _ & [[_ ->]|[_ ->]] & _)]; done.
Qed.

(** Every call id was passed on at most once. *)
Lemma routed_NoDup : NoDup ((map (fun '(a, _, id) => (a, id)) routed).*2).
Proof.
  apply owned_NoDup; [apply routed_by_NoDup|]. intros a a' id H1 H2.
  apply list_elem_of_fmap in H1 as ([[a1 s1] id1] & [= -> ->] & (p & raw & f & Hp & Hw & Hr & Hid1)%routed_caller).
  apply list_elem_of_fmap in H2 as ([[a2 s2] id2] & [= -> ->] & (p' & raw' & f' & Hp' & Hw' & Hr' & Hid)%routed_caller).
  destruct (same_id_same_frame from_value callers services Hdep st Hst Hnet a1 a2 p p' raw raw' f f')
    as [? _]; congruence.
Qed.

Lemma routed_to_NoDup : NoDup ((map (fun '(_, s, id) => (s, id)) routed).*2).
Proof.
  assert (E : (map (fun '(_, s, id) => (s, id)) routed).*2 = (map (fun '(a, _, id) => (a, id)) routed).*2).
  { induction routed as [|[[a s] id] l IH]; csimpl; [done|by rewrite IH]. }
  rewrite E. apply routed_NoDup.
Qed.

(** * The calls the services receive *)

Lemma calls_of_ids me l :
  map (fun f => msg_id (envelope f)) (calls_of me l) `sublist_of` omap call_id (omap item_payload l).
Proof.
  induction l as [|[[ |b| | | | ]|] l IH]; csimpl; try done; try apply sublist_nil_l.
  destruct (ClientMessage.decode_frame b) as [f|] eqn:Hb.
  2: { destruct (call_id b) as [id|] eqn:Hid; [|done].
       apply call_id_Some in Hid as (f & Hf & _). congruence. }
  assert (Hskip : forall l', map (fun f => msg_id (envelope f)) l' `sublist_of` omap call_id (omap item_payload l) ->
    map (fun f => msg_id (envelope f)) l' `sublist_of`
      match call_id b with Some y => y :: omap call_id (omap item_payload l) | None => omap call_id (omap item_payload l) end).
  { intros l' H. destruct (call_id b); [by apply sublist_cons|done]. }
  destruct (env_to (envelope f) =? me)%string; simpl; [|by apply Hskip].
  destruct (String.eqb_spec (kind (envelope f)) KIND_CALL) as [Hk|Hk].
  - assert (Hid : call_id b = Some (msg_id (envelope f))) by (apply call_id_Some; by exists f).
    rewrite Hid. csimpl. by apply sublist_skip.
  - destruct (_ =? _)%string; apply Hskip; [apply sublist_nil_l|done].
Qed.

Lemma service_calls_routed k sp :
  services !! k = Some sp ->
  map (fun f => msg_id (envelope f)) (calls_of (sp_id sp) (tail (sp_stream sp))) `sublist_of`
    owned k (map (fun '(_, s, id) => (s, id)) routed).
Proof.
  intros Hsp. rewrite routed_to. etrans; [apply calls_of_ids|]. apply sublist_omap.
  etrans; [|apply prefix_sublist, (nw_down_service _ _ _ Hnet k sp Hsp)]. apply sublist_omap.
  destruct (sp_stream sp); [done|]. by apply sublist_inserts_l with (k := [_]).
Qed.

(** C2: in any run of the whole system no two of the calls that services
    receive, at one service or at two, have the same message id: a call that a
    caller wrote once is run by at most one worker, and at most once. *)
Theorem calls_run_at_most_once (k k' i j : nat) (sp sp' : ServicePeer St) (call call' : FrameParts)
    (Hk : services !! k = Some sp) (Hk' : services !! k' = Some sp')
    (Hi : calls_of (sp_id sp) (tail (sp_stream sp)) !! i = Some call)
    (Hj : calls_of (sp_id sp') (tail (sp_stream sp')) !! j = Some call')
    (Hid : msg_id (envelope call) = msg_id (envelope call')) :
  k = k' /\ i = j.
Proof.
  pose proof (service_calls_routed k sp Hk) as H1. pose proof (service_calls_routed k' sp' Hk') as H2.
  apply (f_equal (fmap (fun f => msg_id (envelope f)))) in Hi, Hj. rewrite <-list_lookup_fmap in Hi, Hj.
  assert (k = k') as <-.
  { apply (NoDup_owner _ k k' (msg_id (envelope call)) routed_to_NoDup); apply elem_of_owned.
    - eapply elem_of_sublist; [by eapply list_elem_of_lookup_2|exact H1].
    - rewrite Hid. eapply elem_of_sublist; [by eapply list_elem_of_lookup_2|exact H2]. }
  split; [done|]. simplify_eq.
  apply (NoDup_lookup (map (fun f => msg_id (envelope f)) (calls_of (sp_id sp) (tail (sp_stream sp)))) i j
    (msg_id (envelope call))); [|done|by rewrite Hid].
  eapply sublist_NoDup; [|exact H1]. eapply sublist_NoDup; [apply routed_to_NoDup|apply owned_sublist].
Qed.

(** The ids caller [c] wrote are those that came over its connection. *)
Lemma routed_written c p :
  callers !! c = Some p ->
  filter (fun id => id ∈ omap call_id (written callers st c)) (map (fun '(_, _, id) => id) routed)
    = owned c (map (fun '(a, _, id) => (a, id)) routed).
Proof.
  intros Hp.
  assert (H : forall a s id, (a, s, id) ∈ routed -> id ∈ omap call_id (written callers st c) <-> a = c).
  { intros a s id Hin. pose proof Hin as (p' & raw & f & Hp' & Hw & Hr & Hid)%routed_caller. split.
    - intros (raw' & Hw' & (f' & Hf' & _ & Hid')%call_id_Some)%list_elem_of_omap.
      destruct (caller_frame_read from_value callers services Hdep st Hst Hnet c p raw' Hp Hw')
        as (g & n & Hg & _). pose proof Hg as [Hg' _]. assert (g = f') as -> by congruence.
      destruct (same_id_same_frame from_value callers services Hdep st Hst Hnet a c p' p raw raw' f f')
        as [? _]; congruence.
    - intros ->. eapply elem_of_sublist; [|apply routed_by_sublist].
      apply elem_of_owned, list_elem_of_fmap. by exists (c, s, id). }
  unfold owned. induction routed as [|[[a s] id] l IH]; csimpl; [done|].
  rewrite filter_cons. case_decide as Hd; case_decide as Ha; subst.
  - f_equal. apply IH. intros. eapply H. by right.
  - destruct Ha. apply (H a s id); [by left|done].
  - destruct Hd. apply (H c s id); [by left|done].
  - apply IH. intros. eapply H. by right.
Qed.

(** C4: in any run of the whole system the calls of one caller that a service
    receives are in the order in which the caller wrote them. *)
Theorem calls_are_served_in_order (k c : nat) (sp : ServicePeer St) (p : CallerPeer)
    (Hk : services !! k = Some sp) (Hp : callers !! c = Some p) :
  filter (fun id => id ∈ omap call_id (written callers st c))
    (map (fun f => msg_id (envelope f)) (calls_of (sp_id sp) (tail (sp_stream sp))))
    `sublist_of` omap call_id (written callers st c).
Proof.
  etrans; [|apply routed_by_sublist]. rewrite <-(routed_written c p Hp).
  apply sublist_filter_mono. etrans; [apply (service_calls_routed k sp Hk)|].
  etrans; [apply owned_sublist|].
  induction routed as [|[[a s] id] l IH]; csimpl; [done|by apply sublist_skip].
Qed.
End once.
