(* ===== verification/SystemQueries.v ===== *)
(** What a caller is told of other peers, in any run of the whole system. *)

From S2P Require Import Prelude Prog Float64 Wire Protocol Registry Server RouterSafety RouterTypes RouterRouting RouterOrder.
From S2P Require Import Config ClientMessage CallerTransport CallerSafety CallerWire.
From S2P Require Import Service ServiceSpec ServicePanic ServiceSafety EndToEnd System.

Local Open Scope string_scope.

Section queries.
Context {CC : ClientCodec} {RC : RouterCodec}.
Context {R : Set} (from_value : Value -> result R string) {St : Type}.
Context (callers : gmap nat CallerPeer) (services : gmap nat (ServicePeer St)).
Context {CCL : ClientCodecLaws CC} {IO : Interop CC RC}.
Context (Hdep : deployment callers services).
Context (st : System (R := R) (St := St)).
Context (Hst : sys_reachable from_value callers services st) (Hnet : network callers services st).

(** A query that returned a response: the frame it was read from answers the
    query with a registry entry that the router looked up. *)
Lemma query_exchange {A} c p s x body (reply_of : FrameParts -> MResult A) (y : A) :
  callers !! c = Some p -> sy_callers st !! c = Some s ->
  encode_query_body x = Ok body ->
  answered (cp_transport p) (tail (cp_stream p)) KIND_QUERY ROUTER_PEER_ID body
    (fun frame => reply_of frame = Ok y) (cworld s) ->
  (forall frame, kind (envelope frame) = KIND_ERROR -> reply_of frame <> Ok y) ->
  exists fq reply, Protocol.decode_query_body (body_bytes fq) = Ok x /\
    answers_query (looked_up (sy_router st)) fq (body_bytes reply) /\ reply_of reply = Ok y.
Proof.
  intros Hp Hs Hbody Hans Herr.
  destruct (answered_exchange callers services st Hnet c p s _ _ _ _ Hp Hs Hans)
    as (raw_q & fq & raw & reply & Hw & Hread & Hk & _ & Hb & Hin & Hdec & Hid & Hout).
  exists fq, reply. split.
  { unfold encode_query_body in Hbody. apply map_err_ok in Hbody. rewrite Hb.
    unfold Protocol.decode_query_body. by rewrite (io_query _ _ Hbody). }
  split; [|done].
  destruct (reply_origin from_value callers services Hdep st Hst Hnet c p raw_q fq raw reply)
    as [[Hke _]|[[_ H]|[E _]]]; try done; [by destruct (Herr reply Hke)|by apply H|].
  by rewrite E in Hk.
Qed.

Lemma error_is_no_response {A} (decode : bytes -> MResult A) frame y :
  kind (envelope frame) = KIND_ERROR ->
  and_then (reject_error_frame frame) (fun _ => decode (body_bytes frame)) <> Ok y.
Proof.
  intros Hk. unfold reject_error_frame. rewrite Hk. simpl.
  by destruct (decode_router_or_peer_error (body_bytes frame)).
Qed.

(** C5: in any run of the whole system a query that succeeds says what the
    router's registry held of the peer asked for at some point of the run:
    whether it was registered, and its class. *)
Theorem queries_tell_the_truth (c n : nat) (p : CallerPeer) (s : CState) (q : string)
    (Hp : callers !! c = Some p) (Hs : sy_callers st !! c = Some s) :
  (forall y, requests s !! n = Some (RPeerExists q, Ret (OPeerExists (Ok y))) ->
     exists x, looked_up (sy_router st) q x /\
       y = mkQueryExists q (bool_decide (is_Some x)) (snap_class <$> x) (bool_decide (is_Some x))) /\
  (forall y, requests s !! n = Some (RPeerGet q, Ret (OPeerGet (Ok y))) ->
     exists x, looked_up (sy_router st) q x /\
       y = mkQueryGet q (bool_decide (is_Some x)) (snap_class <$> x)
             (default false (snap_connected <$> x))).
Proof.
  split; intros y Hq;
    pose proof (returned_answered from_value callers services st Hst c p s n _ _ Hp Hs Hq) as Hans;
    destruct (Hans I) as (body & Hbody & Ha);
    destruct (query_exchange c p s _ body _ y Hp Hs Hbody Ha) as (fq & reply & Hd & (q' & x & Hd' & H) & Hout);
    try (intros frame; apply error_is_no_response);
    rewrite Hd in Hd'; injection Hd' as <-; destruct H as [Hx Hb]; exists x; (split; [done|]).
  - unfold query_exists_reply in Hout. destruct (reject_error_frame reply); [|done]. cbn [and_then] in Hout.
    unfold encode_query_exists_response in Hb. apply map_err_ok in Hb.
    unfold decode_query_exists_response in Hout. rewrite (io_exists _ _ Hb) in Hout. by injection Hout.
  - unfold query_get_reply in Hout. destruct (reject_error_frame reply); [|done]. cbn [and_then] in Hout.
    unfold encode_query_get_response in Hb. apply map_err_ok in Hb.
    unfold decode_query_get_response in Hout. rewrite (io_get _ _ Hb) in Hout. by injection Hout.
Qed.
End queries.
