(* ===== verification/RouterAnswers.v ===== *)
(** Requests the router answers itself, from the caller to the router and
    back: queries, and calls it cannot deliver.  Together with
    [remote_call_end_to_end] this covers every way a request of a connected
    caller can end while its connection is up. *)

From S2P Require Import Prelude Prog Float64 Wire Protocol RefCodec Registry Server.
From S2P Require Import RouterSpec Config ClientMessage CallerTransport CallerSafety CallerSpec.
From S2P Require Import ClientRef EndToEnd.

Local Open Scope string_scope.

Section answers.
Context {CC : ClientCodec} {CCL : ClientCodecLaws CC} {RC : RouterCodec}
        {RCL : RouterCodecLaws RC} {IO : Interop CC RC}.
Context {R : Set} (from_value : Value -> result R string).
Context (t : CallerTransport) (ids : nat -> string) (rest : list WsItem) (c : nat).

(** The request [q] writes one frame; the router, handling it as the next
    message of the caller's connection [c], writes one frame, to [c], and goes
    on in [w']; that frame completes the request with [out]. *)
Definition answered_by_router (class : PeerClass) (q : Request) (w w' : World)
    (out : Outcome (R := R)) : Prop :=
  exists raw raw_reply st st',
    run_cactions from_value t (ask q) (caller_init t (Ok (Binary raw_reply) :: rest) ids)
      = Some st /\
    wire (cworld st) = [Binary raw] /\
    exec (handle_message c (peer_id t) class (Ok (Binary raw))) w = (Ok Continue, w') /\
    outbox w' = (outbox w ++ [(c, raw_reply)])%list /\
    run_cactions from_value t complete st = Some st' /\
    requests st' !! 0%nat = Some (q, Ret out).

Lemma answered_by_dispatch {X : Set} class q (reply : FrameParts -> MResult X) out raw fin
    raw_reply fout w w' :
  bsteps 6 (serve_request from_value t q) (connected_world ids)
    = Some (waiting t reply out 0, filed_world ids raw) ->
  Protocol.decode_frame raw = Ok fin ->
  exec (dispatch c (peer_id t) class raw fin) w = (Ok Continue, w') ->
  outbox w' = (outbox w ++ [(c, raw_reply)])%list ->
  ClientMessage.decode_frame raw_reply = Ok fout -> msg_id (envelope fout) = ids 0%nat ->
  answered_by_router class q w w' (out (reply fout)).
Proof.
  intros Hask Hin Hrouter Hout Hdec Hid.
  destruct (request_round_trip from_value t ids q reply out raw raw_reply fout rest)
    as (st & st' & H1 & H2 & H3 & H4); try done.
  exists raw, raw_reply, st, st'. split; [done|]. split; [done|]. split; [|done].
  unfold handle_message. rewrite Hin. exact Hrouter.
Qed.

(** * Queries *)

Lemma query_waits x (q : Request) {X : Set} (reply : FrameParts -> MResult X) out body raw :
  serve_request from_value t q =
    bind (lift_try (ClientMessage.encode_query_body x) (fun body =>
      bind (perform NewMsgId) (fun fresh =>
      bind (perform SystemTime) (fun now =>
      let e := build_query_envelope (peer_id t) ROUTER_PEER_ID fresh (ClientMessage.now_ts now) in
      lift_try (ClientMessage.encode_frame e body) (fun frame =>
      bind_try (send_and_wait t frame (msg_id e)) (fun frame => Ret (reply frame)))))))
      (fun r => Ret (out r)) ->
  ClientMessage.encode_query_body x = Ok body ->
  ClientMessage.encode_frame
    (build_query_envelope (peer_id t) ROUTER_PEER_ID (ids 0%nat) (ClientMessage.now_ts 0)) body
    = Ok raw ->
  bsteps 6 (serve_request from_value t q) (connected_world ids)
    = Some (waiting t reply out 0, filed_world ids raw).
Proof.
  intros -> Hbody Hraw. rewrite Hbody.
  cbn -[new_chan pending_insert push_wire ClientMessage.now_ts].
  rewrite Hraw. cbn -[new_chan pending_insert push_wire ClientMessage.now_ts]. reflexivity.
Qed.

(** The frame of a query, on both sides. *)
Lemma query_frame x :
  short (build_query_envelope (peer_id t) ROUTER_PEER_ID (ids 0%nat) (ClientMessage.now_ts 0)) ->
  exists body raw,
    ClientMessage.encode_query_body x = Ok body /\ Protocol.decode_query_body body = Ok x /\
    ClientMessage.encode_frame
      (build_query_envelope (peer_id t) ROUTER_PEER_ID (ids 0%nat) (ClientMessage.now_ts 0)) body
      = Ok raw /\
    Protocol.decode_frame raw = Ok (mkFrameParts
      (build_query_envelope (peer_id t) ROUTER_PEER_ID (ids 0%nat) (ClientMessage.now_ts 0)) body).
Proof.
  intros Hs. destruct (rmp_total (S := cc_query) x) as [body Hb].
  destruct (client_encode_frame_total (build_query_envelope (peer_id t) ROUTER_PEER_ID (ids 0%nat)
    (ClientMessage.now_ts 0)) body) as [raw Hraw].
  exists body, raw. unfold ClientMessage.encode_query_body, Protocol.decode_query_body.
  rewrite Hb, (io_query _ _ Hb). split; [done|]. split; [done|]. split; [exact Hraw|].
  by eapply client_frame_read in Hraw as [_ H].
Qed.

(** A frame of the router that answers the request, as the caller reads it. *)
Lemma reply_frame_read e enc raw :
  v e = PROTOCOL_VERSION -> router_short e ->
  and_then enc (fun body => Protocol.encode_frame e body) = Ok raw ->
  exists body, enc = Ok body /\ ClientMessage.decode_frame raw = Ok (mkFrameParts e body).
Proof.
  intros Hv Hs Hraw. apply and_then_ok in Hraw as (body & -> & Hraw).
  exists body. split; [done|]. by apply router_frame_read.
Qed.

(** The envelope of the router's answer to a query. *)
Definition query_answer_envelope : Envelope :=
  mkEnvelope PROTOCOL_VERSION KIND_RESPONSE (ids 0%nat) ROUTER_PEER_ID (peer_id t)
    (ClientMessage.now_ts 0).

Lemma query_dispatched class x body w :
  c ∈ writable w -> Registry.wf (registry w) -> Protocol.decode_query_body body = Ok x ->
  let e := build_query_envelope (peer_id t) ROUTER_PEER_ID (ids 0%nat) (ClientMessage.now_ts 0) in
  exists w', (forall raw, exec (dispatch c (peer_id t) class raw (mkFrameParts e body)) w
                          = (Ok Continue, w')) /\
    effect c w w' [spec_query (table (registry w)) (peer_id t) e x] (table (registry w)).
Proof.
  intros Hc Hwf Hx e. destruct (handle_query_refines c (peer_id t) e body x w Hc Hwf Hx)
    as (w' & Hexec & Heff).
  exists w'. split; [|exact Heff]. intros raw. unfold dispatch. cbn [envelope body_bytes].
  change (env_from e) with (peer_id t). rewrite String.eqb_refl. cbn [negb].
  change (kind e =? KIND_QUERY) with true. cbv iota.
  rewrite (exec_bind_try _ _ _ tt w'); done.
Qed.

(** C22: a query, from the caller to the router and back.  It returns exactly
    what the routing table says of the peer asked for: whether it is
    registered, under which class, and connected whenever it is registered.
    The table is left as it was. *)
Theorem queries_end_to_end (class : PeerClass) (p : string) (w : World)
    (Hc : c ∈ writable w) (Hwf : Registry.wf (registry w))
    (Hshort : short (build_query_envelope (peer_id t) ROUTER_PEER_ID (ids 0%nat)
                       (ClientMessage.now_ts 0)))
    (Hshort_reply : router_short query_answer_envelope) :
  let known := fst <$> table (registry w) !! p in
  let live := bool_decide (is_Some known) in
  (exists w', table (registry w') = table (registry w) /\
     answered_by_router class (RPeerExists p) w w' (OPeerExists (Ok (mkQueryExists p live known live)))) /\
  (exists w', table (registry w') = table (registry w) /\
     answered_by_router class (RPeerGet p) w w' (OPeerGet (Ok (mkQueryGet p live known live)))).
Proof.
  intros known live. split.
  - destruct (query_frame (PeerExists p) Hshort) as (body & raw & Hb & Hx & Hraw & Hin).
    destruct (query_dispatched class _ body w Hc Hwf Hx) as (w' & Hd & Ht & Hout & _).
    exists w'. split; [exact Ht|].
    pose proof (notice_frame_render (Server.now_ts (system_time w)) c
      (NExists PROTOCOL_VERSION (ids 0%nat) (peer_id t) (ClientMessage.now_ts 0) p known)) as Hn.
    destruct (reply_frame_read query_answer_envelope _ _ eq_refl Hshort_reply Hn) as (rb & Hrb & Hr).
    replace (Ok (mkQueryExists p live known live))
      with (query_exists_reply (mkFrameParts query_answer_envelope rb)).
    + eapply answered_by_dispatch; [by eapply query_waits|exact Hin|apply Hd|exact Hout|exact Hr|done].
    + unfold query_exists_reply, reject_error_frame. cbn.
      unfold decode_query_exists_response. apply map_err_ok in Hrb. by rewrite (io_exists _ _ Hrb).
  - destruct (query_frame (PeerGet p) Hshort) as (body & raw & Hb & Hx & Hraw & Hin).
    destruct (query_dispatched class _ body w Hc Hwf Hx) as (w' & Hd & Ht & Hout & _).
    exists w'. split; [exact Ht|].
    pose proof (notice_frame_render (Server.now_ts (system_time w)) c
      (NGet PROTOCOL_VERSION (ids 0%nat) (peer_id t) (ClientMessage.now_ts 0) p known)) as Hn.
    destruct (reply_frame_read query_answer_envelope _ _ eq_refl Hshort_reply Hn) as (rb & Hrb & Hr).
    replace (Ok (mkQueryGet p live known live))
      with (query_get_reply (mkFrameParts query_answer_envelope rb)).
    + eapply answered_by_dispatch; [by eapply query_waits|exact Hin|apply Hd|exact Hout|exact Hr|done].
    + unfold query_get_reply, reject_error_frame. cbn.
      unfold decode_query_get_response. apply map_err_ok in Hrb. by rewrite (io_get _ _ Hrb).
Qed.

(** * Calls that cannot be delivered *)

(** Why the router refuses a call to [target], and the routing table it is
    left with: a target whose connection is gone is unregistered. *)
Definition refusal (w : World) (target : string) : option (string * Table) :=
  let tbl := table (registry w) in
  match tbl !! target with
  | None => Some ("call target not found", tbl)
  | Some (Caller, _) => Some ("invalid target class", tbl)
  | Some (Service, s) =>
      if bool_decide (s ∈ writable w) then None
      else Some ("call target disconnected", delete target tbl)
  end.

Definition error_answer_envelope (w : World) : Envelope :=
  mkEnvelope PROTOCOL_VERSION KIND_ERROR (ids 0%nat) ROUTER_PEER_ID ROUTER_PEER_ID
    (Server.now_ts (system_time w)).

Lemma refused_call_dispatched target body raw text tbl w :
  c ∈ writable w -> refusal w target = Some (text, tbl) ->
  let e := build_call_envelope (peer_id t) target (ids 0%nat) (ClientMessage.now_ts 0) in
  exists code w',
    exec (dispatch c (peer_id t) Caller raw (mkFrameParts e body)) w = (Ok Continue, w') /\
    effect c w w' [Reply (NError (ids 0%nat) code text)] tbl.
Proof.
  intros Hc Href e.
  assert (Hspec : exists code, spec_route (writable w) (table (registry w)) e raw "call"
            = ([Reply (NError (ids 0%nat) code text)], tbl)).
  { unfold spec_route, refusal in *. change (env_to e) with target.
    destruct (table (registry w) !! target) as [[[] s]|]; simplify_eq/=; [|by eexists|by eexists].
    case_bool_decide; simplify_eq/=. by eexists. }
  destruct Hspec as [code Hspec].
  destruct (route_or_error_refines c e raw "call" w Hc) as (w' & Hexec & Heff); [done|].
  rewrite Hspec in Heff. exists code, w'. split; [|exact Heff].
  unfold dispatch. cbn [envelope body_bytes]. change (env_from e) with (peer_id t).
  rewrite String.eqb_refl. cbn [negb]. change (kind e =? KIND_QUERY) with false.
  change (kind e =? KIND_CALL) with true. cbv iota. cbn [handle_call].
  by rewrite (exec_bind_try _ _ _ tt w').
Qed.

(** C21: a call the router cannot deliver, from the caller to the router and
    back.  When the target is not registered, is registered as a caller, or is
    a service whose connection is gone, the call completes with
    [RouterUnavailable] and the router's reason; in the last case the router
    has unregistered the target. *)
Theorem undeliverable_call_end_to_end (target f : string) (a : list Value) (w : World)
    (text : string) (tbl : Table) (body : bytes)
    (Hc : c ∈ writable w) (Hrefused : refusal w target = Some (text, tbl))
    (Hbody : encode_call_body (mkCallBody f a None) = Ok body)
    (Hshort : short (build_call_envelope (peer_id t) target (ids 0%nat) (ClientMessage.now_ts 0)))
    (Hshort_reply : router_short (error_answer_envelope w)) :
  exists w', table (registry w') = tbl /\
    answered_by_router Caller (RCallTo target f a) w w' (OCall (Err (RouterUnavailable text))).
Proof.
  set (e := build_call_envelope (peer_id t) target (ids 0%nat) (ClientMessage.now_ts 0)) in *.
  destruct (client_encode_frame_total e body) as [raw Hraw].
  destruct (client_frame_read e body raw eq_refl Hshort Hraw) as [_ Hin].
  destruct (refused_call_dispatched target body raw text tbl w Hc Hrefused)
    as (code & w' & Hd & Ht & Hout & _).
  exists w'. split; [exact Ht|].
  pose proof (notice_frame_render (Server.now_ts (system_time w)) c
    (NError (ids 0%nat) code text)) as Hn.
  destruct (reply_frame_read (error_answer_envelope w) _ _ eq_refl Hshort_reply Hn)
    as (rb & Hrb & Hr).
  replace (Err (RouterUnavailable text))
    with (call_reply from_value (mkFrameParts (error_answer_envelope w) rb)).
  - eapply answered_by_dispatch; [by eapply call_waits|exact Hin|exact Hd|exact Hout|exact Hr|done].
  - unfold call_reply, reject_error_frame. cbn.
    unfold decode_router_or_peer_error, ClientMessage.decode_error_body.
    apply map_err_ok in Hrb. by rewrite (io_error (build_error_body code text) eq_refl _ Hrb).
Qed.
End answers.
