(* ===== verification/Schema.v ===== *)
(** The message types as the two crates serialize them.

    Each crate declares its own copy of the message types and derives their
    serialization: [router/src/protocol.rs] and [rust/src/message.rs].  Here
    every declaration is a function to the data model of the serializer, with
    the attributes of its fields and variants; bytes are a parameter, the
    function [write] of [rmp_serde] on that data model.  This is what makes
    the two crates understand each other: the class [Interop], assumed by the
    theorems on a whole call, is derived from the declarations. *)

From S2P Require Import Prelude Float64 Wire Protocol RefCodec ClientMessage ClientRef EndToEnd.
From stdpp Require Import countable.

Local Open Scope string_scope.

(** * The data model *)

Inductive Tree : Set :=
| TNil
| TBool (b : bool)
| TInt (z : Z)
| TFloat (x : f64)
| TStr (s : string)
| TBin (b : bytes)
| TSeq (l : list Tree)
| TMap (l : list (string * Tree)).

(** An [Option]. *)
Definition opt_tree {A} (f : A -> Tree) (o : option A) : Tree :=
  match o with Some a => f a | None => TNil end.

(** A field with [skip_serializing_if = "Option::is_none"]. *)
Definition skip_none {A} (name : string) (f : A -> Tree) (o : option A) : list (string * Tree) :=
  match o with Some a => [(name, f a)] | None => [] end.

(** A [Vec<(String, T)>]: a sequence of pairs. *)
Definition pairs_tree {A} (f : A -> Tree) (l : list (string * A)) : Tree :=
  TSeq (map (fun '(k, x) => TSeq [TStr k; f x]) l).

(** The constants of a crate: key, version, router id, kinds and queries. *)
Record Constants : Set := mkConstants {
  c_key : string;
  c_version : Z;
  c_router : string;
  c_kinds : list string;
  c_queries : list string;
}.

(** * The router's declarations *)

Module RouterSchema.
Definition constants : Constants :=
  mkConstants "multifrost_ipc_v5" 5 "router"
    ["register"; "query"; "call"; "response"; "error"; "heartbeat"; "disconnect"]
    ["peer.exists"; "peer.get"].

Definition envelope (e : Envelope) : Tree :=
  TMap [("v", TInt (v e)); ("kind", TStr (kind e)); ("msg_id", TStr (msg_id e));
        ("from", TStr (env_from e)); ("to", TStr (env_to e)); ("ts", TFloat (ts e))].

(** [rename_all = "lowercase"]. *)
Definition peer_class (c : PeerClass) : Tree :=
  match c with Service => TStr "service" | Caller => TStr "caller" end.

Definition register_body (r : RegisterBody) : Tree :=
  TMap [("peer_id", TStr (reg_peer_id r)); ("class", peer_class (reg_class r))].

Definition register_ack_body (r : RegisterAckBody) : Tree :=
  TMap [("accepted", TBool (accepted r)); ("reason", opt_tree TStr (reason r))].

(** [tag = "query"], with renamed variants. *)
Definition query_body (q : QueryBody) : Tree :=
  match q with
  | PeerExists p => TMap [("query", TStr "peer.exists"); ("peer_id", TStr p)]
  | PeerGet p => TMap [("query", TStr "peer.get"); ("peer_id", TStr p)]
  end.

Definition query_exists_response (q : QueryExistsResponseBody) : Tree :=
  TMap [("peer_id", TStr (qe_peer_id q)); ("exists", TBool (qe_exists q));
        ("class", opt_tree peer_class (qe_class q)); ("connected", TBool (qe_connected q))].

Definition query_get_response (q : QueryGetResponseBody) : Tree :=
  TMap [("peer_id", TStr (qg_peer_id q)); ("exists", TBool (qg_exists q));
        ("class", opt_tree peer_class (qg_class q)); ("connected", TBool (qg_connected q))].

(** Externally tagged, the default: a unit variant is its name, any other a
    map of its name to its content; a [Vec<u8>] is a sequence of numbers. *)
Fixpoint wire_value (d : WireValue) : Tree :=
  match d with
  | WNil => TStr "Nil"
  | WBool b => TMap [("Bool", TBool b)]
  | WInt z => TMap [("Int", TInt z)]
  | WUInt z => TMap [("UInt", TInt z)]
  | WFloat x => TMap [("Float", TFloat x)]
  | WText s => TMap [("Text", TStr s)]
  | WBinary b => TMap [("Binary", TSeq (map (fun x => TInt (byte_to_Z x)) b))]
  | WArray l => TMap [("Array", TSeq (map wire_value l))]
  | WMap l => TMap [("Map", pairs_tree wire_value l)]
  end.

Definition error_body (b : ErrorBody) : Tree :=
  TMap [("code", TStr (code b)); ("message", TStr (message b)); ("kind", TStr (err_kind b));
        ("stack", opt_tree TStr (stack b)); ("details", opt_tree wire_value (details b))].
End RouterSchema.

(** * The client's declarations *)

Module ClientSchema.
Definition constants : Constants :=
  mkConstants "multifrost_ipc_v5" 5 "router"
    ["register"; "query"; "call"; "response"; "error"; "heartbeat"; "disconnect"]
    ["peer.exists"; "peer.get"].

Definition envelope (e : Envelope) : Tree :=
  TMap [("v", TInt (v e)); ("kind", TStr (kind e)); ("msg_id", TStr (msg_id e));
        ("from", TStr (env_from e)); ("to", TStr (env_to e)); ("ts", TFloat (ts e))].

(** [rename_all = "lowercase"]. *)
Definition peer_class (c : PeerClass) : Tree :=
  match c with Service => TStr "service" | Caller => TStr "caller" end.

Definition register_body (r : RegisterBody) : Tree :=
  TMap [("peer_id", TStr (reg_peer_id r)); ("class", peer_class (reg_class r))].

Definition register_ack_body (r : RegisterAckBody) : Tree :=
  TMap [("accepted", TBool (accepted r)); ("reason", opt_tree TStr (reason r))].

(** [tag = "query"], with renamed variants. *)
Definition query_body (q : QueryBody) : Tree :=
  match q with
  | PeerExists p => TMap [("query", TStr "peer.exists"); ("peer_id", TStr p)]
  | PeerGet p => TMap [("query", TStr "peer.get"); ("peer_id", TStr p)]
  end.

Definition query_exists_response (q : QueryExistsResponseBody) : Tree :=
  TMap [("peer_id", TStr (qe_peer_id q)); ("exists", TBool (qe_exists q));
        ("class", opt_tree peer_class (qe_class q)); ("connected", TBool (qe_connected q))].

Definition query_get_response (q : QueryGetResponseBody) : Tree :=
  TMap [("peer_id", TStr (qg_peer_id q)); ("exists", TBool (qg_exists q));
        ("class", opt_tree peer_class (qg_class q)); ("connected", TBool (qg_connected q))].

(** [serde_json::Value]. *)
Fixpoint json_value (x : Value) : Tree :=
  match x with
  | Null => TNil
  | Bool b => TBool b
  | Num (PosInt z) => TInt z
  | Num (NegInt z) => TInt z
  | Num (Float f) => TFloat f
  | Str s => TStr s
  | Array l => TSeq (map json_value l)
  | Object l => TMap (map (fun '(k, x) => (k, json_value x)) l)
  end.

Definition call_body (c : CallBody) : Tree :=
  TMap ([("function", TStr (function c)); ("args", TSeq (map json_value (args c)))]
        ++ skip_none "namespace" TStr (namespace c)).

Definition response_body (r : ResponseBody) : Tree :=
  TMap [("result", json_value (resp_result r))].

(** [untagged]: the content alone; [Binary] goes through [serde_bytes]. *)
Fixpoint wire_value (d : WireValue) : Tree :=
  match d with
  | WNil => TNil
  | WBool b => TBool b
  | WInt z => TInt z
  | WUInt z => TInt z
  | WFloat x => TFloat x
  | WText s => TStr s
  | WBinary b => TBin b
  | WArray l => TSeq (map wire_value l)
  | WMap l => pairs_tree wire_value l
  end.

Definition error_body (b : ErrorBody) : Tree :=
  TMap ([("code", TStr (code b)); ("message", TStr (message b)); ("kind", TStr (err_kind b))]
        ++ skip_none "stack" TStr (stack b)
        ++ skip_none "details" wire_value (details b)).
End ClientSchema.

(** * Agreement *)

(** The fields of a map that are not nil. *)
Definition drop_nil (t : Tree) : Tree :=
  match t with
  | TMap l => TMap (List.filter (fun f => match f.2 with TNil => false | _ => true end) l)
  | t => t
  end.

(** What the router writes for a value is the client's form of a value in one
    case only, where they stand for different values. *)
Lemma wire_value_clash d d' :
  ClientSchema.wire_value d = RouterSchema.wire_value d' <-> d = WText "Nil" /\ d' = WNil.
Proof.
  split; [|by intros [-> ->]].
  destruct d, d'; intros H; simpl in H; unfold pairs_tree in H; by simplify_eq.
Qed.

(** The code serializes the constants the model uses. *)
Lemma constants_are_wire :
  RouterSchema.constants =
    mkConstants PROTOCOL_KEY PROTOCOL_VERSION ROUTER_PEER_ID
      [KIND_REGISTER; KIND_QUERY; KIND_CALL; KIND_RESPONSE; KIND_ERROR; KIND_HEARTBEAT;
       KIND_DISCONNECT] ["peer.exists"; "peer.get"].
Proof. reflexivity. Qed.

(** The router writes no nil detail, so dropping nil fields keeps details. *)
Lemma drop_nil_error b :
  drop_nil (RouterSchema.error_body b) =
  TMap ([("code", TStr (code b)); ("message", TStr (message b)); ("kind", TStr (err_kind b))]
        ++ skip_none "stack" TStr (stack b)
        ++ skip_none "details" RouterSchema.wire_value (details b)).
Proof. by destruct b as [? ? ? [] [[]|]]. Qed.

(** C24: the declarations of the two crates agree.  Constants, envelopes,
    registrations, acknowledgements, queries and their answers are serialized
    alike.  An error body never is: the router writes absent fields as nil and
    the client leaves them out; the two forms are the same up to nil fields
    exactly when the error has no details, because a detail is tagged by the
    router and untagged by the client. *)
Theorem message_schemas_agree :
  ClientSchema.constants = RouterSchema.constants /\
  (forall e, ClientSchema.envelope e = RouterSchema.envelope e) /\
  (forall r, ClientSchema.register_body r = RouterSchema.register_body r) /\
  (forall r, ClientSchema.register_ack_body r = RouterSchema.register_ack_body r) /\
  (forall q, ClientSchema.query_body q = RouterSchema.query_body q) /\
  (forall q, ClientSchema.query_exists_response q = RouterSchema.query_exists_response q) /\
  (forall q, ClientSchema.query_get_response q = RouterSchema.query_get_response q) /\
  (forall b, ClientSchema.error_body b <> RouterSchema.error_body b) /\
  (forall b, ClientSchema.error_body b = drop_nil (RouterSchema.error_body b) <-> details b = None).
Proof.
  repeat (split; [done|]). split.
  - intros [c m k [s|] [d|]]; unfold ClientSchema.error_body, RouterSchema.error_body; simpl;
      try congruence. intros [= E]. by apply wire_value_clash in E as [-> ?].
  - intros b. rewrite drop_nil_error. unfold ClientSchema.error_body.
    destruct (details b) as [d|]; simpl; [|done]. split; [|done]. intros [= E].
    apply app_inv_head in E. injection E as E. by apply wire_value_clash in E as [-> ?].
Qed.

(** The maps of an error's details are written as arrays of arrays, numbers
    without their signedness: no reader can tell them apart. *)
Theorem client_details_are_ambiguous (read : Tree -> option WireValue) :
  (forall l, ClientSchema.wire_value (WMap l) =
             ClientSchema.wire_value (WArray (map (fun '(k, x) => WArray [WText k; x]) l))) /\
  ~ (forall d, read (ClientSchema.wire_value d) = Some d).
Proof.
  split.
  - intros l. simpl. unfold pairs_tree. rewrite map_map. f_equal. apply map_ext. by intros [].
  - intros H. pose proof (H (WInt 0)) as H1. pose proof (H (WUInt 0)) as H2.
    simpl in *. congruence.
Qed.

(** * Interoperation *)

Section interoperation.
Context (write : Tree -> bytes).

(** A serializer derived from a declaration. *)
Definition derives {T} (S : RmpSerde T) (tree : T -> Tree) : Prop :=
  forall x, @to_vec_named T S x = Ok (write (tree x)).

Class RouterDerives (RC : RouterCodec) : Prop := {
  rd_envelope : derives rc_envelope RouterSchema.envelope;
  rd_register : derives rc_register RouterSchema.register_body;
  rd_ack : derives rc_ack RouterSchema.register_ack_body;
  rd_query : derives rc_query RouterSchema.query_body;
  rd_exists : derives rc_exists RouterSchema.query_exists_response;
  rd_get : derives rc_get RouterSchema.query_get_response;
  rd_error : derives rc_error RouterSchema.error_body;
}.

Class ClientDerives (CC : ClientCodec) : Prop := {
  cd_envelope : derives cc_envelope ClientSchema.envelope;
  cd_register : derives cc_register ClientSchema.register_body;
  cd_ack : derives cc_ack ClientSchema.register_ack_body;
  cd_query : derives cc_query ClientSchema.query_body;
  cd_exists : derives cc_exists ClientSchema.query_exists_response;
  cd_get : derives cc_get ClientSchema.query_get_response;
  cd_call : derives cc_call ClientSchema.call_body;
  cd_response : derives cc_response ClientSchema.response_body;
  cd_error : derives cc_error ClientSchema.error_body;
  (** A field of type [Option] may be nil or absent. *)
  cd_error_nil b :
    @from_slice _ cc_error (write (RouterSchema.error_body b)) =
    @from_slice _ cc_error (write (drop_nil (RouterSchema.error_body b)));
}.

(** A reader that understands its own crate understands a writer that
    serializes alike. *)
Lemma derives_roundtrip {T} (enc dec : RmpSerde T) (f g : T -> Tree) :
  derives enc f -> derives dec g -> (forall x, f x = g x) ->
  (forall x, RoundTrips dec dec x) -> forall x, RoundTrips enc dec x.
Proof.
  intros Henc Hdec Hfg Hrt x b Hb. apply Hrt. rewrite Henc, Hfg in Hb. by rewrite Hdec.
Qed.

(** C23: the crates interoperate.  If each crate reads back what it writes
    itself, and writes by its own declarations, then each reads what the other
    writes: envelopes in both directions, registrations and queries by the
    router, acknowledgements, query answers and the router's errors (which
    have no details) by the client; so the assumption [Interop] of the
    theorems from end to end holds. *)
Theorem crates_interoperate (CC : ClientCodec) (RC : RouterCodec)
    (CCL : ClientCodecLaws CC) (RCL : RouterCodecLaws RC)
    (HC : ClientDerives CC) (HR : RouterDerives RC) :
  Interop CC RC.
Proof.
  split; intros x;
    try (eapply derives_roundtrip; [apply HC|apply HR| |apply rmp_roundtrip]; done);
    try (eapply derives_roundtrip; [apply HR|apply HC| |apply rmp_roundtrip]; done).
  intros Hd b Hb. rewrite rd_error in Hb. injection Hb as <-.
  rewrite cd_error_nil. apply (ccl_error x Hd). rewrite cd_error. do 2 f_equal.
  unfold ClientSchema.error_body. by rewrite drop_nil_error, Hd.
Qed.
End interoperation.
