(* ===== verification/SchemaRef.v ===== *)
(** Concrete serializers derived from the declarations of [Schema].

    A tree is written through its [Countable] encoding and read back by field
    name.  As in [RefCodec] this is not a model of MessagePack: it shows that
    what [Schema] assumes of the two crates' serializers can hold of both at
    once. *)

From S2P Require Import Prelude Float64 Wire Protocol RefCodec ClientMessage ClientRef EndToEnd.
From S2P Require Import Schema.
From stdpp Require Import countable.

Local Open Scope string_scope.

(** * Trees as bytes *)

Abbreviation tree_leaf := (unit + bool + (Z + f64) + (string + list Z))%type.

Fixpoint tree_to_gen (t : Tree) : gen_tree tree_leaf :=
  match t with
  | TNil => GenLeaf (inl (inl (inl tt)))
  | TBool b => GenLeaf (inl (inl (inr b)))
  | TInt z => GenLeaf (inl (inr (inl z)))
  | TFloat x => GenLeaf (inl (inr (inr x)))
  | TStr s => GenLeaf (inr (inl s))
  | TBin b => GenLeaf (inr (inr (map byte_to_Z b)))
  | TSeq l => GenNode 0 (map tree_to_gen l)
  | TMap l => GenNode 1 (map (fun '(k, x) => GenNode 2 [GenLeaf (inr (inl k)); tree_to_gen x]) l)
  end.

Fixpoint gen_to_tree (g : gen_tree tree_leaf) : Tree :=
  match g with
  | GenLeaf (inl (inl (inl _))) => TNil
  | GenLeaf (inl (inl (inr b))) => TBool b
  | GenLeaf (inl (inr (inl z))) => TInt z
  | GenLeaf (inl (inr (inr x))) => TFloat x
  | GenLeaf (inr (inl s)) => TStr s
  | GenLeaf (inr (inr b)) => TBin (map byte_of_Z b)
  | GenNode 0 l => TSeq (map gen_to_tree l)
  | GenNode _ l =>
      TMap (map (fun g => match g with
                          | GenNode _ [GenLeaf (inr (inl k)); x] => (k, gen_to_tree x)
                          | _ => ("", TNil)
                          end) l)
  end.

Lemma gen_to_of_tree t : gen_to_tree (tree_to_gen t) = t.
Proof.
  revert t. fix IH 1. intros [| | | | |b|l|l]; simpl; try done.
  - f_equal. induction b as [|x b IHb]; simpl; [done|]. by rewrite byte_of_to_Z, IHb.
  - f_equal. induction l as [|x l IHl]; simpl; [done|]. by rewrite IH, IHl.
  - f_equal. induction l as [|[k x] l IHl]; simpl; [done|]. by rewrite IH, IHl.
Qed.

Definition ref_write (t : Tree) : bytes := pos_to_bytes (encode (tree_to_gen t)).

(** The serializer of a declaration and a reader of its trees. *)
Definition tree_serde {T} (tree : T -> Tree) (read : Tree -> option T) : RmpSerde T := {|
  to_vec_named x := Ok (ref_write (tree x));
  from_slice b :=
    match decode_or gen_to_tree b with
    | Ok t => ok_or (read t) "invalid structure"
    | Err e => Err e
    end |}.

Lemma from_slice_write {T} tree (read : Tree -> option T) t :
  @from_slice _ (tree_serde tree read) (ref_write t) = ok_or (read t) "invalid structure".
Proof. simpl. unfold ref_write. by rewrite decode_or_encode, gen_to_of_tree. Qed.

Lemma tree_serde_roundtrip {T} (enc : T -> Tree) read x :
  read (enc x) = Some x -> RoundTrips (tree_serde enc read) (tree_serde enc read) x.
Proof. intros Hx b [= <-]. rewrite from_slice_write. by rewrite Hx. Qed.

Lemma tree_serde_laws {T} (tree : T -> Tree) read :
  (forall x, read (tree x) = Some x) -> RmpLaws T (tree_serde tree read).
Proof. intros H. split; [by eexists|]. intros x. by apply tree_serde_roundtrip. Qed.

(** * Readers *)

Definition field (name : string) (t : Tree) : option Tree :=
  match t with TMap l => list_find (fun f => f.1 = name) l ≫= fun f => Some f.2.2 | _ => None end.

Definition str_of (t : Tree) : option string := match t with TStr s => Some s | _ => None end.
Definition bool_of (t : Tree) : option bool := match t with TBool b => Some b | _ => None end.

(** An optional field: absent and nil are the same. *)
Definition opt_of {A} (read : Tree -> option A) (t : option Tree) : option (option A) :=
  match t with
  | None => Some None
  | Some TNil => Some None
  | Some t => Some <$> read t
  end.

Definition class_of (t : Tree) : option PeerClass :=
  match t with
  | TStr s => if (s =? "service")%string then Some Service
              else if (s =? "caller")%string then Some Caller else None
  | _ => None
  end.

Definition read_envelope (t : Tree) : option Envelope :=
  match field "v" t, field "kind" t ≫= str_of, field "msg_id" t ≫= str_of,
        field "from" t ≫= str_of, field "to" t ≫= str_of, field "ts" t with
  | Some (TInt v), Some k, Some m, Some f, Some d, Some (TFloat x) => Some (mkEnvelope v k m f d x)
  | _, _, _, _, _, _ => None
  end.

Definition read_register (t : Tree) : option RegisterBody :=
  p ← field "peer_id" t ≫= str_of;
  c ← field "class" t ≫= class_of;
  Some (mkRegisterBody p c).

Definition read_ack (t : Tree) : option RegisterAckBody :=
  a ← field "accepted" t ≫= bool_of;
  r ← opt_of str_of (field "reason" t);
  Some (mkRegisterAckBody a r).

Definition read_query (t : Tree) : option QueryBody :=
  q ← field "query" t ≫= str_of;
  p ← field "peer_id" t ≫= str_of;
  if (q =? "peer.exists")%string then Some (PeerExists p)
  else if (q =? "peer.get")%string then Some (PeerGet p) else None.

(** The two query answers have the same fields. *)
Definition read_answer {A} (make : string -> bool -> option PeerClass -> bool -> A) (t : Tree) :
    option A :=
  p ← field "peer_id" t ≫= str_of;
  e ← field "exists" t ≫= bool_of;
  c ← opt_of class_of (field "class" t);
  n ← field "connected" t ≫= bool_of;
  Some (make p e c n).

(** Error bodies without details. *)
Definition read_error (t : Tree) : option ErrorBody :=
  c ← field "code" t ≫= str_of;
  m ← field "message" t ≫= str_of;
  k ← field "kind" t ≫= str_of;
  s ← opt_of str_of (field "stack" t);
  Some (mkErrorBody c m k s None).

Fixpoint read_json (t : Tree) : Value :=
  match t with
  | TBool b => Bool b
  | TInt z => Num (if (z <? 0)%Z then NegInt z else PosInt z)
  | TFloat x => Num (Float x)
  | TStr s => Str s
  | TSeq l => Array (map read_json l)
  | TMap l => Object (map (fun '(k, x) => (k, read_json x)) l)
  | _ => Null
  end.

Definition read_call (t : Tree) : option CallBody :=
  f ← field "function" t ≫= str_of;
  n ← opt_of str_of (field "namespace" t);
  match field "args" t with
  | Some (TSeq l) => Some (mkCallBody f (map read_json l) n)
  | None => Some (mkCallBody f [] n)
  | _ => None
  end.

Definition read_response (t : Tree) : option ResponseBody :=
  r ← field "result" t;
  Some (mkResponseBody (read_json r)).

(** Every reader inverts its declaration. *)
Ltac read_back :=
  apply tree_serde_laws; intros x; destruct x;
  repeat match goal with
         | c : PeerClass |- _ => destruct c
         | o : option _ |- _ => destruct o
         end; reflexivity.

(** * The serializers *)

Definition schema_router_codec : RouterCodec := {|
  rc_envelope := tree_serde RouterSchema.envelope read_envelope;
  rc_register := tree_serde RouterSchema.register_body read_register;
  rc_ack := tree_serde RouterSchema.register_ack_body read_ack;
  rc_query := tree_serde RouterSchema.query_body read_query;
  rc_exists := tree_serde RouterSchema.query_exists_response (read_answer mkQueryExists);
  rc_get := tree_serde RouterSchema.query_get_response (read_answer mkQueryGet);
  rc_error := tree_serde RouterSchema.error_body read_error |}.

Definition schema_client_codec : ClientCodec := {|
  cc_envelope := tree_serde ClientSchema.envelope read_envelope;
  cc_register := tree_serde ClientSchema.register_body read_register;
  cc_ack := tree_serde ClientSchema.register_ack_body read_ack;
  cc_query := tree_serde ClientSchema.query_body read_query;
  cc_exists := tree_serde ClientSchema.query_exists_response (read_answer mkQueryExists);
  cc_get := tree_serde ClientSchema.query_get_response (read_answer mkQueryGet);
  cc_call := tree_serde ClientSchema.call_body read_call;
  cc_response := tree_serde ClientSchema.response_body read_response;
  cc_error := tree_serde ClientSchema.error_body read_error;
  message_debug := fun _ => "message" |}.

Lemma schema_router_laws : RouterCodecLaws schema_router_codec.
Proof.
  split; try read_back.
  - intros x. by eexists.
  - intros x Hx. apply tree_serde_roundtrip. by destruct x as [? ? ? [] []].
Qed.

Lemma schema_client_laws : ClientCodecLaws schema_client_codec.
Proof.
  split; try read_back.
  - intros x. by eexists.
  - intros x. by eexists.
  - intros x Hx. apply tree_serde_roundtrip. by destruct x as [? ? ? [] []].
Qed.

Lemma schema_router_derives : RouterDerives ref_write schema_router_codec.
Proof. by split. Qed.

Lemma schema_client_derives : ClientDerives ref_write schema_client_codec.
Proof.
  split; try done. intros b.
  change (@cc_error schema_client_codec) with (tree_serde ClientSchema.error_body read_error).
  rewrite !from_slice_write.
  by destruct b as [? ? ? [] [[]|]].
Qed.

(** Both crates, with serializers derived from their declarations. *)
Lemma crates_interoperate_witness : Interop schema_client_codec schema_router_codec.
Proof.
  exact (crates_interoperate ref_write schema_client_codec schema_router_codec
    schema_client_laws schema_router_laws schema_client_derives schema_router_derives).
Defined.
