(* ===== verification/ClientScenarios.v ===== *)
(** Runs of the client on concrete inputs, with the serializers of [RefCodec]
    and [ClientRef]: instances of the properties. *)

From S2P Require Import Prelude Prog Float64 Wire Protocol RefCodec Registry Server.
From S2P Require Import RouterSpec RouterSafety RouterScenarios.
From S2P Require Import Config ClientMessage CallerTransport CallerSafety CallerSpec.
From S2P Require Import Service ServiceSpec ClientRef EndToEnd CallerLate RouterAnswers.

Local Open Scope string_scope.

(** * A caller "a", a service "s", and the frames between them *)

Definition get {A} (d : A) (r : MResult A) : A := match r with Ok a => a | Err _ => d end.

Definition as_value (x : Value) : result Value string := Ok x.

Definition transport : CallerTransport :=
  mkTransport "a" (Some "s") "ws://127.0.0.1:9981" None.

Definition sample_ids (n : nat) : string := "m" +:+ pretty n.

Definition sample_call : CallBody := mkCallBody "add" [Num (PosInt 1); Num (PosInt 2)] None.

Definition call_bytes : bytes := get [] (encode_call_body sample_call).

Definition client_call_frame (now : f64) : bytes :=
  get [] (ClientMessage.encode_frame (build_call_envelope "a" "s" "m0" now) call_bytes).

Definition answer_bytes : bytes :=
  get [] (encode_response_body (mkResponseBody (Num (PosInt 3)))).

Definition answer_frame : bytes :=
  get [] (ClientMessage.encode_frame
            (ClientMessage.build_response_envelope "s" "a" "m0" F64.zero) answer_bytes).

(** A worker that counts the calls it has served. *)
Definition counter (n : nat) (f : string) (_ : list Value) : MResult Value * nat :=
  if (f =? "add")%string then (Ok (Num (PosInt 3)), S n)
  else (Err (FunctionNotFound f), n).

(** * Caller schedules *)

Definition cafter (source : list WsItem) (l : list CAction) : CState :=
  default (caller_init transport source sample_ids)
    (run_cactions as_value transport l (caller_init transport source sample_ids)).

Definition cvalid (source : list WsItem) (l : list CAction) : bool :=
  match run_cactions as_value transport l (caller_init transport source sample_ids) with
  | Some _ => true
  | None => false
  end.

Lemma cafter_reachable source l :
  cvalid source l = true -> caller_reachable as_value transport source sample_ids (cafter source l).
Proof.
  unfold cvalid, cafter, caller_reachable.
  destruct (run_cactions as_value transport l _) eqn:E; [|done].
  intros _. by eapply run_cactions_star.
Qed.

Lemma cafter_app source l1 l2 :
  cvalid source (l1 ++ l2) = true ->
  star (caller_step as_value transport) (cafter source l1) (cafter source (l1 ++ l2)).
Proof.
  unfold cvalid, cafter. rewrite run_cactions_app.
  destruct (run_cactions as_value transport l1 _) as [st|]; simpl; [|done].
  destruct (run_cactions as_value transport l2 st) eqn:E; simpl; [|done].
  intros _. by eapply run_cactions_star.
Qed.

Definition add_request : Request := RCall "add" (args sample_call).

Definition call_schedule : list CAction :=
  Start 0 add_request :: replicate 6 (RequestStep 0) ++ complete.

Definition answered_source : list WsItem := [Ok (Binary answer_frame)].

Definition returned (st : CState (R := Value)) : option (Outcome (R := Value)) :=
  match requests st !! 0%nat with
  | Some (_, Ret o) => Some o
  | _ => None
  end.

Example call_schedule_result :
  returned (cafter answered_source call_schedule) = Some (OCall (Ok (Num (PosInt 3)))).
Proof. vm_compute. reflexivity. Qed.

Lemma completed_requests_are_answered_witness :
  request_answered as_value transport answered_source add_request
    (OCall (Ok (Num (PosInt 3)))) (cworld (cafter answered_source call_schedule)).
Proof.
  apply (completed_requests_are_answered as_value transport answered_source sample_ids _ 0).
  - apply cafter_reachable. vm_compute. reflexivity.
  - vm_compute. reflexivity.
Defined.

(** [disconnect] asks for the abort, and the runtime carries it out. *)
Definition disconnect_schedule : list CAction :=
  Start 0 RDisconnect :: replicate 5 (RequestStep 0) ++ [CancelInbound].

Definition stopped_state : CState := cafter answered_source disconnect_schedule.
Definition later_state : CState :=
  cafter answered_source (disconnect_schedule ++ [Arrive; Start 1 add_request; RequestStep 1]).

Lemma nothing_is_answered_after_inbound_stops_witness :
  inbound_aborted (cworld stopped_state) = true /\ closed (cworld stopped_state) = false /\
  (forall ch r, chans (cworld later_state) !! ch = Some (Sent r) ->
     chans (cworld stopped_state) !! ch = Some (Sent r)).
Proof.
  split; [vm_compute; reflexivity|]. split; [vm_compute; reflexivity|].
  apply (nothing_is_answered_after_inbound_stops as_value transport answered_source sample_ids
           stopped_state later_state).
  - apply cafter_reachable. vm_compute. reflexivity.
  - vm_compute. reflexivity.
  - apply cafter_app. vm_compute. reflexivity.
Defined.

Lemma sample_ids_inj : Inj (=) (=) sample_ids.
Proof.
  intros n m E. unfold sample_ids in E. apply (inj (String.app "m")) in E. by apply (inj pretty).
Qed.

(** The router sends an answer that nobody waits for, then the stream ends. *)
Lemma late_call_waits_forever_witness :
  exists st raw k,
    caller_reachable as_value transport answered_source sample_ids st /\
    inbound st = Ret tt /\ closed (cworld st) = true /\ wire (cworld st) = [Binary raw] /\
    forall st', star (caller_step as_value transport) st st' ->
      requests st' !! 0%nat = Some (RCallTo "s" "add" (args sample_call), Do (Recv 0 None) k) /\
      pending (cworld st') !! "m0" = Some 0%nat.
Proof.
  destruct (late_call_waits_forever as_value transport answered_source sample_ids sample_ids_inj
    "s" "add" (args sample_call) call_bytes) as (st & raw & k & H1 & H2 & H3 & H4 & _ & H5).
  - reflexivity.
  - vm_compute. reflexivity.
  - exists st, raw, k. split; [exact H1|]. split; [exact H2|]. split; [exact H3|].
    split; [exact H4|]. exact H5.
Defined.

(** * Instances of the functional properties *)

Definition waiting_world : CWorld :=
  mkCWorld false {["m0" := 0%nat; "m7" := 1%nat]} {[0%nat := Open; 1%nat := Open]} 2
    {[0%nat := "m0"; 1%nat := "m7"]} [] None sample_ids 8 0 ∅ true false.



Lemma send_and_wait_outcome_witness :
  crun (send_and_wait transport [Byte.x00] "m9") waiting_world = None /\
  pending waiting_world !! "m9" = None.
Proof.
  split; [|vm_compute; reflexivity].
  apply (send_and_wait_outcome transport [Byte.x00] "m9" waiting_world).
  vm_compute. reflexivity.
Defined.

Definition hasty : CallerTransport :=
  mkTransport "a" (Some "s") "ws://127.0.0.1:9981" (Some 1%Z).

Definition expired_world : CWorld := set_env 0 {[2%nat]} None waiting_world.

Definition outcome_of {A} (d : A) (o : option (A * CWorld)) : A * CWorld :=
  default (d, waiting_world) o.

Lemma timed_out_call_stays_pending_witness :
  pending (outcome_of (Err TimeoutError) (crun (send_and_wait hasty [Byte.x00] "m9") expired_world)).2
    !! "m9" = Some 2%nat.
Proof.
  apply (timed_out_call_stays_pending hasty [Byte.x00] "m9" expired_world); vm_compute; reflexivity.
Defined.

Definition sample_config : CallerTransportConfig :=
  mkCallerConfig "a" (Some "s") None (bootstrap_config_from_env sample_env).

Lemma connect_succeeds_iff_accepted_witness :
  exists r w', crun (connect sample_config (Ok tt) (Ok tt) []) waiting_world = Some (r, w') /\
    is_ok r = false.
Proof.
  destruct (connect_succeeds_iff_accepted sample_config (Ok tt) (Ok tt) [] waiting_world)
    as (r & w' & Hrun & Hok & _).
  exists r, w'. split; [exact Hrun|]. destruct (is_ok r); [|reflexivity].
  destruct (proj1 Hok eq_refl) as (_ & _ & _ & ack & Hack & _). discriminate Hack.
Defined.

Definition ack_frame : bytes :=
  get [] (ClientMessage.encode_frame
            (ClientMessage.build_response_envelope "router" "s" "m0" F64.zero)
            (get [] (ClientMessage.encode_register_ack_body (mkRegisterAckBody true None)))).

Definition service_source : list WsItem :=
  [Ok (Binary ack_frame); Ok (Ping []); Ok (Binary (client_call_frame F64.zero)); Ok Close].

Definition service_context : ServiceContext := with_service_id "s" (ServiceContext_new sample_env).

Lemma service_answers_every_call_witness :
  exists register raws bye w',
    srun counter (run_service_async sample_host sample_env service_context (Ok tt) (Ok tt)
                    service_source) (connected_world sample_ids, 0%nat)
      = Some (Ok tt, (w', 1%nat)) /\
    wire w' = Binary register :: map Binary raws ++ [Binary bye] /\ length raws = 1%nat.
Proof.
  destruct (service_answers_every_call counter sample_host sample_env service_context
    service_source "s" (mkRegisterAckBody true None) (connected_world sample_ids) 0%nat)
    as (register & raws & bye & w' & Hrun & Hwire & _ & Hraws & _);
    try (vm_compute; reflexivity).
  exists register, raws, bye, w'. split; [|split].
  - rewrite Hrun. do 3 f_equal.
  - exact Hwire.
  - apply Forall2_length in Hraws. rewrite <- Hraws. vm_compute. reflexivity.
Defined.

Definition foreign_call : FrameParts :=
  mkFrameParts (build_call_envelope "a" "s" "m0" F64.zero)
    (get [] (encode_call_body (mkCallBody "add" [] (Some "tenant")))).

Lemma configured_namespace_is_not_served_witness :
  run_service_async sample_host sample_env (with_namespace "tenant" service_context)
    = run_service_async sample_host sample_env service_context /\
  (spec_reply counter 0%nat foreign_call).1 =
    Failure (mkErrorBody "invalid_namespace" "unsupported namespace: tenant" "protocol" None None).
Proof.
  destruct (configured_namespace_is_not_served counter sample_host sample_env service_context
    "tenant" "s" foreign_call "add" [] 0%nat) as (H1 & H2 & _).
  - discriminate.
  - vm_compute. reflexivity.
  - split; [exact H1|]. rewrite H2. reflexivity.
Defined.

Lemma remote_call_end_to_end_witness :
  exists raw_call raw_reply st st',
    run_cactions as_value transport (ask (RCallTo "s" "add" (args sample_call)))
      (caller_init transport [Ok (Binary raw_reply)] sample_ids) = Some st /\
    wire (cworld st) = [Binary raw_call] /\
    run_cactions as_value transport complete st = Some st' /\
    requests st' !! 0%nat
      = Some (RCallTo "s" "add" (args sample_call), Ret (OCall (Ok (Num (PosInt 3))))).
Proof.
  pose proof (remote_call_end_to_end as_value counter transport sample_ids "s" "add"
    (args sample_call) [] two_peers (mkPeerRecord "a" Caller 1 true (Some 0%Z))
    (mkPeerRecord "s" Service 2 true (Some 0%Z)) (connected_world sample_ids) 0%nat) as H.
  destruct (H eq_refl eq_refl ltac:(apply (bool_decide_unpack _); vm_compute; exact I)
    eq_refl eq_refl ltac:(apply (bool_decide_unpack _); vm_compute; exact I) eq_refl call_bytes)
    as (raw_call & raw_reply & st & st' & H1 & H2 & _ & _ & _ & H6 & H7).
  - vm_compute. reflexivity.
  - vm_compute. reflexivity.
  - intros y _. apply response_serde_roundtrip.
  - intros b [= <-]. vm_compute. reflexivity.
  - intros k [->| ->] b [= <-]; vm_compute; reflexivity.
  - exists raw_call, raw_reply, st, st'. auto.
Defined.

Lemma registration_end_to_end_witness :
  exists res w' reply,
    exec (register_phase 3 (Some (Ok (Binary
      (get [] (CallerTransport.register_frame "b" Caller "m0" F64.zero)))))) two_peers = (res, w') /\
    outbox w' = [(3, reply)] /\ res = (Some "b", Ok (Some ("b", Caller))) /\
    register_reply (Some (Ok (Binary reply))) = Ok (mkRegisterAckBody true None).
Proof.
  destruct (registration_end_to_end "b" Caller "m0" F64.zero
    (get [] (CallerTransport.register_frame "b" Caller "m0" F64.zero)) 3 two_peers)
    as (res & w' & reply & H1 & H2 & H3).
  - apply (bool_decide_unpack _); vm_compute; exact I.
  - vm_compute. reflexivity.
  - intros b [= <-]. vm_compute. reflexivity.
  - intros k to Hk b [= <-].
    apply elem_of_cons in Hk as [[= -> ->]|Hk]; [vm_compute; reflexivity|].
    apply elem_of_cons in Hk as [[= -> ->]|Hk]; [vm_compute; reflexivity|].
    by apply elem_of_nil in Hk.
  - exists res, w', reply. change (registry two_peers !! "b") with (@None PeerRecord) in H3.
    destruct H3 as (H3 & _ & H5). auto.
Defined.

(** The caller asks for the service. *)
Lemma queries_end_to_end_witness :
  exists w', answered_by_router as_value transport sample_ids [] 1 Caller (RPeerExists "s") two_peers
    w' (OPeerExists (Ok (mkQueryExists "s" true (Some Service) true))).
Proof.
  destruct (queries_end_to_end as_value transport sample_ids [] 1 Caller "s" two_peers)
    as [(w' & _ & H) _].
  - apply (bool_decide_unpack _); vm_compute; exact I.
  - exact two_peers_wf.
  - intros b [= <-]. vm_compute. reflexivity.
  - intros b [= <-]. vm_compute. reflexivity.
  - exists w'.
    assert (E : fst <$> table (registry two_peers) !! "s" = Some Service) by (vm_compute; reflexivity).
    rewrite E in H. exact H.
Defined.

(** The caller calls a peer that is not there. *)
Lemma undeliverable_call_end_to_end_witness :
  exists w', answered_by_router as_value transport sample_ids [] 1 Caller
    (RCallTo "x" "add" (args sample_call)) two_peers w'
    (OCall (Err (RouterUnavailable "call target not found"))).
Proof.
  destruct (undeliverable_call_end_to_end as_value transport sample_ids [] 1 "x" "add"
    (args sample_call) two_peers "call target not found" (table (registry two_peers)) call_bytes)
    as (w' & _ & H).
  - apply (bool_decide_unpack _); vm_compute; exact I.
  - vm_compute. reflexivity.
  - vm_compute. reflexivity.
  - intros b [= <-]. vm_compute. reflexivity.
  - intros b [= <-]. vm_compute. reflexivity.
  - exists w'. exact H.
Defined.
