(* ===== verification/SystemScenarios.v ===== *)
(** A run of the whole system on concrete inputs: caller "a" on connection 1,
    service "s" on connection 2, a call and a query answered; and instances of
    the properties of [CallerWire], [CallerLiveness], [ServiceSafety], [System], [SystemOnce] and
    [SystemQueries]. *)

From S2P Require Import Prelude Prog Float64 Wire Protocol RefCodec Registry Server.
From S2P Require Import RouterSpec RouterSafety RouterRouting RouterScenarios.
From S2P Require Import Config ClientMessage CallerTransport CallerSafety CallerWire CallerLiveness CallerSpec.
From S2P Require Import Service ServiceSpec ServicePanic ServiceSafety ClientRef EndToEnd System SystemOnce SystemQueries ClientScenarios.

Local Open Scope string_scope.

(** * The frames *)

Definition epoch : f64 := ClientMessage.now_ts 0.

Definition frame_a : bytes := get [] (CallerTransport.register_frame "a" Caller "m0" epoch).
Definition frame_s : bytes := get [] (CallerTransport.register_frame "s" Service "m0" epoch).
Definition frame_call : bytes :=
  get [] (ClientMessage.encode_frame (build_call_envelope "a" "s" "m1" epoch) call_bytes).
Definition frame_reply : bytes :=
  get [] (ClientMessage.encode_frame
            (ClientMessage.build_response_envelope "s" "a" "m1" epoch) answer_bytes).

Definition frame_query : bytes :=
  get [] (ClientMessage.encode_frame (build_query_envelope "a" ROUTER_PEER_ID "m2" epoch)
            (get [] (ClientMessage.encode_query_body (PeerExists "s")))).

(** The router's part of the run: both peers register, the call and the reply
    are passed on, the query is answered. *)
Definition register_both : list Action :=
  [Accept 1 (Ok tt) (peer [frame_a; frame_call; frame_query])] ++ steps 1 3 ++
  [Accept 2 (Ok tt) (peer [frame_s; frame_reply])] ++ steps 2 3.

Definition router_part : list Action := register_both ++ steps 1 4 ++ steps 2 3 ++ steps 1 2.

Definition stream_of (c : nat) : list WsItem := peer (owned c (outbox (world (after router_part)))).

(** * The peers *)

Definition peer_a : CallerPeer := mkCallerPeer transport sample_ids 0 (stream_of 1).

Definition peer_s : ServicePeer nat :=
  mkServicePeer sample_host sample_env service_context "s" (total_worker counter) 0%nat sample_ids
    (stream_of 2).

Definition sample_callers : gmap nat CallerPeer := {[1%nat := peer_a]}.
Definition sample_services : gmap nat (ServicePeer nat) := {[2%nat := peer_s]}.

Lemma sample_deployment : deployment sample_callers sample_services.
Proof.
  unfold sample_callers, sample_services. split.
  - intros c c' p p' n m [<- <-]%lookup_singleton_Some [<- <-]%lookup_singleton_Some E.
    split; [done|]. by apply sample_ids_inj.
  - intros c.
    destruct (decide (c = 1%nat)) as [->|]; [right|left]; by rewrite lookup_singleton_ne.
  - intros c p [<- <-]%lookup_singleton_Some. reflexivity.
Qed.

(** * The run *)

Definition system_run : list SysAction :=
  map OnRouter register_both ++
  map (OnCaller 1) (Start 0 add_request :: replicate 6 (RequestStep 0)) ++
  map OnRouter (steps 1 4) ++
  map (OnService 2) (replicate 6 ServiceStep) ++
  map OnRouter (steps 2 3) ++
  map (OnCaller 1) complete ++
  map (OnCaller 1) (Start 1 (RPeerExists "s") :: replicate 6 (RequestStep 1)) ++
  map OnRouter (steps 1 2) ++
  map (OnCaller 1) (receive ++ [RequestStep 1]).

Definition start : System := system_init (R := Value) sample_callers sample_services.

Definition sample_system : System :=
  default start (run_sys as_value sample_callers sample_services system_run start).

Definition system_run_valid : bool :=
  match run_sys as_value sample_callers sample_services system_run start with
  | Some _ => true
  | None => false
  end.

Lemma sample_system_reachable :
  sys_reachable as_value sample_callers sample_services sample_system.
Proof.
  assert (H : system_run_valid = true) by (vm_compute; reflexivity).
  unfold system_run_valid, sample_system, sys_reachable in *.
  destruct (run_sys _ _ _ system_run start) eqn:E; [|done]. by eapply run_sys_star.
Qed.

Lemma sample_network : network sample_callers sample_services sample_system.
Proof. apply network_holds_ok. vm_compute. reflexivity. Qed.

(** * Instances *)

Definition caller_state : CState :=
  default (caller_start peer_a) (sy_callers sample_system !! 1%nat).

Lemma caller_state_lookup : sy_callers sample_system !! 1%nat = Some caller_state.
Proof.
  assert (H : bool_decide (is_Some (sy_callers sample_system !! 1%nat)) = true)
    by (vm_compute; reflexivity).
  unfold caller_state. apply bool_decide_eq_true in H as [s ->]. reflexivity.
Qed.

(** The caller of the run has the result 3. *)
Lemma completed_calls_were_computed_witness :
  exists raw call k sp before rs s1 res s2,
    raw ∈ written sample_callers sample_system 1 /\ reads raw call /\
    sample_services !! k = Some sp /\ sp_id sp = "s" /\
    (before ++ [call])%list `prefix_of` calls_of "s" (tail (sp_stream sp)) /\
    decode_call_body (body_bytes call) = Ok sample_call /\
    replies_until_panic (sp_worker sp) (sp_state sp) before = (rs, Some s1) /\
    sp_worker sp s1 "add" (args sample_call) = Some (res, s2) /\
    Ok (Num (PosInt 3)) = caller_view as_value res.
Proof.
  apply (completed_calls_were_computed as_value sample_callers sample_services sample_deployment
    sample_system 1 0 peer_a caller_state add_request "s" "add" (args sample_call)
    (Ok (Num (PosInt 3)))).
  - exact sample_system_reachable.
  - exact sample_network.
  - reflexivity.
  - exact caller_state_lookup.
  - vm_compute. reflexivity.
  - right. split; reflexivity.
  - exact I.
  - discriminate.
  - apply call_serde_roundtrip.
  - intros k sp s1 s2 y _ _. apply response_serde_roundtrip.
Defined.

(** It has been told that "s" is a service. *)
Lemma queries_tell_the_truth_witness :
  exists x, looked_up (sy_router sample_system) "s" x /\
    mkQueryExists "s" true (Some Service) true =
      mkQueryExists "s" (bool_decide (is_Some x)) (snap_class <$> x) (bool_decide (is_Some x)).
Proof.
  apply (queries_tell_the_truth as_value sample_callers sample_services sample_deployment
    sample_system sample_system_reachable sample_network 1 1 peer_a caller_state "s").
  - reflexivity.
  - exact caller_state_lookup.
  - vm_compute. reflexivity.
Defined.

Definition received_calls : list FrameParts := calls_of "s" (tail (sp_stream peer_s)).

Definition the_call : FrameParts :=
  mkFrameParts (build_call_envelope "a" "s" "m1" epoch) call_bytes.

Lemma calls_run_at_most_once_witness :
  received_calls = [the_call] /\
  forall j, received_calls !! j = Some the_call -> 2%nat = 2%nat /\ 0%nat = j.
Proof.
  split; [vm_compute; reflexivity|]. intros j Hj.
  apply (calls_run_at_most_once as_value sample_callers sample_services sample_deployment
    sample_system sample_system_reachable sample_network 2 2 0 j peer_s peer_s the_call the_call).
  - reflexivity.
  - reflexivity.
  - vm_compute. reflexivity.
  - exact Hj.
  - reflexivity.
Defined.

Lemma calls_are_served_in_order_witness :
  omap call_id (written sample_callers sample_system 1) = ["m1"] /\
  filter (fun id => id ∈ omap call_id (written sample_callers sample_system 1))
    (map (fun f => msg_id (envelope f)) received_calls)
    `sublist_of` omap call_id (written sample_callers sample_system 1).
Proof.
  split; [vm_compute; reflexivity|].
  apply (calls_are_served_in_order as_value sample_callers sample_services sample_deployment
    sample_system sample_system_reachable sample_network 2 1 peer_s peer_a).
  - reflexivity.
  - reflexivity.
Defined.

Lemma written_ids_are_unique_witness :
  exists l, NoDup l /\
    Forall2 (fun m id => exists raw, m = Binary raw /\ caller_frame transport id raw)
      (wire (cworld (cafter answered_source call_schedule))) l /\
    forall id, id ∈ l -> exists n,
      (n < next_id (cworld (cafter answered_source call_schedule)))%nat /\ id = sample_ids n.
Proof.
  apply (written_ids_are_unique as_value transport answered_source sample_ids).
  - exact sample_ids_inj.
  - apply cafter_reachable. vm_compute. reflexivity.
Defined.

(** The service of the run, on its own, then with a broken sink: it has run
    the call and has not replied. *)
Definition muted : list SAction :=
  replicate 4 ServiceStep ++ [ServiceSinkBroken "reset"; ServiceClock 5] ++ replicate 2 ServiceStep.

Definition service_origin : SState :=
  service_init sample_host sample_env service_context (stream_of 2) sample_ids 0%nat.

Definition muted_service : SState :=
  default service_origin (run_sactions (total_worker counter) muted service_origin).

Lemma muted_service_reachable :
  service_reachable (total_worker counter) sample_host sample_env service_context (stream_of 2)
    sample_ids 0%nat muted_service.
Proof.
  assert (H : bool_decide (is_Some (run_sactions (total_worker counter) muted service_origin)) = true)
    by (vm_compute; reflexivity).
  apply bool_decide_eq_true in H as [s E]. unfold muted_service. rewrite E.
  eapply run_sactions_star. exact E.
Qed.

Example muted_service_ran :
  (s_world muted_service).2 = 1%nat /\ wire (s_world muted_service).1 = [Binary frame_s].
Proof. vm_compute. split; reflexivity. Qed.

Lemma service_runs_a_prefix_witness :
  wire (s_world muted_service).1 = [] /\ (s_world muted_service).2 = 0%nat \/
  exists ran rs register sent raws bye,
    ran `prefix_of` calls_of "s" (tail (stream_of 2)) /\
    replies_until_panic (total_worker counter) 0%nat ran = (rs, Some (s_world muted_service).2) /\
    wire (s_world muted_service).1 = map Binary (register :: raws ++ bye)%list /\
    is_register "s" register /\ sent `sublist_of` rs /\ replies_to "s" sent raws /\
    (length bye <= 1)%nat /\ Forall (is_farewell "s") bye.
Proof.
  apply (service_runs_a_prefix (total_worker counter) sample_host sample_env service_context "s"
    (stream_of 2) sample_ids 0%nat).
  - reflexivity.
  - exact muted_service_reachable.
Defined.

(** * A fair run *)

(** A schedule, after which only the clock goes on. *)
Definition then_idle (l : list CAction) (n : nat) : CAction := default (SetClock 0) (l !! n).

Fixpoint run_of (l : list CAction) (st : CState (R := Value)) (n : nat) : CState :=
  match n with
  | O => st
  | S n => default (run_of l st n) (apply_caction as_value transport (then_idle l n) (run_of l st n))
  end.

Lemma run_of_prefix l l' st n :
  (n <= length l)%nat -> run_of (l ++ l') st n = run_of l st n.
Proof.
  induction n as [|n IH]; intros Hn; [done|]. cbn [run_of]. rewrite IH by lia.
  unfold then_idle. by rewrite lookup_app_l by lia.
Qed.

Lemma run_of_all l st st' :
  run_cactions as_value transport l st = Some st' -> run_of l st (length l) = st'.
Proof.
  revert st'. induction l as [|a l IH] using rev_ind; intros st'; [by intros [= <-]|].
  rewrite run_cactions_app, length_app. destruct (run_cactions as_value transport l st) as [st1|] eqn:E;
    [|done]. cbn [run_cactions mbind option_bind]. intros H.
  replace (length l + length [a])%nat with (S (length l)) by (simpl; lia). cbn [run_of].
  rewrite run_of_prefix by lia. rewrite (IH st1 eq_refl). unfold then_idle.
  rewrite lookup_app_r, Nat.sub_diag by lia. cbn. cbn in H.
  destruct (apply_caction as_value transport a st1); by simplify_eq/=.
Qed.

Lemma run_of_steps l st n :
  is_Some (run_cactions as_value transport l st) ->
  apply_caction as_value transport (then_idle l n) (run_of l st n) = Some (run_of l st (S n)).
Proof.
  intros [st' Hrun]. cbn [run_of].
  assert (H : is_Some (apply_caction as_value transport (then_idle l n) (run_of l st n))).
  { unfold then_idle. destruct (l !! n) as [a|] eqn:Hn; [|by eexists].
    pose proof (lookup_lt_Some _ _ _ Hn) as Hlt. rewrite <-(take_drop_middle l n a Hn) in Hrun |- *.
    rewrite run_of_prefix by (rewrite length_take; lia).
    rewrite run_cactions_app in Hrun.
    destruct (run_cactions as_value transport (take n l) st) as [st1|] eqn:E; [|done].
    replace (run_of (take n l) st n) with st1; [|].
    - cbn in Hrun. cbn. destruct (apply_caction as_value transport a st1); [by eexists|done].
    - rewrite <-(run_of_all _ _ _ E). f_equal. rewrite length_take. lia. }
  destruct H as [st2 ->]. done.
Qed.

(** When the schedule is over only the clock changes. *)
Lemma run_of_idle l st n :
  (length l <= n)%nat ->
  requests (run_of l st n) = requests (run_of l st (length l)) /\
  inbound (run_of l st n) = inbound (run_of l st (length l)) /\
  inbound_aborted (cworld (run_of l st n)) = inbound_aborted (cworld (run_of l st (length l))).
Proof.
  induction 1 as [|n Hn IH]; [done|]. cbn [run_of]. unfold then_idle.
  rewrite lookup_ge_None_2 by done. done.
Qed.

Definition fair_call : Request := RCallTo "s" "add" (args sample_call).

Definition fair_schedule : list CAction :=
  ask fair_call ++ receive ++ Arrive :: replicate 3 InboundStep ++ [RequestStep 0].

Definition fair_run : nat -> CState :=
  run_of fair_schedule (caller_init transport answered_source sample_ids).

Lemma fair_run_execution :
  execution as_value transport answered_source sample_ids fair_run (then_idle fair_schedule).
Proof.
  split; [reflexivity|]. intros n. apply run_of_steps.
  apply (bool_decide_unpack _). vm_compute. exact I.
Qed.

(** The end of the schedule: the inbound task and the call have returned. *)
Lemma fair_run_end n :
  (16 <= n)%nat ->
  inbound (fair_run n) = Ret tt /\ inbound_aborted (cworld (fair_run n)) = false /\
  exists o, requests (fair_run n) !! 0%nat = Some (fair_call, Ret o).
Proof.
  intros Hn. unfold fair_run.
  destruct (run_of_idle fair_schedule (caller_init transport answered_source sample_ids) n)
    as (-> & -> & ->); [simpl; lia|].
  split; [vm_compute; reflexivity|]. split; [vm_compute; reflexivity|].
  eexists. vm_compute. reflexivity.
Qed.

Lemma fair_run_kept n : inbound_aborted (cworld (fair_run n)) = false.
Proof.
  assert (H : forallb (fun n => negb (inbound_aborted (cworld (fair_run n)))) (seq 0 17) = true)
    by (vm_compute; reflexivity).
  rewrite forallb_forall in H. destruct (decide (n < 17)%nat) as [Hlt|Hge].
  - apply negb_true_iff, H, in_seq. lia.
  - apply fair_run_end. lia.
Qed.

Lemma fair_run_fair a :
  a = InboundStep \/ a = RequestStep 0 ->
  weakly_fair as_value transport fair_run (then_idle fair_schedule) a.
Proof.
  intros Ha n. exists (Nat.max n 16). split; [lia|]. right.
  destruct (fair_run_end (Nat.max n 16)) as (Hi & Hab & o & Ho); [lia|].
  destruct Ha as [-> | ->]; cbn.
  - rewrite Hi. by destruct (take_item _ _ _).
  - by rewrite Ho.
Qed.

(** After seven steps the call waits and its sender is filed. *)
Lemma fair_run_waits :
  fair_run 7 =
    mkCState {[0%nat := (fair_call, waiting transport (call_reply as_value) OCall 0)]}
      (inbound_loop answered_source (router_endpoint transport))
      (filed_world sample_ids (client_call_frame (ClientMessage.now_ts 0))) 0 0.
Proof.
  unfold fair_run, fair_schedule. rewrite run_of_prefix by (simpl; lia).
  apply (run_of_all (ask fair_call)).
  apply (asked_state as_value transport answered_source sample_ids fair_call
    (call_reply as_value) OCall (client_call_frame (ClientMessage.now_ts 0))).
  apply (call_waits as_value transport sample_ids "s" "add" (args sample_call) call_bytes);
    vm_compute; reflexivity.
Qed.

Lemma filed_calls_return_witness :
  exists m o, (7 <= m)%nat /\ requests (fair_run m) !! 0%nat = Some (fair_call, Ret o).
Proof.
  eapply (filed_calls_return as_value transport answered_source sample_ids sample_ids_inj fair_run
    (then_idle fair_schedule) fair_run_execution fair_run_kept (fair_run_fair _ (or_introl eq_refl))
    7 0 fair_call 0 None _ "m0").
  - apply fair_run_fair. right. reflexivity.
  - rewrite fair_run_waits. reflexivity.
  - rewrite fair_run_waits. vm_compute. reflexivity.
  - rewrite fair_run_waits. reflexivity.
  - exists 8%nat. rewrite fair_run_waits. vm_compute. reflexivity.
Defined.
