(* ===== verification/Metrics.v ===== *)
(** The metrics collector: [rust/src/metrics.rs].

    The collector's state is behind one lock, so every method is one atomic
    update.  Counters are [usize] with the wrap-around of a release build;
    latencies are [f64]; [snapshot] is [None] when the comparison of two
    samples panics (a NaN). *)

From S2P Require Import Prelude Float64.

Local Open Scope string_scope.
Local Open Scope Z_scope.

Record MetricsInner : Set := mkMetrics {
  max_latency_samples : nat;
  window_seconds : f64;
  requests_total : Z;
  requests_success : Z;
  requests_failed : Z;
  circuit_breaker_trips : Z;
  circuit_breaker_state : string;
  queue_depth : Z;
  queue_max_depth : Z;
  latencies : list f64;
  heartbeat_rtts : list f64;
  heartbeat_misses : Z;
}.

Record MetricsSnapshot : Set := mkSnapshot {
  s_requests_total : Z;
  s_requests_success : Z;
  s_requests_failed : Z;
  latency_avg_ms : f64;
  latency_p50_ms : f64;
  latency_p95_ms : f64;
  latency_p99_ms : f64;
  latency_min_ms : f64;
  latency_max_ms : f64;
  s_queue_depth : Z;
  s_queue_max_depth : Z;
  s_circuit_breaker_trips : Z;
  s_circuit_breaker_state : string;
  heartbeat_rtt_avg_ms : f64;
  heartbeat_rtt_last_ms : f64;
  s_heartbeat_misses : Z;
  s_window_seconds : f64;
  s_timestamp : f64;
}.

(** [n += 1] on a [usize]. *)
Definition incr (n : Z) : Z := wrap 64 (n + 1).
Definition saturating_sub (a b : Z) : Z := Z.max 0 (a - b).

(** [push_back], then [pop_front] when the length exceeds the bound. *)
Definition push_bounded {A} (bound : nat) (x : A) (l : list A) : list A :=
  let l := (l ++ [x])%list in
  if (bound <? length l)%nat then tail l else l.

Definition HEARTBEAT_SAMPLES : nat := 100.

(** * Methods *)

Definition with_options (max_latency_samples : nat) (window_seconds : f64) : MetricsInner :=
  mkMetrics max_latency_samples window_seconds 0 0 0 0 "closed" 0 0 [] [] 0.

Definition new : MetricsInner := with_options 1000 (F64.of_Z 60).
Definition Metrics_default : MetricsInner := new.

Definition start_request (m : MetricsInner) : MetricsInner :=
  let depth := incr (queue_depth m) in
  mkMetrics (max_latency_samples m) (window_seconds m) (incr (requests_total m))
    (requests_success m) (requests_failed m) (circuit_breaker_trips m)
    (circuit_breaker_state m) depth (Z.max (queue_max_depth m) depth) (latencies m)
    (heartbeat_rtts m) (heartbeat_misses m).

(** [start_time.elapsed().as_secs_f64() * 1000.0]. *)
Definition latency_of (start_time now : Z) : f64 :=
  F64.mul (as_secs_f64 (Z.max 0 (now - start_time))) (F64.of_Z 1000).

Definition end_request (start_time now : Z) (success : bool) (m : MetricsInner) :
    f64 * MetricsInner :=
  let latency_ms := latency_of start_time now in
  (latency_ms,
   mkMetrics (max_latency_samples m) (window_seconds m) (requests_total m)
     (if success then incr (requests_success m) else requests_success m)
     (if success then requests_failed m else incr (requests_failed m))
     (circuit_breaker_trips m) (circuit_breaker_state m) (saturating_sub (queue_depth m) 1)
     (queue_max_depth m) (push_bounded (max_latency_samples m) latency_ms (latencies m))
     (heartbeat_rtts m) (heartbeat_misses m)).

Definition set_breaker (trips : Z) (state : string) (m : MetricsInner) : MetricsInner :=
  mkMetrics (max_latency_samples m) (window_seconds m) (requests_total m) (requests_success m)
    (requests_failed m) trips state (queue_depth m) (queue_max_depth m) (latencies m)
    (heartbeat_rtts m) (heartbeat_misses m).

Definition record_circuit_breaker_trip (m : MetricsInner) : MetricsInner :=
  set_breaker (incr (circuit_breaker_trips m)) "open" m.
Definition record_circuit_breaker_reset (m : MetricsInner) : MetricsInner :=
  set_breaker (circuit_breaker_trips m) "closed" m.
Definition record_circuit_breaker_half_open (m : MetricsInner) : MetricsInner :=
  set_breaker (circuit_breaker_trips m) "half-open" m.

Definition set_heartbeat (rtts : list f64) (misses : Z) (m : MetricsInner) : MetricsInner :=
  mkMetrics (max_latency_samples m) (window_seconds m) (requests_total m) (requests_success m)
    (requests_failed m) (circuit_breaker_trips m) (circuit_breaker_state m) (queue_depth m)
    (queue_max_depth m) (latencies m) rtts misses.

Definition record_heartbeat_rtt (rtt_ms : f64) (m : MetricsInner) : MetricsInner :=
  set_heartbeat (push_bounded HEARTBEAT_SAMPLES rtt_ms (heartbeat_rtts m)) (heartbeat_misses m) m.
Definition record_heartbeat_miss (m : MetricsInner) : MetricsInner :=
  set_heartbeat (heartbeat_rtts m) (incr (heartbeat_misses m)) m.

Definition reset (m : MetricsInner) : MetricsInner :=
  with_options (max_latency_samples m) (window_seconds m).

(** ** Snapshot *)

(** [sort_by(|a, b| a.partial_cmp(b).unwrap())], as a stable insertion sort:
    the result of a stable sort does not depend on the algorithm. *)
Fixpoint insert_by (x : f64) (l : list f64) : option (list f64) :=
  match l with
  | [] => Some [x]
  | y :: l =>
      match F64.partial_cmp x y with
      | None => None
      | Some Gt => cons y <$> insert_by x l
      | Some _ => Some (x :: y :: l)
      end
  end.

Fixpoint sort_by (l : list f64) : option (list f64) :=
  match l with
  | [] => Some []
  | x :: l => sort_by l ≫= insert_by x
  end.

Definition sum (l : list f64) : f64 := foldl F64.add F64.zero l.
Definition usize_as_f64 (n : nat) : f64 := F64.of_Z (Z.of_nat n).

(** [(n as f64 * q) as usize], capped at the last index. *)
Definition quantile_index (q : f64) (n : nat) : nat :=
  Nat.min (Z.to_nat (F64.to_usize (F64.mul (usize_as_f64 n) q))) (n - 1).

Definition q50 : f64 := F64.literal 50 2.
Definition q95 : f64 := F64.literal 95 2.
Definition q99 : f64 := F64.literal 99 2.

(** [latencies[i]] with [i] in range. *)
Definition at_index (l : list f64) (i : nat) : f64 := default F64.zero (l !! i).

Definition current_timestamp (system_time : Z) : f64 :=
  if 0 <=? system_time then as_secs_f64 system_time else F64.zero.

Definition snapshot (system_time : Z) (m : MetricsInner) : option MetricsSnapshot :=
  sorted ← sort_by (latencies m);
  let n := length sorted in
  let '(avg, p50, p95, p99, lo, hi) :=
    if (0 <? n)%nat
    then (F64.div (sum sorted) (usize_as_f64 n),
          at_index sorted (quantile_index q50 n), at_index sorted (quantile_index q95 n),
          at_index sorted (quantile_index q99 n), at_index sorted 0, at_index sorted (n - 1))
    else (F64.zero, F64.zero, F64.zero, F64.zero, F64.zero, F64.zero) in
  let rtts := heartbeat_rtts m in
  let '(rtt_avg, rtt_last) :=
    if (0 <? length rtts)%nat
    then (F64.div (sum rtts) (usize_as_f64 (length rtts)), default F64.zero (last rtts))
    else (F64.zero, F64.zero) in
  Some (mkSnapshot (requests_total m) (requests_success m) (requests_failed m)
          avg p50 p95 p99 lo hi (queue_depth m) (queue_max_depth m)
          (circuit_breaker_trips m) (circuit_breaker_state m) rtt_avg rtt_last
          (heartbeat_misses m) (window_seconds m) (current_timestamp system_time)).

(** * Histories *)

Inductive MetricsOp : Set :=
| StartRequest
| EndRequest (start_time now : Z) (success : bool)
| Trip
| BreakerReset
| HalfOpen
| HeartbeatRtt (rtt : f64)
| HeartbeatMiss
| Reset.

Definition apply_op (o : MetricsOp) (m : MetricsInner) : MetricsInner :=
  match o with
  | StartRequest => start_request m
  | EndRequest s n ok => (end_request s n ok m).2
  | Trip => record_circuit_breaker_trip m
  | BreakerReset => record_circuit_breaker_reset m
  | HalfOpen => record_circuit_breaker_half_open m
  | HeartbeatRtt x => record_heartbeat_rtt x m
  | HeartbeatMiss => record_heartbeat_miss m
  | Reset => reset m
  end.

Definition run_ops (l : list MetricsOp) (m : MetricsInner) : MetricsInner :=
  foldl (fun m o => apply_op o m) m l.

(** ** Specification: what was recorded since the last reset *)

Record Recorded : Set := mkRecorded {
  r_started : Z;
  r_succeeded : Z;
  r_failed : Z;
  r_trips : Z;
  r_misses : Z;
  r_latencies : list f64;
  r_rtts : list f64;
}.

Definition nothing_recorded : Recorded := mkRecorded 0 0 0 0 0 [] [].

Definition record_op (r : Recorded) (o : MetricsOp) : Recorded :=
  match o with
  | StartRequest =>
      mkRecorded (r_started r + 1) (r_succeeded r) (r_failed r) (r_trips r) (r_misses r)
        (r_latencies r) (r_rtts r)
  | EndRequest s n ok =>
      mkRecorded (r_started r) (r_succeeded r + if ok then 1 else 0)
        (r_failed r + if ok then 0 else 1) (r_trips r) (r_misses r)
        (r_latencies r ++ [latency_of s n])%list (r_rtts r)
  | Trip =>
      mkRecorded (r_started r) (r_succeeded r) (r_failed r) (r_trips r + 1) (r_misses r)
        (r_latencies r) (r_rtts r)
  | HeartbeatRtt x =>
      mkRecorded (r_started r) (r_succeeded r) (r_failed r) (r_trips r) (r_misses r)
        (r_latencies r) (r_rtts r ++ [x])%list
  | HeartbeatMiss =>
      mkRecorded (r_started r) (r_succeeded r) (r_failed r) (r_trips r) (r_misses r + 1)
        (r_latencies r) (r_rtts r)
  | Reset => nothing_recorded
  | BreakerReset | HalfOpen => r
  end.

Definition recorded (l : list MetricsOp) : Recorded := foldl record_op nothing_recorded l.

(** The collector's state is a bounded view of the record. *)
Record reflects (r : Recorded) (m : MetricsInner) : Prop := {
  rf_total : requests_total m = wrap 64 (r_started r);
  rf_success : requests_success m = wrap 64 (r_succeeded r);
  rf_failed : requests_failed m = wrap 64 (r_failed r);
  rf_trips : circuit_breaker_trips m = wrap 64 (r_trips r);
  rf_misses : heartbeat_misses m = wrap 64 (r_misses r);
  rf_latencies : latencies m = lastn (max_latency_samples m) (r_latencies r);
  rf_rtts : heartbeat_rtts m = lastn HEARTBEAT_SAMPLES (r_rtts r);
}.

Lemma incr_wrap z : incr (wrap 64 z) = wrap 64 (z + 1).
Proof. unfold incr, wrap. by rewrite Zplus_mod_idemp_l. Qed.

Lemma push_bounded_short {A} n (x : A) l :
  (length l <= n)%nat -> push_bounded n x l = lastn n (l ++ [x]).
Proof.
  intros Hl. unfold push_bounded, lastn. rewrite length_app. simpl.
  destruct (Nat.ltb_spec n (length l + 1)).
  - replace (length l + 1 - n)%nat with 1%nat by lia. by destruct (l ++ [x])%list.
  - by replace (length l + 1 - n)%nat with 0%nat by lia.
Qed.

Lemma push_bounded_lastn {A} n (x : A) l : push_bounded n x (lastn n l) = lastn n (l ++ [x]).
Proof. rewrite push_bounded_short by (rewrite length_lastn; lia). apply lastn_snoc. Qed.

Lemma apply_op_config o m :
  max_latency_samples (apply_op o m) = max_latency_samples m.
Proof. by destruct o. Qed.

Lemma run_ops_config l m : max_latency_samples (run_ops l m) = max_latency_samples m.
Proof.
  revert m. induction l as [|o l IH]; intros m; simpl; [done|].
  by rewrite IH, apply_op_config.
Qed.

Lemma reflects_step r m o : reflects r m -> reflects (record_op r o) (apply_op o m).
Proof.
  intros []. destruct o as [|s n []| | | | | |]; split; simpl; try done;
    rewrite ?Z.add_0_r; try congruence; try (rewrite <- incr_wrap; congruence).
  - rewrite rf_latencies0. apply push_bounded_lastn.
  - rewrite rf_latencies0. apply push_bounded_lastn.
  - rewrite rf_rtts0. apply push_bounded_lastn.
Qed.

Lemma reflects_run l r m : reflects r m -> reflects (foldl record_op r l) (run_ops l m).
Proof.
  revert r m. induction l as [|o l IH]; intros r m H; simpl; [done|].
  apply IH. by apply reflects_step.
Qed.

(** * Balanced histories *)

(** No reset, and no request ends before it started. *)
Fixpoint bracketed (in_flight : Z) (l : list MetricsOp) : bool :=
  match l with
  | [] => true
  | StartRequest :: l => bracketed (in_flight + 1) l
  | EndRequest _ _ _ :: l => (0 <? in_flight) && bracketed (in_flight - 1) l
  | Reset :: _ => false
  | _ :: l => bracketed in_flight l
  end.

(** The counters add up, with room for [k] more operations. *)
Record balanced (d k : Z) (m : MetricsInner) : Prop := {
  bl_depth : queue_depth m = d;
  bl_sum : requests_total m = requests_success m + requests_failed m + queue_depth m;
  bl_pos : 0 <= requests_success m /\ 0 <= requests_failed m /\ 0 <= queue_depth m;
  bl_max : queue_depth m <= queue_max_depth m <= requests_total m;
  bl_room : requests_total m + k < 2 ^ 64;
}.

Lemma incr_small n : 0 <= n -> n + 1 < 2 ^ 64 -> incr n = n + 1.
Proof. intros. unfold incr. apply wrap_small. lia. Qed.

Lemma balanced_start d k m :
  0 <= k -> balanced d (k + 1) m -> balanced (d + 1) k (start_request m).
Proof.
  intros Hk [H1 H2 H3 H4 H5]. destruct H3 as (? & ? & ?).
  split; simpl; rewrite !incr_small by lia; lia.
Qed.

Lemma balanced_end d k s n ok m :
  0 <= k -> 0 < d -> balanced d (k + 1) m -> balanced (d - 1) k (end_request s n ok m).2.
Proof.
  intros Hk Hd [H1 H2 H3 H4 H5]. destruct H3 as (? & ? & ?).
  split; simpl; unfold saturating_sub; destruct ok; rewrite ?incr_small by lia; lia.
Qed.

Lemma balanced_run l d m :
  bracketed d l = true -> balanced d (Z.of_nat (length l)) m ->
  exists d', balanced d' 0 (run_ops l m).
Proof.
  revert d m. induction l as [|o l IH]; intros d m Hb Hm; simpl; [by exists d|].
  assert (E : Z.of_nat (length (o :: l)) = Z.of_nat (length l) + 1) by (simpl; lia).
  rewrite E in Hm. assert (0 <= Z.of_nat (length l)) by lia.
  destruct o as [|s n ok| | | |x| |]; simpl in Hb; try done;
    try (apply (IH d); [done|]; destruct Hm as [H1 H2 H3 H4 H5]; split; simpl in *; lia).
  - apply (IH (d + 1)); [done|]. by apply balanced_start.
  - apply andb_prop in Hb as [Hd Hb]. apply (IH (d - 1)); [done|].
    apply balanced_end; [done|lia|done].
Qed.

(** * Sorting *)

Lemma insert_by_spec x l :
  F64.is_nan x = false -> Forall (fun y => F64.is_nan y = false) l -> Sorted f64_le l ->
  exists l', insert_by x l = Some l' /\ Permutation l' (x :: l) /\ Sorted f64_le l' /\
    forall y, HdRel f64_le y l -> f64_le y x -> HdRel f64_le y l'.
Proof.
  intros Hx Hl Hs. induction l as [|y l IH]; simpl.
  - exists [x]. repeat split; eauto.
  - apply Forall_cons in Hl as [Hy Hl]. apply Sorted_inv in Hs as [Hs Hd].
    destruct (partial_cmp_some x y Hx Hy) as [c Hc]. rewrite Hc.
    destruct (decide (c = Gt)) as [->|Hne].
    + destruct (IH Hl Hs) as (l' & -> & Hp & Hs' & Hd'). exists (y :: l'). simpl.
      split; [done|]. split; [rewrite Hp; constructor|].
      apply partial_cmp_gt in Hc. split; [constructor; [done|by apply Hd']|].
      intros z Hz _. apply HdRel_inv in Hz. by constructor.
    + exists (x :: y :: l). split; [by destruct c|]. split; [done|].
      assert (f64_le x y) by (by apply (partial_cmp_le x y c Hc)).
      split; [repeat constructor; done|]. intros z _ Hz. by constructor.
Qed.

Lemma sort_by_spec l :
  Forall (fun y => F64.is_nan y = false) l ->
  exists l', sort_by l = Some l' /\ Permutation l' l /\ Sorted f64_le l'.
Proof.
  induction l as [|x l IH]; intros Hl; simpl; [by exists []|].
  apply Forall_cons in Hl as [Hx Hl]. destruct (IH Hl) as (l1 & -> & Hp & Hs). simpl.
  destruct (insert_by_spec x l1 Hx) as (l2 & -> & Hp2 & Hs2 & _); [by rewrite Hp|done|].
  exists l2. split; [done|]. split; [by rewrite Hp2, Hp|done].
Qed.

(** Up to the size of the default buffer the floating-point products round to
    the exact percentages. *)
Definition quantiles_exact (n : nat) : bool :=
  (quantile_index q50 n =? n * 50 / 100)%nat && (quantile_index q95 n =? n * 95 / 100)%nat
  && (quantile_index q99 n =? n * 99 / 100)%nat.

Lemma quantiles_exact_1000 : forallb quantiles_exact (seq 1 1000) = true.
Proof. vm_compute. reflexivity. Qed.

Lemma quantile_indices n :
  (1 <= n <= 1000)%nat ->
  quantile_index q50 n = (n * 50 / 100)%nat /\ quantile_index q95 n = (n * 95 / 100)%nat /\
  quantile_index q99 n = (n * 99 / 100)%nat.
Proof.
  intros Hn. pose proof quantiles_exact_1000 as H. rewrite forallb_forall in H.
  specialize (H n ltac:(apply in_seq; lia)). unfold quantiles_exact in H.
  rewrite !andb_true_iff, !Nat.eqb_eq in H. tauto.
Qed.

Lemma percentile_bound n q : (0 < n)%nat -> (q < 100)%nat -> (n * q / 100 < n)%nat.
Proof. intros Hn Hq. apply Nat.Div0.div_lt_upper_bound. nia. Qed.

Lemma at_index_lookup l i : (i < length l)%nat -> l !! i = Some (at_index l i).
Proof.
  intros Hi. unfold at_index. destruct (lookup_lt_is_Some_2 l i Hi) as [x Hx]. by rewrite Hx.
Qed.

(** * Properties *)

(** C31: after any sequence of operations, the counters are the numbers of
    recorded events since the last reset (modulo the width of [usize]), and
    the sample buffers hold exactly the latest samples, in order, up to their
    capacity. *)
Theorem metrics_reflect_history (capacity : nat) (window : f64) (l : list MetricsOp) :
  reflects (recorded l) (run_ops l (with_options capacity window)) /\
  max_latency_samples (run_ops l (with_options capacity window)) = capacity.
Proof.
  split; [|apply run_ops_config]. apply reflects_run. by split.
Qed.

(** When every end matches an earlier start and there was no reset, the
    requests add up: total = succeeded + failed + in flight, and the recorded
    maximum depth is at least the present depth and at most the total. *)
Theorem requests_add_up (capacity : nat) (window : f64) (l : list MetricsOp)
    (Hl : bracketed 0 l = true) (Hlen : Z.of_nat (length l) < 2 ^ 64) :
  let m := run_ops l (with_options capacity window) in
  requests_total m = requests_success m + requests_failed m + queue_depth m /\
  0 <= queue_depth m <= queue_max_depth m /\ queue_max_depth m <= requests_total m.
Proof.
  intros m. destruct (balanced_run l 0 (with_options capacity window) Hl) as [d []];
    [split; simpl; lia|]. unfold m. repeat split; lia.
Qed.

(** C32: the snapshot of a collector with 1 to 1000 samples, none of them NaN,
    does not panic, and its latency figures are the order statistics their
    names say.  With the [n] samples in increasing order, the minimum is the
    first of them and the maximum the last; p50, p95 and p99 are the ones with
    exactly 50, 95 and 99 percent of [n], rounded down, before them; and the
    average is their sum divided by [n]. *)
Theorem snapshot_order_statistics (now : Z) (m : MetricsInner)
    (Hnan : Forall (fun x => F64.is_nan x = false) (latencies m))
    (Hlen : (1 <= length (latencies m) <= 1000)%nat) :
  exists s l, snapshot now m = Some s /\ Permutation l (latencies m) /\ Sorted f64_le l /\
    let n := length (latencies m) in
    l !! 0%nat = Some (latency_min_ms s) /\
    l !! (n * 50 / 100)%nat = Some (latency_p50_ms s) /\
    l !! (n * 95 / 100)%nat = Some (latency_p95_ms s) /\
    l !! (n * 99 / 100)%nat = Some (latency_p99_ms s) /\
    l !! (n - 1)%nat = Some (latency_max_ms s) /\
    latency_avg_ms s = F64.div (sum l) (usize_as_f64 n).
Proof.
  destruct (sort_by_spec _ Hnan) as (l & Hl & Hp & Hs).
  assert (Hn : length l = length (latencies m)) by (by rewrite Hp).
  destruct (quantile_indices (length l)) as (H50 & H95 & H99); [lia|].
  unfold snapshot. rewrite Hl. simpl. rewrite (proj2 (Nat.ltb_lt 0 (length l))) by lia.
  destruct (if (0 <? length (heartbeat_rtts m))%nat then _ else _) as [avg lst].
  rewrite H50, H95, H99, Hn. eexists _, l. split; [reflexivity|]. do 2 (split; [done|]). simpl.
  repeat split; apply at_index_lookup; rewrite Hn; try apply percentile_bound; lia.
Qed.

(** * Instances *)

Lemma requests_add_up_witness :
  let l := [StartRequest; StartRequest; EndRequest 0 5 true; Trip; StartRequest] in
  let m := run_ops l new in
  requests_total m = 3 /\
  requests_total m = requests_success m + requests_failed m + queue_depth m.
Proof.
  split; [vm_compute; reflexivity|].
  apply (requests_add_up 1000 (F64.of_Z 60)
           [StartRequest; StartRequest; EndRequest 0 5 true; Trip; StartRequest]);
    vm_compute; reflexivity.
Defined.

Definition three_samples : MetricsInner :=
  run_ops [StartRequest; EndRequest 0 5000000 true; StartRequest; EndRequest 0 1000000 true;
           StartRequest; EndRequest 0 3000000 false] new.

Lemma snapshot_order_statistics_witness :
  exists s l, snapshot 0 three_samples = Some s /\ Permutation l (latencies three_samples) /\
    l !! 1%nat = Some (latency_p50_ms s) /\ l !! 2%nat = Some (latency_p95_ms s).
Proof.
  destruct (snapshot_order_statistics 0 three_samples)
    as (s & l & Hs & Hp & _ & _ & H50 & H95 & _).
  - repeat constructor.
  - vm_compute. lia.
  - exists s, l. split; [exact Hs|]. split; [exact Hp|]. split; [exact H50|exact H95].
Defined.
