(* ===== verification/Logging.v ===== *)
(** Structured logging: [rust/src/logging.rs].

    A log call hands at most one entry to the logger's handler; the model
    returns the handler and the entry it is applied to.  [H] is the type of
    handlers.  [serde_json] (the JSON form of an entry) and the formatting of
    a float with one decimal are parameters. *)

From S2P Require Import Prelude Float64 Wire.
From Stdlib Require Import Ascii.

Local Open Scope string_scope.
Local Open Scope Z_scope.

(** * Levels and events *)

Inductive LogLevel : Set := Debug | Info | Warn | Error.

#[export] Instance LogLevel_eq_dec : EqDecision LogLevel.
Proof. solve_decision. Defined.

Definition LogLevel_display (l : LogLevel) : string :=
  match l with Debug => "debug" | Info => "info" | Warn => "warn" | Error => "error" end.

(** [level as u8]. *)
Definition level_as_u8 (l : LogLevel) : Z :=
  match l with Debug => 0 | Info => 1 | Warn => 2 | Error => 3 end.

Inductive LogEvent : Set :=
| WorkerStart | WorkerStop | WorkerRestart
| RequestStart | RequestEnd | RequestTimeout | RequestError
| CircuitOpen | CircuitClose | CircuitHalfOpen
| SocketConnect | SocketDisconnect | SocketReconnect
| ProcessSpawn | ProcessExit
| HeartbeatSent | HeartbeatReceived | HeartbeatMissed | HeartbeatTimeout
| QueueOverflow.

Definition variant_name (e : LogEvent) : string :=
  match e with
  | WorkerStart => "WorkerStart" | WorkerStop => "WorkerStop"
  | WorkerRestart => "WorkerRestart" | RequestStart => "RequestStart"
  | RequestEnd => "RequestEnd" | RequestTimeout => "RequestTimeout"
  | RequestError => "RequestError" | CircuitOpen => "CircuitOpen"
  | CircuitClose => "CircuitClose" | CircuitHalfOpen => "CircuitHalfOpen"
  | SocketConnect => "SocketConnect" | SocketDisconnect => "SocketDisconnect"
  | SocketReconnect => "SocketReconnect" | ProcessSpawn => "ProcessSpawn"
  | ProcessExit => "ProcessExit" | HeartbeatSent => "HeartbeatSent"
  | HeartbeatReceived => "HeartbeatReceived" | HeartbeatMissed => "HeartbeatMissed"
  | HeartbeatTimeout => "HeartbeatTimeout" | QueueOverflow => "QueueOverflow"
  end.

(** ASCII case mapping. *)
Definition is_upper (a : ascii) : bool :=
  let n := nat_of_ascii a in (65 <=? n)%nat && (n <=? 90)%nat.
Definition to_lower (a : ascii) : ascii :=
  if is_upper a then ascii_of_nat (nat_of_ascii a + 32) else a.
Definition to_upper (a : ascii) : ascii :=
  let n := nat_of_ascii a in
  if (97 <=? n)%nat && (n <=? 122)%nat then ascii_of_nat (n - 32) else a.

(** [#[serde(rename_all = "snake_case")]]. *)
Fixpoint snake_case (first : bool) (s : string) : string :=
  match s with
  | EmptyString => EmptyString
  | String a s =>
      if is_upper a && negb first
      then String "_"%char (String (to_lower a) (snake_case false s))
      else String (to_lower a) (snake_case false s)
  end.

(** The JSON text of a unit variant without its quotes. *)
Definition LogEvent_display (e : LogEvent) : string := snake_case true (variant_name e).

(** * Entries *)

Record LogEntry : Set := mkLogEntry {
  event : string;
  level : string;
  entry_message : string;
  timestamp : f64;
  correlation_id : option string;
  request_id : option string;
  parent_request_id : option string;
  worker_id : option string;
  entry_service_id : option string;
  entry_function : option string;
  entry_namespace : option string;
  duration_ms : option f64;
  success : option bool;
  error : option string;
  error_type : option string;
  metrics : option Value;
  metadata : option Value;
}.

Definition LogEntry_default : LogEntry :=
  mkLogEntry "" "" "" F64.zero None None None None None None None None None None None None None.

(** An optional field, left out when it is [None]
    ([skip_serializing_if = "Option::is_none"]). *)
Definition optional {A} (name : string) (to_value : A -> Value) (o : option A) :
    list (string * Value) :=
  match o with Some a => [(name, to_value a)] | None => [] end.

(** The JSON object of an entry ([derive(Serialize)]), in field order. *)
Definition entry_fields (e : LogEntry) : list (string * Value) :=
  ([("event", Str (event e)); ("level", Str (level e)); ("message", Str (entry_message e));
    ("timestamp", f64_value (timestamp e))]
   ++ optional "correlation_id" Str (correlation_id e)
   ++ optional "request_id" Str (request_id e)
   ++ optional "parent_request_id" Str (parent_request_id e)
   ++ optional "worker_id" Str (worker_id e)
   ++ optional "service_id" Str (entry_service_id e)
   ++ optional "function" Str (entry_function e)
   ++ optional "namespace" Str (entry_namespace e)
   ++ optional "duration_ms" f64_value (duration_ms e)
   ++ optional "success" Bool (success e)
   ++ optional "error" Str (error e)
   ++ optional "error_type" Str (error_type e)
   ++ optional "metrics" (fun x => x) (metrics e)
   ++ optional "metadata" (fun x => x) (metadata e))%list.

(** [to_json]; [to_string] is [serde_json::to_string] on JSON values. *)
Definition to_json (to_string : Value -> result string string) (e : LogEntry) : string :=
  match to_string (Object (entry_fields e)) with Ok s => s | Err _ => "" end.

(** The line the JSON handler prints. *)
Definition default_json_handler (to_string : Value -> result string string) (e : LogEntry) : string :=
  to_json to_string e.

(** [current_timestamp]: 0.0 when the clock is before the epoch. *)
Definition current_timestamp (system_time : Z) : f64 :=
  if 0 <=? system_time then as_secs_f64 system_time else F64.zero.

Record LogOptions : Set := mkLogOptions {
  opt_correlation_id : option string;
  opt_request_id : option string;
  opt_parent_request_id : option string;
  opt_function : option string;
  opt_namespace : option string;
  opt_duration_ms : option f64;
  opt_success : option bool;
  opt_error : option string;
  opt_error_type : option string;
  opt_metrics : option Value;
  opt_metadata : option Value;
}.

Definition LogOptions_default : LogOptions :=
  mkLogOptions None None None None None None None None None None None.

Definition metadata_options (m : Value) : LogOptions :=
  mkLogOptions None None None None None None None None None None (Some m).

(** * The logger *)

Section logger.
Context {H : Type}.

Record StructuredLogger : Type := mkLogger {
  handler : option H;
  min_level : LogLevel;
  logger_worker_id : option string;
  logger_service_id : option string;
}.

Definition logger_new (h : option H) (lv : LogLevel) (worker service : option string) :
    StructuredLogger :=
  mkLogger h lv worker service.

Definition set_handler (h : H) (l : StructuredLogger) : StructuredLogger :=
  mkLogger (Some h) (min_level l) (logger_worker_id l) (logger_service_id l).

Definition or_else {A} (o d : option A) : option A :=
  match o with Some a => Some a | None => d end.

Definition set_context (worker service : option string) (l : StructuredLogger) :
    StructuredLogger :=
  mkLogger (handler l) (min_level l) (or_else worker (logger_worker_id l))
    (or_else service (logger_service_id l)).

Definition should_log (l : StructuredLogger) (lv : LogLevel) : bool :=
  level_as_u8 (min_level l) <=? level_as_u8 lv.

Definition log (l : StructuredLogger) (now : f64) (e : LogEvent) (message : string)
    (lv : LogLevel) (o : LogOptions) : option (H * LogEntry) :=
  match handler l with
  | None => None
  | Some h =>
      if negb (should_log l lv) then None
      else Some (h, {|
        event := LogEvent_display e;
        level := LogLevel_display lv;
        entry_message := message;
        timestamp := now;
        worker_id := logger_worker_id l;
        entry_service_id := logger_service_id l;
        correlation_id := opt_correlation_id o;
        request_id := opt_request_id o;
        parent_request_id := opt_parent_request_id o;
        entry_function := opt_function o;
        entry_namespace := opt_namespace o;
        duration_ms := opt_duration_ms o;
        success := opt_success o;
        error := opt_error o;
        error_type := opt_error_type o;
        metrics := opt_metrics o;
        metadata := opt_metadata o |})
  end.

Definition log_debug (l : StructuredLogger) (now : f64) (e : LogEvent) (message : string)
    (o : LogOptions) : option (H * LogEntry) := log l now e message Debug o.
Definition log_info (l : StructuredLogger) (now : f64) (e : LogEvent) (message : string)
    (o : LogOptions) : option (H * LogEntry) := log l now e message Info o.
Definition log_warn (l : StructuredLogger) (now : f64) (e : LogEvent) (message : string)
    (o : LogOptions) : option (H * LogEntry) := log l now e message Warn o.
Definition log_error (l : StructuredLogger) (now : f64) (e : LogEvent) (message : string)
    (o : LogOptions) : option (H * LogEntry) := log l now e message Error o.

(** ** Events; [now] is [current_timestamp()] *)

Definition request_start (l : StructuredLogger) (now : f64) (id f ns : string)
    (correlation : option string) (meta : option Value) : option (H * LogEntry) :=
  log l now RequestStart ("Calling " +:+ f) Debug
    (mkLogOptions correlation (Some id) None (Some f) (Some ns) None None None None None meta).

Definition request_end (l : StructuredLogger) (now : f64) (id f : string) (duration : f64)
    (ok : bool) (err correlation : option string) : option (H * LogEntry) :=
  log l now (if ok then RequestEnd else RequestError)
    ((if ok then "Completed" else "Failed") +:+ " " +:+ f)
    (if ok then Info else Warn)
    (mkLogOptions correlation (Some id) None (Some f) None (Some duration) (Some ok) err
       None None None).

Definition circuit_open (l : StructuredLogger) (now : f64) (failures : Z) : option (H * LogEntry) :=
  log l now CircuitOpen ("Circuit breaker opened after " +:+ pretty failures +:+ " failures")
    Warn LogOptions_default.

Definition circuit_close (l : StructuredLogger) (now : f64) : option (H * LogEntry) :=
  log l now CircuitClose "Circuit breaker closed (recovered)" Info LogOptions_default.

Definition worker_start (l : StructuredLogger) (now : f64) (mode : string) : option (H * LogEntry) :=
  log l now WorkerStart ("Worker started in " +:+ mode +:+ " mode") Info LogOptions_default.

Definition worker_stop (l : StructuredLogger) (now : f64) (why : string) : option (H * LogEntry) :=
  log l now WorkerStop ("Worker stopped: " +:+ why) Info LogOptions_default.

(** [json!] of an integer. *)
Definition json_int (z : Z) : Value := Num (if 0 <=? z then PosInt z else NegInt z).

Definition process_exit (l : StructuredLogger) (now : f64) (exit_code : Z) : option (H * LogEntry) :=
  log l now ProcessExit ("Child process exited with code " +:+ pretty exit_code)
    (if exit_code =? 0 then Info else Warn)
    (metadata_options (Object [("exit_code", json_int exit_code)])).

Definition heartbeat_sent (l : StructuredLogger) (now : f64) : option (H * LogEntry) :=
  log l now HeartbeatSent "Heartbeat sent" Debug LogOptions_default.

Context (fmt1 : f64 -> string).    (* {:.1} *)

Definition heartbeat_received (l : StructuredLogger) (now : f64) (rtt : f64) :
    option (H * LogEntry) :=
  log l now HeartbeatReceived ("Heartbeat received (RTT: " +:+ fmt1 rtt +:+ "ms)") Debug
    (mkLogOptions None None None None None (Some rtt) None None None None None).

Definition heartbeat_missed (l : StructuredLogger) (now : f64) (consecutive max_allowed : Z) :
    option (H * LogEntry) :=
  log l now HeartbeatMissed
    ("Heartbeat missed (" +:+ pretty consecutive +:+ "/" +:+ pretty max_allowed +:+ ")") Warn
    (metadata_options (Object [("consecutive_misses", json_int consecutive);
                               ("max_allowed", json_int max_allowed)])).

Definition heartbeat_timeout (l : StructuredLogger) (now : f64) (misses : Z) :
    option (H * LogEntry) :=
  log l now HeartbeatTimeout
    ("Heartbeat timeout after " +:+ pretty misses +:+ " consecutive misses") Error
    (metadata_options (Object [("total_misses", json_int misses)])).

(** * The human-readable handler *)

(** [{:02}]. *)
Definition two_digits (z : Z) : string :=
  if z <? 10 then "0" +:+ pretty z else pretty z.

Fixpoint str_map (f : ascii -> ascii) (s : string) : string :=
  match s with EmptyString => EmptyString | String a s => String (f a) (str_map f s) end.

(** [{:<5}]. *)
Fixpoint pad (n : nat) (s : string) : string :=
  match n with
  | O => s
  | S n => match s with
           | EmptyString => String " "%char (pad n EmptyString)
           | String a s => String a (pad n s)
           end
  end.

Definition time_str (secs : Z) : string :=
  two_digits ((secs / 3600) mod 24) +:+ ":" +:+ two_digits ((secs / 60) mod 60)
  +:+ ":" +:+ two_digits (secs mod 60).

(** A UTF-8 continuation byte. *)
Definition continuation (a : ascii) : bool :=
  let n := nat_of_ascii a in (128 <=? n)%nat && (n <=? 191)%nat.

(** [s.is_char_boundary(n)]. *)
Definition is_char_boundary (n : nat) (s : string) : bool :=
  match String.get n s with
  | Some a => negb (continuation a)
  | None => (n =? String.length s)%nat
  end.

(** [&s[..n]]: panics inside a character. *)
Definition slice_to (n : nat) (s : string) : option string :=
  if is_char_boundary n s then Some (String.substring 0 n s) else None.

Definition opt_part {A} (f : A -> string) (o : option A) : list string :=
  match o with Some a => [f a] | None => [] end.

(** The printed line, or [None] when the handler panics. *)
Definition default_pretty_handler (secs : Z) (e : LogEntry) : option string :=
  let prefix :=
    "[" +:+ time_str secs +:+ "] [" +:+ pad 5 (str_map to_upper (level e)) +:+ "]" in
  req ← match request_id e with
        | None => Some []
        | Some id =>
            short ← slice_to (Nat.min (String.length id) 8) id;
            Some ["req=" +:+ short]
        end;
  Some (String.concat " "
    ([prefix; event e; entry_message e] ++ req
     ++ opt_part (fun f => "fn=" +:+ f) (entry_function e)
     ++ opt_part (fun d => fmt1 d +:+ "ms") (duration_ms e)
     ++ opt_part (fun err => "error=" +:+ err) (error e))%list).

(** * Properties *)

(** A log call reaches the handler exactly when there is one and the
    level is at least the logger's; the entry carries the level, the event's
    name, the logger's identity and the caller's options. *)
Theorem log_reaches_handler_iff (l : StructuredLogger) (now : f64) (e : LogEvent)
    (message : string) (lv : LogLevel) (o : LogOptions) :
  match log l now e message lv o with
  | Some (h, entry) =>
      handler l = Some h /\ level_as_u8 (min_level l) <= level_as_u8 lv /\
      level entry = LogLevel_display lv /\ event entry = LogEvent_display e /\
      worker_id entry = logger_worker_id l /\ request_id entry = opt_request_id o /\
      error entry = opt_error o
  | None => handler l = None \/ level_as_u8 lv < level_as_u8 (min_level l)
  end.
Proof.
  unfold log, should_log. destruct (handler l) as [h|]; [|by left].
  destruct (Z.leb_spec (level_as_u8 (min_level l)) (level_as_u8 lv)); simpl; [done|by right].
Qed.

(** C40: [default_pretty_handler] prints every entry except one whose request
    id is longer than eight bytes and has a character across the eighth byte:
    then it panics. *)
Theorem pretty_handler_panics_iff (secs : Z) (e : LogEntry) :
  default_pretty_handler secs e = None <->
  exists id a, request_id e = Some id /\ String.get 8 id = Some a /\ continuation a = true.
Proof.
  unfold default_pretty_handler. destruct (request_id e) as [id|]; simpl; [|naive_solver].
  assert (Hget : forall n s, (String.length s <= n)%nat -> String.get n s = None).
  { induction n as [|n IH]; intros [|c s]; simpl; intros; try done; try lia. apply IH. lia. }
  unfold slice_to, is_char_boundary.
  destruct (Nat.le_gt_cases (String.length id) 8) as [Hle|Hgt].
  - rewrite Nat.min_l by lia. rewrite Hget by lia. rewrite Nat.eqb_refl. simpl.
    split; [done|]. intros (id' & a & [= <-] & Ha & _). by rewrite Hget in Ha by lia.
  - rewrite Nat.min_r by lia. destruct (String.get 8 id) as [a|] eqn:Ha; simpl.
    + destruct (continuation a) eqn:Hc; simpl; split; try done; [by eauto|].
      intros (id' & a' & [= <-] & Ha' & Hc'). congruence.
    + exfalso. revert Ha Hgt. generalize 8%nat. clear. induction id as [|c id IH];
        intros [|n]; simpl; try done; try lia. intros Hg Hn. apply (IH n); [done|lia].
Qed.
End logger.

(** The names of the twenty events are distinct, so that a log line
    identifies its event. *)
Lemma event_names_are_distinct (e1 e2 : LogEvent)
    (Heq : LogEvent_display e1 = LogEvent_display e2) : e1 = e2.
Proof. destruct e1, e2; try reflexivity; vm_compute in Heq; discriminate Heq. Qed.

(** * The JSON form of an entry *)

(** What a reader of the JSON object finds under a name. *)
Fixpoint field (name : string) (l : list (string * Value)) : option Value :=
  match l with
  | [] => None
  | (k, x) :: l => if (k =? name)%string then Some x else field name l
  end.

Lemma field_app name l1 l2 :
  field name (l1 ++ l2)%list = match field name l1 with Some x => Some x | None => field name l2 end.
Proof. induction l1 as [|[k x] l1 IH]; simpl; [done|]. by destruct (k =? name)%string. Qed.

Lemma field_optional {A} name k (f : A -> Value) o :
  field name (optional k f o) = if (k =? name)%string then f <$> o else None.
Proof. destruct o; simpl; by destruct (k =? name)%string. Qed.

Lemma optional_keys {A} k (f : A -> Value) o : (optional k f o).*1 `sublist_of` [k].
Proof. destruct o; simpl; [done|]. apply sublist_nil_l. Qed.

(** The names of the fields, in order. *)
Definition field_names : list string :=
  (["event"; "level"; "message"; "timestamp"] ++ ["correlation_id"] ++ ["request_id"]
   ++ ["parent_request_id"] ++ ["worker_id"] ++ ["service_id"] ++ ["function"] ++ ["namespace"]
   ++ ["duration_ms"] ++ ["success"] ++ ["error"] ++ ["error_type"] ++ ["metrics"]
   ++ ["metadata"])%list.

Lemma entry_keys e : (entry_fields e).*1 `sublist_of` field_names.
Proof.
  unfold entry_fields, field_names. rewrite !fmap_app.
  repeat apply sublist_app; try apply optional_keys. done.
Qed.

Ltac read_field :=
  unfold entry_fields; rewrite ?field_app, ?field_optional; simpl;
  match goal with |- context [?f <$> ?o] => by destruct o end || done.

(** A reader of the JSON object finds every field of the entry under its name,
    and an optional field exactly when it is present. *)
Theorem entry_fields_are_exact (e : LogEntry) :
  field "event" (entry_fields e) = Some (Str (event e)) /\
  field "level" (entry_fields e) = Some (Str (level e)) /\
  field "message" (entry_fields e) = Some (Str (entry_message e)) /\
  field "timestamp" (entry_fields e) = Some (f64_value (timestamp e)) /\
  field "request_id" (entry_fields e) = Str <$> request_id e /\
  field "function" (entry_fields e) = Str <$> entry_function e /\
  field "duration_ms" (entry_fields e) = f64_value <$> duration_ms e /\
  field "success" (entry_fields e) = Bool <$> success e /\
  field "error" (entry_fields e) = Str <$> error e /\
  field "metadata" (entry_fields e) = metadata e /\
  NoDup (entry_fields e).*1.
Proof.
  repeat split; try read_field.
  eapply sublist_NoDup; [|apply entry_keys]. apply (bool_decide_unpack _). vm_compute. exact I.
Qed.
