(* ===== verification/CallArgs.v ===== *)
(** Call arguments: [rust/src/call_macro.rs].

    [ToJsonArg] and [CallArgs] are type classes with an instance per Rust
    implementation; [serde_json::from_value] and [to_value] are parameters. *)

From S2P Require Import Prelude Float64 Wire ClientMessage.
From Stdlib Require Import SpecFloat.

Local Open Scope string_scope.
Local Open Scope Z_scope.

(** * Extracting arguments *)

(** [serde::Deserialize] from a JSON value, with the text of the error. *)
Class DeserializeOwned (T : Type) := from_value : Value -> result T string.

Definition missing (index : nat) : MultifrostError :=
  InvalidMessage ("Missing argument at index " +:+ pretty index).

Record ArgsExtractor : Set := new { ex_args : list Value }.

(** [Vec::remove], with the elements that are left; [None] is its panic. *)
Definition vec_remove (index : nat) (l : list Value) : option (Value * list Value) :=
  match l !! index with
  | Some x => Some (x, delete index l)
  | None => None
  end.

Section extractor.
Context `{DeserializeOwned T}.

Definition get (a : ArgsExtractor) (index : nat) : MResult T :=
  and_then (ok_or (ex_args a !! index) (missing index))
    (fun x => map_err JsonError (from_value x)).

(** [None] is a panic. *)
Definition take (a : ArgsExtractor) (index : nat) : option (MResult T) :=
  if (length (ex_args a) <=? index)%nat then Some (Err (missing index))
  else match vec_remove index (ex_args a) with
       | Some (x, _) => Some (map_err JsonError (from_value x))
       | None => None
       end.
End extractor.

Definition remaining (a : ArgsExtractor) : list Value := ex_args a.
Definition len (a : ArgsExtractor) : nat := length (ex_args a).
Definition is_empty (a : ArgsExtractor) : bool := match ex_args a with [] => true | _ => false end.

(** The trait [ExtractArgs] and its implementation by [ArgsExtractor]. *)
Class ExtractArgs (Self : Type) := {
  ea_new : list Value -> Self;
  ea_get : forall T `{DeserializeOwned T}, Self -> nat -> MResult T;
  ea_take : forall T `{DeserializeOwned T}, Self -> nat -> option (MResult T);
}.

#[export] Instance extractor_extract : ExtractArgs ArgsExtractor := {|
  ea_new := new;
  ea_get T _ a index := get a index;
  ea_take T _ a index := take a index |}.

(** * Converting arguments *)

Class ToJsonArg (A : Type) := to_json : A -> Value.

(** The integer types, by signedness and width. *)
Record int (signed : bool) (bits : Z) : Set := Int { int_val : Z }.
Arguments Int {signed bits} _.
Arguments int_val {signed bits} _.

Abbreviation i64 := (int true 64).
Abbreviation u64 := (int false 64).

Definition int_ok {signed bits} (x : int signed bits) : Prop :=
  if signed then - 2 ^ (bits - 1) <= int_val x < 2 ^ (bits - 1) else 0 <= int_val x < 2 ^ bits.

(** [f32], with its conversion to [f64], which is exact. *)
Record f32 : Set := F32 { f32_val : spec_float }.

Definition f32_as_f64 (x : f32) : f64 :=
  match f32_val x with
  | S754_finite s m e =>
      binary_normalize F64.prec F64.emax (if s then Zneg m else Zpos m) e s
  | y => y
  end.

#[export] Instance value_to_json : ToJsonArg Value := fun x => x.
(** [Value::from] of an integer: a negative number has a constructor of its
    own. *)
#[export] Instance int_to_json {signed bits} : ToJsonArg (int signed bits) :=
  fun x => Num (if int_val x <? 0 then NegInt (int_val x) else PosInt (int_val x)).
(** [Value::from(f64)]: null when the number is not finite. *)
#[export] Instance f64_to_json : ToJsonArg f64 := f64_value.
#[export] Instance f32_to_json : ToJsonArg f32 := fun x => f64_value (f32_as_f64 x).
#[export] Instance bool_to_json : ToJsonArg bool := Bool.
#[export] Instance string_to_json : ToJsonArg string := Str.

Section serialize.
Context {A : Type} (to_value : A -> result Value string).

(** [impl<T: Serialize> ToJsonArg for &T], for [Vec<T>] and for [&[T]]: the
    error of the serializer becomes null. *)
Definition serialize_to_json (x : A) : Value :=
  match to_value x with Ok j => j | Err _ => Null end.
End serialize.

Class CallArgs (A : Type) := to_json_args : A -> list Value.

#[export] Instance unit_args : CallArgs unit := fun _ => [].
(** A one-element tuple is a pair with [unit]. *)
#[export] Instance args1 `{ToJsonArg A} : CallArgs (A * unit) :=
  fun '(a, _) => [to_json a].
#[export] Instance args2 `{ToJsonArg A, ToJsonArg B} : CallArgs (A * B) :=
  fun '(a, b) => [to_json a; to_json b].
#[export] Instance args3 `{ToJsonArg A, ToJsonArg B, ToJsonArg C} : CallArgs (A * B * C) :=
  fun '(a, b, c) => [to_json a; to_json b; to_json c].
#[export] Instance args4 `{ToJsonArg A, ToJsonArg B, ToJsonArg C, ToJsonArg D} :
    CallArgs (A * B * C * D) :=
  fun '(a, b, c, d) => [to_json a; to_json b; to_json c; to_json d].
#[export] Instance args5 `{ToJsonArg A, ToJsonArg B, ToJsonArg C, ToJsonArg D, ToJsonArg E} :
    CallArgs (A * B * C * D * E) :=
  fun '(a, b, c, d, e) => [to_json a; to_json b; to_json c; to_json d; to_json e].
#[export] Instance args6
    `{ToJsonArg A, ToJsonArg B, ToJsonArg C, ToJsonArg D, ToJsonArg E, ToJsonArg F} :
    CallArgs (A * B * C * D * E * F) :=
  fun '(a, b, c, d, e, f) => [to_json a; to_json b; to_json c; to_json d; to_json e; to_json f].

(** The arguments of the [call!] macro: values of types that convert. *)
Record MacroArg : Type := Arg { arg_type : Type; arg_conv : ToJsonArg arg_type; arg_value : arg_type }.
Arguments Arg {_ _} _.

Definition arg_json (a : MacroArg) : Value := @to_json _ (arg_conv a) (arg_value a).

(** * Properties *)

(** [take] and [get] agree at every index: the bound check makes the panic of
    [Vec::remove] unreachable, and an index out of range is the same
    [InvalidMessage] for both. *)
Theorem take_agrees_with_get `{DeserializeOwned T} (a : ArgsExtractor) (index : nat) :
  take (T := T) a index = Some (get a index) /\
  ((len a <= index)%nat -> get (T := T) a index = Err (missing index)).
Proof.
  unfold take, get, vec_remove, len. destruct (Nat.leb_spec (length (ex_args a)) index) as [Hl|Hl].
  - by rewrite lookup_ge_None_2.
  - destruct (lookup_lt_is_Some_2 (ex_args a) index Hl) as [x Hx]. rewrite Hx. simpl.
    split; [done|lia].
Qed.

(** The integer a JSON number stands for. *)
Definition read_number (j : Value) : option Z :=
  match j with Num (PosInt z) => Some z | Num (NegInt z) => Some z | _ => None end.

(** The encoding of an integer argument of any width loses nothing, and picks
    the constructor by the sign; a float is passed on unless it is infinite or
    not a number, which becomes null. *)
Theorem integer_arguments_are_exact {signed bits} (x : int signed bits) (f : f64)
    (Hx : int_ok x) :
  read_number (to_json x) = Some (int_val x) /\
  (match to_json x with
   | Num (NegInt z) => signed = true /\ z < 0
   | Num (PosInt z) => 0 <= z
   | _ => False
   end) /\
  to_json f = if F64.is_finite f then Num (Float f) else Null.
Proof.
  unfold to_json, int_to_json, int_ok in *. split; [|split; [|done]].
  - by destruct (int_val x <? 0).
  - destruct (Z.ltb_spec (int_val x) 0); [|done]. destruct signed; [done|lia].
Qed.

Lemma integer_arguments_are_exact_witness :
  read_number (to_json (Int (-5) : int true 8)) = Some (-5).
Proof.
  apply (integer_arguments_are_exact (Int (-5) : int true 8) F64.zero). unfold int_ok; simpl; lia.
Defined.
