(* ===== verification/Launch.v ===== *)
(** Service processes: [rust/src/process.rs].

    The operating system is a state: which processes run, how the others
    ended, what was started and which kill signals were sent. *)

From S2P Require Import Prelude Text Float64 Wire Config ClientMessage CallerTransport Service.

Local Open Scope string_scope.
Local Open Scope Z_scope.
Local Open Scope rust_scope.

Definition DEFAULT_REQUEST_TIMEOUT : Z := from_secs 30.

(** * Processes *)

Record SpawnOptions : Set := mkSpawnOptions {
  so_caller_peer_id : option string;
  so_request_timeout : option Z;
  so_router_port : option Z;
}.

Definition SpawnOptions_default : SpawnOptions :=
  mkSpawnOptions None (Some DEFAULT_REQUEST_TIMEOUT) None.

(** [std::process::Command], with the environment of the child. *)
Record Command : Type := mkCommand {
  program : string;
  cmd_args : list string;
  cmd_env : Env;
}.

(** The command on Unix. *)
Definition spawn_command (h : Host) (parent : Env) (executable service_entrypoint : string)
    (router_port : option Z) : Command :=
  let env := spawn_environment h parent service_entrypoint router_port in
  if (1 <? count_words (as_bytes executable))%nat
  then mkCommand "sh" ["-c"; executable] env
  else mkCommand executable [] env.

(** [ServiceProcess]: the child it owns, by pid. *)
Record ServiceProcess : Set := mkServiceProcess { child : option Z }.

Definition ServiceProcess_new (pid : Z) : ServiceProcess := mkServiceProcess (Some pid).

Definition process_id (sp : ServiceProcess) : option Z := child sp.

(** [spawn_answer]: what the system answers to a command, a pid or an error. *)
Record Procs : Type := mkProcs {
  running : gset Z;
  exit_status : gmap Z Z;
  launched : list (Z * Command);
  signals : list Z;
  spawn_answer : Command -> result Z string;
}.

(** [command.spawn()]. *)
Definition os_spawn (c : Command) (s : Procs) : result Z string * Procs :=
  match spawn_answer s c with
  | Ok p => (Ok p, mkProcs ({[p]} ∪ running s) (delete p (exit_status s)) ((p, c) :: launched s)
                     (signals s) (spawn_answer s))
  | Err e => (Err e, s)
  end.

Definition SIGKILL_STATUS : Z := -9.

(** [child.kill()] and then [child.wait()]. *)
Definition kill (p : Z) (s : Procs) : Procs :=
  if bool_decide (p ∈ running s)
  then mkProcs (running s ∖ {[p]}) (<[p := SIGKILL_STATUS]> (exit_status s)) (launched s)
         (p :: signals s) (spawn_answer s)
  else mkProcs (running s) (exit_status s) (launched s) (p :: signals s) (spawn_answer s).

Definition stop (sp : ServiceProcess) (s : Procs) : MResult unit * ServiceProcess * Procs :=
  match child sp with
  | Some p => (Ok tt, mkServiceProcess None, kill p s)
  | None => (Ok tt, sp, s)
  end.

(** [wait]; [None] while the child runs, since the call blocks. *)
Definition wait (sp : ServiceProcess) (s : Procs) : option (result Z string) :=
  match child sp with
  | Some p =>
      if bool_decide (p ∈ running s) then None
      else Some (ok_or (exit_status s !! p) "no child process")
  | None => Some (Err "service process already stopped")
  end.

Definition spawn_service_process (h : Host) (env : Env) (executable service_entrypoint : string)
    (router_port : option Z) (s : Procs) : MResult Z * Procs :=
  let '(r, s') := os_spawn (spawn_command h env executable service_entrypoint router_port) s in
  (map_err IoError r, s').

Definition spawn_with_options (h : Host) (env : Env) (service_entrypoint executable : string)
    (options : SpawnOptions) (s : Procs) : MResult ServiceProcess * Procs :=
  let '(r, s') := spawn_service_process h env executable service_entrypoint
                    (so_router_port options) s in
  (let? pid := r in Ok (ServiceProcess_new pid), s').

Definition spawn (h : Host) (env : Env) (service_entrypoint executable : string) (s : Procs) :
    MResult ServiceProcess * Procs :=
  spawn_with_options h env service_entrypoint executable SpawnOptions_default s.

(** * Lemmas *)

Lemma running_kill p s : running (kill p s) = running s ∖ {[p]}.
Proof. unfold kill. case_bool_decide; simpl; set_solver. Qed.

Lemma signals_kill p s : signals (kill p s) = p :: signals s.
Proof. unfold kill. by case_bool_decide. Qed.

(** * Properties *)

(** A spawned process from start to end.  A successful [spawn] starts one
    process, with the program or shell command asked for and the canonical
    entry point in its environment, and owns it; [stop] ends exactly that
    process; stopping again sends no second signal and changes nothing, and
    [wait] then reports that the process was stopped instead of blocking. *)
Theorem spawned_process_lifecycle (h : Host) (env : Env) (entry executable : string)
    (s s1 : Procs) (sp : ServiceProcess)
    (Hspawn : spawn h env entry executable s = (Ok sp, s1)) :
  exists p c, child sp = Some p /\ launched s1 = (p, c) :: launched s /\ p ∈ running s1 /\
    env_var (cmd_env c) "MULTIFROST_ENTRYPOINT_PATH" = Some (canonical_peer_path h entry) /\
    wait sp s1 = None /\
    let '(r, sp2, s2) := stop sp s1 in
    r = Ok tt /\ running s2 = running s1 ∖ {[p]} /\ signals s2 = p :: signals s1 /\
    stop sp2 s2 = (Ok tt, sp2, s2) /\
    wait sp2 s2 = Some (Err "service process already stopped").
Proof.
  revert Hspawn. unfold spawn, spawn_with_options, spawn_service_process, os_spawn.
  destruct (spawn_answer s _) as [p|e]; simpl; [|done]. intros [= <- <-].
  eexists p, _. simpl. split; [done|]. split; [reflexivity|]. split; [set_solver|]. split.
  { unfold spawn_command. by case_match. }
  split; [unfold wait; simpl; rewrite bool_decide_true by set_solver; done|].
  by rewrite running_kill, signals_kill.
Qed.

(** A system that starts anything under the pid 41. *)
Definition sample_procs : Procs := mkProcs {[7]} ∅ [] [] (fun _ => Ok 41).

Definition no_host : Host := mkHost Ok (Err "no executable").
Definition no_env : Env := mkEnv (fun _ => None) None.

Lemma spawned_process_lifecycle_witness :
  exists p c, child (ServiceProcess_new 41) = Some p /\
    launched (spawn no_host no_env "/srv/math" "/srv/math" sample_procs).2 = [(p, c)] /\
    running (stop (ServiceProcess_new 41)
      (spawn no_host no_env "/srv/math" "/srv/math" sample_procs).2).2
      = running (spawn no_host no_env "/srv/math" "/srv/math" sample_procs).2 ∖ {[p]}.
Proof.
  destruct (spawned_process_lifecycle no_host no_env "/srv/math" "/srv/math" sample_procs
    (spawn no_host no_env "/srv/math" "/srv/math" sample_procs).2 (ServiceProcess_new 41) eq_refl)
    as (p & c & H1 & H2 & _ & _ & _ & _ & H3 & _).
  exists p, c. split; [exact H1|]. split; [exact H2|exact H3].
Defined.
