(* ===== verification/Connection.v ===== *)
(** Connections and handles: [rust/src/parent.rs].

    A connection owns a transport and, in a slot shared by all its handles,
    possibly the process of the service it talks to.  Its functions are
    programs over [connE], which joins the operations of the bootstrap and of
    the transport with those on the slot. *)

From S2P Require Import Prelude Text Prog Float64 Wire Config ClientMessage Bootstrap.
From S2P Require Import CallerTransport Metrics CallArgs Launch.

Local Open Scope string_scope.
Local Open Scope Z_scope.
Local Open Scope rust_scope.

(** * Options *)

Record ConnectOptions : Set := mkConnectOptions {
  co_caller_peer_id : option string;
  co_request_timeout : option Z;
  co_router_port : option Z;
}.

Definition ConnectOptions_default : ConnectOptions :=
  mkConnectOptions None (Some DEFAULT_REQUEST_TIMEOUT) None.

(** * Operations *)

Inductive connE : Set -> Type :=
| BootOp {X : Set} (e : bootE X) : connE X
| TransOp {X : Set} (e : callerE X) : connE X
| NewUuid : connE string
| SetProcess (o : option ServiceProcess) : connE unit
| StopProcess : connE unit.

Abbreviation connM A := (prog connE A).

Definition boot_part {A} (p : bootM A) : connM A := embed (fun X e => BootOp e) p.
Definition trans_part {A} (p : callerM A) : connM A := embed (fun X e => TransOp e) p.

(** [slot] is the [Arc<Mutex<Option<ServiceProcess>>>] of the connection;
    [uuids] what [Uuid::new_v4] gives next. *)
Record ConnWorld : Type := mkConnWorld {
  cn_machine : Machine;
  net : CWorld;
  slot : option ServiceProcess;
  procs : Procs;
  uuids : list string;
}.

Definition set_slot (o : option ServiceProcess) (w : ConnWorld) : ConnWorld :=
  mkConnWorld (cn_machine w) (net w) o (procs w) (uuids w).

(** The body of the critical section of [Handle::stop]: take the process out
    of the slot and stop it. *)
Definition stop_slot (w : ConnWorld) : ConnWorld :=
  match slot w with
  | Some sp => mkConnWorld (cn_machine w) (net w) None (stop sp (procs w)).2 (uuids w)
  | None => w
  end.

Definition conn_op (X : Set) (e : connE X) (w : ConnWorld) : option (X * ConnWorld) :=
  match e in connE X return option (X * ConnWorld) with
  | BootOp e =>
      let '(x, m) := boot_op _ e (cn_machine w) in
      Some (x, mkConnWorld m (net w) (slot w) (procs w) (uuids w))
  | TransOp e =>
      match caller_op _ e (net w) with
      | Some (x, n) => Some (x, mkConnWorld (cn_machine w) n (slot w) (procs w) (uuids w))
      | None => None
      end
  | NewUuid => Some (default "" (head (uuids w)),
                     mkConnWorld (cn_machine w) (net w) (slot w) (procs w) (tail (uuids w)))
  | SetProcess o => Some (tt, set_slot o w)
  | StopProcess => Some (tt, stop_slot w)
  end.

Definition conn_run {A} (p : connM A) (w : ConnWorld) : option (A * ConnWorld) := brun conn_op p w.

(** * Connections *)

(** What a connection and its handles share, less the slot. *)
Record ConnectionRuntime : Set := mkRuntime {
  rt_transport : CallerTransport;
  rt_default_target_peer_id : option string;
  metrics : option MetricsInner;
}.

Record Connection : Set := mkConnection { conn_inner : ConnectionRuntime }.
Record Handle : Set := mkHandle { inner : ConnectionRuntime }.

Section connection.
Context {LJ : LockJson} {CC : ClientCodec}.

(** The code outside the process: the readiness text of the bootstrap, the
    value of [ROUTER_BIN_ENV], the environment, the answer of the WebSocket
    handshake and what the router sends. *)
Section connecting.
Context (fuel : nat) (readiness : string) (bin : option string) (env : Env)
        (websocket : result unit string) (source : list WsItem).

(** The bootstrap part of the configuration. *)
Definition connection_bootstrap (router_port : option Z) : RouterBootstrapConfig :=
  let port := match router_port with Some p => p | None => router_port_from_env env end in
  mkBootstrapConfig (mkEndpoint "127.0.0.1" port) (default_router_lock_path env)
    (default_router_log_path env) DEFAULT_REQUEST_TIMEOUT (from_millis 100).

Definition connect_caller_transport (default_target : string) (caller_peer_id : option string)
    (request_timeout router_port : option Z) : connM (option (MResult CallerTransport)) :=
  let bootstrap := connection_bootstrap router_port in
  id ← match caller_peer_id with Some id => Ret id | None => perform NewUuid end;
  b ← boot_part (connect_or_bootstrap fuel readiness bin bootstrap);
  match b with
  | None => Ret None
  | Some b =>
      r ← trans_part (connect (mkCallerConfig id (Some default_target) request_timeout bootstrap)
                        b websocket source);
      Ret (Some r)
  end.

Definition from_transport (t : CallerTransport) (default_target : option string) :
    connM Connection :=
  _ ← perform (SetProcess None);
  Ret (mkConnection (mkRuntime t default_target (Some Metrics.new))).

Definition connect_with_options (target : string) (o : ConnectOptions) :
    connM (option (MResult Connection)) :=
  r ← connect_caller_transport target (co_caller_peer_id o) (co_request_timeout o)
        (co_router_port o);
  match r with
  | None => Ret None
  | Some (Err e) => Ret (Some (Err e))
  | Some (Ok t) => c ← from_transport t (Some target); Ret (Some (Ok c))
  end.

(** [Connection::connect]. *)
Definition connection_connect (target : string) (timeout_ms : Z) :
    connM (option (MResult Connection)) :=
  connect_with_options target (mkConnectOptions None (Some (from_millis timeout_ms)) None).

(** * The builder *)

Record ConnectionBuilder : Set := mkBuilder {
  target_peer_id : string;
  options : ConnectOptions;
}.

Definition builder_connect (target : string) : ConnectionBuilder :=
  mkBuilder target ConnectOptions_default.
Definition builder_caller_peer_id (id : string) (b : ConnectionBuilder) : ConnectionBuilder :=
  mkBuilder (target_peer_id b)
    (mkConnectOptions (Some id) (co_request_timeout (options b)) (co_router_port (options b))).
Definition builder_default_timeout (t : Z) (b : ConnectionBuilder) : ConnectionBuilder :=
  mkBuilder (target_peer_id b)
    (mkConnectOptions (co_caller_peer_id (options b)) (Some t) (co_router_port (options b))).
Definition builder_router_port (p : Z) (b : ConnectionBuilder) : ConnectionBuilder :=
  mkBuilder (target_peer_id b)
    (mkConnectOptions (co_caller_peer_id (options b)) (co_request_timeout (options b)) (Some p)).
Definition build (b : ConnectionBuilder) : connM (option (MResult Connection)) :=
  connect_with_options (target_peer_id b) (options b).
End connecting.

Definition with_service_process (sp : ServiceProcess) (c : Connection) : connM Connection :=
  _ ← perform (SetProcess (Some sp));
  Ret c.

Definition connection_handle (c : Connection) : Handle := mkHandle (conn_inner c).
Definition connection_peer_id (c : Connection) : string := peer_id (rt_transport (conn_inner c)).
Definition connection_default_target (c : Connection) : option string :=
  rt_default_target_peer_id (conn_inner c).

(** * Handles *)

Definition handle_start (h : Handle) : connM (MResult unit) := Ret (Ok tt).

Definition handle_stop (h : Handle) : connM unit :=
  _ ← trans_part (disconnect (rt_transport (inner h)));
  _ ← perform StopProcess;
  Ret tt.

Definition handle_is_healthy (h : Handle) : connM bool := Ret true.
Definition handle_circuit_open (h : Handle) : connM bool := Ret false.
Definition handle_last_heartbeat_rtt_ms (h : Handle) : connM (option f64) := Ret None.
Definition handle_metrics (h : Handle) : option MetricsInner := metrics (inner h).
Definition handle_peer_id (h : Handle) : string := peer_id (rt_transport (inner h)).
Definition handle_default_target (h : Handle) : option string :=
  rt_default_target_peer_id (inner h).

Section result_type.
Context {R : Set} (from_value : Value -> result R string).

Definition handle_call (h : Handle) (function : string) (args : list Value) : connM (MResult R) :=
  trans_part (call from_value (rt_transport (inner h)) function args).

Definition handle_call_to (h : Handle) (target function : string) (args : list Value) :
    connM (MResult R) :=
  trans_part (call_to from_value (rt_transport (inner h)) target function args).

(** The expansion of [call!(h, f(args))] and of [call_with_type!] in
    [call_macro.rs]; the latter only fixes the result type. *)
Definition call_macro (h : Handle) (func : string) (args : list MacroArg) : connM (MResult R) :=
  handle_call h func (map arg_json args).

Definition call_with_type_macro (h : Handle) (func : string) (args : list MacroArg) :
    connM (MResult R) :=
  handle_call h func (map arg_json args).

(** [ErgonomicCall::call_fn] of [call_macro.rs]. *)
Definition call_fn `{CallArgs A} (h : Handle) (name : string) (args : A) : connM (MResult R) :=
  handle_call h name (to_json_args args).
End result_type.

Definition handle_query_peer_exists (h : Handle) (queried : string) : connM (MResult bool) :=
  r ←? trans_part (query_peer_exists (rt_transport (inner h)) queried);
  Ret (Ok (qe_exists r)).

Definition handle_query_peer_get (h : Handle) (queried : string) :
    connM (MResult QueryGetResponseBody) :=
  trans_part (query_peer_get (rt_transport (inner h)) queried).
End connection.
