(* ===== verification/ConnectionSpec.v ===== *)
(** Properties of connections and handles. *)

From S2P Require Import Prelude Text Prog Float64 Wire Config ClientMessage Bootstrap BootstrapSpec.
From S2P Require Import BootstrapTime CallerTransport CallerSpec Metrics CallArgs Launch Connection.

Local Open Scope string_scope.
Local Open Scope Z_scope.

Section spec.
Context {LJ : LockJson} {CC : ClientCodec} {CCL : ClientCodecLaws CC}.

(** * Running the parts *)

Definition set_net (n : CWorld) (w : ConnWorld) : ConnWorld :=
  mkConnWorld (cn_machine w) n (slot w) (procs w) (uuids w).

Lemma conn_run_bind {A B} (p : connM A) (f : A -> connM B) w :
  conn_run (bind p f) w =
    match conn_run p w with Some (a, w') => conn_run (f a) w' | None => None end.
Proof. apply brun_bind. Qed.


Lemma conn_run_trans {A} (p : callerM A) w :
  conn_run (trans_part p) w =
    match crun p (net w) with Some (a, n) => Some (a, set_net n w) | None => None end.
Proof.
  unfold conn_run, crun. revert w. induction p as [a|X e k IH]; intros w; simpl.
  - by destruct w.
  - destruct (caller_op X e (net w)) as [[x n]|]; [|done]. by rewrite IH.
Qed.

(** * Connecting *)



(** * Stopping *)

(** [Handle::stop] always completes: it tries to write a disconnect frame,
    whatever comes of it, aborts the inbound task if this is the first stop,
    and stops the process in the slot, if there is one, leaving it empty. *)
Theorem handle_stop_completes (h : Handle) (w : ConnWorld) :
  exists n',
    conn_run (handle_stop h) w = Some (tt, stop_slot (set_net n' w)) /\
    slot (stop_slot (set_net n' w)) = None /\
    inbound_handle n' = false /\ (inbound_handle (net w) = true -> inbound_aborted n' = true) /\
    exists raw, encode_frame (build_disconnect_envelope (peer_id (rt_transport (inner h)))
                  ROUTER_PEER_ID (uuid (net w) (next_id (net w))) (now_ts (clock (net w)))) []
                = Ok raw /\
      wire n' = (wire (net w) ++ match sink_error (net w) with
                                 | None => [Binary raw] | Some _ => [] end)%list.
Proof.
  destruct (client_encode_frame_total (build_disconnect_envelope
    (peer_id (rt_transport (inner h))) ROUTER_PEER_ID (uuid (net w) (next_id (net w)))
    (now_ts (clock (net w)))) []) as [raw Hraw].
  assert (Hd : exists r n', crun (disconnect (rt_transport (inner h))) (net w) = Some (r, n') /\
    inbound_handle n' = false /\ (inbound_handle (net w) = true -> inbound_aborted n' = true) /\
    wire n' = (wire (net w) ++ match sink_error (net w) with
                               | None => [Binary raw] | Some _ => [] end)%list).
  { unfold disconnect, crun. cbn. rewrite Hraw. cbn.
    destruct (sink_error (net w)); cbn; destruct (inbound_handle (net w)); cbn;
      eexists _, _; (split; [reflexivity|]); cbn; rewrite ?app_nil_r; done. }
  destruct Hd as (r & n' & Hrun & H1 & H2 & H3). exists n'. split.
  - unfold handle_stop. rewrite conn_run_bind, conn_run_trans, Hrun. done.
  - split; [|by eauto]. unfold stop_slot. cbn. by destruct (slot w) eqn:E; cbn.
Qed.

(** ** Several handles *)

(** The operations of a handle; what a call returns is of no interest here. *)
Inductive HandleOp : Set :=
| HStop
| HCall (function : string) (args : list Value)
| HCallTo (target function : string) (args : list Value)
| HExists (queried : string)
| HGet (queried : string).

Section handles.
Context {R : Set} (from_value : Value -> result R string) (h : Handle).

Definition serve_handle (q : HandleOp) : connM unit :=
  match q with
  | HStop => handle_stop h
  | HCall f a => bind (handle_call from_value h f a) (fun _ => Ret tt)
  | HCallTo t f a => bind (handle_call_to from_value h t f a) (fun _ => Ret tt)
  | HExists p => bind (handle_query_peer_exists h p) (fun _ => Ret tt)
  | HGet p => bind (handle_query_peer_get h p) (fun _ => Ret tt)
  end.

Record HState : Type := mkHState {
  tasks : gmap nat (HandleOp * connM unit);
  cworld : ConnWorld;
}.

(** The rest of the system may do anything to the network and the machine, and
    processes may end; it does not touch the slot or send signals for it. *)
Definition env_change (w w' : ConnWorld) : Prop :=
  slot w' = slot w /\ signals (procs w') = signals (procs w) /\
  running (procs w') ⊆ running (procs w).

Inductive hstep : HState -> HState -> Prop :=
| hs_start i q st :
    tasks st !! i = None ->
    hstep st (mkHState (<[i := (q, serve_handle q)]> (tasks st)) (cworld st))
| hs_task i q p p' w' st :
    tasks st !! i = Some (q, p) -> bstep conn_op p (cworld st) = Some (p', w') ->
    hstep st (mkHState (<[i := (q, p')]> (tasks st)) w')
| hs_env w' st :
    env_change (cworld st) w' -> hstep st (mkHState (tasks st) w').

Context (w0 : ConnWorld) (sp : ServiceProcess) (p : Z).

(** Either the process is in the slot and unsignalled, or it was signalled once
    and is gone. *)
Definition slot_inv (w : ConnWorld) : Prop :=
  slot w = Some sp /\ signals (procs w) = signals (procs w0) \/
  slot w = None /\ signals (procs w) = p :: signals (procs w0) /\ p ∉ running (procs w).

Definition slot_rely (w w' : ConnWorld) : Prop := slot w = None -> slot w' = None.

#[local] Instance slot_rely_preorder : PreOrder slot_rely.
Proof. split; unfold slot_rely; [by intros w|by intros w1 w2 w3; auto]. Qed.

Abbreviation hsafe := (safe conn_op slot_inv slot_rely).

Lemma trans_safe {A} (t : callerM A) w : hsafe (fun _ _ => True) (trans_part t) w.
Proof.
  revert w. induction t as [a|X e k IH]; intros w; simpl; [done|].
  intros w' Hw HI x w''. destruct (caller_op X e (net w')) as [[y n]|]; [|done].
  intros [= <- <-]. split; [exact HI|]. split; [by intros ?|]. apply IH.
Qed.

Definition handle_post (q : HandleOp) (_ : unit) (w : ConnWorld) : Prop :=
  match q with HStop => slot w = None | _ => True end.

Hypothesis Hchild : child sp = Some p.

Lemma stop_slot_inv w : slot_inv w -> slot_inv (stop_slot w) /\ slot (stop_slot w) = None.
Proof.
  unfold stop_slot, slot_inv. intros [[E Hs]|[E H]]; rewrite E; [|split; [by right|done]].
  cbn. unfold stop. rewrite Hchild. cbn. split; [|done]. right. split; [done|].
  rewrite signals_kill, running_kill, Hs. split; [done|set_solver].
Qed.

Lemma stop_safe w : hsafe (handle_post HStop) (handle_stop h) w.
Proof.
  unfold handle_stop. apply safe_bind; [apply _|].
  eapply safe_weaken; [|apply trans_safe]. intros _ w1 _. cbn.
  intros w2 _ HI x w3 [= <- <-]. destruct (stop_slot_inv w2 HI) as [H1 H2].
  split; [done|]. split; [by intros _|]. intros w4 Hr _. by apply Hr.
Qed.

Lemma serve_handle_safe q w : hsafe (handle_post q) (serve_handle q) w.
Proof.
  destruct q as [|f a|t f a|x|x]; [apply stop_safe|..]; cbn [serve_handle handle_post];
    (apply safe_bind; [apply _|]).
  1, 2, 4: eapply safe_weaken; [|apply trans_safe]; done.
  unfold handle_query_peer_exists, bind_try. apply safe_bind; [apply _|].
  eapply safe_weaken; [|apply trans_safe]. by intros [r|e] w' _.
Qed.

Definition hstate_inv (st : HState) : Prop :=
  slot_inv (cworld st) /\
  forall i q prog, tasks st !! i = Some (q, prog) -> hsafe (handle_post q) prog (cworld st).

Lemma hstate_inv_step st st' : hstate_inv st -> hstep st st' -> hstate_inv st'.
Proof.
  intros [HI Ht] Hstep. destruct Hstep as [i q st Hi|i q pr p' w' st Hi Hb|w' st He]; cbn in *.
  - split; [done|]. intros j q' pr'. cbn. rewrite lookup_insert_Some.
    intros [[-> [= <- <-]]|[_ E]]; [apply serve_handle_safe|by eapply Ht].
  - destruct (safe_bstep _ _ _ _ _ _ _ _ HI (Ht i q pr Hi) Hb) as (HI' & HR & Hs).
    split; [done|]. intros j q' pr'. cbn. rewrite lookup_insert_Some.
    intros [[-> [= <- <-]]|[_ E]]; [done|].
    eapply safe_mono; [apply _|exact HR|by eapply Ht].
  - destruct He as (Hs & Hsig & Hrun). split; cbn.
    + destruct HI as [[H1 H2]|(H1 & H2 & H3)]; [left|right]; rewrite Hs, Hsig; [done|].
      split; [done|]. split; [done|set_solver].
    + intros j q pr E. eapply safe_mono; [apply _| |by eapply Ht].
      intros H. by rewrite Hs.
Qed.

Hypothesis Hslot : slot w0 = Some sp.

Lemma hstate_inv_reachable st : star hstep (mkHState ∅ w0) st -> hstate_inv st.
Proof.
  apply star_invariant; [apply hstate_inv_step|]. split; [by left|].
  intros i q pr. cbn. by rewrite lookup_empty.
Qed.
End handles.

(** C27: the process a connection owns is signalled at most once, however many
    clones of its handle stop it, concurrently with each other and with calls,
    and whatever happens on the network; and when any [stop] has returned, the
    process is no longer running, the slot is empty, and no further signal
    will be sent. *)
Theorem owned_process_is_stopped_once {R : Set} (from_value : Value -> result R string)
    (h : Handle) (w0 : ConnWorld) (sp : ServiceProcess) (p : Z) (st : HState)
    (Hslot : slot w0 = Some sp) (Hchild : child sp = Some p)
    (Hreach : star (hstep from_value h) (mkHState ∅ w0) st) :
  (signals (procs (cworld st)) = signals (procs w0) \/
   signals (procs (cworld st)) = p :: signals (procs w0)) /\
  forall i, tasks st !! i = Some (HStop, Ret tt) ->
    slot (cworld st) = None /\ signals (procs (cworld st)) = p :: signals (procs w0) /\
    p ∉ running (procs (cworld st)).
Proof.
  destruct (hstate_inv_reachable from_value h w0 sp p Hchild Hslot st Hreach) as [HI Ht]. split.
  - destruct HI as [[_ ->]|(_ & -> & _)]; auto.
  - intros i Hi. specialize (Ht i HStop _ Hi (cworld st) ltac:(by intros H) HI). cbn in Ht.
    destruct HI as [[H1 _]|H]; [congruence|exact H].
Qed.
End spec.
