(* ===== verification/ConnectionScenarios.v ===== *)
(** Concrete connections: runs of several handles, and instances of the
    theorems on connections. *)

From S2P Require Import Prelude Text Prog Float64 Wire Config ClientMessage Bootstrap BootstrapSpec.
From S2P Require Import CallerTransport CallerSafety CallerSpec Metrics CallArgs Service ServiceSpec.
From S2P Require Import ClientRef ClientScenarios Launch Connection ConnectionSpec.

Local Open Scope string_scope.
Local Open Scope Z_scope.

Definition sample_runtime : ConnectionRuntime :=
  mkRuntime (mkTransport "a" (Some "s") "ws://127.0.0.1:9981" None) (Some "s") (Some Metrics.new).

Definition sample_handle : Handle := mkHandle sample_runtime.

(** A connected transport whose connection owns process 41. *)
Definition owning_world : ConnWorld :=
  mkConnWorld (BootstrapSpec.machine "" 0) (connected_world sample_ids)
    (Some (ServiceProcess_new 41))
    (mkProcs {[7; 41]} ∅ [] [] (fun _ => Ok 41)) ["u0"].

(** [true] starts or advances the first handle's task, [false] the second's. *)
Definition hnext (i : nat) (st : HState) : option HState :=
  match tasks st !! i with
  | None => Some (mkHState (<[i := (HStop, serve_handle as_value sample_handle HStop)]> (tasks st))
                    (ConnectionSpec.cworld st))
  | Some (q, p) =>
      match bstep conn_op p (ConnectionSpec.cworld st) with
      | Some (p', w') => Some (mkHState (<[i := (q, p')]> (tasks st)) w')
      | None => None
      end
  end.

Fixpoint hrun (l : list nat) (st : HState) : option HState :=
  match l with
  | [] => Some st
  | i :: l => match hnext i st with Some st' => hrun l st' | None => None end
  end.

Lemma hrun_star l st st' :
  hrun l st = Some st' -> star (hstep as_value sample_handle) st st'.
Proof.
  revert st. induction l as [|i l IH]; simpl; intros st H; [simplify_eq; constructor|].
  destruct (hnext i st) as [st1|] eqn:E; [|done].
  eapply star_trans; [|by apply IH]. apply star_one. revert E. unfold hnext.
  destruct (tasks st !! i) as [[q p]|] eqn:Ei.
  - destruct (bstep conn_op p (ConnectionSpec.cworld st)) as [[p' w']|] eqn:Eb; [|done].
    intros [= <-]. by eapply hs_task.
  - intros [= <-]. apply (hs_start as_value sample_handle i HStop st Ei).
Qed.

(** Two handles stop at the same time: their operations alternate. *)
Definition both_stop : list nat := [0; 1; 0; 1; 0; 1; 0; 1; 0; 1; 0; 1; 0]%nat.

Definition after_both : HState :=
  default (mkHState ∅ owning_world) (hrun both_stop (mkHState ∅ owning_world)).

Lemma after_both_reachable :
  star (hstep as_value sample_handle) (mkHState ∅ owning_world) after_both.
Proof.
  unfold after_both. destruct (hrun both_stop _) as [st|] eqn:E; simpl; [|constructor].
  by apply hrun_star in E.
Qed.

Lemma owned_process_is_stopped_once_witness :
  signals (procs (ConnectionSpec.cworld after_both)) = [41] /\
  41 ∉ running (procs (ConnectionSpec.cworld after_both)).
Proof.
  destruct (owned_process_is_stopped_once as_value sample_handle owning_world
    (ServiceProcess_new 41) 41 after_both eq_refl eq_refl after_both_reachable) as [_ H].
  destruct (H 0%nat) as (_ & H1 & H2); [vm_compute; reflexivity|].
  split; [exact H1|exact H2].
Defined.




