(* ===== verification/MathWorker.v ===== *)
(** The example workers: [rust/examples/e2e_math_worker.rs] and
    [rust/examples/math_worker.rs].

    Arithmetic is that of the machine types.  An overflow of [+], [*] or
    [product] panics when the crate is compiled with overflow checks (the
    default of the dev profile) and wraps around otherwise; [checks] says
    which.  [None] is a panic. *)

From S2P Require Import Prelude Text Float64 Wire Config ClientMessage CallerTransport Service.

Local Open Scope string_scope.
Local Open Scope Z_scope.

(** * JSON values

    The accessors of [serde_json::Value] and the conversions of [json!]. *)

Definition i64_fits (z : Z) : bool := (- 2 ^ 63 <=? z) && (z <? 2 ^ 63).
Definition u64_fits (z : Z) : bool := (0 <=? z) && (z <? 2 ^ 64).

Class SerdeJson := {
  as_i64 : Value -> option Z;
  as_u64 : Value -> option Z;
  as_str : Value -> option string;
  json_i64 : Z -> Value;
  json_u64 : Z -> Value;
}.

(** The accessors read back what the conversions wrote, and give numbers of
    their type. *)
Class SerdeJsonLaws (SJ : SerdeJson) : Prop := {
  as_i64_json z : i64_fits z = true -> as_i64 (json_i64 z) = Some z;
  as_u64_json z : u64_fits z = true -> as_u64 (json_u64 z) = Some z;
  as_u64_json_i64 z : 0 <= z < 2 ^ 63 -> as_u64 (json_i64 z) = Some z;
  as_i64_fits x z : as_i64 x = Some z -> i64_fits z = true;
  as_u64_fits x z : as_u64 x = Some z -> u64_fits z = true;
  as_str_json s : as_str (Str s) = Some s;
}.

(** * Machine arithmetic *)

(** Reduction to the range of [i64]. *)
Definition swrap64 (z : Z) : Z := (z + 2 ^ 63) mod 2 ^ 64 - 2 ^ 63.

Definition i64_arith (checks : bool) (z : Z) : option Z :=
  if i64_fits z then Some z else if checks then None else Some (swrap64 z).

Definition u64_arith (checks : bool) (z : Z) : option Z :=
  if u64_fits z then Some z else if checks then None else Some (wrap 64 z).

(** [(1..=n).product::<u64>()]. *)
Definition product_to (checks : bool) (n : Z) : option Z :=
  foldl (fun acc x => acc ≫= fun a => u64_arith checks (a * x)) (Some 1) (seqZ 1 n).

(** The loop [for _ in 2..=n]. *)
Fixpoint fibonacci_loop (rounds : nat) (a b : Z) : Z :=
  match rounds with
  | O => b
  | S rounds => fibonacci_loop rounds b (wrap 64 (a + b))
  end.

Definition fibonacci (n : Z) : Z :=
  if n =? 0 then 0 else if n =? 1 then 1 else fibonacci_loop (Z.to_nat (n - 1)) 0 1.

(** * The workers *)

Section worker.
Context {SJ : SerdeJson}.

(** [args.get(i).and_then(..).ok_or_else(..)]. *)
Definition arg {A} (read : Value -> option A) (args : list Value) (i : nat) (err : string) :
    MResult A :=
  ok_or (args !! i ≫= read) (InvalidMessage err).

(** [r?], in a function that may panic. *)
Definition ptry {A B} (r : MResult A) (k : A -> option (MResult B)) : option (MResult B) :=
  match r with Ok a => k a | Err e => Some (Err e) end.

Definition answer (to_value : Z -> Value) (r : option Z) : option (MResult Value) :=
  (fun z => Ok (to_value z)) <$> r.

Definition call_add (checks : bool) (args : list Value) : option (MResult Value) :=
  ptry (arg as_i64 args 0 "arg[0] must be an integer") (fun a =>
  ptry (arg as_i64 args 1 "arg[1] must be an integer") (fun b =>
  answer json_i64 (i64_arith checks (a + b)))).

Definition call_multiply (checks : bool) (args : list Value) : option (MResult Value) :=
  ptry (arg as_i64 args 0 "arg[0] must be an integer") (fun a =>
  ptry (arg as_i64 args 1 "arg[1] must be an integer") (fun b =>
  answer json_i64 (i64_arith checks (a * b)))).

Definition call_fibonacci (args : list Value) : option (MResult Value) :=
  ptry (arg as_u64 args 0 "arg[0] must be a non-negative integer") (fun n =>
  answer json_u64 (Some (fibonacci n))).

(** With the guard of the end-to-end worker. *)
Definition call_factorial_guarded (checks : bool) (args : list Value) : option (MResult Value) :=
  ptry (arg as_u64 args 0 "arg[0] must be a non-negative integer") (fun n =>
  if 20 <? n then Some (Err (InvalidMessage "input too large"))
  else answer json_u64 (product_to checks n)).

(** Without it. *)
Definition call_factorial (checks : bool) (args : list Value) : option (MResult Value) :=
  ptry (arg as_u64 args 0 "arg[0] must be a non-negative integer") (fun n =>
  answer json_u64 (product_to checks n)).

Definition call_throw_error (args : list Value) : MResult Value :=
  Err (RemoteCallError (default "unknown error" (args !! 0%nat ≫= as_str))).

Definition call_greet (args : list Value) : MResult Value :=
  Ok (Str ("Hello, " +:+ default "World" (args !! 0%nat ≫= as_str) +:+ "!")).

Definition call_get_info (pid : Z) : MResult Value :=
  Ok (Object [("language", Str "rust"); ("pid", json_u64 pid)]).

(** [handle_call] of the end-to-end worker; [pid] is [std::process::id()]. *)
Definition e2e_handle_call (checks : bool) (pid : Z) (function : string) (args : list Value) :
    option (MResult Value) :=
  if (function =? "add")%string then call_add checks args
  else if (function =? "multiply")%string then call_multiply checks args
  else if (function =? "factorial")%string then call_factorial_guarded checks args
  else if (function =? "fibonacci")%string then call_fibonacci args
  else if (function =? "echo")%string then Some (Ok (default Null (args !! 0%nat)))
  else if (function =? "get_info")%string then Some (call_get_info pid)
  else if (function =? "throw_error")%string then Some (call_throw_error args)
  else if (function =? "greet")%string then Some (call_greet args)
  else Some (Err (FunctionNotFound function)).

(** [handle_call] of the plain worker, with the line it prints. *)
Definition math_handle_call (checks : bool) (label function : string) (args : list Value) :
    string * option (MResult Value) :=
  ("[" +:+ label +:+ "] handling " +:+ function,
   if (function =? "add")%string then call_add checks args
   else if (function =? "multiply")%string then call_multiply checks args
   else if (function =? "factorial")%string then call_factorial checks args
   else if (function =? "fibonacci")%string then call_fibonacci args
   else Some (Err (FunctionNotFound function))).
End worker.

(** * Starting a worker *)

(** [args.iter().position(|arg| arg == flag)] and the argument after it. *)
Fixpoint flag_value (args : list string) (flag : string) : option string :=
  match args with
  | [] => None
  | arg :: args => if (arg =? flag)%string then head args else flag_value args flag
  end.

Definition has_flag (args : list string) (flag : string) : bool :=
  existsb (fun arg => (arg =? flag)%string) args.

(** The trimmed text, unless it is empty. *)
Definition nonempty_trimmed (s : string) : option string :=
  if (trim s =? "")%string then None else Some (trim s).

(** [resolve_peer_id] of the end-to-end worker. *)
Definition worker_peer_id (env : Env) (args : list string) : option string :=
  match env_var env "MULTIFROST_PEER_ID" ≫= nonempty_trimmed with
  | Some id => Some id
  | None =>
      match flag_value args "--service-id" ≫= nonempty_trimmed with
      | Some id => Some id
      | None => if has_flag args "--service" then Some "math-service" else None
      end
  end.

Definition worker_context (env : Env) (id : option string) : ServiceContext :=
  match id with
  | Some id => with_service_id id (ServiceContext_new env)
  | None => ServiceContext_new env
  end.

(** The context [main] of the end-to-end worker runs the service with. *)
Definition e2e_main_context (env : Env) (args : list string) : ServiceContext :=
  worker_context env (worker_peer_id env args).

(** The id [main] of the plain worker takes from its arguments, and the label
    it gives the worker. *)
Definition math_service_id (args : list string) : option string :=
  match flag_value args "--service-id" with
  | Some id => Some id
  | None => if has_flag args "--service" then Some "math-service" else None
  end.

Definition math_label (args : list string) : string := default "spawn-mode" (math_service_id args).

Definition math_main_context (env : Env) (args : list string) : ServiceContext :=
  worker_context env (math_service_id args).

(** [main] of both workers: the plain one prints a line first. *)
Section main.
Context {CC : ClientCodec}.
Context (h : Host) (env : Env) (args : list string)
        (bootstrapped : MResult unit) (websocket : result unit string) (source : list WsItem).

Definition e2e_main : serviceM ServiceEnd :=
  run_service h env (e2e_main_context env args) bootstrapped websocket source.

Definition math_main : string * serviceM ServiceEnd :=
  (match math_service_id args with
   | Some id => "Math worker starting in service mode as " +:+ id
   | None => "Math worker starting in spawn mode"
   end,
   run_service h env (math_main_context env args) bootstrapped websocket source).
End main.
