(* ===== verification/MathSpec.v ===== *)
(** Properties of the example workers: their arithmetic against the
    mathematical functions, their panics, and a remote call to them. *)

From S2P Require Import Prelude Text Prog Float64 Wire Config ClientMessage CallerTransport Service.
From S2P Require Import MathWorker.

Local Open Scope string_scope.
Local Open Scope Z_scope.

(** * Reference functions *)

Fixpoint fact (n : nat) : Z :=
  match n with O => 1 | S m => fact m * Z.of_nat n end.

Fixpoint fib (n : nat) : Z :=
  match n with
  | O => 0
  | S m => match m with O => 1 | S k => fib m + fib k end
  end.

Lemma fact_pos n : 0 < fact n.
Proof. induction n as [|n IH]; cbn [fact]; lia. Qed.

Lemma fact_divide m n : (m <= n)%nat -> (fact m | fact n).
Proof.
  induction 1 as [|n Hle IH]; [done|]. cbn [fact]. by apply Z.divide_mul_l.
Qed.

Lemma fact_mono m n : (m <= n)%nat -> fact m <= fact n.
Proof. intros H. apply Z.divide_pos_le; [apply fact_pos|by apply fact_divide]. Qed.

Lemma fib_SS n : fib (S (S n)) = fib (S n) + fib n.
Proof. done. Qed.

Lemma fib_mono n : 0 <= fib n <= fib (S n).
Proof.
  induction n as [|n IH]; [done|]. rewrite fib_SS. lia.
Qed.

Lemma fib_le m n : (m <= n)%nat -> fib m <= fib n.
Proof. induction 1 as [|n Hle IH]; [done|]. pose proof (fib_mono n). lia. Qed.

(** Two consecutive numbers at once, to evaluate [fib]. *)
Fixpoint fib_pair (n : nat) : Z * Z :=
  match n with O => (0, 1) | S n => let '(a, b) := fib_pair n in (b, a + b) end.

Lemma fib_pair_spec n : fib_pair n = (fib n, fib (S n)).
Proof.
  induction n as [|n IH]; [done|]. cbn [fib_pair]. rewrite IH, fib_SS. f_equal. lia.
Qed.

Lemma fib_eval n : fib n = (fib_pair n).1.
Proof. by rewrite fib_pair_spec. Qed.

(** * Machine arithmetic *)

Lemma i64_fits_spec z : i64_fits z = true <-> - 2 ^ 63 <= z < 2 ^ 63.
Proof. unfold i64_fits. rewrite andb_true_iff, Z.leb_le, Z.ltb_lt. done. Qed.

Lemma u64_fits_spec z : u64_fits z = true <-> 0 <= z < 2 ^ 64.
Proof. unfold u64_fits. rewrite andb_true_iff, Z.leb_le, Z.ltb_lt. done. Qed.

Lemma swrap64_fits z : i64_fits (swrap64 z) = true.
Proof.
  apply i64_fits_spec. unfold swrap64. pose proof (Z.mod_pos_bound (z + 2 ^ 63) (2 ^ 64)). lia.
Qed.

Lemma wrap64_fits z : u64_fits (wrap 64 z) = true.
Proof. apply u64_fits_spec. apply Z.mod_pos_bound. lia. Qed.

Lemma u64_arith_wraps z : u64_arith false z = Some (wrap 64 z).
Proof.
  unfold u64_arith. destruct (u64_fits z) eqn:E; [|done].
  apply u64_fits_spec in E. by rewrite wrap_small.
Qed.

Lemma i64_arith_none checks z : i64_arith checks z = None <-> checks = true /\ i64_fits z = false.
Proof. unfold i64_arith. destruct (i64_fits z), checks; naive_solver. Qed.

Lemma product_to_S checks n :
  product_to checks (Z.of_nat (S n)) =
    (product_to checks (Z.of_nat n) ≫= fun a => u64_arith checks (a * Z.of_nat (S n))).
Proof.
  unfold product_to. rewrite seqZ_S, foldl_app. cbn [foldl].
  replace (1 + Z.of_nat n) with (Z.of_nat (S n)) by lia. done.
Qed.

(** Without checks the product is the factorial modulo 2^64. *)
Lemma product_to_wraps n : product_to false (Z.of_nat n) = Some (wrap 64 (fact n)).
Proof.
  induction n as [|n IH]; [done|]. rewrite product_to_S, IH. cbn [mbind option_bind fact].
  rewrite u64_arith_wraps. unfold wrap. by rewrite Z.mul_mod_idemp_l.
Qed.

(** With checks it is the factorial, if that fits. *)
Lemma product_to_checked n :
  product_to true (Z.of_nat n) = if u64_fits (fact n) then Some (fact n) else None.
Proof.
  induction n as [|n IH]; [done|]. rewrite product_to_S, IH. pose proof (fact_pos n).
  destruct (u64_fits (fact n)) eqn:E.
  { cbn [mbind option_bind fact]. unfold u64_arith. done. }
  cbn [mbind option_bind].
  destruct (u64_fits (fact (S n))) eqn:E'; [|done]. exfalso.
  apply u64_fits_spec in E'. pose proof (fact_mono n (S n) ltac:(lia)).
  enough (u64_fits (fact n) = true) by congruence. apply u64_fits_spec. lia.
Qed.

Lemma fact_20_fits n : (n <= 20)%nat -> 0 < fact n < 2 ^ 64.
Proof.
  intros H. pose proof (fact_pos n). pose proof (fact_mono n 20 H) as Hle.
  change (fact 20) with 2432902008176640000 in Hle. lia.
Qed.

Lemma product_to_small checks n :
  (n <= 20)%nat -> product_to checks (Z.of_nat n) = Some (fact n).
Proof.
  intros H. pose proof (fact_20_fits n H). destruct checks.
  - rewrite product_to_checked, (proj2 (u64_fits_spec _)) by lia. done.
  - rewrite product_to_wraps, wrap_small by lia. done.
Qed.

(** The loop keeps two consecutive Fibonacci numbers modulo 2^64. *)
Lemma fibonacci_loop_spec k i :
  fibonacci_loop k (wrap 64 (fib i)) (wrap 64 (fib (S i))) = wrap 64 (fib (S i + k)).
Proof.
  revert i. induction k as [|k IH]; intros i; [by rewrite Nat.add_0_r|].
  cbn [fibonacci_loop].
  replace (wrap 64 (wrap 64 (fib i) + wrap 64 (fib (S i)))) with (wrap 64 (fib (S (S i)))).
  - rewrite IH. do 2 f_equal. lia.
  - rewrite fib_SS. unfold wrap. rewrite <- Z.add_mod by lia. f_equal. lia.
Qed.

Lemma fibonacci_wraps n : fibonacci (Z.of_nat n) = wrap 64 (fib n).
Proof.
  unfold fibonacci. destruct (Z.eqb_spec (Z.of_nat n) 0) as [E|E0].
  { by replace n with 0%nat by lia. }
  destruct (Z.eqb_spec (Z.of_nat n) 1) as [E|E1].
  { by replace n with 1%nat by lia. }
  pose proof (fibonacci_loop_spec (Z.to_nat (Z.of_nat n - 1)) 0) as H.
  change (wrap 64 (fib 0)) with 0 in H. change (wrap 64 (fib 1)) with 1 in H.
  rewrite H. do 2 f_equal. lia.
Qed.

(** * Properties *)

Section spec.
Context {SJ : SerdeJson} {SJL : SerdeJsonLaws SJ}.

(** The arguments read as the worker reads them. *)
Definition operands (args : list Value) : option (Z * Z) :=
  match args !! 0%nat ≫= as_i64, args !! 1%nat ≫= as_i64 with
  | Some a, Some b => Some (a, b)
  | _, _ => None
  end.

(** C35: the guard of the end-to-end worker is right and as wide as it can be:
    up to 20 the answer is the factorial itself, which fits 64 bits, compiled
    with overflow checks or without; a larger argument is refused as an
    invalid message; and 21 is the first argument whose factorial does not
    fit. *)
Theorem guarded_factorial_is_exact (checks : bool) (pid n : Z) (args : list Value)
    (Hn : args !! 0%nat ≫= as_u64 = Some n) :
  e2e_handle_call checks pid "factorial" args =
    Some (if n <=? 20 then Ok (json_u64 (fact (Z.to_nat n)))
          else Err (InvalidMessage "input too large")) /\
  (u64_fits (fact (Z.to_nat n)) = true <-> n <= 20).
Proof.
  assert (Hu : u64_fits n = true).
  { destruct (args !! 0%nat) as [x|]; [|done]. by apply (as_u64_fits x). }
  apply u64_fits_spec in Hu. split.
  - cbn. unfold call_factorial_guarded, arg. rewrite Hn. cbn [ok_or ptry].
    destruct (Z.leb_spec n 20) as [Hle|Hgt].
    + rewrite (proj2 (Z.ltb_ge 20 n)) by lia.
      replace (product_to checks n) with (product_to checks (Z.of_nat (Z.to_nat n)))
        by (f_equal; lia).
      by rewrite product_to_small by lia.
    + by rewrite (proj2 (Z.ltb_lt 20 n)) by lia.
  - rewrite u64_fits_spec. split; intros H.
    + destruct (Z.leb_spec n 20) as [|Hgt]; [done|]. exfalso.
      pose proof (fact_mono 21 (Z.to_nat n) ltac:(lia)) as Hm.
      change (fact 21) with 51090942171709440000 in Hm. lia.
    + pose proof (fact_20_fits (Z.to_nat n) ltac:(lia)). lia.
Qed.

(** The plain worker has no such guard.  From 21 on, [factorial] panics
    when compiled with overflow checks; without them it answers the factorial
    modulo 2^64, which is never the factorial, and is 0 for every argument
    from 66 on. *)
Theorem unguarded_factorial_overflows (label : string) (n : Z) (args : list Value)
    (Hn : args !! 0%nat ≫= as_u64 = Some n) (Hbig : 21 <= n) :
  (math_handle_call true label "factorial" args).2 = None /\
  exists z, (math_handle_call false label "factorial" args).2 = Some (Ok (json_u64 z)) /\
    z = fact (Z.to_nat n) mod 2 ^ 64 /\ z <> fact (Z.to_nat n) /\ (66 <= n -> z = 0).
Proof.
  pose proof (fact_mono 21 (Z.to_nat n) ltac:(lia)) as Hm.
  change (fact 21) with 51090942171709440000 in Hm.
  cbn. unfold call_factorial, arg. rewrite Hn. cbn [ok_or ptry].
  assert (E : forall checks, product_to checks n = product_to checks (Z.of_nat (Z.to_nat n)))
    by (intros; f_equal; lia).
  rewrite !E, product_to_checked, product_to_wraps. split.
  - destruct (u64_fits (fact (Z.to_nat n))) eqn:Ef; [|done]. apply u64_fits_spec in Ef. lia.
  - eexists. split; [reflexivity|]. split; [done|].
    pose proof (Z.mod_pos_bound (fact (Z.to_nat n)) (2 ^ 64) ltac:(lia)) as Hb.
    unfold wrap. split; [lia|]. intros Hn66. apply Z.mod_divide; [lia|].
    transitivity (fact 66); [|apply fact_divide; lia].
    exists (fact 66 / 2 ^ 64). vm_compute. reflexivity.
Qed.

(** [fibonacci], an iteration over two wrapping [u64] variables, is the
    recursive Fibonacci function modulo 2^64, for every argument; both workers
    answer exactly that, with no panic, and up to 93 (and no further) it is
    the Fibonacci number itself. *)
Theorem fibonacci_is_fib (checks : bool) (pid n : Z) (label : string) (args : list Value)
    (Hn : args !! 0%nat ≫= as_u64 = Some n) :
  e2e_handle_call checks pid "fibonacci" args =
    Some (Ok (json_u64 (fib (Z.to_nat n) mod 2 ^ 64))) /\
  (math_handle_call checks label "fibonacci" args).2 = e2e_handle_call checks pid "fibonacci" args /\
  (fibonacci n = fib (Z.to_nat n) <-> n <= 93).
Proof.
  assert (Hu : u64_fits n = true).
  { destruct (args !! 0%nat) as [x|]; [|done]. by apply (as_u64_fits x). }
  apply u64_fits_spec in Hu.
  assert (E : fibonacci n = wrap 64 (fib (Z.to_nat n))).
  { rewrite <- fibonacci_wraps. f_equal. lia. }
  split; [|split; [done|]].
  - cbn. unfold call_fibonacci, arg. rewrite Hn. cbn. by rewrite E.
  - rewrite E. pose proof (fib_mono (Z.to_nat n)). split; intros H1.
    + destruct (Z.leb_spec n 93) as [|Hgt]; [done|]. exfalso.
      pose proof (fib_le 94 (Z.to_nat n) ltac:(lia)) as Hm.
      rewrite (fib_eval 94) in Hm. change ((fib_pair 94).1) with 19740274219868223167 in Hm.
      pose proof (proj1 (u64_fits_spec _) (wrap64_fits (fib (Z.to_nat n)))). lia.
    + apply wrap_small. pose proof (fib_le (Z.to_nat n) 93 ltac:(lia)) as Hm.
      rewrite (fib_eval 93) in Hm. change ((fib_pair 93).1) with 12200160415121876738 in Hm.
      lia.
Qed.

(** The end-to-end worker panics exactly on an overflow of [add] or
    [multiply] in a build with overflow checks; in a build without them every
    call of every function is answered. *)
Theorem e2e_worker_panics_iff (checks : bool) (pid : Z) (function : string) (args : list Value) :
  e2e_handle_call checks pid function args = None <->
  checks = true /\ exists a b, operands args = Some (a, b) /\
    (function = "add" /\ i64_fits (a + b) = false \/
     function = "multiply" /\ i64_fits (a * b) = false).
Proof.
  assert (Hop : forall op : Z -> Z -> Z,
    ptry (arg as_i64 args 0 "arg[0] must be an integer") (fun a =>
      ptry (arg as_i64 args 1 "arg[1] must be an integer") (fun b =>
      answer json_i64 (i64_arith checks (op a b)))) = None <->
    checks = true /\ exists a b, operands args = Some (a, b) /\ i64_fits (op a b) = false).
  { intros op. unfold arg, operands.
    destruct (args !! 0%nat ≫= as_i64) as [a|]; cbn; [|naive_solver].
    destruct (args !! 1%nat ≫= as_i64) as [b|]; cbn; [|naive_solver].
    unfold answer. rewrite fmap_None, i64_arith_none. naive_solver. }
  unfold e2e_handle_call.
  destruct (String.eqb_spec function "add") as [->|Ha].
  { unfold call_add. rewrite (Hop Z.add). by naive_solver. }
  destruct (String.eqb_spec function "multiply") as [->|Hm].
  { unfold call_multiply. rewrite (Hop Z.mul). naive_solver. }
  destruct (String.eqb_spec function "factorial") as [->|].
  { split; [|naive_solver]. unfold call_factorial_guarded, arg.
    destruct (args !! 0%nat ≫= as_u64) as [n|] eqn:En; cbn [ok_or ptry]; [|done].
    destruct (Z.ltb_spec 20 n) as [|Hle]; [done|].
    assert (Hu : u64_fits n = true)
      by (destruct (args !! 0%nat) as [x|]; [by apply (as_u64_fits x)|done]).
    apply u64_fits_spec in Hu. rewrite <- (Z2Nat.id n) by lia.
    by rewrite product_to_small by lia. }
  split; [|by intros (_ & a & b & _ & [[-> _]|[-> _]])].
  intros H. repeat case_match; try done. revert H.
  unfold call_fibonacci, arg. by destruct (args !! 0%nat ≫= as_u64).
Qed.
End spec.

(** * A concrete [serde_json] *)

#[export] Instance ref_serde_json : SerdeJson := {|
  as_i64 x := match x with
              | Num (PosInt z) | Num (NegInt z) => if i64_fits z then Some z else None
              | _ => None
              end;
  as_u64 x := match x with
              | Num (PosInt z) => if u64_fits z then Some z else None
              | _ => None
              end;
  as_str x := match x with Str s => Some s | _ => None end;
  json_i64 z := Num (if z <? 0 then NegInt z else PosInt z);
  json_u64 z := Num (PosInt z) |}.

#[export] Instance ref_serde_json_laws : SerdeJsonLaws ref_serde_json.
Proof.
  split; simpl.
  - intros z Hz. destruct (z <? 0); by rewrite Hz.
  - intros z Hz. by rewrite Hz.
  - intros z Hz. rewrite (proj2 (Z.ltb_ge z 0)), (proj2 (u64_fits_spec z)) by lia. done.
  - intros x z H. repeat case_match; by simplify_eq.
  - intros x z H. repeat case_match; by simplify_eq.
  - done.
Qed.

Definition one_number (n : Z) : list Value := [Num (PosInt n)].

Lemma guarded_factorial_is_exact_witness :
  e2e_handle_call true 1 "factorial" (one_number 20)
    = Some (Ok (Num (PosInt 2432902008176640000))) /\
  e2e_handle_call true 1 "factorial" (one_number 21)
    = Some (Err (InvalidMessage "input too large")).
Proof.
  split.
  - exact (proj1 (guarded_factorial_is_exact true 1 20 (one_number 20) eq_refl)).
  - exact (proj1 (guarded_factorial_is_exact true 1 21 (one_number 21) eq_refl)).
Defined.

Lemma unguarded_factorial_overflows_witness :
  (math_handle_call true "w" "factorial" (one_number 21)).2 = None /\
  (math_handle_call false "w" "factorial" (one_number 66)).2 = Some (Ok (Num (PosInt 0))).
Proof.
  split.
  - apply (unguarded_factorial_overflows "w" 21); [reflexivity|lia].
  - destruct (unguarded_factorial_overflows (SJ := ref_serde_json) "w" 66 (one_number 66)
                eq_refl ltac:(lia))
      as (_ & z & H & _ & _ & Hz).
    rewrite H, Hz by lia. reflexivity.
Defined.

Lemma fibonacci_is_fib_witness :
  e2e_handle_call true 1 "fibonacci" (one_number 10) = Some (Ok (Num (PosInt 55))).
Proof. exact (proj1 (fibonacci_is_fib true 1 10 "w" (one_number 10) eq_refl)). Defined.
