(* ===== verification/RemoteMath.v ===== *)
(** Calls to the end-to-end math worker through the router.

    The worker of [e2e_math_worker.rs], compiled without overflow checks, is
    plugged into the composition of [EndToEnd]. *)

From S2P Require Import Prelude Text Prog Float64 Wire Protocol RefCodec Registry Server RouterSpec.
From S2P Require Import Config ClientMessage CallerTransport CallerSafety Service.
From S2P Require Import ServiceSpec ServicePanic ClientRef EndToEnd RouterScenarios.
From S2P Require Import ClientScenarios MathWorker MathSpec.

Local Open Scope string_scope.
Local Open Scope Z_scope.

Section worker.
Context {SJ : SerdeJson} {SJL : SerdeJsonLaws SJ}.

(** The worker as the service runs it; it has no state. *)
Definition math_service (checks : bool) (pid : Z) (s : unit) (f : string) (a : list Value) :
    option (MResult Value * unit) :=
  match e2e_handle_call checks pid f a with Some r => Some (r, s) | None => None end.

Lemma release_never_panics pid f a : exists r, e2e_handle_call false pid f a = Some r.
Proof.
  assert (Hop : forall op : Z -> Z -> Z, exists r,
    ptry (arg as_i64 a 0 "arg[0] must be an integer") (fun x =>
      ptry (arg as_i64 a 1 "arg[1] must be an integer") (fun y =>
      answer json_i64 (i64_arith false (op x y)))) = Some r).
  { intros op. unfold arg, i64_arith. destruct (a !! 0%nat ≫= as_i64) as [x|]; cbn; [|by eauto].
    destruct (a !! 1%nat ≫= as_i64) as [y|]; cbn; [|by eauto].
    destruct (i64_fits _); cbn; by eauto. }
  unfold e2e_handle_call. repeat case_match; try by eauto.
  - unfold call_factorial_guarded, arg. destruct (a !! 0%nat ≫= as_u64) as [n|] eqn:En; cbn; [|by eauto].
    destruct (20 <? n); [by eauto|].
    assert (Hu : u64_fits n = true)
      by (destruct (a !! 0%nat) as [x|]; [by apply (as_u64_fits x)|done]).
    apply u64_fits_spec in Hu. rewrite <- (Z2Nat.id n) by lia. rewrite product_to_wraps.
    cbn. by eauto.
  - unfold call_fibonacci, arg. destruct (a !! 0%nat ≫= as_u64); cbn; by eauto.
Qed.

(** The same as a total function: a call that would panic does not occur. *)
Definition math_service_total (pid : Z) (s : unit) (f : string) (a : list Value) :
    MResult Value * unit :=
  default (Err (FunctionNotFound f), s) (math_service false pid s f a).

Lemma math_service_is_total pid s f a :
  math_service false pid s f a = total_worker (math_service_total pid) s f a.
Proof.
  unfold total_worker, math_service_total, math_service.
  by destruct (release_never_panics pid f a) as [r ->].
Qed.

Lemma math_service_answer pid f a r :
  e2e_handle_call false pid f a = Some r -> math_service_total pid tt f a = (r, tt).
Proof. unfold math_service_total, math_service. by intros ->. Qed.

Lemma answer_two_i64 f pid (op : Z -> Z -> Z) x y :
  (f = "add" /\ op = Z.add \/ f = "multiply" /\ op = Z.mul) ->
  i64_fits x = true -> i64_fits y = true ->
  e2e_handle_call false pid f [json_i64 x; json_i64 y] =
    Some (Ok (json_i64 (if i64_fits (op x y) then op x y else swrap64 (op x y)))).
Proof.
  intros Hf Hx Hy. destruct Hf as [[-> ->]|[-> ->]]; cbn -[i64_fits swrap64];
    unfold call_add, call_multiply, arg, i64_arith; cbn -[i64_fits swrap64];
    rewrite !as_i64_json by done; cbn -[i64_fits swrap64];
    match goal with |- context [i64_fits ?z] => by destruct (i64_fits z) end.
Qed.

Lemma answer_factorial pid n :
  0 <= n < 2 ^ 64 ->
  e2e_handle_call false pid "factorial" [json_u64 n] =
    Some (if n <=? 20 then Ok (json_u64 (fact (Z.to_nat n)))
          else Err (InvalidMessage "input too large")).
Proof.
  intros Hn. cbn. unfold call_factorial_guarded, arg. cbn.
  rewrite as_u64_json by (by apply u64_fits_spec). cbn.
  rewrite Z.ltb_antisym. destruct (Z.leb_spec n 20); [|done]. cbn.
  replace (product_to false n) with (product_to false (Z.of_nat (Z.to_nat n))) by (f_equal; lia).
  by rewrite product_to_small by lia.
Qed.

Lemma answer_unknown pid f a :
  f ∉ ["add"; "multiply"; "factorial"; "fibonacci"; "echo"; "get_info"; "throw_error"; "greet"] ->
  e2e_handle_call false pid f a = Some (Err (FunctionNotFound f)).
Proof.
  intros Hf. unfold e2e_handle_call.
  repeat match goal with
  | |- context [(f =? ?s)%string] =>
      destruct (String.eqb_spec f s) as [->|_]; [exfalso; apply Hf; set_solver|]
  end. done.
Qed.
End worker.

Section remote.
Context {SJ : SerdeJson} {SJL : SerdeJsonLaws SJ}.
Context {CC : ClientCodec} {CCL : ClientCodecLaws CC} {RC : RouterCodec} {IO : Interop CC RC}.

(** The end-to-end worker reached through the router.  With a caller and
    the worker's service registered and their connections up, a call of [add]
    or [multiply] completes at the caller with the sum or product of its
    arguments (reduced to 64 bits if it does not fit); [factorial] with the
    factorial up to 20 and with the worker's refusal, as a remote error, above;
    a function the worker does not have with its name in the error. *)
Theorem remote_math_calls (from_i64 from_u64 : Value -> result Z string)
    (t : CallerTransport) (ids : nat -> string) (q : string) (pid : Z) (rest : list WsItem)
    (w : World) (rp rq : PeerRecord) (ws : CWorld)
    (Hi64 : forall z, i64_fits z = true -> from_i64 (json_i64 z) = Ok z)
    (Hu64 : forall z, u64_fits z = true -> from_u64 (json_u64 z) = Ok z)
    (Hcall : forall c : CallBody, exists b, to_vec_named c = Ok b /\ from_slice b = Ok c)
    (Hresponse : forall r : ResponseBody, RoundTrips cc_response cc_response r)
    (Hp : registry w !! peer_id t = Some rp) (Hpc : rec_class rp = Caller)
    (Hps : rec_sender rp ∈ writable w)
    (Hq : registry w !! q = Some rq) (Hqc : rec_class rq = Service)
    (Hqs : rec_sender rq ∈ writable w) (Hws : sink_error ws = None)
    (Hshort_call : short (build_call_envelope (peer_id t) q (ids 0%nat) (ClientMessage.now_ts 0)))
    (Hshort_reply : forall k, k = KIND_RESPONSE \/ k = KIND_ERROR ->
       short (mkEnvelope PROTOCOL_VERSION k (ids 0%nat) q (peer_id t)
                (ClientMessage.now_ts (clock ws)))) :
  let completes from_value f a (out : MResult Z) :=
    call_goes_round from_value (math_service_total pid) t ids q f a rest w rp rq ws tt tt out in
  (forall f op x y, f = "add" /\ op = Z.add \/ f = "multiply" /\ op = Z.mul ->
     i64_fits x = true -> i64_fits y = true ->
     completes from_i64 f [json_i64 x; json_i64 y]
       (Ok (if i64_fits (op x y) then op x y else swrap64 (op x y)))) /\
  (forall n, 0 <= n < 2 ^ 64 ->
     completes from_u64 "factorial" [json_u64 n]
       (if n <=? 20 then Ok (fact (Z.to_nat n))
        else Err (RemoteCallError "Invalid message: input too large"))) /\
  (forall from_value f a,
     f ∉ ["add"; "multiply"; "factorial"; "fibonacci"; "echo"; "get_info"; "throw_error"; "greet"] ->
     completes from_value f a (Err (RemoteCallError ("Function not found: " +:+ f)))).
Proof.
  intros completes.
  assert (H : forall from_value f a r, e2e_handle_call false pid f a = Some r ->
            completes from_value f a (caller_view from_value r)).
  { intros from_value f a r Hr. destruct (Hcall (mkCallBody f a None)) as (b & Hb & Hd).
    pose proof (remote_call_path from_value (math_service_total pid) t ids q f a rest w rp rq ws tt
                  Hp Hpc Hps Hq Hqc Hqs Hws b) as Hpath.
    rewrite (math_service_answer pid f a r Hr) in Hpath. apply Hpath; auto.
    - unfold encode_call_body. by rewrite Hb.
    - unfold decode_call_body. by rewrite Hd. }
  split; [|split].
  - intros f op x y Hf Hx Hy. specialize (H from_i64 _ _ _ (answer_two_i64 f pid op x y Hf Hx Hy)).
    cbn in H. rewrite Hi64 in H; [exact H|]. destruct (i64_fits (op x y)) eqn:E; [done|].
    apply swrap64_fits.
  - intros n Hn. specialize (H from_u64 _ _ _ (answer_factorial pid n Hn)).
    destruct (Z.leb_spec n 20) as [Hle|]; cbn in H; [|exact H].
    rewrite Hu64 in H; [exact H|]. apply u64_fits_spec.
    pose proof (fact_20_fits (Z.to_nat n) ltac:(lia)). lia.
  - intros from_value f a Hf. exact (H from_value _ _ _ (answer_unknown pid f a Hf)).
Qed.
End remote.

(** * Instances *)

Definition read_i64 (x : Value) : result Z string := ok_or (as_i64 x) "not an i64".
Definition read_u64 (x : Value) : result Z string := ok_or (as_u64 x) "not a u64".

Lemma remote_math_calls_witness :
  call_goes_round read_i64 (math_service_total 1) transport sample_ids "s" "add"
    [json_i64 2; json_i64 3] [] two_peers (mkPeerRecord "a" Caller 1 true (Some 0))
    (mkPeerRecord "s" Service 2 true (Some 0)) (connected_world sample_ids) tt tt (Ok 5) /\
  call_goes_round read_u64 (math_service_total 1) transport sample_ids "s" "factorial"
    [json_u64 5] [] two_peers (mkPeerRecord "a" Caller 1 true (Some 0))
    (mkPeerRecord "s" Service 2 true (Some 0)) (connected_world sample_ids) tt tt (Ok 120).
Proof.
  destruct (remote_math_calls read_i64 read_u64 transport sample_ids "s" 1 [] two_peers
    (mkPeerRecord "a" Caller 1 true (Some 0)) (mkPeerRecord "s" Service 2 true (Some 0))
    (connected_world sample_ids)) as (H1 & H2 & _).
  - intros z Hz. unfold read_i64. by rewrite as_i64_json.
  - intros z Hz. unfold read_u64. by rewrite as_u64_json.
  - intros c. destruct (call_serde_total c) as [b Hb]. exists b. split; [exact Hb|].
    by apply call_serde_roundtrip.
  - apply response_serde_roundtrip.
  - reflexivity.
  - reflexivity.
  - apply (bool_decide_unpack _); vm_compute; exact I.
  - reflexivity.
  - reflexivity.
  - apply (bool_decide_unpack _); vm_compute; exact I.
  - reflexivity.
  - intros b [= <-]. vm_compute. reflexivity.
  - intros k [->| ->] b [= <-]; vm_compute; reflexivity.
  - split.
    + apply (H1 "add" Z.add 2 3); [by left|reflexivity|reflexivity].
    + apply (H2 5). lia.
Defined.

(** Two calls of [add], the second of which overflows. *)
Definition add_frame (id : string) (x y : Z) : bytes :=
  get [] (ClientMessage.encode_frame (build_call_envelope "a" "s" id F64.zero)
            (get [] (encode_call_body (mkCallBody "add" [json_i64 x; json_i64 y] None)))).

Definition overflow_source : list WsItem :=
  [Ok (Binary ack_frame); Ok (Binary (add_frame "m1" 1 2));
   Ok (Binary (add_frame "m2" (2 ^ 63 - 1) 1)); Ok (Binary (add_frame "m3" 3 4))].

Lemma worker_panic_ends_service_witness :
  exists register reply w' s' unanswered,
    pstop (math_service true 1)
      (run_service_async sample_host sample_env service_context (Ok tt) (Ok tt) overflow_source)
      (connected_world sample_ids, tt) = (None, (w', s')) /\
    wire w' = [Binary register; Binary reply] /\ length unanswered = 2%nat /\
    calls_of "s" (tail overflow_source) =
      ((replies_until_panic (math_service true 1) tt (calls_of "s" (tail overflow_source))).1.*1
       ++ unanswered)%list.
Proof.
  destruct (worker_panic_ends_service (math_service true 1) sample_host sample_env service_context
    overflow_source "s" (mkRegisterAckBody true None) (connected_world sample_ids) tt
    (replies_until_panic (math_service true 1) tt (calls_of "s" (tail overflow_source))).1)
    as (register & raws & w' & s' & unanswered & H1 & H2 & H3 & H4 & _);
    try (vm_compute; reflexivity).
  apply Forall2_length in H3. apply (f_equal length) in H4 as Hlen.
  rewrite length_app, length_fmap in Hlen. revert H3 Hlen.
  change (length (replies_until_panic (math_service true 1) tt
            (calls_of "s" (tail overflow_source))).1) with 1%nat.
  change (length (calls_of "s" (tail overflow_source))) with 3%nat.
  intros H3 Hlen. destruct raws as [|reply [|]]; try discriminate H3.
  exists register, reply, w', s', unanswered. split; [exact H1|]. split; [exact H2|].
  split; [lia|exact H4].
Defined.
