(* ===== verification/ExamplePrograms.v ===== *)
(** The example clients: [main] of [rust/examples/parent.rs], [connect.rs] and
    [spawn.rs].

    They are written against the public interface of the client crate, the
    signature [apiE].  Its semantics [api_op] is what the other files prove of
    the implementation: connecting succeeds or fails as a whole
    ([ConnectionSpec]), a call is answered by the worker of the service that
    is registered under the target, or by the router when there is none
    ([EndToEnd], [RouterAnswers]), and [stop] stops the process of the
    connection ([ConnectionSpec]). *)

From S2P Require Import Prelude Text Prog Float64 Wire Config ClientMessage CallerTransport.
From S2P Require Import Service Launch MathWorker MathSpec.

Local Open Scope string_scope.
Local Open Scope Z_scope.
Local Open Scope rust_scope.

(** * The interface *)

Inductive apiE : Set -> Type :=
| Println (line : string) : apiE unit
| Spawn (service_entrypoint executable : string) : apiE (MResult ServiceProcess)
| Connect (target : string) (timeout_ms : Z) : apiE (MResult string)
| WithServiceProcess (sp : ServiceProcess) : apiE unit
| Start : apiE (MResult unit)
| Call (function : string) (args : list Value) : apiE (MResult Value)
| QueryPeerExists (peer : string) : apiE (MResult bool)
| Stop : apiE unit.

Abbreviation apiM A := (prog apiE A).

(** [services]: the services registered with the router, by peer id; [accept]:
    the outcome of connecting, with the caller's peer id. *)
Record ApiWorld : Type := mkApiWorld {
  printed : list string;
  services : string -> option (string -> list Value -> MResult Value);
  accept : MResult string;
  target : option string;
  api_slot : option ServiceProcess;
  api_procs : Procs;
  api_host : Host;
  api_env : Env;
}.

Definition set_api (out : list string) (t : option string) (sp : option ServiceProcess)
    (ps : Procs) (w : ApiWorld) : ApiWorld :=
  mkApiWorld out (services w) (accept w) t sp ps (api_host w) (api_env w).

Definition api_op (X : Set) (e : apiE X) (w : ApiWorld) : X * ApiWorld :=
  match e in apiE X return X * ApiWorld with
  | Println l => (tt, set_api (printed w ++ [l]) (target w) (api_slot w) (api_procs w) w)
  | Spawn entry exe =>
      let '(r, ps) := spawn (api_host w) (api_env w) entry exe (api_procs w) in
      (r, set_api (printed w) (target w) (api_slot w) ps w)
  | Connect t _ =>
      match accept w with
      | Ok id => (Ok id, set_api (printed w) (Some t) None (api_procs w) w)
      | Err e => (Err e, w)
      end
  | WithServiceProcess sp =>
      (tt, set_api (printed w) (target w) (Some sp) (api_procs w) w)
  | Start => (Ok tt, w)
  | Call f a =>
      (match target w ≫= services w with
       | Some service => service f a
       | None => Err (RouterUnavailable "call target not found")
       end, w)
  | QueryPeerExists p => (Ok (bool_decide (is_Some (services w p))), w)
  | Stop =>
      (tt, match api_slot w with
           | Some sp => set_api (printed w) (target w) None (stop sp (api_procs w)).2 w
           | None => w
           end)
  end.

Definition api {A} (p : apiM A) (w : ApiWorld) : A * ApiWorld := run api_op p w.

(** * The programs *)

Definition nl : string := String (Ascii.ascii_of_nat 10) "".

Section examples.
Context {SJ : SerdeJson}.
(** [serde_json::from_value] at the result types of the examples. *)
Context (from_i64 from_u64 : Value -> result Z string).

Definition call_as (from : Value -> result Z string) (f : string) (args : list Value) :
    apiM (MResult Z) :=
  r ←? perform (Call f args);
  Ret (map_err JsonError (from r)).

(** [parent.rs]. *)
Definition parent_main : apiM (MResult unit) :=
  _ ← perform (Println "Connecting to math-service...");
  _ ←? perform (Connect "math-service" 5000);
  _ ←? perform Start;
  _ ← perform (Println ("Calling remote functions..." +:+ nl));
  r ←? call_as from_i64 "add" [json_i64 10; json_i64 20];
  _ ← perform (Println ("add(10, 20) = " +:+ pretty r));
  r ←? call_as from_i64 "multiply" [json_i64 7; json_i64 8];
  _ ← perform (Println ("multiply(7, 8) = " +:+ pretty r));
  r ←? call_as from_u64 "factorial" [json_i64 5];
  _ ← perform (Println ("factorial(5) = " +:+ pretty r));
  r ←? call_as from_u64 "fibonacci" [json_i64 10];
  _ ← perform (Println ("fibonacci(10) = " +:+ pretty r));
  _ ← perform (Println (nl +:+ "Done!"));
  _ ← perform Stop;
  Ret (Ok tt).

(** The target and time limit [connect.rs] takes from its arguments. *)
Definition connect_target (args : list string) : string :=
  default "math-service" (flag_value args "--target").

Definition connect_timeout_ms (args : list string) : Z :=
  default 10000 (flag_value args "--timeout-ms" ≫= parse_uint (2 ^ 64 - 1)).

Definition bool_to_string (b : bool) : string := if b then "true" else "false".

(** [connect.rs]. *)
Definition connect_main (args : list string) : apiM (MResult unit) :=
  let t := connect_target args in
  _ ← perform (Println ("Connecting to " +:+ t +:+ "..."));
  id ←? perform (Connect t (connect_timeout_ms args));
  _ ← perform (Println ("Connected as " +:+ id +:+ " to default target " +:+ t +:+ nl));
  _ ←? perform Start;
  known ←? perform (QueryPeerExists t);
  _ ← perform (Println ("Router registry sees " +:+ t +:+ ": " +:+ bool_to_string known +:+ nl));
  _ ← perform (Println ("Calling remote functions..." +:+ nl));
  r ←? call_as from_i64 "add" [json_i64 10; json_i64 20];
  _ ← perform (Println ("add(10, 20) = " +:+ pretty r));
  r ←? call_as from_i64 "multiply" [json_i64 7; json_i64 8];
  _ ← perform (Println ("multiply(7, 8) = " +:+ pretty r));
  r ←? call_as from_i64 "factorial" [json_i64 5];
  _ ← perform (Println ("factorial(5) = " +:+ pretty r));
  _ ← perform (Println (nl +:+ "Done! Stopping connection..."));
  _ ← perform Stop;
  Ret (Ok tt).

Definition worker_path (current_dir : string) : string :=
  path_join (path_join (path_join (path_join current_dir "target") "debug") "examples") "math_worker".

(** [spawn.rs]. *)
Definition spawn_main (current_dir : string) : apiM (MResult unit) :=
  _ ← perform (Println "Spawning math worker...");
  let path := worker_path current_dir in
  sp ←? perform (Spawn path path);
  _ ←? perform (Connect path 10000);
  _ ← perform (WithServiceProcess sp);
  _ ←? perform Start;
  _ ← perform (Println ("Worker started!" +:+ nl));
  _ ← perform (Println ("Calling remote functions..." +:+ nl));
  r ←? call_as from_i64 "add" [json_i64 10; json_i64 20];
  _ ← perform (Println ("add(10, 20) = " +:+ pretty r));
  r ←? call_as from_i64 "multiply" [json_i64 7; json_i64 8];
  _ ← perform (Println ("multiply(7, 8) = " +:+ pretty r));
  r ←? call_as from_u64 "factorial" [json_i64 5];
  _ ← perform (Println ("factorial(5) = " +:+ pretty r));
  r ←? call_as from_u64 "fibonacci" [json_i64 10];
  _ ← perform (Println ("fibonacci(10) = " +:+ pretty r));
  _ ← perform (Println (nl +:+ "Done! Stopping worker..."));
  _ ← perform Stop;
  Ret (Ok tt).

(** * Properties *)

(** The plain worker as its caller sees it; a call on which it panics is not
    answered and times out. *)
Definition math_remote (checks : bool) (label : string) (f : string) (a : list Value) :
    MResult Value :=
  match (math_handle_call checks label f a).2 with
  | Some (Ok x) => Ok x
  | Some (Err e) => Err (RemoteCallError (MultifrostError_display e))
  | None => Err TimeoutError
  end.

Context {SJL : SerdeJsonLaws SJ}.
Context (Hi64 : forall z, i64_fits z = true -> from_i64 (json_i64 z) = Ok z).
Context (Hi64u : forall z, 0 <= z < 2 ^ 63 -> from_i64 (json_u64 z) = Ok z).
Context (Hu64 : forall z, u64_fits z = true -> from_u64 (json_u64 z) = Ok z).

Lemma math_answers checks label :
  math_remote checks label "add" [json_i64 10; json_i64 20] = Ok (json_i64 30) /\
  math_remote checks label "multiply" [json_i64 7; json_i64 8] = Ok (json_i64 56) /\
  math_remote checks label "factorial" [json_i64 5] = Ok (json_u64 120) /\
  math_remote checks label "fibonacci" [json_i64 10] = Ok (json_u64 55).
Proof.
  unfold math_remote, math_handle_call, call_add, call_multiply, call_factorial, call_fibonacci, arg.
  cbn [snd String.eqb Ascii.eqb Bool.eqb]. cbn [lookup list_lookup mbind option_bind].
  rewrite !as_i64_json, !as_u64_json_i64 by (done || lia). cbn [ok_or ptry].
  replace (product_to checks 5) with (Some 120) by (by destruct checks).
  done.
Qed.

(** The lines every example prints for its calls. *)
Definition call_lines : list string :=
  ["add(10, 20) = 30"; "multiply(7, 8) = 56"; "factorial(5) = 120"; "fibonacci(10) = 55"].

(** The spawning example from start to end.  If the worker can be spawned
    and the connection is accepted, then: when the worker is registered under
    its path by the time of the first call, the example prints the four right
    results, succeeds, and leaves the worker stopped; when it is not registered
    yet, the first call fails, the example returns that error, and the worker
    it spawned is still running, unsignalled: nothing stops the process of a
    connection that is dropped. *)
Theorem spawn_example_outcome (checks : bool) (label dir id : string) (p : Z) (w : ApiWorld)
    (Hspawn : forall c, spawn_answer (api_procs w) c = Ok p) (Haccept : accept w = Ok id) :
  let (r, w') := api (spawn_main dir) w in
  match services w (worker_path dir) with
  | None =>
      r = Err (RouterUnavailable "call target not found") /\
      p ∈ running (api_procs w') /\ signals (api_procs w') = signals (api_procs w)
  | Some service =>
      service = math_remote checks label ->
      r = Ok tt /\ p ∉ running (api_procs w') /\
      signals (api_procs w') = p :: signals (api_procs w) /\
      printed w' = (printed w ++
        ["Spawning math worker..."; "Worker started!" +:+ nl; "Calling remote functions..." +:+ nl]
        ++ call_lines ++ [nl +:+ "Done! Stopping worker..."])%list
  end.
Proof.
  destruct (math_answers checks label) as (H1 & H2 & H3 & H4).
  destruct (services w (worker_path dir)) as [service|] eqn:Hs.
  - destruct (api (spawn_main dir) w) as [r w'] eqn:E. intros ->. revert E.
    unfold api, spawn_main. cbn. unfold spawn, spawn_with_options, spawn_service_process, os_spawn.
    cbn. rewrite !Hspawn. cbn. rewrite Haccept. cbn. rewrite Hs. cbn. rewrite H1. cbn.
    rewrite Hi64 by done. cbn. rewrite Hs, H2. cbn. rewrite Hi64 by done. cbn.
    rewrite Hs, H3. cbn. rewrite Hu64 by done. cbn. rewrite Hs, H4. cbn. rewrite Hu64 by done.
    cbn. intros [= <- <-]. cbn. rewrite running_kill, signals_kill. cbn.
    split; [done|]. split; [set_solver|]. split; [done|]. by rewrite <- !app_assoc.
  - unfold api, spawn_main. cbn. unfold spawn, spawn_with_options, spawn_service_process, os_spawn.
    cbn. rewrite !Hspawn. cbn. rewrite Haccept. cbn. rewrite Hs. cbn.
    split; [done|]. split; [set_solver|done].
Qed.

(** The calling examples against a running service: [parent.rs] always calls
    "math-service", [connect.rs] the target of its arguments, and both print
    the right results. *)
Theorem calling_examples_outcome (checks : bool) (label id : string) (args : list string)
    (w : ApiWorld) (Haccept : accept w = Ok id)
    (Hparent : services w "math-service" = Some (math_remote checks label))
    (Hconnect : services w (connect_target args) = Some (math_remote checks label)) :
  (let (r, w') := api parent_main w in
   r = Ok tt /\ printed w' = (printed w ++
     ["Connecting to math-service..."; "Calling remote functions..." +:+ nl]
     ++ call_lines ++ [nl +:+ "Done!"])%list) /\
  (let (r, w') := api (connect_main args) w in
   r = Ok tt /\ printed w' = (printed w ++
     ["Connecting to " +:+ connect_target args +:+ "...";
      "Connected as " +:+ id +:+ " to default target " +:+ connect_target args +:+ nl;
      "Router registry sees " +:+ connect_target args +:+ ": true" +:+ nl;
      "Calling remote functions..." +:+ nl]
     ++ firstn 3 call_lines ++ [nl +:+ "Done! Stopping connection..."])%list).
Proof.
  destruct (math_answers checks label) as (H1 & H2 & H3 & H4). split.
  - unfold api, parent_main. cbn. rewrite Haccept. cbn. rewrite Hparent, H1. cbn.
    rewrite Hi64 by done. cbn. rewrite Hparent, H2. cbn. rewrite Hi64 by done. cbn.
    rewrite Hparent, H3. cbn. rewrite Hu64 by done. cbn. rewrite Hparent, H4. cbn.
    rewrite Hu64 by done. cbn. split; [done|]. by rewrite <- !app_assoc.
  - unfold api, connect_main. cbn -[connect_target]. rewrite Haccept. cbn -[connect_target].
    rewrite !Hconnect, H1. cbn -[connect_target]. rewrite Hi64 by done. cbn -[connect_target].
    rewrite !Hconnect, H2. cbn -[connect_target]. rewrite Hi64 by done. cbn -[connect_target].
    rewrite !Hconnect, H3. cbn -[connect_target]. rewrite Hi64u by lia. cbn -[connect_target].
    split; [done|]. by rewrite <- !app_assoc.
Qed.
End examples.

(** * Instances *)

Definition example_world (registered : bool) : ApiWorld :=
  mkApiWorld []
    (fun q => if registered && (q =? "/home/u/target/debug/examples/math_worker")%string
              then Some (math_remote true "spawn-mode") else None)
    (Ok "caller-1") None None sample_procs no_host no_env.

Definition from_any (x : Value) : result Z string :=
  match x with Num (PosInt z) | Num (NegInt z) => Ok z | _ => Err "not a number" end.

Lemma spawn_example_outcome_witness :
  (let (r, w') := api (spawn_main from_any from_any "/home/u") (example_world false) in
   r = Err (RouterUnavailable "call target not found") /\ 41 ∈ running (api_procs w') /\
   signals (api_procs w') = []) /\
  (let (r, w') := api (spawn_main from_any from_any "/home/u") (example_world true) in
   r = Ok tt /\ 41 ∉ running (api_procs w') /\ signals (api_procs w') = [41] /\
   printed w' = (["Spawning math worker..."; "Worker started!" +:+ nl;
                  "Calling remote functions..." +:+ nl]
                 ++ call_lines ++ [nl +:+ "Done! Stopping worker..."])%list).
Proof.
  assert (Hany : forall z, from_any (json_i64 z) = Ok z) by (intros z; cbn; by destruct (z <? 0)).
  split.
  - exact (spawn_example_outcome from_any from_any (fun z _ => Hany z) (fun z _ => eq_refl)
             (fun z _ => eq_refl) true "spawn-mode" "/home/u" "caller-1" 41 (example_world false)
             (fun _ => eq_refl) eq_refl).
  - pose proof (spawn_example_outcome from_any from_any (fun z _ => Hany z) (fun z _ => eq_refl)
      (fun z _ => eq_refl) true "spawn-mode" "/home/u" "caller-1" 41 (example_world true)
      (fun _ => eq_refl) eq_refl) as H.
    change (services (example_world true) (worker_path "/home/u"))
      with (Some (math_remote true "spawn-mode")) in H.
    revert H. generalize (api (spawn_main from_any from_any "/home/u") (example_world true)).
    intros [r w'] H. exact (H eq_refl).
Defined.
