(* ===== verification/TestKit.v ===== *)
(** The vocabulary of the crates' unit tests.

    The files [Tests...] translate the [#[cfg(test)]] modules of the sources,
    one definition per test, in the order of its statements.  A test runs to
    its end or panics, at a failed assertion or an [unwrap] of the wrong
    variant.  That the translated tests pass checks the model against what
    the authors expect of the code. *)

From S2P Require Import Prelude Float64.
From Stdlib Require Import SpecFloat.

Local Open Scope string_scope.

(** [None] is a panic. *)
Definition test (A : Type) : Type := option A.

Definition assert (b : bool) : test unit := if b then Some tt else None.
Definition assert_eq {A} `{EqDecision A} (x y : A) : test unit := assert (bool_decide (x = y)).

(** [==] on floats, which is not the equality of their bits. *)
Definition f64_eqb (x y : f64) : bool := SFeqb x y.
Definition assert_eq_f64 (x y : f64) : test unit := assert (f64_eqb x y).

(** [Option::unwrap], [Result::unwrap] and [Result::unwrap_err]. *)
Definition unwrap_opt {A} (o : option A) : test A := o.
Definition unwrap {A E} (r : result A E) : test A :=
  match r with Ok x => Some x | Err _ => None end.
Definition unwrap_err {A E} (r : result A E) : test E :=
  match r with Ok _ => None | Err e => Some e end.

(** [str::contains]. *)
Definition contains (s pat : string) : bool :=
  match String.index 0 pat s with Some _ => true | None => false end.

Declare Scope test_scope.
Delimit Scope test_scope with test.

Notation "'let!' x ':=' r 'in' k" := (mbind (M := option) (fun x => k) r)
  (at level 10, x pattern, r at level 100, k at level 200) : test_scope.
Notation "r ;;; k" := (mbind (M := option) (fun _ => k) r)
  (at level 100, k at level 200, right associativity) : test_scope.

(** A suite passes when every test of it runs to its end. *)
Definition passes (t : test unit) : bool := match t with Some _ => true | None => false end.
Definition suite_passes (l : list (test unit)) : bool := forallb passes l.
