(* ===== verification/TestsProtocol.v ===== *)
(** The unit tests of [router/src/server.rs], [router/src/protocol.rs],
    [rust/src/message.rs] and [rust/src/error.rs].

    A test that goes through a serializer is run on one that writes by the
    declarations of [Schema] (see [SchemaRef]), extended here with a reader of
    the [details] of an error, which the client's tests compare. *)

From S2P Require Import Prelude Float64 Wire RefCodec ClientRef Schema SchemaRef TestKit.
From S2P Require Protocol Server ClientMessage.
From Stdlib Require Import Strings.Byte.

Local Open Scope string_scope.
Local Open Scope Z_scope.
Local Open Scope test_scope.

(** * Equality of the compared values ([PartialEq]) *)

#[export] Instance Value_eq_dec : EqDecision Value.
Proof.
  refine (fun x y => match decide (value_to_tree x = value_to_tree y) with
                     | left E => left _ | right E => right _ end).
  - by rewrite <- (tree_to_of_value x), <- (tree_to_of_value y), E.
  - by intros ->.
Defined.

#[export] Instance WireValue_eq_dec : EqDecision WireValue.
Proof.
  change (forall x y : WireValue, Decision (x = y)). fix go 1. intros x y.
  assert (EqDecision WireValue) by exact go.
  unfold Decision. decide equality; apply decide; apply _.
Defined.

#[export] Instance ErrorBody_eq_dec : EqDecision ErrorBody.
Proof. solve_decision. Defined.
#[export] Instance CallBody_eq_dec : EqDecision CallBody.
Proof. solve_decision. Defined.
#[export] Instance ResponseBody_eq_dec : EqDecision ResponseBody.
Proof. solve_decision. Defined.

(** * Router: [server.rs] *)

Module RouterTests.
Import Protocol Server.

Definition is_malformed_register (e : RouterError) : bool :=
  match e with MalformedRegisterBody _ => true | _ => false end.
Definition is_deliver (d : RouteTargetDecision) : bool :=
  match d with Deliver => true | Reject _ _ => false end.
Definition is_reject (c : string) (d : RouteTargetDecision) : bool :=
  match d with Deliver => false | Reject c' _ => (c' =? c)%string end.

Definition validate_register_envelope_accepts_matching_router_registration : test unit :=
  let envelope := build_envelope KIND_REGISTER "msg-1" "peer-a" ROUTER_PEER_ID (F64.of_Z 1) in
  let register := mkRegisterBody "peer-a" Service in
  assert (is_ok (validate_register_envelope envelope register)).

Definition validate_register_envelope_rejects_wrong_target : test unit :=
  let envelope := build_envelope KIND_REGISTER "msg-1" "peer-a" "not-router" (F64.of_Z 1) in
  let register := mkRegisterBody "peer-a" Service in
  let! err := unwrap_err (validate_register_envelope envelope register) in
  assert (is_malformed_register err).

Definition validate_register_envelope_rejects_peer_id_mismatch : test unit :=
  let envelope := build_envelope KIND_REGISTER "msg-1" "peer-a" ROUTER_PEER_ID (F64.of_Z 1) in
  let register := mkRegisterBody "peer-b" Service in
  let! err := unwrap_err (validate_register_envelope envelope register) in
  assert (is_malformed_register err).

Definition decide_route_target_enforces_class_rules : test unit :=
  assert (is_deliver (decide_route_target KIND_CALL (Some Service))) ;;;
  assert (is_reject "invalid_target_class" (decide_route_target KIND_CALL (Some Caller))) ;;;
  assert (is_deliver (decide_route_target KIND_RESPONSE (Some Caller))) ;;;
  assert (is_reject "invalid_target_class" (decide_route_target KIND_RESPONSE (Some Service))) ;;;
  assert (is_reject "peer_not_found" (decide_route_target KIND_ERROR None)).

Definition build_envelope_sets_router_metadata : test unit :=
  let envelope := build_envelope KIND_ERROR "msg-9" "from-peer" "to-peer" (F64.literal 425 1) in
  assert_eq (v envelope) PROTOCOL_VERSION ;;;
  assert_eq (kind envelope) KIND_ERROR ;;;
  assert_eq (msg_id envelope) "msg-9" ;;;
  assert_eq (env_from envelope) "from-peer" ;;;
  assert_eq (env_to envelope) "to-peer" ;;;
  assert_eq_f64 (ts envelope) (F64.literal 425 1).

(** ** [protocol.rs] *)

Section protocol_tests.
Context {RC : RouterCodec}.

Definition frame_round_trip_preserves_body_bytes : test unit :=
  let e := mkEnvelope PROTOCOL_VERSION KIND_CALL "abc" "caller" "service"
             (F64.literal 17000000005 1) in
  let body := [x82; xa3; x66; x6f; x6f; x01] in
  let! encoded := unwrap (encode_frame e body) in
  let! decoded := unwrap (decode_frame encoded) in
  assert_eq (envelope decoded) e ;;;
  assert_eq (body_bytes decoded) body.

Definition register_body_round_trip : test unit :=
  let body := mkRegisterBody "peer" Service in
  let! bytes := unwrap (encode_register_body body) in
  let! decoded := unwrap (decode_register_body bytes) in
  assert_eq decoded body.
End protocol_tests.
End RouterTests.

(** * Client: [message.rs] *)

Module ClientTests.
Import ClientMessage.

Definition is_malformed_frame (e : MultifrostError) : bool :=
  match e with MalformedFrame _ => true | _ => false end.
Definition is_invalid_protocol_key (e : MultifrostError) : bool :=
  match e with InvalidProtocolKey _ => true | _ => false end.
Definition is_binary (m : Message) : bool := match m with Binary _ => true | _ => false end.

Section message_tests.
Context {CC : ClientCodec}.

Definition frame_round_trip_preserves_body_bytes : test unit :=
  let e := mkEnvelope PROTOCOL_VERSION KIND_CALL "abc" "caller" "service"
             (F64.literal 17000000005 1) in
  let body := [x82; xa3; x66; x6f; x6f; x01] in
  let! encoded := unwrap (encode_frame e body) in
  let! decoded := unwrap (decode_frame encoded) in
  assert_eq (envelope decoded) e ;;;
  assert_eq (body_bytes decoded) body.

Definition frame_decode_rejects_short_input : test unit :=
  let! err := unwrap_err (decode_frame [x00; x00; x00]) in
  assert (is_malformed_frame err).

Definition frame_decode_rejects_truncated_envelope : test unit :=
  let! err := unwrap_err (decode_frame [x00; x00; x00; x10; x01]) in
  assert (is_malformed_frame err).

Definition envelope_decode_rejects_version_mismatch : test unit :=
  let e := mkEnvelope (PROTOCOL_VERSION + 1) KIND_CALL "abc" "caller" "service"
             (F64.literal 17000000005 1) in
  let! bytes := unwrap (encode_envelope e) in
  let! err := unwrap_err (decode_envelope bytes) in
  assert (is_invalid_protocol_key err).

Definition validate_protocol_key_accepts_and_rejects : test unit :=
  assert (is_ok (validate_protocol_key PROTOCOL_KEY)) ;;;
  assert (match validate_protocol_key "not-the-key" with
          | Err e => is_invalid_protocol_key e | Ok _ => false end).

Definition binary_message_wraps_bytes : test unit :=
  let message := binary_message [x01; x02; x03] in
  assert (is_binary message).

Definition register_ack_round_trip : test unit :=
  let body := mkRegisterAckBody true None in
  let! bytes := unwrap (encode_register_ack_body body) in
  let! decoded := unwrap (decode_register_ack_body bytes) in
  assert_eq decoded body.

Definition query_response_round_trips : test unit :=
  let exists_ := mkQueryExists "service" true (Some Service) true in
  let! exists_bytes := unwrap (encode_query_exists_response exists_) in
  let! decoded := unwrap (decode_query_exists_response exists_bytes) in
  assert_eq decoded exists_ ;;;
  let get := mkQueryGet "service" true (Some Service) true in
  let! get_bytes := unwrap (encode_query_get_response get) in
  let! decoded := unwrap (decode_query_get_response get_bytes) in
  assert_eq decoded get.

Definition register_body_round_trip : test unit :=
  let body := mkRegisterBody "peer" Service in
  let! bytes := unwrap (encode_register_body body) in
  let! decoded := unwrap (decode_register_body bytes) in
  assert_eq decoded body.

Definition query_body_round_trip : test unit :=
  let body := PeerExists "peer" in
  let! bytes := unwrap (encode_query_body body) in
  let! decoded := unwrap (decode_query_body bytes) in
  assert_eq decoded body.

Definition call_and_response_and_error_bodies_round_trip : test unit :=
  let call := mkCallBody "add" [Num (PosInt 10); Num (PosInt 20)] (Some "default") in
  let! call_bytes := unwrap (encode_call_body call) in
  let! decoded := unwrap (decode_call_body call_bytes) in
  assert_eq decoded call ;;;
  let response := mkResponseBody (Num (PosInt 30)) in
  let! response_bytes := unwrap (encode_response_body response) in
  let! decoded := unwrap (decode_response_body response_bytes) in
  assert_eq decoded response ;;;
  let error := mkErrorBody "boom" "boom" "application" (Some "stack") (Some (WInt 1)) in
  let! error_bytes := unwrap (encode_error_body error) in
  let! decoded := unwrap (decode_error_body error_bytes) in
  assert_eq decoded error.

Definition wire_value_round_trip_preserves_nested_lists {WS : RmpSerde WireValue} : test unit :=
  let value := WArray [WBool true; WText "ok"; WInt 3] in
  let! bytes := unwrap (to_vec_named value) in
  let! decoded := unwrap (from_slice bytes) in
  assert_eq decoded value.
End message_tests.

(** [fresh i] are the ids that [new_msg_id] draws, [now i] the readings of
    [now_ts]. *)
Definition envelope_builders_use_expected_fields (fresh : nat -> string) (now : nat -> f64) :
    test unit :=
  let register := build_register_envelope "caller-1" Caller (fresh 0%nat) (now 0%nat) in
  assert_eq (v register) PROTOCOL_VERSION ;;;
  assert_eq (kind register) KIND_REGISTER ;;;
  assert_eq (env_from register) "caller-1" ;;;
  assert_eq (env_to register) ROUTER_PEER_ID ;;;
  let query := build_query_envelope "caller-1" "router" (fresh 1%nat) (now 1%nat) in
  assert_eq (kind query) KIND_QUERY ;;;
  assert_eq (env_to query) "router" ;;;
  let call := build_call_envelope "caller-1" "service-1" (fresh 2%nat) (now 2%nat) in
  assert_eq (kind call) KIND_CALL ;;;
  assert_eq (env_to call) "service-1" ;;;
  let response := build_response_envelope "service-1" "caller-1" "msg-1" (now 3%nat) in
  assert_eq (kind response) KIND_RESPONSE ;;;
  assert_eq (msg_id response) "msg-1" ;;;
  let error := build_error_envelope "router" "caller-1" "msg-2" (now 4%nat) in
  assert_eq (kind error) KIND_ERROR ;;;
  assert_eq (env_to error) "caller-1" ;;;
  let disconnect := build_disconnect_envelope "caller-1" "router" "msg-3" (now 5%nat) in
  assert_eq (kind disconnect) KIND_DISCONNECT ;;;
  assert_eq (msg_id disconnect) "msg-3".

(** ** [error.rs] *)

Definition displays_router_unavailable : test unit :=
  let err := RouterUnavailable "ws://127.0.0.1:9981" in
  assert (contains (MultifrostError_display err) "Router unavailable").

Definition displays_register_rejected : test unit :=
  let err := RegisterRejected "duplicate peer_id" in
  assert (contains (MultifrostError_display err) "Register rejected").

Definition displays_invalid_target_class : test unit :=
  let err := InvalidTargetClass "caller" in
  assert (contains (MultifrostError_display err) "Invalid target class").
End ClientTests.

(** * The tests pass *)

(** A reader of untagged values other than maps, which are not told from
    arrays. *)
Fixpoint read_wire_value (t : Tree) : WireValue :=
  match t with
  | TNil => WNil
  | TBool b => WBool b
  | TInt z => if z <? 2 ^ 63 then WInt z else WUInt z
  | TFloat x => WFloat x
  | TStr s => WText s
  | TBin b => WBinary b
  | TSeq l => WArray (map read_wire_value l)
  | TMap _ => WNil
  end.

Definition read_error_with_details (t : Tree) : option ErrorBody :=
  match read_error t with
  | Some e => Some (mkErrorBody (code e) (message e) (err_kind e) (stack e)
                     (read_wire_value <$> field "details" t))
  | None => None
  end.

Definition test_client_codec : ClientMessage.ClientCodec := {|
  ClientMessage.cc_envelope := @ClientMessage.cc_envelope schema_client_codec;
  ClientMessage.cc_register := @ClientMessage.cc_register schema_client_codec;
  ClientMessage.cc_ack := @ClientMessage.cc_ack schema_client_codec;
  ClientMessage.cc_query := @ClientMessage.cc_query schema_client_codec;
  ClientMessage.cc_exists := @ClientMessage.cc_exists schema_client_codec;
  ClientMessage.cc_get := @ClientMessage.cc_get schema_client_codec;
  ClientMessage.cc_call := @ClientMessage.cc_call schema_client_codec;
  ClientMessage.cc_response := @ClientMessage.cc_response schema_client_codec;
  ClientMessage.cc_error := tree_serde ClientSchema.error_body read_error_with_details;
  ClientMessage.message_debug := @ClientMessage.message_debug schema_client_codec |}.

Definition test_wire_serde : RmpSerde WireValue :=
  tree_serde ClientSchema.wire_value (fun t => Some (read_wire_value t)).

Lemma router_tests_pass :
  suite_passes
    [RouterTests.validate_register_envelope_accepts_matching_router_registration;
     RouterTests.validate_register_envelope_rejects_wrong_target;
     RouterTests.validate_register_envelope_rejects_peer_id_mismatch;
     RouterTests.decide_route_target_enforces_class_rules;
     RouterTests.build_envelope_sets_router_metadata;
     RouterTests.frame_round_trip_preserves_body_bytes (RC := schema_router_codec);
     RouterTests.register_body_round_trip (RC := schema_router_codec)].
Proof. vm_compute. done. Qed.

Lemma message_tests_pass (CC := test_client_codec) (WS := test_wire_serde) :
  suite_passes
    [ClientTests.frame_round_trip_preserves_body_bytes;
     ClientTests.frame_decode_rejects_short_input;
     ClientTests.frame_decode_rejects_truncated_envelope;
     ClientTests.envelope_decode_rejects_version_mismatch;
     ClientTests.validate_protocol_key_accepts_and_rejects;
     ClientTests.binary_message_wraps_bytes;
     ClientTests.register_ack_round_trip;
     ClientTests.query_response_round_trips;
     ClientTests.register_body_round_trip;
     ClientTests.query_body_round_trip;
     ClientTests.call_and_response_and_error_bodies_round_trip;
     ClientTests.wire_value_round_trip_preserves_nested_lists;
     ClientTests.displays_router_unavailable;
     ClientTests.displays_register_rejected;
     ClientTests.displays_invalid_target_class].
Proof. vm_compute. done. Qed.

(** Whatever ids and times are drawn. *)
Lemma envelope_builder_test_passes fresh now :
  passes (ClientTests.envelope_builders_use_expected_fields fresh now).
Proof. vm_compute. done. Qed.

