(* ===== verification/TestsMetrics.v ===== *)
(** The unit tests of [rust/src/metrics.rs].

    A test that measures time is a function of the clock readings it takes:
    of [Instant] in nanoseconds, and of [SystemTime] in [stamp]. *)

From S2P Require Import Prelude Float64 Metrics TestKit.

Local Open Scope string_scope.
Local Open Scope Z_scope.
Local Open Scope test_scope.

Definition ms (z : Z) : f64 := F64.of_Z z.
Definition gt (x y : f64) : bool := F64.ltb y x.
Definition ge (x y : f64) : bool := F64.leb y x.

(** [-] and [abs] on floats. *)
Definition sub (x y : f64) : f64 := SpecFloat.SFsub F64.prec F64.emax x y.
Definition abs (x : f64) : f64 := SpecFloat.SFabs x.

(** One request of a loop: [start_request], then [end_request]. *)
Definition request (reading : Z * Z) (m : MetricsInner) : MetricsInner :=
  let m := start_request m in
  (end_request reading.1 reading.2 true m).2.

Definition test_metrics_creation (stamp : Z) : test unit :=
  let metrics := new in
  let! s := snapshot stamp metrics in
  assert_eq (s_requests_total s) 0 ;;;
  assert_eq (s_requests_success s) 0 ;;;
  assert_eq (s_requests_failed s) 0 ;;;
  assert_eq_f64 (latency_avg_ms s) F64.zero ;;;
  assert_eq (s_queue_depth s) 0.

Definition test_metrics_creation_with_options (stamp : Z) : test unit :=
  let metrics := with_options 100 (F64.of_Z 30) in
  let! s := snapshot stamp metrics in
  assert_eq_f64 (s_window_seconds s) (F64.of_Z 30) ;;;
  assert_eq (s_requests_total s) 0.

(** The test sleeps ten milliseconds between [start] and [now]. *)
Definition test_record_request_success (start now stamp : Z) : test unit :=
  let metrics := start_request new in
  let '(latency, metrics) := end_request start now true metrics in
  let! s := snapshot stamp metrics in
  assert_eq (s_requests_total s) 1 ;;;
  assert_eq (s_requests_success s) 1 ;;;
  assert_eq (s_requests_failed s) 0 ;;;
  assert (ge latency (ms 10)) ;;;
  assert (gt (latency_avg_ms s) F64.zero).

Definition test_record_request_failure (start now stamp : Z) : test unit :=
  let metrics := start_request new in
  let '(latency, metrics) := end_request start now false metrics in
  let! s := snapshot stamp metrics in
  assert_eq (s_requests_total s) 1 ;;;
  assert_eq (s_requests_success s) 0 ;;;
  assert_eq (s_requests_failed s) 1 ;;;
  assert (ge latency F64.zero).

(** [readings] are those of the hundred rounds; the [i]th sleeps [i]
    milliseconds. *)
Definition test_latency_percentiles (readings : list (Z * Z)) (stamp : Z) : test unit :=
  let metrics := foldl (fun m r => request r m) new readings in
  let! s := snapshot stamp metrics in
  assert_eq (s_requests_total s) 100 ;;;
  assert (gt (latency_p50_ms s) F64.zero) ;;;
  assert (gt (latency_p95_ms s) (latency_p50_ms s)) ;;;
  assert (ge (latency_p99_ms s) (latency_p95_ms s)) ;;;
  assert (F64.leb (latency_min_ms s) (latency_p50_ms s)) ;;;
  assert (ge (latency_max_ms s) (latency_p99_ms s)).

Definition test_circuit_breaker_tracking (stamp : Z) : test unit :=
  let metrics := record_circuit_breaker_trip new in
  let! s := snapshot stamp metrics in
  assert_eq (s_circuit_breaker_trips s) 1 ;;;
  assert_eq (s_circuit_breaker_state s) "open" ;;;
  let metrics := record_circuit_breaker_reset metrics in
  let! s := snapshot stamp metrics in
  assert_eq (s_circuit_breaker_state s) "closed" ;;;
  let metrics := record_circuit_breaker_half_open metrics in
  let! s := snapshot stamp metrics in
  assert_eq (s_circuit_breaker_state s) "half-open".

Definition test_queue_depth_tracking (start1 now stamp : Z) : test unit :=
  let metrics := start_request new in
  let metrics := start_request metrics in
  let metrics := start_request metrics in
  let! s := snapshot stamp metrics in
  assert_eq (s_queue_depth s) 3 ;;;
  assert_eq (s_queue_max_depth s) 3 ;;;
  let metrics := (end_request start1 now true metrics).2 in
  let! s := snapshot stamp metrics in
  assert_eq (s_queue_depth s) 2 ;;;
  assert_eq (s_queue_max_depth s) 3.

Definition test_heartbeat_rtt_tracking (stamp : Z) : test unit :=
  let metrics := record_heartbeat_rtt (F64.literal 105 1) new in
  let metrics := record_heartbeat_rtt (F64.literal 152 1) metrics in
  let metrics := record_heartbeat_rtt (F64.literal 128 1) metrics in
  let! s := snapshot stamp metrics in
  assert_eq_f64 (heartbeat_rtt_last_ms s) (F64.literal 128 1) ;;;
  assert (F64.ltb (abs (sub (heartbeat_rtt_avg_ms s) (F64.literal 1283 2))) (F64.literal 1 1)).

Definition test_heartbeat_miss_tracking (stamp : Z) : test unit :=
  let metrics := record_heartbeat_miss new in
  let metrics := record_heartbeat_miss metrics in
  let metrics := record_heartbeat_miss metrics in
  let! s := snapshot stamp metrics in
  assert_eq (s_heartbeat_misses s) 3.

Definition test_metrics_snapshot (start now stamp : Z) : test unit :=
  let metrics := request (start, now) new in
  let! s := snapshot stamp metrics in
  assert (gt (s_timestamp s) F64.zero) ;;;
  assert_eq (s_requests_total s) 1 ;;;
  assert_eq (s_requests_success s) 1 ;;;
  assert_eq (s_requests_failed s) 0.

Definition test_metrics_reset (start now stamp : Z) : test unit :=
  let metrics := request (start, now) new in
  let metrics := record_circuit_breaker_trip metrics in
  let metrics := record_heartbeat_rtt (ms 10) metrics in
  let metrics := record_heartbeat_miss metrics in
  let metrics := reset metrics in
  let! s := snapshot stamp metrics in
  assert_eq (s_requests_total s) 0 ;;;
  assert_eq (s_requests_success s) 0 ;;;
  assert_eq (s_requests_failed s) 0 ;;;
  assert_eq (s_circuit_breaker_trips s) 0 ;;;
  assert_eq (s_circuit_breaker_state s) "closed" ;;;
  assert_eq (s_queue_depth s) 0 ;;;
  assert_eq (s_queue_max_depth s) 0 ;;;
  assert_eq (s_heartbeat_misses s) 0 ;;;
  assert_eq_f64 (latency_avg_ms s) F64.zero ;;;
  assert_eq_f64 (heartbeat_rtt_avg_ms s) F64.zero.

Definition test_metrics_default (stamp : Z) : test unit :=
  let metrics := Metrics_default in
  let! s := snapshot stamp metrics in
  assert_eq (s_requests_total s) 0.

(** A clone shares the state behind the lock: both collectors are this state. *)
Definition test_metrics_clone (start now stamp1 stamp2 : Z) : test unit :=
  let shared := request (start, now) new in
  let! snapshot1 := snapshot stamp1 shared in
  let! snapshot2 := snapshot stamp2 shared in
  assert_eq (s_requests_total snapshot1) (s_requests_total snapshot2).

Definition test_latency_circular_buffer (readings : list (Z * Z)) (stamp : Z) : test unit :=
  let metrics := foldl (fun m r => request r m) (with_options 5 (F64.of_Z 60)) readings in
  let! s := snapshot stamp metrics in
  assert_eq (s_requests_total s) 10 ;;;
  assert (gt (latency_avg_ms s) F64.zero).

Definition test_heartbeat_rtt_circular_buffer (stamp : Z) : test unit :=
  let metrics := foldl (fun m i => record_heartbeat_rtt (usize_as_f64 i) m) new (seq 0 150) in
  let! s := snapshot stamp metrics in
  assert_eq_f64 (heartbeat_rtt_last_ms s) (ms 149) ;;;
  assert (gt (heartbeat_rtt_avg_ms s) F64.zero).

Definition test_empty_latency_percentiles (stamp : Z) : test unit :=
  let metrics := new in
  let! s := snapshot stamp metrics in
  assert_eq_f64 (latency_avg_ms s) F64.zero ;;;
  assert_eq_f64 (latency_p50_ms s) F64.zero ;;;
  assert_eq_f64 (latency_p95_ms s) F64.zero ;;;
  assert_eq_f64 (latency_p99_ms s) F64.zero ;;;
  assert_eq_f64 (latency_min_ms s) F64.zero ;;;
  assert_eq_f64 (latency_max_ms s) F64.zero.

Definition test_empty_heartbeat_rtt (stamp : Z) : test unit :=
  let metrics := new in
  let! s := snapshot stamp metrics in
  assert_eq_f64 (heartbeat_rtt_avg_ms s) F64.zero ;;;
  assert_eq_f64 (heartbeat_rtt_last_ms s) F64.zero.

(** The ten tasks update the shared collector in the order of [schedule]. *)
Definition task (reading : Z * Z) : list MetricsOp :=
  [StartRequest; EndRequest reading.1 reading.2 true].

Definition test_concurrent_requests (schedule : list MetricsOp) (stamp : Z) : test unit :=
  let metrics := run_ops schedule new in
  let! s := snapshot stamp metrics in
  assert_eq (s_requests_total s) 10 ;;;
  assert_eq (s_requests_success s) 10.

(** * The tests pass *)

(** A clock that advances by [tick] between two readings, and a sleep of the
    given milliseconds in each round. *)
Definition clock (tick : Z) (sleeps : list Z) : list (Z * Z) :=
  map (fun s => (0, from_millis s + tick)) sleeps.

Lemma metrics_tests_pass :
  let stamp := from_secs 1700000000 in
  suite_passes
    [test_metrics_creation stamp; test_metrics_creation_with_options stamp;
     test_record_request_success 5 10000042 stamp; test_record_request_failure 5 6 stamp;
     test_latency_percentiles (clock 50000 (Z.of_nat <$> seq 0 100)) stamp;
     test_circuit_breaker_tracking stamp; test_queue_depth_tracking 5 6 stamp;
     test_heartbeat_rtt_tracking stamp; test_heartbeat_miss_tracking stamp;
     test_metrics_snapshot 5 6 stamp; test_metrics_reset 5 6 stamp; test_metrics_default stamp;
     test_metrics_clone 5 6 stamp (stamp + 1);
     test_latency_circular_buffer (clock 40 (replicate 10 0)) stamp;
     test_heartbeat_rtt_circular_buffer stamp; test_empty_latency_percentiles stamp;
     test_empty_heartbeat_rtt stamp].
Proof. vm_compute. done. Qed.

(** The circular-buffer test has no sleep: on a clock too coarse to see a
    request pass, it fails although the collector is right. *)
Lemma circular_buffer_test_needs_a_fine_clock :
  passes (test_latency_circular_buffer (clock 0 (replicate 10 0)) (from_secs 1)) = false.
Proof. vm_compute. done. Qed.

(** ** The concurrent test, under every schedule *)

Definition only_requests (o : MetricsOp) : bool :=
  match o with StartRequest | EndRequest _ _ true => true | _ => false end.
Definition starts (o : MetricsOp) : bool := match o with StartRequest => true | _ => false end.
Definition sample_of (o : MetricsOp) : option f64 :=
  match o with EndRequest s n _ => Some (latency_of s n) | _ => None end.

Lemma recorded_requests l r :
  forallb only_requests l = true ->
  let r' := foldl record_op r l in
  r_started r' = r_started r + Z.of_nat (length (List.filter starts l)) /\
  r_succeeded r' = r_succeeded r + Z.of_nat (length (omap sample_of l)) /\
  r_latencies r' = (r_latencies r ++ omap sample_of l)%list.
Proof.
  revert r. induction l as [|o l IH]; intros r Hl; simpl in *.
  - rewrite app_nil_r, !Z.add_0_r. done.
  - apply andb_prop in Hl as [Ho Hl]. destruct (IH (record_op r o) Hl) as (-> & -> & ->).
    destruct o as [|s n []| | | | | |]; try done; csimpl; rewrite <- ?app_assoc; simpl;
      (split; [lia|split; [lia|done]]).
Qed.

Lemma filter_length_perm {A} (f : A -> bool) l k :
  Permutation l k -> length (List.filter f l) = length (List.filter f k).
Proof.
  induction 1 as [|x l k _ IH|x y l|l k j _ IH1 _ IH2]; simpl; try congruence.
  - destruct (f x); simpl; congruence.
  - by destruct (f x), (f y).
Qed.

(** [schedule] is an interleaving of the tasks; their order is not even
    needed. *)
Lemma concurrent_test_passes readings schedule stamp :
  length readings = 10%nat ->
  Forall (fun r => F64.is_nan (latency_of r.1 r.2) = false) readings ->
  Permutation schedule (concat (task <$> readings)) ->
  passes (test_concurrent_requests schedule stamp).
Proof.
  intros Hlen Hnan Hperm.
  assert (Honly : forallb only_requests schedule = true).
  { apply forallb_forall. intros o Ho. apply (Permutation_in _ Hperm) in Ho.
    apply in_concat in Ho as (x & Hx & Ho). apply in_map_iff in Hx as (r & <- & _).
    by destruct Ho as [<-|[<-|[]]]. }
  assert (Hs : length (List.filter starts schedule) = 10%nat).
  { rewrite (filter_length_perm _ _ _ Hperm). clear -Hlen.
    do 10 (destruct readings as [|? readings]; [done|]). by destruct readings. }
  assert (Ho : Permutation (omap sample_of schedule) ((fun r => latency_of r.1 r.2) <$> readings)).
  { rewrite Hperm. clear. induction readings as [|r l IH]; csimpl; [done|]. by rewrite IH. }
  destruct (recorded_requests schedule nothing_recorded Honly) as (H1 & H2 & H3).
  destruct (reflects_run schedule nothing_recorded new) as [R1 R2 _ _ _ R6 _]; [by split|].
  unfold test_concurrent_requests, snapshot.
  assert (Hlat : Forall (fun x => F64.is_nan x = false) (latencies (run_ops schedule new))).
  { rewrite R6, H3. unfold lastn. apply Forall_drop. simpl. rewrite Ho. by apply Forall_fmap. }
  destruct (sort_by_spec _ Hlat) as (l & -> & _). simpl.
  repeat match goal with |- context [let '_ := ?p in _] => destruct p end; simpl.
  assert (Hk : length (omap sample_of schedule) = 10%nat) by (by rewrite Ho, length_fmap).
  by rewrite R1, R2, H1, H2, Hs, Hk.
Qed.

(** One task after the other. *)
Lemma concurrent_test_passes_in_turn :
  passes (test_concurrent_requests
            (concat (task <$> replicate 10 (0, from_millis 10))) (from_secs 1)).
Proof. apply (concurrent_test_passes (replicate 10 (0, from_millis 10))); repeat constructor. Qed.
