(* ===== verification/TestsLogging.v ===== *)
(** The unit tests of [rust/src/logging.rs].

    The tests' handlers append to vectors they share with the test; here a
    handler is the number of its vector, and [captured] reads a vector off the
    entries that the log calls handed out.  [now] is [current_timestamp()],
    [to_string] and [from_str] are those of [serde_json]. *)

From S2P Require Import Prelude Float64 Wire Logging TestKit TestsProtocol.
From Stdlib Require Import Ascii.

Local Open Scope string_scope.
Local Open Scope Z_scope.
Local Open Scope test_scope.

Abbreviation call := (option (nat * LogEntry)).

(** What the handler [h] saw, in order. *)
Definition captured (h : nat) (calls : list call) : list LogEntry :=
  omap (fun c => match c with
                 | Some (h', e) => if (h' =? h)%nat then Some e else None
                 | None => None
                 end) calls.

(** [parsed[name]]. *)
Definition index_value (x : Value) (name : string) : Value :=
  match x with Object l => default Null (field name l) | _ => Null end.

Definition is_none {A} (o : option A) : bool := match o with None => true | Some _ => false end.

Definition test_log_level_display : test unit :=
  assert_eq (LogLevel_display Debug) "debug" ;;;
  assert_eq (LogLevel_display Info) "info" ;;;
  assert_eq (LogLevel_display Warn) "warn" ;;;
  assert_eq (LogLevel_display Error) "error".

Definition test_log_event_display : test unit :=
  assert_eq (LogEvent_display WorkerStart) "worker_start" ;;;
  assert_eq (LogEvent_display WorkerStop) "worker_stop" ;;;
  assert_eq (LogEvent_display RequestStart) "request_start" ;;;
  assert_eq (LogEvent_display CircuitOpen) "circuit_open".

Section tests.
Context (to_string : Value -> result string string) (from_str : string -> result Value string).
Context (fmt1 : f64 -> string) (now : f64) (secs : Z).

Definition test_log_entry_to_json : test unit :=
  let entry :=
    mkLogEntry "test_event" "info" "Test message" (F64.of_Z 1234567890)
      (Some "corr-123") (Some "req-456") None (Some "worker-1") None (Some "test_func") None
      (Some (F64.literal 1005 1)) (Some true) None None None None in
  let json := to_json to_string entry in
  assert (contains json "test_event") ;;;
  assert (contains json "Test message") ;;;
  assert (contains json "corr-123") ;;;
  assert (contains json "req-456").

Definition test_log_entry_default : test unit :=
  let entry := LogEntry_default in
  assert_eq (event entry) "" ;;;
  assert_eq (level entry) "" ;;;
  assert_eq (entry_message entry) "" ;;;
  assert_eq (correlation_id entry) None ;;;
  assert_eq (request_id entry) None.

(** Passes if it does not panic. *)
Definition test_logger_creation : test unit :=
  let logger : StructuredLogger (H := nat) := logger_new None Info (Some "worker-1") None in
  let _ := log_info logger now WorkerStart "Test" LogOptions_default in
  Some tt.

Definition test_logger_with_handler : test unit :=
  let logger := logger_new (Some 0%nat) Debug (Some "worker-1") None in
  let calls := [log_info logger now WorkerStart "Worker started" LogOptions_default] in
  let captured_logs := to_json to_string <$> captured 0 calls in
  assert_eq (length captured_logs) 1%nat ;;;
  let! first := captured_logs !! 0%nat in
  assert (contains first "worker_start") ;;;
  assert (contains first "Worker started").

Definition test_log_level_filtering : test unit :=
  let logger := logger_new (Some 0%nat) Warn (Some "worker-1") None in
  let calls :=
    [log_debug logger now WorkerStart "Debug message" LogOptions_default;
     log_info logger now WorkerStart "Info message" LogOptions_default;
     log_warn logger now CircuitOpen "Warn message" LogOptions_default;
     log_error logger now RequestError "Error message" LogOptions_default] in
  let captured_logs := to_json to_string <$> captured 0 calls in
  assert_eq (length captured_logs) 2%nat.

Definition test_log_level_ordering : test unit :=
  assert (level_as_u8 Debug <? level_as_u8 Info) ;;;
  assert (level_as_u8 Info <? level_as_u8 Warn) ;;;
  assert (level_as_u8 Warn <? level_as_u8 Error).

Definition test_set_handler : test unit :=
  let logger := logger_new (Some 1%nat) Debug (Some "worker-1") None in
  let call1 := log_info logger now WorkerStart "Test" LogOptions_default in
  let logger := set_handler 2%nat logger in
  let call2 := log_info logger now WorkerStart "Test" LogOptions_default in
  let logs1 := (fun _ => "handler1") <$> captured 1 [call1; call2] in
  let logs2 := (fun _ => "handler2") <$> captured 2 [call1; call2] in
  assert_eq (length logs1) 1%nat ;;;
  assert_eq (length logs2) 1%nat.

Definition test_set_context : test unit :=
  let logger := logger_new (Some 0%nat) Debug None None in
  let call1 := log_info logger now WorkerStart "Test" LogOptions_default in
  let logger := set_context (Some "worker-1") (Some "service-1") logger in
  let call2 := log_info logger now WorkerStart "Test" LogOptions_default in
  let captured_logs := to_json to_string <$> captured 0 [call1; call2] in
  assert_eq (length captured_logs) 2%nat ;;;
  let! first := captured_logs !! 0%nat in
  let! second := captured_logs !! 1%nat in
  assert (negb (contains first "worker-1")) ;;;
  assert (contains second "worker-1") ;;;
  assert (contains second "service-1").

Definition test_convenience_methods : test unit :=
  let logger := logger_new (Some 0%nat) Debug (Some "worker-1") None in
  let calls :=
    [request_start logger now "req-123" "add" "default" (Some "corr-456") None;
     request_end logger now "req-123" "add" (F64.literal 1005 1) true None None;
     circuit_open logger now 5; circuit_close logger now; worker_start logger now "spawn";
     worker_stop logger now "shutdown"; process_exit logger now 0; heartbeat_sent logger now;
     heartbeat_received fmt1 logger now (F64.literal 155 1); heartbeat_missed logger now 2 3;
     heartbeat_timeout logger now 3] in
  let captured_logs := to_json to_string <$> captured 0 calls in
  assert (10 <=? length captured_logs)%nat.

Definition test_log_options_default : test unit :=
  let options := LogOptions_default in
  assert (is_none (opt_correlation_id options)) ;;;
  assert (is_none (opt_request_id options)) ;;;
  assert (is_none (opt_function options)) ;;;
  assert (is_none (opt_namespace options)) ;;;
  assert (is_none (opt_duration_ms options)) ;;;
  assert (is_none (opt_success options)) ;;;
  assert (is_none (opt_error options)) ;;;
  assert (is_none (opt_error_type options)) ;;;
  assert (is_none (opt_metrics options)) ;;;
  assert (is_none (opt_metadata options)).

Definition test_log_options_with_fields : test unit :=
  let options :=
    mkLogOptions (Some "corr-123") (Some "req-456") (Some "parent-789") (Some "test_func")
      (Some "test_ns") (Some (F64.literal 1005 1)) (Some true) (Some "Test error")
      (Some "TestError") (Some (Object [("count", Num (PosInt 1))]))
      (Some (Object [("key", Str "value")])) in
  assert_eq (opt_correlation_id options) (Some "corr-123") ;;;
  assert_eq (opt_request_id options) (Some "req-456") ;;;
  assert_eq (opt_function options) (Some "test_func").

(** Passes if it does not panic. *)
Definition test_default_json_handler : test unit :=
  let entry :=
    mkLogEntry "test_event" "info" "Test message" (F64.of_Z 1234567890)
      None None None None None None None None None None None None None in
  let _ := default_json_handler to_string entry in
  Some tt.

(** Passes if it does not panic; [secs] is the time at which it prints. *)
Definition test_default_pretty_handler : test unit :=
  let entry :=
    mkLogEntry "test_event" "info" "Test message" (F64.of_Z 1234567890)
      None (Some "req-123") None None None (Some "test_func") None (Some (F64.literal 1005 1))
      None None None None None in
  let! _ := default_pretty_handler fmt1 secs entry in
  Some tt.

Definition test_log_entry_serialization : test unit :=
  let entry :=
    mkLogEntry "test_event" "info" "Test message" (F64.of_Z 1234567890)
      (Some "corr-123") (Some "req-456") (Some "parent-789") (Some "worker-1") (Some "service-1")
      (Some "test_func") (Some "test_ns") (Some (F64.literal 1005 1)) (Some true)
      (Some "Test error") (Some "TestError") (Some (Object [("count", Num (PosInt 1))]))
      (Some (Object [("key", Str "value")])) in
  let json := to_json to_string entry in
  let! parsed := unwrap (from_str json) in
  assert_eq (index_value parsed "event") (Str "test_event") ;;;
  assert_eq (index_value parsed "level") (Str "info") ;;;
  assert_eq (index_value parsed "message") (Str "Test message") ;;;
  assert_eq (index_value parsed "correlation_id") (Str "corr-123") ;;;
  assert_eq (index_value parsed "request_id") (Str "req-456") ;;;
  assert_eq (index_value parsed "worker_id") (Str "worker-1") ;;;
  assert_eq (index_value parsed "service_id") (Str "service-1") ;;;
  assert_eq (index_value parsed "function") (Str "test_func") ;;;
  assert_eq (index_value parsed "namespace") (Str "test_ns") ;;;
  assert_eq (index_value parsed "duration_ms") (f64_value (F64.literal 1005 1)) ;;;
  assert_eq (index_value parsed "success") (Bool true) ;;;
  assert_eq (index_value parsed "error") (Str "Test error") ;;;
  assert_eq (index_value parsed "error_type") (Str "TestError").

(** The handler would panic, but nothing is logged. *)
Definition test_handler_exception_handling : test unit :=
  let logger := logger_new (Some 0%nat) Debug (Some "worker-1") None in
  assert_eq (logger_worker_id logger) (Some "worker-1").

(** * The tests pass *)

(** The tests that do not look at the text of an entry pass with every
    serializer, clock and number format. *)
Lemma logging_tests_pass :
  suite_passes
    [test_log_level_display; test_log_event_display; test_log_entry_default;
     test_logger_creation; test_log_level_filtering; test_log_level_ordering;
     test_set_handler; test_convenience_methods; test_log_options_default;
     test_log_options_with_fields; test_default_json_handler; test_default_pretty_handler;
     test_handler_exception_handling].
Proof. vm_compute. done. Qed.

(** The serialization test passes with every [serde_json] that writes values
    as text it reads back. *)
Lemma serialization_test_passes :
  (forall x, exists s, to_string x = Ok s /\ from_str s = Ok x) ->
  passes test_log_entry_serialization.
Proof.
  intros Hjson. unfold test_log_entry_serialization, to_json.
  match goal with |- context [to_string ?x] => destruct (Hjson x) as (s & -> & Hs) end.
  rewrite Hs. vm_compute. done.
Qed.
End tests.

(** The remaining tests search the text for words, so they need one: this
    writer leaves out the escapes, which the words do not need, and the
    digits of floats. *)
Fixpoint write_json (x : Value) : string :=
  let quoted s := String (ascii_of_nat 34) (s +:+ String (ascii_of_nat 34) "") in
  match x with
  | Null => "null"
  | Bool b => if b then "true" else "false"
  | Num (PosInt z) | Num (NegInt z) => pretty z
  | Num (Float _) => "0.0"
  | Str s => quoted s
  | Array l => "[" +:+ String.concat "," (map write_json l) +:+ "]"
  | Object l =>
      "{" +:+ String.concat "," (map (fun '(k, x) => quoted k +:+ ":" +:+ write_json x) l) +:+ "}"
  end.

Lemma logging_text_tests_pass :
  let to_string x := Ok (write_json x) in
  suite_passes
    [test_log_entry_to_json to_string; test_logger_with_handler to_string F64.zero;
     test_set_context to_string F64.zero].
Proof. vm_compute. done. Qed.

(** With a [serde_json] that fails, an entry is the empty line and the search
    for its words fails: the tests do depend on the text. *)
Lemma logging_text_tests_need_text :
  passes (test_log_entry_to_json (fun _ => Err "failed")) = false.
Proof. vm_compute. done. Qed.
