(* ===== verification/TestsCallArgs.v ===== *)
(** The unit tests of [rust/src/call_macro.rs].  [serde_json]'s conversions
    between JSON values and [i64], [String], [bool] and [Vec<i32>] are written
    for the tests below. *)

From S2P Require Import Prelude Float64 Wire ClientMessage CallArgs TestKit TestsProtocol.

Local Open Scope string_scope.
Local Open Scope Z_scope.
Local Open Scope test_scope.

(** [json!] of a natural number. *)
Definition json_nat (z : Z) : Value := Num (PosInt z).

Section tests.
Context `{DeserializeOwned i64, DeserializeOwned string, DeserializeOwned bool}.
Context (vec_to_value : list (int true 32) -> result Value string).

Definition test_args_extractor_get : test unit :=
  let args := new [json_nat 10; json_nat 20] in
  let! a := unwrap (get (T := i64) args 0) in
  let! b := unwrap (get (T := i64) args 1) in
  assert_eq (int_val a) 10 ;;;
  assert_eq (int_val b) 20.

Definition test_args_extractor_take : test unit :=
  let args := new [json_nat 10; json_nat 20] in
  let! taken := take (T := i64) args 0 in
  let! a := unwrap taken in
  assert_eq (int_val a) 10 ;;;
  let args2 := new [json_nat 30; json_nat 40] in
  let! taken := take (T := i64) args2 1 in
  let! b := unwrap taken in
  assert_eq (int_val b) 40.

Definition test_args_extractor_missing : test unit :=
  let args := new [json_nat 10] in
  let result := get (T := i64) args 1 in
  assert (negb (is_ok result)).

Definition test_args_extractor_remaining_and_len : test unit :=
  let args := new [json_nat 1; json_nat 2; json_nat 3] in
  assert_eq (len args) 3%nat ;;;
  assert (negb (is_empty args)) ;;;
  assert_eq (remaining args) [json_nat 1; json_nat 2; json_nat 3].

Definition test_args_extractor_take_middle_value : test unit :=
  let args := new [json_nat 10; json_nat 20; json_nat 30] in
  let! taken := take (T := i64) args 1 in
  let! middle := unwrap taken in
  assert_eq (int_val middle) 20.

Definition test_to_json_arg_primitives : test unit :=
  assert_eq (to_json (Int 5 : i64)) (json_nat 5) ;;;
  assert_eq (to_json true) (Bool true) ;;;
  assert_eq (to_json "hello") (Str "hello") ;;;
  assert_eq (to_json (F64.literal 314 2)) (Num (Float (F64.literal 314 2))).

Definition test_to_json_arg_collections : test unit :=
  let values := [Int 1; Int 2; Int 3] in
  assert_eq (serialize_to_json vec_to_value values) (Array [json_nat 1; json_nat 2; json_nat 3]) ;;;
  assert_eq (serialize_to_json vec_to_value values) (Array [json_nat 1; json_nat 2; json_nat 3]).

Definition test_call_args_tuples : test unit :=
  let empty := tt in
  let result := to_json_args empty in
  assert_eq result [] ;;;
  let i (z : Z) : i64 := Int z in
  assert_eq (to_json_args (i 1, tt)) [json_nat 1] ;;;
  assert_eq (to_json_args (i 1, i 2)) [json_nat 1; json_nat 2] ;;;
  assert_eq (to_json_args (i 1, i 2, i 3)) [json_nat 1; json_nat 2; json_nat 3] ;;;
  assert_eq (to_json_args (i 1, i 2, i 3, i 4)) [json_nat 1; json_nat 2; json_nat 3; json_nat 4] ;;;
  assert_eq (to_json_args (i 1, i 2, i 3, i 4, i 5, i 6))
    [json_nat 1; json_nat 2; json_nat 3; json_nat 4; json_nat 5; json_nat 6].

Definition test_extract_args_type_conversion : test unit :=
  let args := new [json_nat 42; Str "hello"; Bool true] in
  let! a := unwrap (get (T := i64) args 0) in
  let! b := unwrap (get (T := string) args 1) in
  let! c := unwrap (get (T := bool) args 2) in
  assert_eq (int_val a) 42 ;;;
  assert_eq b "hello" ;;;
  assert_eq c true.

Definition test_extract_args_type_conversion_failure : test unit :=
  let args := new [Str "not-a-number"] in
  assert (negb (is_ok (get (T := i64) args 0))).
End tests.

(** * The tests pass *)

(** [serde_json] at the types of the tests. *)
#[export] Instance i64_from_value : DeserializeOwned i64 := fun x =>
  match x with
  | Num (PosInt z) => if z <? 2 ^ 63 then Ok (Int z) else Err "out of range"
  | Num (NegInt z) => Ok (Int z)
  | _ => Err "expected i64"
  end.
#[export] Instance string_from_value : DeserializeOwned string := fun x =>
  match x with Str s => Ok s | _ => Err "expected a string" end.
#[export] Instance bool_from_value : DeserializeOwned bool := fun x =>
  match x with Bool b => Ok b | _ => Err "expected a boolean" end.
Definition vec_i32_to_value (l : list (int true 32)) : result Value string :=
  Ok (Array (map to_json l)).

Lemma call_args_tests_pass :
  suite_passes
    [test_args_extractor_get; test_args_extractor_take; test_args_extractor_missing;
     test_args_extractor_remaining_and_len; test_args_extractor_take_middle_value;
     test_to_json_arg_primitives; test_to_json_arg_collections vec_i32_to_value;
     test_call_args_tuples; test_extract_args_type_conversion;
     test_extract_args_type_conversion_failure].
Proof. vm_compute. done. Qed.
