(* ===== verification/LockFile.v ===== *)
(** The text of the lock file: [LockFileData] of [rust/src/router_bootstrap.rs]
    with its derived [Serialize] and [Deserialize].

    [Bootstrap] is parametric in the JSON form of the lock file ([LockJson]).
    Here the derived code is written out on JSON values, so that what is left
    to [serde_json] is the text of a value ([JsonText]); the instance
    [lock_json] is the [LockJson] of the program. *)

From S2P Require Import Prelude Prog Float64 Wire Config ClientMessage Bootstrap BootstrapSpec.
From S2P Require Import Logging.

Local Open Scope string_scope.
Local Open Scope Z_scope.

(** * The derived code *)

Definition U32_MAX : Z := 4294967295.

(** [derive(Serialize)], in field order; [skip_serializing_if] leaves an
    absent [router_pid] out. *)
Definition lock_fields (d : LockFileData) : list (string * Value) :=
  ([("format", Str (format d)); ("pid", Num (PosInt (pid d)))]
   ++ optional "router_pid" (fun p => Num (PosInt p)) (router_pid d)
   ++ [("port", Num (PosInt (lock_port d))); ("created_at_unix", f64_value (created_at_unix d));
       ("expires_at_unix", f64_value (expires_at_unix d)); ("status", Str (status d));
       ("language", Str (language d))])%list.

Definition lock_value (d : LockFileData) : Value := Object (lock_fields d).

(** Deserialization of the field types: a [String], an unsigned integer up to
    [max], an [f64], an [Option]. *)
Definition read_string (x : Value) : option string :=
  match x with Str s => Some s | _ => None end.
Definition read_uint (max : Z) (x : Value) : option Z :=
  match x with
  | Num (PosInt z) => if (0 <=? z) && (z <=? max) then Some z else None
  | _ => None
  end.
Definition read_f64 (x : Value) : option f64 :=
  match x with
  | Num (Float y) => Some y
  | Num (PosInt z) | Num (NegInt z) => Some (F64.of_Z z)
  | _ => None
  end.
Definition read_option {A} (read : Value -> option A) (x : Value) : option (option A) :=
  match x with Null => Some None | x => Some <$> read x end.

(** A missing field: an error, [None] for an [Option], [""] for [language]
    ([serde(default)]). *)
Definition absent_or {A} (d : A) (read : Value -> option A) (o : option Value) : option A :=
  match o with Some x => read x | None => Some d end.

Definition lock_keys : list string :=
  ["format"; "pid"; "router_pid"; "port"; "created_at_unix"; "expires_at_unix"; "status"; "language"].

(** A known field may not occur twice; unknown ones are skipped. *)
Definition no_duplicate_field (l : list (string * Value)) : bool :=
  bool_decide (NoDup (filter (fun k => k ∈ lock_keys) l.*1)).

(** [derive(Deserialize)] of an object; of an array the fields by position. *)
Definition lock_of_value (x : Value) : option LockFileData :=
  match x with
  | Object l =>
      if no_duplicate_field l
      then
        f ← field "format" l ≫= read_string;
        p ← field "pid" l ≫= read_uint U32_MAX;
        r ← absent_or None (read_option (read_uint U32_MAX)) (field "router_pid" l);
        n ← field "port" l ≫= read_uint U16_MAX;
        c ← field "created_at_unix" l ≫= read_f64;
        e ← field "expires_at_unix" l ≫= read_f64;
        s ← field "status" l ≫= read_string;
        g ← absent_or "" read_string (field "language" l);
        Some (mkLockFileData f p r n c e s g)
      else None
  | Array (f :: p :: r :: n :: c :: e :: s :: rest) =>
      f ← read_string f;
      p ← read_uint U32_MAX p;
      r ← read_option (read_uint U32_MAX) r;
      n ← read_uint U16_MAX n;
      c ← read_f64 c;
      e ← read_f64 e;
      s ← read_string s;
      g ← match rest with [] => Some "" | [g] => read_string g | _ => None end;
      Some (mkLockFileData f p r n c e s g)
  | _ => None
  end.

(** * Text *)

(** [serde_json]'s writer and parser of JSON text. *)
Class JsonText := {
  json_text : Value -> string;
  json_parse : string -> result Value string;
}.

#[export] Instance lock_json {SJ : JsonText} : LockJson | 0 := {|
  lock_to_string d := json_text (lock_value d);
  lock_from_str s :=
    and_then (json_parse s) (fun x => ok_or (lock_of_value x) "invalid lock file") |}.

(** * What is read back *)

(** The ranges of the fields; a float that is not finite is written as
    [null]. *)
Definition lock_data_ok (d : LockFileData) : bool :=
  (0 <=? pid d) && (pid d <=? U32_MAX) && (0 <=? lock_port d) && (lock_port d <=? U16_MAX)
  && match router_pid d with Some p => (0 <=? p) && (p <=? U32_MAX) | None => true end
  && F64.is_finite (created_at_unix d) && F64.is_finite (expires_at_unix d).

Lemma read_uint_ok max z : 0 <= z <= max -> read_uint max (Num (PosInt z)) = Some z.
Proof. intros Hz. simpl. by rewrite !(proj2 (Z.leb_le _ _)) by lia. Qed.

(** The derived reader inverts the derived writer. *)
Lemma lock_of_lock_value d : lock_data_ok d = true -> lock_of_value (lock_value d) = Some d.
Proof.
  destruct d as [f p r n c e s g]. unfold lock_data_ok. simpl. rewrite !andb_true_iff.
  intros ((((((H1 & H2) & H3) & H4) & Hr) & Hc) & He).
  unfold lock_value, lock_fields, f64_value, lock_of_value. simpl. rewrite Hc, He.
  destruct r as [r|]; simpl; [apply andb_true_iff in Hr as [Hr1 Hr2]|];
    rewrite ?H1, ?H2, ?H3, ?H4, ?Hr1, ?Hr2; reflexivity.
Qed.

(** A JSON object that conforms to the lock file format of the documentation:
    the required fields with their types, no field twice, in any order and
    with any other fields. *)
Record conforming (l : list (string * Value)) (f s : string) (p n : Z) (c e : f64) : Prop := {
  cf_once : no_duplicate_field l = true;
  cf_format : field "format" l = Some (Str f);
  cf_pid : field "pid" l = Some (Num (PosInt p));
  cf_pid_range : 0 <= p <= U32_MAX;
  cf_port : field "port" l = Some (Num (PosInt n));
  cf_port_range : 0 <= n <= U16_MAX;
  cf_created : exists x, field "created_at_unix" l = Some x /\ read_f64 x = Some c;
  cf_expires : exists x, field "expires_at_unix" l = Some x /\ read_f64 x = Some e;
  cf_status : field "status" l = Some (Str s);
  cf_router : absent_or None (read_option (read_uint U32_MAX)) (field "router_pid" l) <> None;
  cf_language : absent_or "" read_string (field "language" l) <> None;
}.

(** Every conforming object is read, whatever binding wrote it. *)
Lemma conforming_lock_is_read l f s p n c e :
  conforming l f s p n c e ->
  exists d, lock_of_value (Object l) = Some d /\ format d = f /\ pid d = p /\ lock_port d = n /\
    created_at_unix d = c /\ expires_at_unix d = e /\ status d = s.
Proof.
  intros [H1 H2 H3 H4 H5 H6 (x & H7 & Hx) (y & H8 & Hy) H9 H10 H11]. simpl.
  rewrite H1, H2, H3, H5, H7, H8, H9. cbn [mbind option_bind read_string].
  rewrite read_uint_ok by done. cbn [mbind option_bind].
  destruct (absent_or None _ _) as [r|]; [|done]. cbn [mbind option_bind].
  rewrite read_uint_ok by done. cbn [mbind option_bind]. rewrite Hx, Hy. cbn [mbind option_bind].
  destruct (absent_or "" _ _) as [g|]; [|done]. cbn. eauto 10.
Qed.

Section own_lock.
Context {SJ : JsonText}.

(** The JSON text of this lock is read back. *)
Definition text_roundtrips (d : LockFileData) : Prop :=
  json_parse (json_text (lock_value d)) = Ok (lock_value d).

Lemma lock_from_to_str d :
  text_roundtrips d -> lock_data_ok d = true -> lock_from_str (lock_to_string d) = Ok d.
Proof.
  unfold text_roundtrips, lock_from_str, lock_to_string, lock_json. intros -> Hd. cbn [and_then].
  by rewrite lock_of_lock_value.
Qed.

(** The lock that a process takes is respected by another one that finds it
    before it expires, as long as the holder lives. *)
Lemma taken_lock_is_respected path port stale fuel deadline m d m' (other : Machine) :
  boot (acquire_loop (S fuel) path port stale deadline) m = (Some (Ok (Some d)), m') ->
  names m !! path = None ->
  text_roundtrips d -> lock_data_ok d = true ->
  names other = names m' -> inodes other = inodes m' ->
  pid_alive other (my_pid m) = true ->
  F64.ltb (expires_at_unix d) (as_secs_f64 (system other)) = false ->
  boot (evaluate_existing_lock path) other = (Wait, other).
Proof.
  intros Hrun Hnone Htext Hok Hn Hi Halive Hexp. rewrite boot_acquire_step, Hnone in Hrun.
  destruct (f_create _ _ _); [discriminate Hrun|].
  destruct (f_write_all _) as [[]|]; [discriminate Hrun|].
  rewrite boot_evaluate. unfold spec_verdict.
  injection Hrun as Hd Hm. subst m'. rewrite Hn, Hi. cbn [names inodes set_text create_file set_fs].
  rewrite Hd. rewrite !lookup_insert_eq. cbn [from_option and_then].
  change (json_text (lock_value d)) with (lock_to_string d).
  rewrite lock_from_to_str by done. unfold held. rewrite Hexp. subst d. cbn.
  by rewrite Halive.
Qed.
End own_lock.
