(* ===== verification/TestsBootstrap.v ===== *)
(** The unit tests of [rust/src/router_bootstrap.rs].

    The tests of the lock file run as programs on a machine: [dir] is
    [std::env::temp_dir()].  The tests of the environment get it as an
    argument and return it as they leave it.  A WebSocket server that a test
    starts is the router of the machine, listening on [port]. *)

From S2P Require Import Prelude Prog Float64 Wire ClientRef Config ClientMessage Bootstrap.
From S2P Require Import BootstrapSpec LockFile TestKit TestsProtocol TestsLogging.
From stdpp Require Import countable.

Local Open Scope string_scope.
Local Open Scope Z_scope.
Local Open Scope rust_scope.

#[export] Instance LockEvalResult_eq_dec : EqDecision LockEvalResult.
Proof. solve_decision. Defined.

(** An assertion in the middle of a program. *)
Definition check {A} (t : test unit) (k : bootM (test A)) : bootM (test A) :=
  match t with Some _ => k | None => Ret None end.

(** ** Configuration *)

Definition router_endpoint_formats_ws_url : test unit :=
  let endpoint := mkEndpoint "127.0.0.1" 9981 in
  assert_eq (ws_url endpoint) "ws://127.0.0.1:9981".

Definition set_var (k x : string) (env : Env) : Env :=
  mkEnv (fun k' => if (k' =? k)%string then Some x else env_var env k') (dirs_home_dir env).
Definition remove_var (k : string) (env : Env) : Env :=
  mkEnv (fun k' => if (k' =? k)%string then None else env_var env k') (dirs_home_dir env).

Local Open Scope test_scope.

Definition router_port_from_env_accepts_valid_override (env : Env) : test Env :=
  let original := env_var env ROUTER_PORT_ENV in
  let env := set_var ROUTER_PORT_ENV "12345" env in
  assert_eq (router_port_from_env env) 12345 ;;;
  Some (match original with
        | Some value => set_var ROUTER_PORT_ENV value env
        | None => remove_var ROUTER_PORT_ENV env
        end).

Definition router_port_from_env_falls_back_for_invalid_values (env : Env) : test Env :=
  let original := env_var env ROUTER_PORT_ENV in
  let env := set_var ROUTER_PORT_ENV "not-a-port" env in
  assert_eq (router_port_from_env env) DEFAULT_ROUTER_PORT ;;;
  Some (match original with
        | Some value => set_var ROUTER_PORT_ENV value env
        | None => remove_var ROUTER_PORT_ENV env
        end).

Local Close Scope test_scope.

(** ** Reachability *)

Definition router_is_reachable_returns_true_for_websocket_server (port : Z) : bootM (test unit) :=
  let endpoint := mkEndpoint "127.0.0.1" port in
  up ← router_is_reachable endpoint;
  Ret (assert up).

Definition is_router_unavailable (e : MultifrostError) : bool :=
  match e with RouterUnavailable _ => true | _ => false end.

Definition ensure_router_reports_unreachable_server (port : Z) : bootM (test unit) :=
  let endpoint := mkEndpoint "127.0.0.1" port in
  r ← ensure_router endpoint;
  Ret (mbind (M := option) (fun err => assert (is_router_unavailable err)) (unwrap_err r)).

(** ** Process liveness *)

Definition is_process_alive_returns_true_for_current_pid : bootM (test unit) :=
  id ← perform ProcessId;
  up ← is_process_alive id;
  Ret (assert up).

Definition is_process_alive_returns_false_for_zero : bootM (test unit) :=
  up ← is_process_alive 0;
  Ret (assert (negb up)).

Definition is_process_alive_returns_false_for_bogus_pid : bootM (test unit) :=
  up ← is_process_alive U32_MAX;
  Ret (assert (negb up)).

(** ** Evaluation of a lock *)

Section lock_tests.
Context {SJ : JsonText} (dir : string).

Definition evaluate_existing_lock_reclaims_on_missing_file : bootM (test unit) :=
  let path := path_join dir "__mf_test_nonexistent_lock.json" in
  _ ← perform (RemoveFile path);
  verdict ← evaluate_existing_lock path;
  Ret (assert_eq verdict Reclaim).

Definition evaluate_existing_lock_reclaims_on_invalid_json : bootM (test unit) :=
  let path := path_join dir "__mf_test_invalid_json.json" in
  _ ← perform (WritePath path "not json");
  verdict ← evaluate_existing_lock path;
  check (assert_eq verdict Reclaim)
    (_ ← perform (RemoveFile path); Ret (Some tt)).

(** The end that the remaining evaluation tests share: write the lock, look at
    the verdict, remove the file. *)
Definition lock_evaluates_to (path : string) (data : LockFileData) (expected : LockEvalResult) :
    bootM (test unit) :=
  let json := lock_to_string data in
  _ ← perform (WritePath path json);
  verdict ← evaluate_existing_lock path;
  check (assert_eq verdict expected)
    (_ ← perform (RemoveFile path); Ret (Some tt)).

(** [f64::MAX]. *)
Definition F64_MAX : f64 := SpecFloat.S754_finite false (2 ^ 53 - 1) 971.

Definition evaluate_existing_lock_reclaims_on_wrong_format : bootM (test unit) :=
  let path := path_join dir "__mf_test_wrong_format.json" in
  id ← perform ProcessId;
  let data := mkLockFileData "v0" id None 9981 F64.zero F64_MAX "starting" "rust" in
  lock_evaluates_to path data Reclaim.

Definition evaluate_existing_lock_reclaims_on_expired : bootM (test unit) :=
  let path := path_join dir "__mf_test_expired.json" in
  id ← perform ProcessId;
  let data := mkLockFileData "v1" id None 9981 (F64.of_Z 1000) (F64.of_Z 1001) "starting" "rust" in
  lock_evaluates_to path data Reclaim.

Definition evaluate_existing_lock_reclaims_on_dead_pid : bootM (test unit) :=
  let path := path_join dir "__mf_test_dead_pid.json" in
  t ← perform SystemNow;
  let now := as_secs_f64 t in
  let data := mkLockFileData "v1" U32_MAX None 9981 now (F64.add now (F64.of_Z 3600))
                "starting" "rust" in
  lock_evaluates_to path data Reclaim.

Definition evaluate_existing_lock_reclaims_on_failed_status : bootM (test unit) :=
  let path := path_join dir "__mf_test_failed_status.json" in
  t ← perform SystemNow;
  let now := as_secs_f64 t in
  id ← perform ProcessId;
  let data := mkLockFileData "v1" id None 9981 now (F64.add now (F64.of_Z 3600))
                "failed" "rust" in
  lock_evaluates_to path data Reclaim.

Definition evaluate_existing_lock_waits_on_valid_starting : bootM (test unit) :=
  let path := path_join dir "__mf_test_valid_starting.json" in
  t ← perform SystemNow;
  let now := as_secs_f64 t in
  id ← perform ProcessId;
  let data := mkLockFileData "v1" id None 9981 now (F64.add now (F64.of_Z 3600))
                "starting" "rust" in
  lock_evaluates_to path data Wait.

Definition evaluate_existing_lock_skip_spawn_when_router_alive : bootM (test unit) :=
  let path := path_join dir "__mf_test_skip_spawn.json" in
  t ← perform SystemNow;
  let now := as_secs_f64 t in
  id ← perform ProcessId;
  id' ← perform ProcessId;
  let data := mkLockFileData "v1" id (Some id') 9981 now (F64.add now (F64.of_Z 3600))
                "starting" "rust" in
  lock_evaluates_to path data SkipSpawn.

(** ** The text of a lock *)

Local Open Scope test_scope.

Definition sample_lock (now : f64) : LockFileData :=
  mkLockFileData "v1" 12345 None 9981 now (F64.add now (F64.of_Z 10)) "starting" "rust".

Definition serialized_lock_file_is_valid_json (now : f64) : test unit :=
  let data := sample_lock now in
  let json := lock_to_string data in
  let! parsed := unwrap (lock_from_str json) in
  assert_eq (format parsed) "v1" ;;;
  assert_eq (pid parsed) 12345 ;;;
  assert (is_none (router_pid parsed)) ;;;
  assert_eq (lock_port parsed) 9981 ;;;
  assert_eq (status parsed) "starting" ;;;
  assert_eq (language parsed) "rust".

Definition serialized_lock_file_omits_router_pid_when_none (now : f64) : test unit :=
  let data := sample_lock now in
  let json := lock_to_string data in
  assert (negb (contains json "router_pid")).

(** A string between double quotes. *)
Definition quoted (s : string) : string :=
  String (Ascii.ascii_of_nat 34) (s +:+ String (Ascii.ascii_of_nat 34) "").

(** The text as the replacements of the test leave it: no backslashes, no
    indentation, no line ends. *)
Definition lock_without_language : string :=
  "{" +:+ quoted "format" +:+ ": " +:+ quoted "v1" +:+ "," +:+ quoted "pid" +:+ ": 12345,"
  +:+ quoted "port" +:+ ": 9981," +:+ quoted "created_at_unix" +:+ ": 1000.0,"
  +:+ quoted "expires_at_unix" +:+ ": 2000.0," +:+ quoted "status" +:+ ": " +:+ quoted "starting"
  +:+ "}".

Definition serialized_lock_file_defaults_language_when_missing : test unit :=
  let json := lock_without_language in
  let! parsed := unwrap (lock_from_str json) in
  assert_eq (language parsed) "" ;;;
  assert (is_none (router_pid parsed)).

Local Close Scope test_scope.

(** The first [write] is unwrapped; at the end of the scope the lock is
    dropped. *)
Definition lock_round_trip_through_acquired_lock_update : bootM (test unit) :=
  let path := path_join dir "__mf_test_lock_roundtrip.json" in
  _ ← perform (RemoveFile path);
  t ← perform SystemNow;
  let now := as_secs_f64 t in
  id ← perform ProcessId;
  let data := mkLockFileData "v1" id None 9981 now (F64.add now (F64.of_Z 10))
                "starting" "rust" in
  let json := lock_to_string data in
  _ ← perform (WritePath path json);
  _ ← lock_update path (set_status "ready") data;
  content ← perform (ReadToString path);
  let parsed := mbind (M := option) (fun c => unwrap (lock_from_str c)) (unwrap content) in
  match parsed with
  | None => _ ← lock_drop path; Ret None
  | Some parsed =>
      match assert_eq (status parsed) "ready" with
      | None => _ ← lock_drop path; Ret None
      | Some _ =>
          _ ← perform (RemoveFile path);
          _ ← lock_drop path;
          Ret (Some tt)
      end
  end.
End lock_tests.

(** * The tests pass *)

(** A machine on which the test is process 9 and no other process lives. *)
Definition test_machine (router : option Z) : Machine :=
  mkMachine ∅ ∅ 0 1000 (from_secs 1700000000) 9 (fun p => p =? 9) router
    (Err "no router") [] [] no_faults.

Definition boot_passes (m : Machine) (p : bootM (test unit)) : bool := passes (boot p m).1.

(** A reversible text of JSON values, in the manner of [ClientRef]. *)
Definition test_json : JsonText := {|
  json_text x := from_bytes (RefCodec.pos_to_bytes (encode (value_to_tree x)));
  json_parse s := decode_or tree_to_value (as_bytes s) |}.

Lemma restored_env k y env k' :
  env_var (match env_var env k with
           | Some x => set_var k x (set_var k y env)
           | None => remove_var k (set_var k y env)
           end) k' = env_var env k'.
Proof. destruct (env_var env k) eqn:E; simpl; by destruct (String.eqb_spec k' k) as [->|]. Qed.

(** In every environment, which they leave as it was. *)
Lemma environment_tests_pass env :
  exists env1 env2,
    router_port_from_env_accepts_valid_override env = Some env1 /\
    router_port_from_env_falls_back_for_invalid_values env = Some env2 /\
    forall k, env_var env1 k = env_var env k /\ env_var env2 k = env_var env k.
Proof.
  unfold router_port_from_env_accepts_valid_override,
    router_port_from_env_falls_back_for_invalid_values, router_port_from_env.
  do 2 eexists. split; [reflexivity|]. split; [reflexivity|].
  intros k. split; apply restored_env.
Qed.

Lemma reachability_tests_pass port :
  boot_passes (test_machine (Some 1000)) (router_is_reachable_returns_true_for_websocket_server port)
  && boot_passes (test_machine None) (ensure_router_reports_unreachable_server port).
Proof. vm_compute. done. Qed.

Lemma lock_tests_pass (SJ := test_json) :
  passes router_endpoint_formats_ws_url &&
  forallb (boot_passes (test_machine None))
    [is_process_alive_returns_true_for_current_pid;
     is_process_alive_returns_false_for_zero;
     is_process_alive_returns_false_for_bogus_pid;
     evaluate_existing_lock_reclaims_on_missing_file "/tmp";
     evaluate_existing_lock_reclaims_on_invalid_json "/tmp";
     evaluate_existing_lock_reclaims_on_wrong_format "/tmp";
     evaluate_existing_lock_reclaims_on_expired "/tmp";
     evaluate_existing_lock_reclaims_on_dead_pid "/tmp";
     evaluate_existing_lock_reclaims_on_failed_status "/tmp";
     evaluate_existing_lock_waits_on_valid_starting "/tmp";
     evaluate_existing_lock_skip_spawn_when_router_alive "/tmp";
     lock_round_trip_through_acquired_lock_update "/tmp"].
Proof. vm_compute. done. Qed.

(** A parser that reads that text as the object it denotes gives a lock
    without a language and without a router. *)
Lemma language_test_passes {SJ : JsonText} :
  json_parse lock_without_language =
    Ok (Object [("format", Str "v1"); ("pid", Num (PosInt 12345)); ("port", Num (PosInt 9981));
                ("created_at_unix", Num (Float (F64.of_Z 1000)));
                ("expires_at_unix", Num (Float (F64.of_Z 2000))); ("status", Str "starting")]) ->
  passes serialized_lock_file_defaults_language_when_missing.
Proof.
  unfold serialized_lock_file_defaults_language_when_missing, lock_from_str, lock_json.
  intros ->. vm_compute. done.
Qed.

(** The other two tests of the text, at any finite time. *)
Lemma lock_text_test_passes {SJ : JsonText} now :
  text_roundtrips (sample_lock now) -> F64.is_finite now = true ->
  F64.is_finite (F64.add now (F64.of_Z 10)) = true ->
  passes (serialized_lock_file_is_valid_json now).
Proof.
  intros Htext H1 H2. unfold serialized_lock_file_is_valid_json.
  rewrite lock_from_to_str; [done|done|].
  unfold lock_data_ok, sample_lock.
  cbn [pid lock_port router_pid created_at_unix expires_at_unix]. by rewrite H1, H2.
Qed.

Lemma omitted_router_pid_test_passes :
  let SJ := {| json_text := write_json; json_parse := fun _ => Err "not read" |} in
  passes (serialized_lock_file_omits_router_pid_when_none (SJ := SJ)
            (as_secs_f64 (from_secs 1700000000))).
Proof. vm_compute. done. Qed.
