(* ===== verification/TestsService.v ===== *)
(** The unit tests of [rust/src/child.rs], [rust/src/process.rs] and
    [rust/src/parent.rs], except the one that builds and runs the router and
    an example as processes of their own.

    [h] and [env] are the file system and the environment of the test. *)

From S2P Require Import Prelude Text Prog Float64 Wire RefCodec Config ClientMessage.
From S2P Require Import CallerTransport CallerSafety Service ServiceSpec ClientRef.
From S2P Require Import ClientScenarios Launch Connection MathWorker MathSpec TestKit TestsProtocol.

Local Open Scope string_scope.
Local Open Scope Z_scope.
Local Open Scope test_scope.

Definition is_some {A} (o : option A) : bool := match o with Some _ => true | None => false end.

(** * [child.rs]: the workers *)

(** [args.get(i).and_then(as_i64).ok_or_else(..)?]; [None] is the panic of an
    addition that overflows, checked in the test profile. *)
Definition AddWorker {SJ : SerdeJson} : ServiceWorker unit :=
  mkServiceWorker
    (fun _ function args =>
       let answer : option (MResult Value) :=
         if (function =? "add")%string
         then match args !! 0%nat ≫= as_i64 with
              | None => Some (Err (InvalidMessage "missing a"))
              | Some a =>
                  match args !! 1%nat ≫= as_i64 with
                  | None => Some (Err (InvalidMessage "missing b"))
                  | Some b => (fun z => Ok (json_i64 z)) <$> i64_arith true (a + b)
                  end
              end
         else Some (Err (FunctionNotFound function)) in
       (fun r => (r, tt)) <$> answer)
    default_list_functions.

Definition EchoWorker : ServiceWorker unit :=
  mkServiceWorker
    (fun _ function args =>
       Some (if (function =? "echo")%string then Ok (default Null (head args))
             else Err (FunctionNotFound function), tt))
    default_list_functions.

(** * [child.rs]: identity and configuration *)

Definition resolves_default_peer_id_from_current_exe (h : Host) (env : Env) : test unit :=
  let ctx := ServiceContext_new env in
  let! peer_id := unwrap (resolve_peer_id h env ctx) in
  assert (negb (peer_id =? "")%string).

Definition explicit_service_id_wins_over_other_sources (h : Host) (env : Env) : test unit :=
  let ctx := with_service_id "explicit-service" (ServiceContext_new env) in
  let! peer_id := unwrap (resolve_peer_id h env ctx) in
  assert_eq peer_id "explicit-service".

(** [dir] is the temporary directory, where the test writes the file. *)
Definition entrypoint_path_is_used_when_service_id_is_missing (h : Host) (env : Env)
    (dir : string) : test unit :=
  let entrypoint := path_join dir "service.rs" in
  let ctx := with_entrypoint_path entrypoint (ServiceContext_new env) in
  let! peer_id := unwrap (resolve_peer_id h env ctx) in
  let! canonical := unwrap (canonicalize h entrypoint) in
  assert_eq peer_id canonical.

(** [functions.sort()] is [merge_sort]. *)
Definition namespace_timeout_and_registered_functions_are_recorded (env : Env) : test unit :=
  let ctx :=
    register_function "mul" "Multiply two numbers"
      (register_function "add" "Add two numbers"
        (with_timeout (from_secs 5) (with_namespace "custom" (ServiceContext_new env)))) in
  assert_eq (ctx_namespace ctx) "custom" ;;;
  assert_eq (ctx_request_timeout ctx) (Some (from_secs 5)) ;;;
  let functions := merge_sort String.le (list_functions ctx) in
  assert_eq functions ["add"; "mul"].

(** * [child.rs]: a service over a mock router *)

Section mock.
Context {CC : ClientCodec} {SJ : SerdeJson}.

(** The task of [start_service_router], up to its next read: it checks the
    registration and sends the acknowledgement and a call.  [fresh] and [now]
    are those of its call envelope. *)
Definition start_service_router (register : bytes) (fresh : string) (now : f64) : test (list bytes) :=
  let! register_frame := unwrap (decode_frame register) in
  assert_eq (kind (envelope register_frame)) KIND_REGISTER ;;;
  let! register_body := unwrap (decode_register_body (body_bytes register_frame)) in
  assert_eq (reg_class register_body) Wire.Service ;;;
  let ack := mkRegisterAckBody true None in
  let ack_envelope := mkEnvelope 5 KIND_RESPONSE (msg_id (envelope register_frame)) ROUTER_PEER_ID
                        (reg_peer_id register_body) F64.zero in
  let! ack_bytes := unwrap (encode_register_ack_body ack) in
  let! ack_frame := unwrap (encode_frame ack_envelope ack_bytes) in
  let call_envelope := build_call_envelope ROUTER_PEER_ID (reg_peer_id register_body) fresh now in
  let call_body := mkCallBody "add" [Num (PosInt 2); Num (PosInt 3)] (Some "default") in
  let! call_bytes := unwrap (encode_call_body call_body) in
  let! call_frame := unwrap (encode_frame call_envelope call_bytes) in
  Some [ack_frame; call_frame].

(** The rest of the task: it checks the response and closes. *)
Definition service_router_checks (response : bytes) : test unit :=
  let! response_frame := unwrap (decode_frame response) in
  assert_eq (kind (envelope response_frame)) KIND_RESPONSE ;;;
  let! body := unwrap (decode_response_body (body_bytes response_frame)) in
  assert_eq (resp_result body) (Num (PosInt 5)).

Definition mock_context (port : Z) (dir : string) : ServiceContext :=
  mkServiceContext "default" (Some "service-1") None
    (mkBootstrapConfig (mkEndpoint "127.0.0.1" port)
       (path_join dir "multifrost-test.lock") (path_join dir "multifrost-test.log")
       (from_secs 1) (from_millis 50))
    (Some (from_secs 2)) ∅.

Definition service_task (worker : ServiceWorker unit) (h : Host) (env : Env)
    (ctx : ServiceContext) (source : list WsItem) (w : CWorld) :
    option (MResult unit * (CWorld * unit)) :=
  brun (partial_service_op (worker_handle_call worker))
    (run_service_async h env ctx (Ok tt) (Ok tt) source) (w, tt).

(** The frames the service writes when the router sends [source]. *)
Definition written (o : option (MResult unit * (CWorld * unit))) : list bytes :=
  match o with Some (_, (w, _)) => omap payload (wire w) | None => [] end.

(** The service registers before it reads, so its registration is what it
    writes to a silent router; the mock router answers that.  The test waits
    for the service only: a failed assertion of the router's task ends the
    stream and nothing else, so it is returned beside the test. *)
Definition over_mock_router (worker : ServiceWorker unit) (h : Host) (env : Env) (port : Z)
    (dir fresh : string) (now : f64) (w : CWorld) : test unit * test unit :=
  let ctx := mock_context port dir in
  let sent := head (written (service_task worker h env ctx [] w)) ≫=
                fun register => start_service_router register fresh now in
  let source := (map (fun b => Ok (Binary b)) (default [] sent) ++ [Ok Close])%list in
  let worker_task := service_task worker h env ctx source w in
  (match worker_task with Some (r, _) => unwrap r | None => None end,
   written worker_task !! 1%nat ≫= service_router_checks).

Definition run_service_async_handles_calls_over_mock_router :
    Host -> Env -> Z -> string -> string -> f64 -> CWorld -> test unit * test unit :=
  over_mock_router AddWorker.
End mock.

(** * [process.rs] *)

Definition process_default_timeout_is_present : test unit :=
  let options := SpawnOptions_default in
  assert (is_some (so_request_timeout options)).

(** The child [p] ends with status 0. *)
Definition finish (p : Z) (s : Procs) : Procs :=
  mkProcs (running s ∖ {[p]}) (<[p := 0]> (exit_status s)) (launched s) (signals s) (spawn_answer s).

(** [script] is the shell script of the test, which prints two variables of
    its environment to the file that the test reads. *)
Definition script_output (c : Command) : string :=
  default "" (env_var (cmd_env c) "MULTIFROST_ENTRYPOINT_PATH") +:+ "|"
  +:+ default "" (env_var (cmd_env c) "MULTIFROST_ROUTER_PORT").

Definition spawn_with_options_exports_entrypoint_and_router_port (h : Host) (env : Env)
    (dir script : string) (s : Procs) : test unit :=
  let entrypoint := path_join dir "worker.rs" in
  let '(spawned, s) := spawn_with_options h env entrypoint script
                         (mkSpawnOptions None None (Some 4242)) s in
  let! service_process := unwrap spawned in
  let! (p, command) := head (launched s) in
  let s := finish p s in
  let! waited := wait service_process s in
  let! status := unwrap waited in
  assert (status =? 0) ;;;
  assert_eq (program command, cmd_args command) ("sh", ["-c"; script]) ;;;
  let contents := script_output command in
  let! expected_entrypoint := unwrap (canonicalize h entrypoint) in
  assert_eq contents (expected_entrypoint +:+ "|4242").

(** * [parent.rs] *)

Definition parent_default_timeout_is_present : test unit :=
  let options := SpawnOptions_default in
  assert (is_some (so_request_timeout options)).

Definition builder_connect_uses_target_peer_id : test unit :=
  let builder := builder_connect "math-service" in
  assert_eq (target_peer_id builder) "math-service".

Definition connect_options_default_to_timeout : test unit :=
  let options := ConnectOptions_default in
  assert (is_some (co_request_timeout options)) ;;;
  assert (negb (is_some (co_router_port options))).

(** * The tests pass *)

Definition test_host : Host := mkHost (fun p => Ok ("/private" +:+ p)) (Ok "/bin/test").

Lemma service_context_tests_pass :
  suite_passes
    [resolves_default_peer_id_from_current_exe test_host sample_env;
     explicit_service_id_wins_over_other_sources test_host sample_env;
     entrypoint_path_is_used_when_service_id_is_missing test_host sample_env "/tmp";
     namespace_timeout_and_registered_functions_are_recorded sample_env;
     process_default_timeout_is_present; parent_default_timeout_is_present;
     builder_connect_uses_target_peer_id; connect_options_default_to_timeout].
Proof. vm_compute. done. Qed.

(** The service answers the mock router's call, and the router's own
    assertions hold too. *)
Lemma mock_router_test_passes :
  run_service_async_handles_calls_over_mock_router test_host sample_env 4242 "/tmp" "call-1"
    F64.zero (connected_world sample_ids) = (Some tt, Some tt).
Proof. vm_compute. done. Qed.

(** The assertions of the router's task do not count: the test passes just as
    well with a worker that answers the call with an error. *)
Lemma mock_router_test_ignores_the_answer :
  over_mock_router EchoWorker test_host sample_env 4242 "/tmp" "call-1"
    F64.zero (connected_world sample_ids) = (Some tt, None).
Proof. vm_compute. done. Qed.

(** The spawn test, for every script of several words, on every system that
    starts it: the child sees the canonical entry point and the port. *)
Lemma spawn_test_passes h env dir script s p entrypoint :
  canonicalize h (path_join dir "worker.rs") = Ok entrypoint ->
  (1 < count_words (as_bytes script))%nat -> (forall c, spawn_answer s c = Ok p) ->
  passes (spawn_with_options_exports_entrypoint_and_router_port h env dir script s).
Proof.
  intros Hcanon Hwords Hp.
  unfold spawn_with_options_exports_entrypoint_and_router_port, spawn_with_options,
    spawn_service_process, spawn_command, os_spawn.
  rewrite (proj2 (Nat.ltb_lt _ _) Hwords), Hp. unfold wait, finish, script_output. simpl.
  rewrite bool_decide_false by set_solver. simpl. rewrite lookup_insert_eq. simpl.
  unfold canonical_peer_path. rewrite Hcanon. simpl.
  unfold assert_eq. rewrite !bool_decide_true; [done|done|done].
Qed.
